(** * The GDAL proxy dataset pool (gcore/gdalproxypool.cpp)

    A shallow embedding of [GDALDatasetPool] (the LRU cache of opened
    datasets, an intrusive doubly linked list of heap allocated entries) and
    of the parts of [GDALProxyPoolDataset] that sit on top of it, followed by
    the properties of the specification established against that embedding.

    Conventions.
    - A pointer to a cache entry is an address into [heap]; [NULL] is [None].
      Every C statement re-reads the memory it mentions, so a field access is
      a [load] and a field assignment an in-place [alter] of the heap cell.
    - [int] values are mathematical integers; the increments and decrements
      of the source fault on signed overflow, which is undefined in C++.
    - The code runs in a small state-and-fault monad [M].  A fault is
      undefined behaviour of the C++ (a null or dangling pointer, a signed
      overflow, an [atoi] out of range).  Loops over the linked list take
      fuel; running out of it is [OutOfFuel].
    - [CPLAssert] is compiled out of release builds: a violated assertion is
      recorded in the trace ([EvCPLAssert]) and execution continues as the
      release build does.  A debug build aborts at the first such event.
    - The dataset driver ([GDALOpenEx], [GDALClose], ...) is outside this
      file of the sources: it is a record of callbacks over the whole state,
      so that it may call back into the pool as a cascaded proxy does. *)

From Stdlib Require Import ZArith String List Lia Bool Ascii.
From stdpp Require Import base option list strings gmap fin_maps.

Local Open Scope Z_scope.

(** ** Data model *)

(** [GDALProxyPoolCacheEntry*] and [GDALDataset*]. *)
Definition addr := nat.
Definition GDALDatasetH := nat.

Inductive GDALAccess := GA_ReadOnly | GA_Update.

(** Modelled from the spec: the open flags of gdal.h, which is not among the
    sources; the specification lists them as
    [flags{readonly|update, raster, verboseErrors}].  [nFlag] is the set of
    flags or-ed together, kept as a list. *)
Inductive GDALOpenFlag :=
  GDAL_OF_READONLY | GDAL_OF_UPDATE | GDAL_OF_RASTER | GDAL_OF_VERBOSE_ERROR.

Inductive CPLErr := CE_None | CE_Debug | CE_Warning | CE_Failure | CE_Fatal.
Inductive CPLErrorNum := CPLE_AppDefined.

Definition INT_MAX : Z := 2147483647.
Definition INT_MIN : Z := -2147483648.

Module CacheEntry.
(** [struct _GDALProxyPoolCacheEntry]. *)
Record t := Build {
  responsiblePID : Z;
  pszFileName : string;
  poDS : option GDALDatasetH;
  refCount : Z;
  prev : option addr;
  next : option addr
}.

Definition set_responsiblePID (v : Z) (e : t) : t :=
  Build v (pszFileName e) (poDS e) (refCount e) (prev e) (next e).
Definition set_pszFileName (v : string) (e : t) : t :=
  Build (responsiblePID e) v (poDS e) (refCount e) (prev e) (next e).
Definition set_poDS (v : option GDALDatasetH) (e : t) : t :=
  Build (responsiblePID e) (pszFileName e) v (refCount e) (prev e) (next e).
Definition set_refCount (v : Z) (e : t) : t :=
  Build (responsiblePID e) (pszFileName e) (poDS e) v (prev e) (next e).
Definition set_prev (v : option addr) (e : t) : t :=
  Build (responsiblePID e) (pszFileName e) (poDS e) (refCount e) v (next e).
Definition set_next (v : option addr) (e : t) : t :=
  Build (responsiblePID e) (pszFileName e) (poDS e) (refCount e) (prev e) v.

(** What an entry caches, without its list links. *)
Definition content (e : t) : Z * string * option GDALDatasetH * Z :=
  (responsiblePID e, pszFileName e, poDS e, refCount e).
End CacheEntry.

(** [class GDALDatasetPool]: the private members. *)
Record GDALDatasetPool := BuildPool {
  refCount : Z;
  maxSize : Z;
  currentSize : Z;
  firstEntry : option addr;
  lastEntry : option addr;
  refCountOfDisableRefCount : Z
}.

Definition set_refCount (v : Z) (p : GDALDatasetPool) : GDALDatasetPool :=
  BuildPool v (maxSize p) (currentSize p) (firstEntry p) (lastEntry p)
            (refCountOfDisableRefCount p).
Definition set_currentSize (v : Z) (p : GDALDatasetPool) : GDALDatasetPool :=
  BuildPool (refCount p) (maxSize p) v (firstEntry p) (lastEntry p)
            (refCountOfDisableRefCount p).
Definition set_firstEntry (v : option addr) (p : GDALDatasetPool) : GDALDatasetPool :=
  BuildPool (refCount p) (maxSize p) (currentSize p) v (lastEntry p)
            (refCountOfDisableRefCount p).
Definition set_lastEntry (v : option addr) (p : GDALDatasetPool) : GDALDatasetPool :=
  BuildPool (refCount p) (maxSize p) (currentSize p) (firstEntry p) v
            (refCountOfDisableRefCount p).
Definition set_refCountOfDisableRefCount (v : Z) (p : GDALDatasetPool) : GDALDatasetPool :=
  BuildPool (refCount p) (maxSize p) (currentSize p) (firstEntry p) (lastEntry p) v.

(** What the code does to the outside world, in order. *)
Inductive Event :=
| EvGDALOpenEx (rid : Z) (pszFileName : string) (nFlag : list GDALOpenFlag)
               (papszOpenOptions : option (list string))
               (result : option GDALDatasetH)
| EvGDALClose (rid : Z) (hDS : GDALDatasetH)
| EvCPLError (eErrClass : CPLErr) (err_no : CPLErrorNum) (fmt : string)
             (args : list Z)
| EvCPLAssert (expr : string).

(** The process: the [singleton] pointer with the pool object it points to,
    the entries allocated with [CPLMalloc], the responsible-PID slot of the
    running thread, the configuration options and the trace of events. *)
Record State := BuildState {
  singleton : option GDALDatasetPool;
  heap : gmap addr CacheEntry.t;
  tlsResponsiblePID : Z;
  configOptions : gmap string string;
  trace : list Event
}.

Definition with_singleton (v : option GDALDatasetPool) (st : State) : State :=
  BuildState v (heap st) (tlsResponsiblePID st) (configOptions st) (trace st).
Definition with_heap (v : gmap addr CacheEntry.t) (st : State) : State :=
  BuildState (singleton st) v (tlsResponsiblePID st) (configOptions st) (trace st).
Definition with_tlsResponsiblePID (v : Z) (st : State) : State :=
  BuildState (singleton st) (heap st) v (configOptions st) (trace st).
Definition with_trace (v : list Event) (st : State) : State :=
  BuildState (singleton st) (heap st) (tlsResponsiblePID st) (configOptions st) v.

(** ** The monad *)

Inductive Fault :=
| NullPointerDereference
| InvalidPointer
| SignedOverflow
| AtoiOutOfRange.

Inductive Res (A : Type) :=
| Ok (a : A)
| Crash (f : Fault)
| OutOfFuel.
Arguments Ok {A} a.
Arguments Crash {A} f.
Arguments OutOfFuel {A}.

Definition M (A : Type) : Type := State -> Res (A * State).

Definition ret {A} (a : A) : M A := fun st => Ok (a, st).
Definition bind {A B} (m : M A) (k : A -> M B) : M B :=
  fun st => match m st with
            | Ok (a, st') => k a st'
            | Crash f => Crash f
            | OutOfFuel => OutOfFuel
            end.
Definition crash {A} (f : Fault) : M A := fun _ => Crash f.
Definition outOfFuel {A} : M A := fun _ => OutOfFuel.

Declare Scope pool_scope.
Delimit Scope pool_scope with pool.
Notation "x <- m ;; k" := (bind m (fun x => k))
  (at level 100, m at next level, right associativity) : pool_scope.
Notation "m ;; k" := (bind m (fun _ => k))
  (at level 100, right associativity) : pool_scope.
Local Open Scope pool_scope.

Definition get : M State := fun st => Ok (st, st).
Definition modify (f : State -> State) : M unit := fun st => Ok (tt, f st).
Definition emit (ev : Event) : M unit :=
  modify (fun st => with_trace (trace st ++ [ev]) st).

(** [a->...] for a possibly null pointer [a]. *)
Definition deref (a : option addr) : M addr :=
  match a with Some x => ret x | None => crash NullPointerDereference end.

Definition load (a : addr) : M CacheEntry.t :=
  fun st => match heap st !! a with
            | Some e => Ok (e, st)
            | None => Crash InvalidPointer
            end.

(** [a->field = v], as an in-place update of the cell at [a]. *)
Definition store (a : addr) (f : CacheEntry.t -> CacheEntry.t) : M unit :=
  fun st => match heap st !! a with
            | Some _ => Ok (tt, with_heap (alter f a (heap st)) st)
            | None => Crash InvalidPointer
            end.

(** [this->...]: the pool object, reached through [singleton]. *)
Definition this : M GDALDatasetPool :=
  fun st => match singleton st with
            | Some p => Ok (p, st)
            | None => Crash NullPointerDereference
            end.

Definition this_set (f : GDALDatasetPool -> GDALDatasetPool) : M unit :=
  fun st => match singleton st with
            | Some p => Ok (tt, with_singleton (Some (f p)) st)
            | None => Crash NullPointerDereference
            end.

(** [x + 1] and [x - 1] on [int]. *)
Definition int_succ (x : Z) : M Z :=
  if x <? INT_MAX then ret (x + 1) else crash SignedOverflow.
Definition int_pred (x : Z) : M Z :=
  if INT_MIN <? x then ret (x - 1) else crash SignedOverflow.

(** [CPLAssert(cond)]. *)
Definition CPLAssert (cond : bool) (expr : string) : M unit :=
  if cond then ret tt else emit (EvCPLAssert expr).

Definition CPLError (eErrClass : CPLErr) (err_no : CPLErrorNum) (fmt : string)
    (args : list Z) : M unit :=
  emit (EvCPLError eErrClass err_no fmt args).

(** Modelled from the spec: [GDALGetResponsiblePIDForCurrentThread] and
    [GDALSetResponsiblePIDForCurrentThread] of gdaldataset.cpp, which is not
    among the sources: "Each thread has a mutable RID slot (get/set pair)".
    The state holds the slot of the thread that is running. *)
Definition GDALGetResponsiblePIDForCurrentThread : M Z :=
  fun st => Ok (tlsResponsiblePID st, st).
Definition GDALSetResponsiblePIDForCurrentThread (rid : Z) : M unit :=
  modify (with_tlsResponsiblePID rid).

(** Modelled from the spec: [CPLGetConfigOption] of cpl_conv.cpp, which is
    not among the sources: the configured value of the option, or the
    default when it is unset. *)
Definition CPLGetConfigOption (key def : string) : M string :=
  fun st => Ok (default def (configOptions st !! key), st).

(** The C library's [atoi]: leading white space, an optional sign, then the
    longest run of decimal digits.  The C standard leaves the result
    undefined when the value is not representable as an [int]. *)
Definition isspace (c : ascii) : bool :=
  let n := N_of_ascii c in ((9 <=? n) && (n <=? 13) || (n =? 32))%N.
Definition digit_of (c : ascii) : option Z :=
  let n := Z.of_N (N_of_ascii c) in
  if (48 <=? n) && (n <=? 57) then Some (n - 48) else None.

Fixpoint atoi_digits (acc : Z) (s : string) : Z :=
  match s with
  | String c s' =>
      match digit_of c with
      | Some d => atoi_digits (10 * acc + d) s'
      | None => acc
      end
  | EmptyString => acc
  end.

Fixpoint atoi_skip (s : string) : string :=
  match s with
  | String c s' => if isspace c then atoi_skip s' else s
  | EmptyString => s
  end.

Definition atoi_value (s : string) : Z :=
  match atoi_skip s with
  | String "-"%char s' => - atoi_digits 0 s'
  | String "+"%char s' => atoi_digits 0 s'
  | s' => atoi_digits 0 s'
  end.

Definition atoi (s : string) : M Z :=
  let v := atoi_value s in
  if (INT_MIN <=? v) && (v <=? INT_MAX) then ret v else crash AtoiOutOfRange.

(** ** The dataset driver *)

Record Driver := BuildDriver {
  GDALOpenEx : string -> list GDALOpenFlag -> option (list string) ->
               M (option GDALDatasetH);
  GDALClose : GDALDatasetH -> M unit;
  (** [poDS->GetProjectionRef()] and [poDS->GetGeoTransform(padf)] of the
      underlying dataset. *)
  DSGetProjectionRef : GDALDatasetH -> M (option string);
  DSGetGeoTransform : GDALDatasetH -> M (CPLErr * list Z)
}.

(** ** GDALDatasetPool *)

(** [GDALNullifyProxyPoolSingleton]. *)
Definition GDALNullifyProxyPoolSingleton : M unit :=
  modify (with_singleton None).

(** [GDALDatasetPool::GDALDatasetPool(int maxSizeIn)]. *)
Definition newGDALDatasetPool (maxSizeIn : Z) : GDALDatasetPool :=
  {| maxSize := maxSizeIn; currentSize := 0; firstEntry := None;
     lastEntry := None; refCount := 0; refCountOfDisableRefCount := 0 |}.

(** The header of the loop of [_RefDataset]: does [cur] answer the request? *)
Definition ref_matches (pszFileName : string) (bShared : Z)
    (responsiblePID : Z) (e : CacheEntry.t) : bool :=
  String.eqb (CacheEntry.pszFileName e) pszFileName &&
  ((negb (bShared =? 0) && (CacheEntry.responsiblePID e =? responsiblePID)) ||
   ((bShared =? 0) && (CacheEntry.refCount e =? 0))).

(** The test of the loop of [_CloseDataset]. *)
Definition close_matches (pszFileName : string) (e : CacheEntry.t) : bool :=
  String.eqb (CacheEntry.pszFileName e) pszFileName &&
  (CacheEntry.refCount e =? 0) &&
  bool_decide (CacheEntry.poDS e <> None).

Inductive ScanResult :=
| Found (cur : addr)
| NotFound (lastEntryWithZeroRefCount : option addr).

(** The [while(cur)] loop of [_RefDataset] up to the point where an entry
    matches; what the loop body does with a match follows in [_RefDataset]. *)
Fixpoint RefDataset_scan (fuel : nat) (pszFileName : string) (bShared : Z)
    (responsiblePID : Z) (cur : option addr)
    (lastEntryWithZeroRefCount : option addr) : M ScanResult :=
  match cur with
  | None => ret (NotFound lastEntryWithZeroRefCount)
  | Some c =>
      match fuel with
      | O => outOfFuel
      | S fuel' =>
          e <- load c ;;
          let next := CacheEntry.next e in
          if ref_matches pszFileName bShared responsiblePID e
          then ret (Found c)
          else
            RefDataset_scan fuel' pszFileName bShared responsiblePID next
              (if CacheEntry.refCount e =? 0 then Some c
               else lastEntryWithZeroRefCount)
      end
  end.

(** The loop of [_CloseDataset] up to the matching entry. *)
Fixpoint CloseDataset_scan (fuel : nat) (pszFileName : string)
    (cur : option addr) : M (option addr) :=
  match cur with
  | None => ret None
  | Some c =>
      match fuel with
      | O => outOfFuel
      | S fuel' =>
          e <- load c ;;
          let next := CacheEntry.next e in
          if close_matches pszFileName e then ret (Some c)
          else CloseDataset_scan fuel' pszFileName next
      end
  end.

(** A list of [n] distinct cells is left after at most [n] steps, so a walk
    that is still inside the list after [size heap] steps is on a cycle. *)
Definition scan_fuel (st : State) : nat := S (size (heap st)).

(** [CPLMalloc(sizeof(GDALProxyPoolCacheEntry))]: a cell at an address that
    is not in use. *)
Definition CPLMalloc_entry : M addr :=
  fun st =>
    let a := fresh (dom (heap st)) in
    Ok (a, with_heap (<[a := CacheEntry.Build 0 EmptyString None 0 None None]>
                        (heap st)) st).

Definition CPLFree_entry (a : addr) : M unit :=
  fun st => match heap st !! a with
            | Some _ => Ok (tt, with_heap (delete a (heap st)) st)
            | None => Crash InvalidPointer
            end.

Definition nFlag_of (eAccess : GDALAccess) : list GDALOpenFlag :=
  [match eAccess with GA_Update => GDAL_OF_UPDATE | GA_ReadOnly => GDAL_OF_READONLY end;
   GDAL_OF_RASTER; GDAL_OF_VERBOSE_ERROR].

Definition newline : string := String (ascii_of_nat 10) EmptyString.

(** The format of the message of [_RefDataset] when the pool is exhausted. *)
Definition pool_size_message : string :=
  String.append
    "Too many threads are running for the current value of the dataset pool size (%d)."
    (String.append newline
       (String.append
          "or too many proxy datasets are opened in a cascaded way."
          (String.append newline
             "Try increasing GDAL_MAX_DATASET_POOL_SIZE."))).

Section Pool.

Variable drv : Driver.

(** [refCountOfDisableRefCount ++] and [--]. *)
Definition disableRefCount_incr : M unit :=
  p <- this ;;
  v <- int_succ (refCountOfDisableRefCount p) ;;
  this_set (set_refCountOfDisableRefCount v).

Definition disableRefCount_decr : M unit :=
  p <- this ;;
  v <- int_pred (refCountOfDisableRefCount p) ;;
  this_set (set_refCountOfDisableRefCount v).

(** The "Move to begin" block of [_RefDataset], for [cur != firstEntry]:
    the statements that take [cur] out of the chain, then those that put it
    in front. *)
Definition move_to_begin_unlink (cur : addr) : M unit :=
  e <- load cur ;;
  (match CacheEntry.next e with
   | Some n => store n (CacheEntry.set_prev (CacheEntry.prev e))
   | None => this_set (set_lastEntry (CacheEntry.prev e))
   end) ;;
  e <- load cur ;;
  p <- deref (CacheEntry.prev e) ;;
  store p (CacheEntry.set_next (CacheEntry.next e)).

Definition move_to_begin_relink (cur : addr) : M unit :=
  store cur (CacheEntry.set_prev None) ;;
  pool <- this ;;
  f <- deref (firstEntry pool) ;;
  store f (CacheEntry.set_prev (Some cur)) ;;
  pool <- this ;;
  store cur (CacheEntry.set_next (firstEntry pool)) ;;
  this_set (set_firstEntry (Some cur)).

Definition move_to_begin (cur : addr) : M unit :=
  move_to_begin_unlink cur ;;
  move_to_begin_relink cur.

(** The eviction block of [_RefDataset], in three parts: the dataset of the
    victim is closed under the identity that opened it; the cell is taken
    out of the chain; the cell is put in front. *)
Definition recycle_close (responsiblePID : Z) (victim : addr) : M unit :=
  (* lastEntryWithZeroRefCount->pszFileName[0] = 0 *)
  store victim (CacheEntry.set_pszFileName EmptyString) ;;
  e <- load victim ;;
  match CacheEntry.poDS e with
  | Some hDS =>
      GDALSetResponsiblePIDForCurrentThread (CacheEntry.responsiblePID e) ;;
      disableRefCount_incr ;;
      GDALClose drv hDS ;;
      disableRefCount_decr ;;
      store victim (CacheEntry.set_poDS None) ;;
      GDALSetResponsiblePIDForCurrentThread responsiblePID
  | None => ret tt
  end.
  (* CPLFree(lastEntryWithZeroRefCount->pszFileName) *)

Definition recycle_unlink (victim : addr) : M unit :=
  e <- load victim ;;
  (match CacheEntry.prev e with
   | Some p => store p (CacheEntry.set_next (CacheEntry.next e))
   | None => CPLAssert false "0"
   end) ;;
  e <- load victim ;;
  match CacheEntry.next e with
  | Some n => store n (CacheEntry.set_prev (CacheEntry.prev e))
  | None =>
      pool <- this ;;
      CPLAssert (bool_decide (Some victim = lastEntry pool))
                "lastEntryWithZeroRefCount == lastEntry" ;;
      l <- deref (lastEntry pool) ;;
      el <- load l ;;
      lp <- deref (CacheEntry.prev el) ;;
      store lp (CacheEntry.set_next None) ;;
      pool <- this ;;
      l <- deref (lastEntry pool) ;;
      el <- load l ;;
      this_set (set_lastEntry (CacheEntry.prev el))
  end.

Definition recycle_relink (victim : addr) : M unit :=
  store victim (CacheEntry.set_prev None) ;;
  pool <- this ;;
  store victim (CacheEntry.set_next (firstEntry pool)) ;;
  pool <- this ;;
  f <- deref (firstEntry pool) ;;
  store f (CacheEntry.set_prev (Some victim)) ;;
  this_set (set_firstEntry (Some victim)).

Definition recycle (responsiblePID : Z) (victim : addr) : M unit :=
  recycle_close responsiblePID victim ;;
  recycle_unlink victim ;;
  recycle_relink victim.

(** The "Prepend" block of [_RefDataset]. *)
Definition prepend : M addr :=
  cur <- CPLMalloc_entry ;;
  pool <- this ;;
  (if bool_decide (lastEntry pool = None)
   then this_set (set_lastEntry (Some cur)) else ret tt) ;;
  store cur (CacheEntry.set_prev None) ;;
  pool <- this ;;
  store cur (CacheEntry.set_next (firstEntry pool)) ;;
  pool <- this ;;
  (match firstEntry pool with
   | Some f => store f (CacheEntry.set_prev (Some cur))
   | None => ret tt
   end) ;;
  this_set (set_firstEntry (Some cur)) ;;
  pool <- this ;;
  v <- int_succ (currentSize pool) ;;
  this_set (set_currentSize v) ;;
  ret cur.

(** The tail of [_RefDataset]: fills the entry and opens the dataset. *)
Definition open_in (cur : addr) (pszFileName : string) (eAccess : GDALAccess)
    (papszOpenOptions : option (list string)) (responsiblePID : Z) : M unit :=
  store cur (CacheEntry.set_pszFileName pszFileName) ;;
  store cur (CacheEntry.set_responsiblePID responsiblePID) ;;
  store cur (CacheEntry.set_refCount 1) ;;
  disableRefCount_incr ;;
  let nFlag := nFlag_of eAccess in
  r <- GDALOpenEx drv pszFileName nFlag papszOpenOptions ;;
  store cur (CacheEntry.set_poDS r) ;;
  disableRefCount_decr.

(** What the loop body of [_RefDataset] does with the entry that matches. *)
Definition RefDataset_hit (cur : addr) : M (option addr) :=
  pool <- this ;;
  (if bool_decide (Some cur <> firstEntry pool)
   then move_to_begin cur else ret tt) ;;
  e <- load cur ;;
  v <- int_succ (CacheEntry.refCount e) ;;
  store cur (CacheEntry.set_refCount v) ;;
  ret (Some cur).

(** [_RefDataset] after the loop, when no entry matched. *)
Definition RefDataset_miss (pszFileName : string) (eAccess : GDALAccess)
    (papszOpenOptions : option (list string)) (responsiblePID : Z)
    (lastEntryWithZeroRefCount : option addr) : M (option addr) :=
  pool <- this ;;
  if currentSize pool =? maxSize pool then
    match lastEntryWithZeroRefCount with
    | None =>
        CPLError CE_Failure CPLE_AppDefined pool_size_message [maxSize pool] ;;
        ret None
    | Some victim =>
        recycle responsiblePID victim ;;
        open_in victim pszFileName eAccess papszOpenOptions responsiblePID ;;
        ret (Some victim)
    end
  else
    cur <- prepend ;;
    open_in cur pszFileName eAccess papszOpenOptions responsiblePID ;;
    ret (Some cur).

(** [GDALDatasetPool::_RefDataset]. *)
Definition _RefDataset (pszFileName : string) (eAccess : GDALAccess)
    (papszOpenOptions : option (list string)) (bShared : Z)
    : M (option addr) :=
  pool <- this ;;
  responsiblePID <- GDALGetResponsiblePIDForCurrentThread ;;
  st <- get ;;
  r <- RefDataset_scan (scan_fuel st) pszFileName bShared responsiblePID
         (firstEntry pool) None ;;
  match r with
  | Found cur => RefDataset_hit cur
  | NotFound lastEntryWithZeroRefCount =>
      RefDataset_miss pszFileName eAccess papszOpenOptions responsiblePID
        lastEntryWithZeroRefCount
  end.

(** The body of the [if] in the loop of [_CloseDataset]. *)
Definition CloseDataset_close (responsiblePID : Z) (cur : addr) : M unit :=
  e <- load cur ;;
  GDALSetResponsiblePIDForCurrentThread (CacheEntry.responsiblePID e) ;;
  disableRefCount_incr ;;
  e <- load cur ;;
  (match CacheEntry.poDS e with
   | Some hDS => GDALClose drv hDS
   | None => ret tt (* not reached: the scan tested cur->poDS != NULL *)
   end) ;;
  disableRefCount_decr ;;
  GDALSetResponsiblePIDForCurrentThread responsiblePID ;;
  store cur (CacheEntry.set_poDS None) ;;
  store cur (CacheEntry.set_pszFileName EmptyString).

(** [GDALDatasetPool::_CloseDataset].  Its [CPLAssert(cur->pszFileName)]
    holds by construction: an entry on the list always has a name. *)
Definition _CloseDataset (pszFileName : string) (eAccess : GDALAccess)
    : M unit :=
  pool <- this ;;
  responsiblePID <- GDALGetResponsiblePIDForCurrentThread ;;
  st <- get ;;
  r <- CloseDataset_scan (scan_fuel st) pszFileName (firstEntry pool) ;;
  match r with
  | Some cur => CloseDataset_close responsiblePID cur
  | None => ret tt
  end.

(** [GDALDatasetPool::~GDALDatasetPool]: the loop, then the epilogue. *)
Fixpoint destroy_entries (fuel : nat) (cur : option addr) : M unit :=
  match cur with
  | None => ret tt
  | Some c =>
      match fuel with
      | O => outOfFuel
      | S fuel' =>
          e <- load c ;;
          let next := CacheEntry.next e in
          (* CPLFree(cur->pszFileName) *)
          CPLAssert (CacheEntry.refCount e =? 0) "cur->refCount == 0" ;;
          (match CacheEntry.poDS e with
           | Some hDS =>
               GDALSetResponsiblePIDForCurrentThread (CacheEntry.responsiblePID e) ;;
               GDALClose drv hDS
           | None => ret tt
           end) ;;
          CPLFree_entry c ;;
          destroy_entries fuel' next
      end
  end.

Definition delete_GDALDatasetPool : M unit :=
  pool <- this ;;
  responsiblePID <- GDALGetResponsiblePIDForCurrentThread ;;
  st <- get ;;
  destroy_entries (scan_fuel st) (firstEntry pool) ;;
  GDALSetResponsiblePIDForCurrentThread responsiblePID.

(** [GDALDatasetPool::Ref]. *)
Definition Ref : M unit :=
  st <- get ;;
  (match singleton st with
   | None =>
       s <- CPLGetConfigOption "GDAL_MAX_DATASET_POOL_SIZE" "100" ;;
       l_maxSize <- atoi s ;;
       let l_maxSize :=
         if (l_maxSize <? 2) || (l_maxSize >? 1000) then 100 else l_maxSize in
       modify (with_singleton (Some (newGDALDatasetPool l_maxSize)))
   | Some _ => ret tt
   end) ;;
  pool <- this ;;
  if refCountOfDisableRefCount pool =? 0 then
    v <- int_succ (refCount pool) ;;
    this_set (set_refCount v)
  else ret tt.

(** [GDALDatasetPool::PreventDestroy]. *)
Definition PreventDestroy : M unit :=
  st <- get ;;
  match singleton st with
  | None => ret tt
  | Some _ => disableRefCount_incr
  end.

(** [GDALDatasetPool::Unref]. *)
Definition Unref : M unit :=
  st <- get ;;
  match singleton st with
  | None => CPLAssert false "0"
  | Some pool =>
      if refCountOfDisableRefCount pool =? 0 then
        v <- int_pred (refCount pool) ;;
        this_set (set_refCount v) ;;
        pool <- this ;;
        if refCount pool =? 0 then
          delete_GDALDatasetPool ;;
          modify (with_singleton None)
        else ret tt
      else ret tt
  end.

(** [GDALDatasetPool::ForceDestroy]. *)
Definition ForceDestroy : M unit :=
  st <- get ;;
  match singleton st with
  | None => ret tt
  | Some _ =>
      disableRefCount_decr ;;
      pool <- this ;;
      CPLAssert (refCountOfDisableRefCount pool =? 0)
                "singleton->refCountOfDisableRefCount == 0" ;;
      this_set (set_refCount 0) ;;
      delete_GDALDatasetPool ;;
      modify (with_singleton None)
  end.

(** [GDALDatasetPool::RefDataset], [UnrefDataset] and [CloseDataset]: the
    static entry points, which go through [singleton] without a test. *)
Definition RefDataset (pszFileName : string) (eAccess : GDALAccess)
    (papszOpenOptions : option (list string)) (bShared : Z)
    : M (option addr) :=
  _RefDataset pszFileName eAccess papszOpenOptions bShared.

Definition UnrefDataset (cacheEntry : addr) : M unit :=
  e <- load cacheEntry ;;
  v <- int_pred (CacheEntry.refCount e) ;;
  store cacheEntry (CacheEntry.set_refCount v).

Definition CloseDataset (pszFileName : string) (eAccess : GDALAccess) : M unit :=
  _CloseDataset pszFileName eAccess.

End Pool.

(** ** A driver that only records

    The datasets themselves are outside the pool.  [recDriver world] answers
    every call from [world] (which sees the state at the time of the call,
    and with it the responsible PID then in force) and writes the call to
    the trace; it never calls back into the pool. *)
Record World := BuildWorld {
  open_result : State -> string -> list GDALOpenFlag -> option (list string) ->
                option GDALDatasetH;
  projection_of : GDALDatasetH -> option string;
  geotransform_of : GDALDatasetH -> CPLErr * list Z
}.

Definition recDriver (w : World) : Driver :=
  {| GDALOpenEx := fun pszFileName nFlag papszOpenOptions =>
       st <- get ;;
       let r := open_result w st pszFileName nFlag papszOpenOptions in
       emit (EvGDALOpenEx (tlsResponsiblePID st) pszFileName nFlag
                          papszOpenOptions r) ;;
       ret r;
     GDALClose := fun hDS =>
       st <- get ;;
       emit (EvGDALClose (tlsResponsiblePID st) hDS);
     DSGetProjectionRef := fun hDS => ret (projection_of w hDS);
     DSGetGeoTransform := fun hDS => ret (geotransform_of w hDS) |}.

(** The process before anything ran. *)
Definition initial_state (cfg : gmap string string) (rid : Z) : State :=
  {| singleton := None; heap := ∅; tlsResponsiblePID := rid;
     configOptions := cfg; trace := [] |}.

(** ** GDALProxyPoolDataset *)

(** A [double], as the 64 bits that [memcpy] moves. *)
Definition double := Z.
Definition double_0 : double := 0.
Definition double_1 : double := 0x3FF0000000000000.

Module ProxyPoolDataset.
(** The members of [GDALProxyPoolDataset] (with those of [GDALDataset] that
    its constructor sets).  The GCP and metadata caches are left out: the
    constructor clears them and nothing below reads them. *)
Record t := Build {
  description : string;
  nRasterXSize : Z;
  nRasterYSize : Z;
  eAccess : GDALAccess;
  bShared : Z;
  responsiblePID : Z;
  pszProjectionRef : option string;
  bHasSrcProjection : bool;
  adfGeoTransform : list double;
  bHasSrcGeoTransform : bool;
  papszOpenOptions : option (list string);
  cacheEntry : option addr
}.

Definition set_cacheEntry (v : option addr) (d : t) : t :=
  Build (description d) (nRasterXSize d) (nRasterYSize d) (eAccess d)
        (bShared d) (responsiblePID d) (pszProjectionRef d)
        (bHasSrcProjection d) (adfGeoTransform d) (bHasSrcGeoTransform d)
        (papszOpenOptions d) v.
End ProxyPoolDataset.

Section Proxy.

Variable drv : Driver.

(** [CPLStrdup] of cpl_conv.cpp, which is not among the sources: a
    parameter.  Its argument may be [NULL]; its result never is. *)
Variable CPLStrdup : option string -> string.

(** [memcpy(dst, src, 6 * sizeof(double))]. *)
Definition memcpy_6_doubles (src : list double) : M (list double) :=
  if (6 <=? length src)%nat then ret (take 6 src) else crash InvalidPointer.

(** [GDALProxyPoolDataset::GDALProxyPoolDataset]. *)
Definition GDALProxyPoolDataset_new (pszSourceDatasetDescription : string)
    (nRasterXSizeIn nRasterYSizeIn : Z) (eAccessIn : GDALAccess)
    (bSharedIn : Z) (pszProjectionRefIn : option string)
    (padfGeoTransform : option (list double)) : M ProxyPoolDataset.t :=
  Ref ;;
  responsiblePID <- GDALGetResponsiblePIDForCurrentThread ;;
  let '(pszProjectionRef, bHasSrcProjection) :=
    match pszProjectionRefIn with
    | Some _ => (None, false)
    | None => (Some (CPLStrdup pszProjectionRefIn), true)
    end in
  gt <- (match padfGeoTransform with
         | Some src =>
             adf <- memcpy_6_doubles src ;;
             ret (adf, true)
         | None =>
             ret ([double_0; double_1; double_0; double_0; double_0; double_1],
                  false)
         end) ;;
  ret {| ProxyPoolDataset.description := pszSourceDatasetDescription;
         ProxyPoolDataset.nRasterXSize := nRasterXSizeIn;
         ProxyPoolDataset.nRasterYSize := nRasterYSizeIn;
         ProxyPoolDataset.eAccess := eAccessIn;
         (* static_cast<GByte>(bSharedIn) *)
         ProxyPoolDataset.bShared := bSharedIn mod 256;
         ProxyPoolDataset.responsiblePID := responsiblePID;
         ProxyPoolDataset.pszProjectionRef := pszProjectionRef;
         ProxyPoolDataset.bHasSrcProjection := bHasSrcProjection;
         ProxyPoolDataset.adfGeoTransform := fst gt;
         ProxyPoolDataset.bHasSrcGeoTransform := snd gt;
         ProxyPoolDataset.papszOpenOptions := None;
         ProxyPoolDataset.cacheEntry := None |}.

(** [GDALProxyPoolDataset::~GDALProxyPoolDataset]. *)
Definition GDALProxyPoolDataset_delete (d : ProxyPoolDataset.t) : M unit :=
  (if ProxyPoolDataset.bShared d =? 0
   then CloseDataset drv (ProxyPoolDataset.description d)
                     (ProxyPoolDataset.eAccess d)
   else ret tt) ;;
  Unref drv.

(** [GDALProxyPoolDataset::RefUnderlyingDataset]; the object is returned
    with its [cacheEntry] member updated. *)
Definition RefUnderlyingDataset (d : ProxyPoolDataset.t)
    : M (option GDALDatasetH * ProxyPoolDataset.t) :=
  curResponsiblePID <- GDALGetResponsiblePIDForCurrentThread ;;
  GDALSetResponsiblePIDForCurrentThread (ProxyPoolDataset.responsiblePID d) ;;
  cacheEntry <- RefDataset drv (ProxyPoolDataset.description d)
                  (ProxyPoolDataset.eAccess d)
                  (ProxyPoolDataset.papszOpenOptions d)
                  (ProxyPoolDataset.bShared d) ;;
  GDALSetResponsiblePIDForCurrentThread curResponsiblePID ;;
  let d := ProxyPoolDataset.set_cacheEntry cacheEntry d in
  match cacheEntry with
  | Some c =>
      e <- load c ;;
      match CacheEntry.poDS e with
      | Some hDS => ret (Some hDS, d)
      | None => UnrefDataset c ;; ret (None, d)
      end
  | None => ret (None, d)
  end.

(** [GDALProxyPoolDataset::UnrefUnderlyingDataset]. *)
Definition UnrefUnderlyingDataset (d : ProxyPoolDataset.t)
    (poUnderlyingDataset : option GDALDatasetH) : M unit :=
  match ProxyPoolDataset.cacheEntry d with
  | Some c =>
      e <- load c ;;
      CPLAssert (bool_decide (CacheEntry.poDS e = poUnderlyingDataset))
                "cacheEntry->poDS == poUnderlyingDataset" ;;
      e <- load c ;;
      match CacheEntry.poDS e with
      | Some _ => UnrefDataset c
      | None => ret tt
      end
  | None => ret tt
  end.

(** Modelled from the spec: [GDALProxyDataset::GetProjectionRef] of
    gdalproxydataset.cpp, which is not among the sources: "ref the
    underlying source, delegate, unref, and return"; when the source cannot
    be referenced "the proxy operation returns null/empty value". *)
Definition GDALProxyDataset_GetProjectionRef (d : ProxyPoolDataset.t)
    : M (option string * ProxyPoolDataset.t) :=
  r <- RefUnderlyingDataset d ;;
  let '(u, d) := r in
  match u with
  | Some hDS =>
      ret_ <- DSGetProjectionRef drv hDS ;;
      UnrefUnderlyingDataset d (Some hDS) ;;
      ret (ret_, d)
  | None => ret (None, d)
  end.

(** Modelled from the spec: [GDALProxyDataset::GetGeoTransform], as
    [GetProjectionRef] above ("symmetric to projection, over the six-double
    vector").  [None] for the vector: the caller's buffer was not written. *)
Definition GDALProxyDataset_GetGeoTransform (d : ProxyPoolDataset.t)
    : M (CPLErr * option (list double) * ProxyPoolDataset.t) :=
  r <- RefUnderlyingDataset d ;;
  let '(u, d) := r in
  match u with
  | Some hDS =>
      ret_ <- DSGetGeoTransform drv hDS ;;
      UnrefUnderlyingDataset d (Some hDS) ;;
      ret (fst ret_, Some (snd ret_), d)
  | None => ret (CE_Failure, None, d)
  end.

(** [GDALProxyPoolDataset::GetProjectionRef]. *)
Definition GetProjectionRef (d : ProxyPoolDataset.t)
    : M (option string * ProxyPoolDataset.t) :=
  if ProxyPoolDataset.bHasSrcProjection d
  then ret (ProxyPoolDataset.pszProjectionRef d, d)
  else GDALProxyDataset_GetProjectionRef d.

(** [GDALProxyPoolDataset::GetGeoTransform]. *)
Definition GetGeoTransform (d : ProxyPoolDataset.t)
    : M (CPLErr * option (list double) * ProxyPoolDataset.t) :=
  if ProxyPoolDataset.bHasSrcGeoTransform d
  then
    adf <- memcpy_6_doubles (ProxyPoolDataset.adfGeoTransform d) ;;
    ret (CE_None, Some adf, d)
  else GDALProxyDataset_GetGeoTransform d.

End Proxy.

(** ** A driver that builds a proxy while it opens

    The cascade of the specification: while the pool opens a dataset, the
    driver constructs a proxy dataset of its own and destroys it again.
    [inner] says, per file name, which proxy that is. *)
Record InnerProxy := BuildInnerProxy {
  ip_description : string;
  ip_eAccess : GDALAccess;
  ip_bShared : Z;
  ip_projection : option string;
  ip_geotransform : option (list double)
}.

Definition cascadeDriver (CPLStrdup : option string -> string) (w : World)
    (inner : string -> option InnerProxy) : Driver :=
  {| GDALOpenEx := fun pszFileName nFlag papszOpenOptions =>
       (match inner pszFileName with
        | Some ip =>
            d <- GDALProxyPoolDataset_new CPLStrdup (ip_description ip) 0 0
                   (ip_eAccess ip) (ip_bShared ip) (ip_projection ip)
                   (ip_geotransform ip) ;;
            GDALProxyPoolDataset_delete (recDriver w) d
        | None => ret tt
        end) ;;
       GDALOpenEx (recDriver w) pszFileName nFlag papszOpenOptions;
     GDALClose := GDALClose (recDriver w);
     DSGetProjectionRef := DSGetProjectionRef (recDriver w);
     DSGetGeoTransform := DSGetGeoTransform (recDriver w) |}.

(** * The vocabulary of the properties *)

(** ** The linked list behind [firstEntry] and [lastEntry]

    [dlseg h p l n]: the cells at the addresses [l] are chained in this
    order by their [next] and [prev] links, the first one pointing back to
    [p] and the last one forward to [n]. *)
Definition hd_or (l : list addr) (n : option addr) : option addr :=
  match l with [] => n | a :: _ => Some a end.

(** The last address of [l], or [p] when [l] is empty. *)
Definition last_or (p : option addr) (l : list addr) : option addr :=
  match last l with Some a => Some a | None => p end.

Fixpoint dlseg (h : gmap addr CacheEntry.t) (p : option addr) (l : list addr)
    (n : option addr) : Prop :=
  match l with
  | [] => True
  | a :: l' =>
      match h !! a with
      | Some e =>
          CacheEntry.prev e = p /\ CacheEntry.next e = hd_or l' n /\
          dlseg h (Some a) l' n
      | None => False
      end
  end.

(** The pool object [p] and the heap [h] hold the list [l], most recently
    used entry first. *)
Record wf_pool (p : GDALDatasetPool) (h : gmap addr CacheEntry.t)
    (l : list addr) : Prop := {
  wf_nodup : NoDup l;
  wf_first : firstEntry p = head l;
  wf_last : lastEntry p = last l;
  wf_size : currentSize p = Z.of_nat (length l);
  wf_links : dlseg h None l None
}.

(** The entry cached at [a], without its links. *)
Definition content_at (h : gmap addr CacheEntry.t) (a : addr) :=
  CacheEntry.content <$> h !! a.

(** The same world around the pool: identity slot, options and trace. *)
Definition same_outside (st st' : State) : Prop :=
  tlsResponsiblePID st' = tlsResponsiblePID st /\
  configOptions st' = configOptions st /\
  trace st' = trace st.

(** The pool fields that the list operations leave alone. *)
Definition same_counters (p p' : GDALDatasetPool) : Prop :=
  refCount p' = refCount p /\ maxSize p' = maxSize p /\
  currentSize p' = currentSize p /\
  refCountOfDisableRefCount p' = refCountOfDisableRefCount p.

(** What [move_to_begin] and [recycle] go through once the cell [c] is out
    of the chain [l] but the pool still counts it. *)
Record detached (p : GDALDatasetPool) (h : gmap addr CacheEntry.t)
    (c : addr) (l : list addr) : Prop := {
  det_nodup : NoDup l;
  det_notin : c ∉ l;
  det_first : firstEntry p = head l;
  det_last : lastEntry p = last l;
  det_links : dlseg h None l None;
  det_cell : is_Some (h !! c)
}.

(** A step of the list code: the pool is still there, its counters, the
    world around it and what every entry caches are as before. *)
Definition list_step (st st' : State) (p p' : GDALDatasetPool) : Prop :=
  singleton st' = Some p' /\ same_counters p p' /\ same_outside st st' /\
  forall a, content_at (heap st') a = content_at (heap st) a.

(** What closing the dataset of [e] writes to the trace: the driver is
    called under the responsible PID stored in [e], if [e] has a dataset. *)
Definition close_events (e : CacheEntry.t) : list Event :=
  match CacheEntry.poDS e with
  | Some hDS => [EvGDALClose (CacheEntry.responsiblePID e) hDS]
  | None => []
  end.

(** The cell of an evicted or closed entry: no dataset, empty name. *)
Definition vacate (e : CacheEntry.t) : CacheEntry.t :=
  CacheEntry.set_poDS None (CacheEntry.set_pszFileName EmptyString e).

(** The cell of an entry that was just filled by [_RefDataset]. *)
Definition fill (pszFileName : string) (responsiblePID : Z)
    (r : option GDALDatasetH) (e : CacheEntry.t) : CacheEntry.t :=
  CacheEntry.set_poDS r
    (CacheEntry.set_refCount 1
       (CacheEntry.set_responsiblePID responsiblePID
          (CacheEntry.set_pszFileName pszFileName e))).

(** The state in which [open_in] calls the driver. *)
Definition open_call_state (p : GDALDatasetPool) (cur : addr) (fn : string)
    (rid : Z) (st : State) : State :=
  with_singleton
    (Some (set_refCountOfDisableRefCount (refCountOfDisableRefCount p + 1) p))
    (with_heap
       (alter (CacheEntry.set_refCount 1) cur
          (alter (CacheEntry.set_responsiblePID rid) cur
             (alter (CacheEntry.set_pszFileName fn) cur (heap st)))) st).

(** The outcome of the loop of [_RefDataset] on the list [l]: the first
    entry that matches, or else the last one without a reference. *)
Fixpoint scan_list (h : gmap addr CacheEntry.t) (fn : string) (bShared : Z)
    (rid : Z) (l : list addr) (acc : option addr) : ScanResult :=
  match l with
  | [] => NotFound acc
  | c :: l' =>
      match h !! c with
      | Some e =>
          if ref_matches fn bShared rid e then Found c
          else scan_list h fn bShared rid l'
                 (if CacheEntry.refCount e =? 0 then Some c else acc)
      | None => NotFound acc
      end
  end.

(** The outcome of the loop of [_CloseDataset] on the list [l]: the first
    entry with the name, no reference and a dataset. *)
Fixpoint close_list (h : gmap addr CacheEntry.t) (fn : string)
    (l : list addr) : option addr :=
  match l with
  | [] => None
  | c :: l' =>
      match h !! c with
      | Some e => if close_matches fn e then Some c else close_list h fn l'
      | None => None
      end
  end.

(** Every cell of [l] that is in the heap satisfies [P]. *)
Definition all_entries (h : gmap addr CacheEntry.t) (l : list addr)
    (P : CacheEntry.t -> Prop) : Prop :=
  forall a e, a ∈ l -> h !! a = Some e -> P e.

(** What [Ref] guarantees of the pool it creates, and what the list code
    keeps: the size limit of the configuration, a size within it, and a
    disable counter that is not negative. *)
Definition pool_bounds (p : GDALDatasetPool) : Prop :=
  2 <= maxSize p <= 1000 /\ currentSize p <= maxSize p /\
  0 <= refCountOfDisableRefCount p < INT_MAX.

(** The reference count of the entry at [a]. *)
Definition refCount_at (st : State) (a : addr) : option Z :=
  CacheEntry.refCount <$> heap st !! a.

(** The references that the entry answering a request already has: those of
    the first matching entry of the list, none when no entry matches. *)
Definition prior_refs (st : State) (l : list addr) (fn : string) (sh : Z) : Z :=
  match scan_list (heap st) fn sh (tlsResponsiblePID st) l None with
  | Found c => default 0 (refCount_at st c)
  | NotFound _ => 0
  end.



(** The state after the dataset of the entry [cur] was closed by
    [_CloseDataset]. *)
Definition closed_state (cur : addr) (ec : CacheEntry.t) (st : State) : State :=
  with_trace (trace st ++ close_events ec)
    (with_heap (alter vacate cur (heap st)) st).

(** The limit that [Ref] derives from the configured text. *)
Definition configured_maxSize (st : State) : Z :=
  let v := atoi_value
             (default "100"%string
                (configOptions st !! "GDAL_MAX_DATASET_POOL_SIZE"%string)) in
  if (v <? 2) || (v >? 1000) then 100 else v.

(** The limit as the specification words it: the configured integer clamped
    to the interval from 2 to 1000. *)
Definition spec_clamped_maxSize (v : Z) : Z := Z.max 2 (Z.min 1000 v).

(** The geotransforms that the cascading driver passes to the constructor
    point to six values, as the constructor expects. *)
Definition inner_well_formed (inner : string -> option InnerProxy) : Prop :=
  forall fn ip gt,
    inner fn = Some ip -> ip_geotransform ip = Some gt -> (6 <= length gt)%nat.

(** ** Concrete worlds, pools and runs *)

(** A world in which every open succeeds (the handle is the length of the
    trace so far, so handles differ) and every dataset reports the
    projection ["UNDERLYING"]. *)
Definition demo_world : World :=
  {| open_result := fun st _ _ _ => Some (length (trace st));
     projection_of := fun _ => Some "UNDERLYING"%string;
     geotransform_of := fun _ => (CE_None, [1; 2; 3; 4; 5; 6]) |}.

(** A world in which no dataset can be opened. *)
Definition closed_world : World :=
  {| open_result := fun _ _ _ _ => None;
     projection_of := fun _ => None;
     geotransform_of := fun _ => (CE_Failure, []) |}.

(** A [CPLStrdup] that duplicates [NULL] as the empty string. *)
Definition demo_CPLStrdup (s : option string) : string := default ""%string s.

(** The configuration that asks for a pool of two datasets. *)
Definition pool_size_2 : gmap string string :=
  {[ "GDAL_MAX_DATASET_POOL_SIZE"%string := "2"%string ]}.

(** A pool of size 2 that is full: ["B"] at address 1 is the first entry,
    ["A"] at address 0 the last, with the given reference counts. *)
Definition full_pool : GDALDatasetPool :=
  {| refCount := 1; maxSize := 2; currentSize := 2;
     firstEntry := Some 1%nat; lastEntry := Some 0%nat;
     refCountOfDisableRefCount := 0 |}.

Definition full_state (rcA rcB : Z) : State :=
  {| singleton := Some full_pool;
     heap := <[1%nat := CacheEntry.Build 7 "B" (Some 11%nat) rcB None (Some 0%nat)]>
               (<[0%nat := CacheEntry.Build 7 "A" (Some 10%nat) rcA (Some 1%nat) None]> ∅);
     tlsResponsiblePID := 9;
     configOptions := pool_size_2;
     trace := [] |}.

(** The public operations that lead to [full_state 1 0]: two datasets are
    referenced and the second one is released. *)
Definition ref_A_ref_B_unref_B (drv : Driver) : M unit :=
  Ref ;;
  _ <- RefDataset drv "A" GA_ReadOnly None 1 ;;
  b <- RefDataset drv "B" GA_ReadOnly None 1 ;;
  match b with
  | Some b => UnrefDataset b
  | None => ret tt
  end.


(** The file names on the list, first entry first, as far as [fuel] goes. *)
Fixpoint names_from (fuel : nat) (h : gmap addr CacheEntry.t)
    (cur : option addr) : list string :=
  match fuel, cur with
  | S fuel', Some c =>
      match h !! c with
      | Some e => CacheEntry.pszFileName e :: names_from fuel' h (CacheEntry.next e)
      | None => []
      end
  | _, _ => []
  end.

Definition pool_names (st : State) : list string :=
  match singleton st with
  | Some p => names_from (scan_fuel st) (heap st) (firstEntry p)
  | None => []
  end.

(** The end-to-end scenarios of the specification, as programs. *)
Definition unref_opt (e : option addr) : M unit :=
  match e with Some a => UnrefDataset a | None => ret tt end.

Definition scenario_promotion (drv : Driver) : M (list string * list string) :=
  Ref ;;
  _ <- RefDataset drv "A" GA_ReadOnly None 1 ;;
  _ <- RefDataset drv "B" GA_ReadOnly None 1 ;;
  st1 <- get ;;
  _ <- RefDataset drv "A" GA_ReadOnly None 1 ;;
  st2 <- get ;;
  ret (pool_names st1, pool_names st2).

Definition scenario_eviction (drv : Driver) : M (list string) :=
  Ref ;;
  a <- RefDataset drv "A" GA_ReadOnly None 1 ;; unref_opt a ;;
  b <- RefDataset drv "B" GA_ReadOnly None 1 ;; unref_opt b ;;
  _ <- RefDataset drv "C" GA_ReadOnly None 1 ;;
  st <- get ;;
  ret (pool_names st).

(** A pool that was just created by [Ref], with nothing in it. *)
Definition fresh_pool : GDALDatasetPool := set_refCount 1 (newGDALDatasetPool 100).
Definition fresh_state : State :=
  with_singleton (Some fresh_pool) (initial_state ∅ 7).

(** [full_state 0 0] while the pool is at work: the disable counter is 1. *)
Definition busy_state : State :=
  with_singleton (Some (set_refCountOfDisableRefCount 1 full_pool))
    (full_state 0 0).

(** A proxy for a file that is not in the pool. *)
Definition demo_proxy : ProxyPoolDataset.t :=
  {| ProxyPoolDataset.description := "C";
     ProxyPoolDataset.nRasterXSize := 10;
     ProxyPoolDataset.nRasterYSize := 10;
     ProxyPoolDataset.eAccess := GA_ReadOnly;
     ProxyPoolDataset.bShared := 1;
     ProxyPoolDataset.responsiblePID := 7;
     ProxyPoolDataset.pszProjectionRef := None;
     ProxyPoolDataset.bHasSrcProjection := false;
     ProxyPoolDataset.adfGeoTransform :=
       [double_0; double_1; double_0; double_0; double_0; double_1];
     ProxyPoolDataset.bHasSrcGeoTransform := false;
     ProxyPoolDataset.papszOpenOptions := None;
     ProxyPoolDataset.cacheEntry := None |}.

(** The driver of the cascade: opening ["outer.vrt"] builds and destroys an
    exclusive proxy for ["inner.tif"]. *)
Definition demo_inner (fn : string) : option InnerProxy :=
  if String.eqb fn "outer.vrt"
  then Some (BuildInnerProxy "inner.tif" GA_ReadOnly 0 None None)
  else None.

(** ** The list check of the debug build *)

(** The three assertions of the loop of [GDALDatasetPool::CheckLinks], as
    their conditions are evaluated: left to right, the right operand of
    [||] only when the left one is false. *)
Definition CheckLinks_prev_linked (cur : addr) : M bool :=
  pool <- this ;;
  if bool_decide (Some cur = firstEntry pool) then ret true
  else
    e <- load cur ;;
    pv <- deref (CacheEntry.prev e) ;;
    ep <- load pv ;;
    ret (bool_decide (CacheEntry.next ep = Some cur)).

Definition CheckLinks_next_linked (cur : addr) : M bool :=
  pool <- this ;;
  if bool_decide (Some cur = lastEntry pool) then ret true
  else
    e <- load cur ;;
    n <- deref (CacheEntry.next e) ;;
    en <- load n ;;
    ret (bool_decide (CacheEntry.prev en = Some cur)).

Definition CheckLinks_ends_at_last (cur : addr) : M bool :=
  e <- load cur ;;
  if bool_decide (CacheEntry.next e <> None) then ret true
  else
    pool <- this ;;
    ret (bool_decide (Some cur = lastEntry pool)).

(** The [while(cur)] loop of [CheckLinks]; the result is the counter [i]. *)
Fixpoint CheckLinks_loop (fuel : nat) (cur : option addr) (i : Z) : M Z :=
  match cur with
  | None => ret i
  | Some c =>
      match fuel with
      | O => outOfFuel
      | S fuel' =>
          b <- CheckLinks_prev_linked c ;;
          CPLAssert b "cur == firstEntry || cur->prev->next == cur" ;;
          b <- CheckLinks_next_linked c ;;
          CPLAssert b "cur == lastEntry || cur->next->prev == cur" ;;
          i <- int_succ i ;;
          b <- CheckLinks_ends_at_last c ;;
          CPLAssert b "cur->next != NULL || cur == lastEntry" ;;
          e <- load c ;;
          CheckLinks_loop fuel' (CacheEntry.next e) i
      end
  end.

(** [GDALDatasetPool::CheckLinks].  [_RefDataset] calls it after every
    change of the list when [DEBUG_PROXY_POOL] is defined. *)
Definition CheckLinks : M unit :=
  pool <- this ;;
  st <- get ;;
  i <- CheckLinks_loop (scan_fuel st) (firstEntry pool) 0 ;;
  pool <- this ;;
  CPLAssert (i =? currentSize pool) "i == currentSize".

(** ** The entry points of the driver manager *)

(** [GDALDatasetPoolPreventDestroy] and [GDALDatasetPoolForceDestroy], the
    functions that gdaldrivermanager.cpp declares and calls. *)
Definition GDALDatasetPoolPreventDestroy : M unit := PreventDestroy.

Definition GDALDatasetPoolForceDestroy (drv : Driver) : M unit :=
  ForceDestroy drv.

(** ** The vocabulary of the destructor *)

(** [m] run [n] times in a row. *)
Fixpoint repeatM (n : nat) (m : M unit) : M unit :=
  match n with
  | O => ret tt
  | S n' => m ;; repeatM n' m
  end.

(** What [~GDALDatasetPool] writes to the trace for one entry: the violated
    assertion if the entry is still referenced, then the close of its
    dataset, if it has one, under the responsible PID stored in it. *)
Definition destroy_events (e : CacheEntry.t) : list Event :=
  (if CacheEntry.refCount e =? 0 then []
   else [EvCPLAssert "cur->refCount == 0"]) ++ close_events e.

(** The same for the entries of the list [l], first entry first. *)
Fixpoint destroy_trace (h : gmap addr CacheEntry.t) (l : list addr)
    : list Event :=
  match l with
  | [] => []
  | c :: l' =>
      match h !! c with
      | Some e => destroy_events e ++ destroy_trace h l'
      | None => []
      end
  end.

(** * The proxy dataset and its bands as objects

    The operations below change members of the proxy dataset and of its
    bands, and the bands point to each other and to the dataset.  They run
    over [Objects]: the process of the pool, one [GDALProxyPoolDataset] and
    the [GDALProxyPoolRasterBand] objects that belong to it (their [poDS]),
    each at an address of its own. *)

(** [GDALRasterBand*] of the underlying dataset, and
    [GDALProxyPoolRasterBand*]. *)
Definition GDALRasterBandH := nat.
Definition ProxyBandP := nat.

(** Values that this file only passes on or copies: a [GDALDataType], the
    content of a [GDAL_GCP] and of a [GDALColorTable], the result of
    [GetInternalHandle]. *)
Definition GDALDataType := Z.
Definition GDAL_GCP := nat.
Definition GDALColorTable := nat.
Definition InternalHandle := nat.

(** [GetMetadataElt] and [GetMetadataItemElt]. *)
Record GetMetadataElt := BuildGetMetadataElt {
  elt_pszDomain : option string;
  elt_papszMetadata : option (list string)
}.

Record GetMetadataItemElt := BuildGetMetadataItemElt {
  item_pszName : option string;
  item_pszDomain : option string;
  item_pszMetadataItem : option string
}.

(** The methods of the underlying dataset and of its bands that the proxies
    call.  They are outside gdalproxypool.cpp, like [GDALOpenEx], and run
    over the process. *)
Record Source := BuildSource {
  DSSetProjection : GDALDatasetH -> option string -> M CPLErr;
  DSSetGeoTransform : GDALDatasetH -> list double -> M CPLErr;
  DSGetMetadata : GDALDatasetH -> option string -> M (option (list string));
  DSGetMetadataItem : GDALDatasetH -> option string -> option string ->
                      M (option string);
  DSGetInternalHandle : GDALDatasetH -> option string -> M (option InternalHandle);
  DSGetGCPProjection : GDALDatasetH -> M (option string);
  DSGetGCPs : GDALDatasetH -> M (option (list GDAL_GCP));
  DSGetGCPCount : GDALDatasetH -> M Z;
  DSGetRasterBand : GDALDatasetH -> Z -> M (option GDALRasterBandH);
  RBGetDataset : GDALRasterBandH -> M (option GDALDatasetH);
  RBGetBand : GDALRasterBandH -> M Z;
  RBGetRasterDataType : GDALRasterBandH -> M GDALDataType;
  RBGetXSize : GDALRasterBandH -> M Z;
  RBGetYSize : GDALRasterBandH -> M Z;
  RBGetBlockSize : GDALRasterBandH -> M (Z * Z);
  RBGetMetadata : GDALRasterBandH -> option string -> M (option (list string));
  RBGetMetadataItem : GDALRasterBandH -> option string -> option string ->
                      M (option string);
  RBGetCategoryNames : GDALRasterBandH -> M (option (list string));
  RBGetUnitType : GDALRasterBandH -> M (option string);
  RBGetColorTable : GDALRasterBandH -> M (option GDALColorTable);
  RBGetOverview : GDALRasterBandH -> Z -> M (option GDALRasterBandH);
  RBGetMaskBand : GDALRasterBandH -> M (option GDALRasterBandH)
}.

Module ProxyBand.
(** The class an object was constructed as. *)
Inductive Class :=
| GDALProxyPoolRasterBand
| GDALProxyPoolOverviewRasterBand
| GDALProxyPoolMaskBand.

(** The members of [GDALProxyPoolRasterBand] (with those of
    [GDALRasterBand] that its constructors set), followed by the members
    that [GDALProxyPoolOverviewRasterBand] and [GDALProxyPoolMaskBand] add.
    [papoProxyOverviewRasterBand] is the array it points to, empty for
    [NULL]. *)
Record t := Build {
  class : Class;
  nBand : Z;
  eDataType : GDALDataType;
  nRasterXSize : Z;
  nRasterYSize : Z;
  nBlockXSize : Z;
  nBlockYSize : Z;
  metadataSet : option (list GetMetadataElt);
  metadataItemSet : option (list GetMetadataItemElt);
  pszUnitType : option string;
  papszCategoryNames : option (list string);
  poColorTable : option GDALColorTable;
  nSizeProxyOverviewRasterBand : Z;
  papoProxyOverviewRasterBand : list (option ProxyBandP);
  poProxyMaskBand : option ProxyBandP;
  poMainBand : option ProxyBandP;
  nOverviewBand : Z;
  poUnderlyingMainRasterBand : option GDALRasterBandH;
  nRefCountUnderlyingMainRasterBand : Z
}.

Definition set_metadataSet (v : option (list GetMetadataElt)) (b : t) : t :=
  Build (class b) (nBand b) (eDataType b) (nRasterXSize b) (nRasterYSize b)
    (nBlockXSize b) (nBlockYSize b) v (metadataItemSet b) (pszUnitType b)
    (papszCategoryNames b) (poColorTable b) (nSizeProxyOverviewRasterBand b)
    (papoProxyOverviewRasterBand b) (poProxyMaskBand b) (poMainBand b)
    (nOverviewBand b) (poUnderlyingMainRasterBand b)
    (nRefCountUnderlyingMainRasterBand b).
Definition set_metadataItemSet (v : option (list GetMetadataItemElt)) (b : t) : t :=
  Build (class b) (nBand b) (eDataType b) (nRasterXSize b) (nRasterYSize b)
    (nBlockXSize b) (nBlockYSize b) (metadataSet b) v (pszUnitType b)
    (papszCategoryNames b) (poColorTable b) (nSizeProxyOverviewRasterBand b)
    (papoProxyOverviewRasterBand b) (poProxyMaskBand b) (poMainBand b)
    (nOverviewBand b) (poUnderlyingMainRasterBand b)
    (nRefCountUnderlyingMainRasterBand b).
Definition set_pszUnitType (v : option string) (b : t) : t :=
  Build (class b) (nBand b) (eDataType b) (nRasterXSize b) (nRasterYSize b)
    (nBlockXSize b) (nBlockYSize b) (metadataSet b) (metadataItemSet b) v
    (papszCategoryNames b) (poColorTable b) (nSizeProxyOverviewRasterBand b)
    (papoProxyOverviewRasterBand b) (poProxyMaskBand b) (poMainBand b)
    (nOverviewBand b) (poUnderlyingMainRasterBand b)
    (nRefCountUnderlyingMainRasterBand b).
Definition set_papszCategoryNames (v : option (list string)) (b : t) : t :=
  Build (class b) (nBand b) (eDataType b) (nRasterXSize b) (nRasterYSize b)
    (nBlockXSize b) (nBlockYSize b) (metadataSet b) (metadataItemSet b)
    (pszUnitType b) v (poColorTable b) (nSizeProxyOverviewRasterBand b)
    (papoProxyOverviewRasterBand b) (poProxyMaskBand b) (poMainBand b)
    (nOverviewBand b) (poUnderlyingMainRasterBand b)
    (nRefCountUnderlyingMainRasterBand b).
Definition set_poColorTable (v : option GDALColorTable) (b : t) : t :=
  Build (class b) (nBand b) (eDataType b) (nRasterXSize b) (nRasterYSize b)
    (nBlockXSize b) (nBlockYSize b) (metadataSet b) (metadataItemSet b)
    (pszUnitType b) (papszCategoryNames b) v (nSizeProxyOverviewRasterBand b)
    (papoProxyOverviewRasterBand b) (poProxyMaskBand b) (poMainBand b)
    (nOverviewBand b) (poUnderlyingMainRasterBand b)
    (nRefCountUnderlyingMainRasterBand b).
Definition set_nSizeProxyOverviewRasterBand (v : Z) (b : t) : t :=
  Build (class b) (nBand b) (eDataType b) (nRasterXSize b) (nRasterYSize b)
    (nBlockXSize b) (nBlockYSize b) (metadataSet b) (metadataItemSet b)
    (pszUnitType b) (papszCategoryNames b) (poColorTable b) v
    (papoProxyOverviewRasterBand b) (poProxyMaskBand b) (poMainBand b)
    (nOverviewBand b) (poUnderlyingMainRasterBand b)
    (nRefCountUnderlyingMainRasterBand b).
Definition set_papoProxyOverviewRasterBand (v : list (option ProxyBandP))
    (b : t) : t :=
  Build (class b) (nBand b) (eDataType b) (nRasterXSize b) (nRasterYSize b)
    (nBlockXSize b) (nBlockYSize b) (metadataSet b) (metadataItemSet b)
    (pszUnitType b) (papszCategoryNames b) (poColorTable b)
    (nSizeProxyOverviewRasterBand b) v (poProxyMaskBand b) (poMainBand b)
    (nOverviewBand b) (poUnderlyingMainRasterBand b)
    (nRefCountUnderlyingMainRasterBand b).
Definition set_poProxyMaskBand (v : option ProxyBandP) (b : t) : t :=
  Build (class b) (nBand b) (eDataType b) (nRasterXSize b) (nRasterYSize b)
    (nBlockXSize b) (nBlockYSize b) (metadataSet b) (metadataItemSet b)
    (pszUnitType b) (papszCategoryNames b) (poColorTable b)
    (nSizeProxyOverviewRasterBand b) (papoProxyOverviewRasterBand b) v
    (poMainBand b) (nOverviewBand b) (poUnderlyingMainRasterBand b)
    (nRefCountUnderlyingMainRasterBand b).
Definition set_poUnderlyingMainRasterBand (v : option GDALRasterBandH)
    (b : t) : t :=
  Build (class b) (nBand b) (eDataType b) (nRasterXSize b) (nRasterYSize b)
    (nBlockXSize b) (nBlockYSize b) (metadataSet b) (metadataItemSet b)
    (pszUnitType b) (papszCategoryNames b) (poColorTable b)
    (nSizeProxyOverviewRasterBand b) (papoProxyOverviewRasterBand b)
    (poProxyMaskBand b) (poMainBand b) (nOverviewBand b) v
    (nRefCountUnderlyingMainRasterBand b).
Definition set_nRefCountUnderlyingMainRasterBand (v : Z) (b : t) : t :=
  Build (class b) (nBand b) (eDataType b) (nRasterXSize b) (nRasterYSize b)
    (nBlockXSize b) (nBlockYSize b) (metadataSet b) (metadataItemSet b)
    (pszUnitType b) (papszCategoryNames b) (poColorTable b)
    (nSizeProxyOverviewRasterBand b) (papoProxyOverviewRasterBand b)
    (poProxyMaskBand b) (poMainBand b) (nOverviewBand b)
    (poUnderlyingMainRasterBand b) v.
End ProxyBand.

Module ProxyDataset.
(** The [GDALProxyPoolDataset] object: the members of [ProxyPoolDataset.t],
    the caches that it leaves out, and the band array of [GDALDataset]. *)
Record t := Build {
  core : ProxyPoolDataset.t;
  pszGCPProjection : option string;
  nGCPCount : Z;
  pasGCPList : option (list GDAL_GCP);
  metadataSet : option (list GetMetadataElt);
  metadataItemSet : option (list GetMetadataItemElt);
  nBands : Z;
  papoBands : list ProxyBandP
}.

Definition set_core (v : ProxyPoolDataset.t) (d : t) : t :=
  Build v (pszGCPProjection d) (nGCPCount d) (pasGCPList d) (metadataSet d)
    (metadataItemSet d) (nBands d) (papoBands d).
Definition set_pszGCPProjection (v : option string) (d : t) : t :=
  Build (core d) v (nGCPCount d) (pasGCPList d) (metadataSet d)
    (metadataItemSet d) (nBands d) (papoBands d).
Definition set_nGCPCount (v : Z) (d : t) : t :=
  Build (core d) (pszGCPProjection d) v (pasGCPList d) (metadataSet d)
    (metadataItemSet d) (nBands d) (papoBands d).
Definition set_pasGCPList (v : option (list GDAL_GCP)) (d : t) : t :=
  Build (core d) (pszGCPProjection d) (nGCPCount d) v (metadataSet d)
    (metadataItemSet d) (nBands d) (papoBands d).
Definition set_metadataSet (v : option (list GetMetadataElt)) (d : t) : t :=
  Build (core d) (pszGCPProjection d) (nGCPCount d) (pasGCPList d) v
    (metadataItemSet d) (nBands d) (papoBands d).
Definition set_metadataItemSet (v : option (list GetMetadataItemElt)) (d : t) : t :=
  Build (core d) (pszGCPProjection d) (nGCPCount d) (pasGCPList d)
    (metadataSet d) v (nBands d) (papoBands d).
Definition set_bands (n : Z) (v : list ProxyBandP) (d : t) : t :=
  Build (core d) (pszGCPProjection d) (nGCPCount d) (pasGCPList d)
    (metadataSet d) (metadataItemSet d) n v.
End ProxyDataset.

(** The members of [ProxyPoolDataset.t] that the operations below write. *)
Definition set_papszOpenOptions (v : option (list string))
    (d : ProxyPoolDataset.t) : ProxyPoolDataset.t :=
  ProxyPoolDataset.Build (ProxyPoolDataset.description d)
    (ProxyPoolDataset.nRasterXSize d) (ProxyPoolDataset.nRasterYSize d)
    (ProxyPoolDataset.eAccess d) (ProxyPoolDataset.bShared d)
    (ProxyPoolDataset.responsiblePID d) (ProxyPoolDataset.pszProjectionRef d)
    (ProxyPoolDataset.bHasSrcProjection d) (ProxyPoolDataset.adfGeoTransform d)
    (ProxyPoolDataset.bHasSrcGeoTransform d) v (ProxyPoolDataset.cacheEntry d).
Definition set_bHasSrcProjection (v : bool)
    (d : ProxyPoolDataset.t) : ProxyPoolDataset.t :=
  ProxyPoolDataset.Build (ProxyPoolDataset.description d)
    (ProxyPoolDataset.nRasterXSize d) (ProxyPoolDataset.nRasterYSize d)
    (ProxyPoolDataset.eAccess d) (ProxyPoolDataset.bShared d)
    (ProxyPoolDataset.responsiblePID d) (ProxyPoolDataset.pszProjectionRef d)
    v (ProxyPoolDataset.adfGeoTransform d)
    (ProxyPoolDataset.bHasSrcGeoTransform d)
    (ProxyPoolDataset.papszOpenOptions d) (ProxyPoolDataset.cacheEntry d).
Definition set_bHasSrcGeoTransform (v : bool)
    (d : ProxyPoolDataset.t) : ProxyPoolDataset.t :=
  ProxyPoolDataset.Build (ProxyPoolDataset.description d)
    (ProxyPoolDataset.nRasterXSize d) (ProxyPoolDataset.nRasterYSize d)
    (ProxyPoolDataset.eAccess d) (ProxyPoolDataset.bShared d)
    (ProxyPoolDataset.responsiblePID d) (ProxyPoolDataset.pszProjectionRef d)
    (ProxyPoolDataset.bHasSrcProjection d) (ProxyPoolDataset.adfGeoTransform d)
    v (ProxyPoolDataset.papszOpenOptions d) (ProxyPoolDataset.cacheEntry d).

Record Objects := BuildObjects {
  process : State;
  proxy : ProxyDataset.t;
  bands : gmap ProxyBandP ProxyBand.t
}.

Definition with_process (v : State) (o : Objects) : Objects :=
  BuildObjects v (proxy o) (bands o).
Definition with_proxy (v : ProxyDataset.t) (o : Objects) : Objects :=
  BuildObjects (process o) v (bands o).
Definition with_bands (v : gmap ProxyBandP ProxyBand.t) (o : Objects) : Objects :=
  BuildObjects (process o) (proxy o) v.

(** ** The monad over the objects *)

Definition MO (A : Type) : Type := Objects -> Res (A * Objects).

Definition retO {A} (a : A) : MO A := fun o => Ok (a, o).
Definition bindO {A B} (m : MO A) (k : A -> MO B) : MO B :=
  fun o => match m o with
           | Ok (a, o') => k a o'
           | Crash f => Crash f
           | OutOfFuel => OutOfFuel
           end.
Definition crashO {A} (f : Fault) : MO A := fun _ => Crash f.
Definition outOfFuelO {A} : MO A := fun _ => OutOfFuel.

Declare Scope obj_scope.
Delimit Scope obj_scope with obj.
Notation "x <- m ;; k" := (bindO m (fun x => k))
  (at level 100, m at next level, right associativity) : obj_scope.
Notation "m ;; k" := (bindO m (fun _ => k))
  (at level 100, right associativity) : obj_scope.

(** A computation of the process, run inside the objects. *)
Definition lift {A} (m : M A) : MO A :=
  fun o => match m (process o) with
           | Ok (a, st) => Ok (a, with_process st o)
           | Crash f => Crash f
           | OutOfFuel => OutOfFuel
           end.

(** [this->...] in a method of the proxy dataset. *)
Definition thisDS : MO ProxyDataset.t := fun o => Ok (proxy o, o).
Definition thisDS_set (f : ProxyDataset.t -> ProxyDataset.t) : MO unit :=
  fun o => Ok (tt, with_proxy (f (proxy o)) o).

(** [b->...] for a band pointer [b]. *)
Definition derefB (b : option ProxyBandP) : MO ProxyBandP :=
  match b with Some x => retO x | None => crashO NullPointerDereference end.

Definition loadB (b : ProxyBandP) : MO ProxyBand.t :=
  fun o => match bands o !! b with
           | Some x => Ok (x, o)
           | None => Crash InvalidPointer
           end.

Definition storeB (b : ProxyBandP) (f : ProxyBand.t -> ProxyBand.t) : MO unit :=
  fun o => match bands o !! b with
           | Some _ => Ok (tt, with_bands (alter f b (bands o)) o)
           | None => Crash InvalidPointer
           end.

(** [new] and [delete] of a band object. *)
Definition newB (x : ProxyBand.t) : MO ProxyBandP :=
  fun o =>
    let b := fresh (dom (bands o)) in
    Ok (b, with_bands (<[b := x]> (bands o)) o).

Definition deleteB (b : ProxyBandP) : MO unit :=
  fun o => match bands o !! b with
           | Some _ => Ok (tt, with_bands (delete b (bands o)) o)
           | None => Crash InvalidPointer
           end.

(** The chain of [poMainBand] pointers of a band is shorter than the number
    of bands, or it is a cycle. *)
Definition band_fuel (o : Objects) : nat := S (size (bands o)).

Section ProxyObjects.

Local Open Scope obj_scope.

Variable drv : Driver.
Variable src : Source.

(** Functions of the CPL library, which is not among the sources: they are
    parameters.  [CPLStrdupO] and [CSLDuplicate] return a copy of their
    argument, [CPLHashSetHashStr] and [CPLHashSetEqualStr] are the hash and
    the equality of strings that may be [NULL], and the two
    [CPLHashSetInsert]s add an element to a set that was created with the
    callbacks below. *)
Variable CPLStrdupO : string -> string.
Variable CSLDuplicate : option (list string) -> option (list string).
Variable CPLHashSetHashStr : option string -> Z.
Variable CPLHashSetEqualStr : option string -> option string -> Z.
Variable CPLHashSetInsert_GetMetadataElt :
  list GetMetadataElt -> GetMetadataElt -> list GetMetadataElt.
Variable CPLHashSetInsert_GetMetadataItemElt :
  list GetMetadataItemElt -> GetMetadataItemElt -> list GetMetadataItemElt.

(** [GDALDuplicateGCPs(nCount, pasGCPList)] of gdal_misc.cpp, a parameter
    as well. *)
Variable GDALDuplicateGCPs : Z -> option (list GDAL_GCP) -> option (list GDAL_GCP).

(** ** The callbacks of the metadata sets *)

(** [hash_func_get_metadata] and [equal_func_get_metadata]. *)
Definition hash_func_get_metadata (elt : GetMetadataElt) : Z :=
  CPLHashSetHashStr (elt_pszDomain elt).

Definition equal_func_get_metadata (elt1 elt2 : GetMetadataElt) : Z :=
  CPLHashSetEqualStr (elt_pszDomain elt1) (elt_pszDomain elt2).

(** [hash_func_get_metadata_item] and [equal_func_get_metadata_item]; the
    [&&] of C yields 0 or 1 and reads its right operand only when the left
    one is not 0. *)
Definition hash_func_get_metadata_item (elt : GetMetadataItemElt) : Z :=
  Z.lxor (CPLHashSetHashStr (item_pszName elt))
         (CPLHashSetHashStr (item_pszDomain elt)).

Definition equal_func_get_metadata_item (elt1 elt2 : GetMetadataItemElt) : Z :=
  if CPLHashSetEqualStr (item_pszName elt1) (item_pszName elt2) =? 0 then 0
  else if CPLHashSetEqualStr (item_pszDomain elt1) (item_pszDomain elt2) =? 0
       then 0 else 1.

(** ** GDALProxyPoolDataset, the remaining methods *)

(** [RefUnderlyingDataset] and [UnrefUnderlyingDataset] on the object: the
    first one writes the [cacheEntry] member. *)
Definition GDALProxyPoolDataset_RefUnderlyingDataset : MO (option GDALDatasetH) :=
  d <- thisDS ;;
  r <- lift (RefUnderlyingDataset drv (ProxyDataset.core d)) ;;
  thisDS_set (ProxyDataset.set_core (snd r)) ;;
  retO (fst r).

Definition GDALProxyPoolDataset_UnrefUnderlyingDataset
    (poUnderlyingDataset : option GDALDatasetH) : MO unit :=
  d <- thisDS ;;
  lift (UnrefUnderlyingDataset (ProxyDataset.core d) poUnderlyingDataset).

(** [GDALProxyPoolDataset::SetOpenOptions]. *)
Definition SetOpenOptions (papszOpenOptionsIn : option (list string)) : MO unit :=
  d <- thisDS ;;
  lift (CPLAssert
          (bool_decide (ProxyPoolDataset.papszOpenOptions (ProxyDataset.core d) = None))
          "papszOpenOptions == NULL") ;;
  thisDS_set (fun d =>
    ProxyDataset.set_core
      (set_papszOpenOptions (CSLDuplicate papszOpenOptionsIn) (ProxyDataset.core d))
      d).

(** The members that [GDALProxyPoolRasterBand::Init] and the constructors
    give a new band. *)
Definition new_band_members (class : ProxyBand.Class) (nBand : Z)
    (eDataType : GDALDataType) (nRasterXSize nRasterYSize : Z)
    (nBlockXSize nBlockYSize : Z) (poMainBand : option ProxyBandP)
    (nOverviewBand : Z) : ProxyBand.t :=
  {| ProxyBand.class := class;
     ProxyBand.nBand := nBand;
     ProxyBand.eDataType := eDataType;
     ProxyBand.nRasterXSize := nRasterXSize;
     ProxyBand.nRasterYSize := nRasterYSize;
     ProxyBand.nBlockXSize := nBlockXSize;
     ProxyBand.nBlockYSize := nBlockYSize;
     (* Init() *)
     ProxyBand.metadataSet := None;
     ProxyBand.metadataItemSet := None;
     ProxyBand.pszUnitType := None;
     ProxyBand.papszCategoryNames := None;
     ProxyBand.poColorTable := None;
     ProxyBand.nSizeProxyOverviewRasterBand := 0;
     ProxyBand.papoProxyOverviewRasterBand := [];
     ProxyBand.poProxyMaskBand := None;
     (* the derived classes *)
     ProxyBand.poMainBand := poMainBand;
     ProxyBand.nOverviewBand := nOverviewBand;
     ProxyBand.poUnderlyingMainRasterBand := None;
     ProxyBand.nRefCountUnderlyingMainRasterBand := 0 |}.

(** [GDALProxyPoolRasterBand(poDSIn, nBandIn, eDataTypeIn, nBlockXSizeIn,
    nBlockYSizeIn)], for an object of class [class]. *)
Definition new_band_described (class : ProxyBand.Class) (nBandIn : Z)
    (eDataTypeIn : GDALDataType) (nBlockXSizeIn nBlockYSizeIn : Z)
    (poMainBandIn : option ProxyBandP) : MO ProxyBandP :=
  d <- thisDS ;;
  newB (new_band_members class nBandIn eDataTypeIn
          (ProxyPoolDataset.nRasterXSize (ProxyDataset.core d))
          (ProxyPoolDataset.nRasterYSize (ProxyDataset.core d))
          nBlockXSizeIn nBlockYSizeIn poMainBandIn 0).

(** [GDALProxyPoolRasterBand(poDSIn, poUnderlyingRasterBand)], for an object
    of class [class]: the members are read from the underlying band. *)
Definition new_band_like (class : ProxyBand.Class)
    (poUnderlyingRasterBand : option GDALRasterBandH)
    (poMainBandIn : option ProxyBandP) (nOverviewBandIn : Z) : MO ProxyBandP :=
  u <- (match poUnderlyingRasterBand with
        | Some u => retO u
        | None => crashO NullPointerDereference
        end) ;;
  nBand <- lift (RBGetBand src u) ;;
  eDataType <- lift (RBGetRasterDataType src u) ;;
  nRasterXSize <- lift (RBGetXSize src u) ;;
  nRasterYSize <- lift (RBGetYSize src u) ;;
  bs <- lift (RBGetBlockSize src u) ;;
  newB (new_band_members class nBand eDataType nRasterXSize nRasterYSize
          (fst bs) (snd bs) poMainBandIn nOverviewBandIn).

(** Modelled from the spec: [GDALDataset::SetBand] of gdaldataset.cpp, which
    is not among the sources, for the band after the last one:
    "addSrcBandDescription appends a ProxyBand". *)
Definition SetBand (nNewBand : Z) (poBand : ProxyBandP) : MO unit :=
  thisDS_set (fun d =>
    ProxyDataset.set_bands nNewBand (ProxyDataset.papoBands d ++ [poBand]) d).

(** [GDALProxyPoolDataset::AddSrcBandDescription]. *)
Definition AddSrcBandDescription (eDataType : GDALDataType)
    (nBlockXSize nBlockYSize : Z) : MO unit :=
  d <- thisDS ;;
  n <- lift (int_succ (ProxyDataset.nBands d)) ;;
  b <- new_band_described ProxyBand.GDALProxyPoolRasterBand n eDataType
         nBlockXSize nBlockYSize None ;;
  SetBand n b.

(** Modelled from the spec: the methods of [GDALProxyDataset]
    (gdalproxydataset.cpp, not among the sources) that the methods below
    fall back on: "ref the underlying source, delegate, unref, and return",
    with the failure value when the source cannot be referenced. *)
Definition GDALProxyDataset_SetProjection (pszProjectionRefIn : option string)
    : MO CPLErr :=
  u <- GDALProxyPoolDataset_RefUnderlyingDataset ;;
  match u with
  | Some hDS =>
      ret_ <- lift (DSSetProjection src hDS pszProjectionRefIn) ;;
      GDALProxyPoolDataset_UnrefUnderlyingDataset (Some hDS) ;;
      retO ret_
  | None => retO CE_Failure
  end.

Definition GDALProxyDataset_SetGeoTransform (padfGeoTransform : list double)
    : MO CPLErr :=
  u <- GDALProxyPoolDataset_RefUnderlyingDataset ;;
  match u with
  | Some hDS =>
      ret_ <- lift (DSSetGeoTransform src hDS padfGeoTransform) ;;
      GDALProxyPoolDataset_UnrefUnderlyingDataset (Some hDS) ;;
      retO ret_
  | None => retO CE_Failure
  end.

Definition GDALProxyDataset_GetInternalHandle (pszRequest : option string)
    : MO (option InternalHandle) :=
  u <- GDALProxyPoolDataset_RefUnderlyingDataset ;;
  match u with
  | Some hDS =>
      ret_ <- lift (DSGetInternalHandle src hDS pszRequest) ;;
      GDALProxyPoolDataset_UnrefUnderlyingDataset (Some hDS) ;;
      retO ret_
  | None => retO None
  end.

(** [GDALProxyPoolDataset::SetProjection] and [SetGeoTransform]. *)
Definition SetProjection (pszProjectionRefIn : option string) : MO CPLErr :=
  thisDS_set (fun d =>
    ProxyDataset.set_core (set_bHasSrcProjection false (ProxyDataset.core d)) d) ;;
  GDALProxyDataset_SetProjection pszProjectionRefIn.

Definition SetGeoTransform (padfGeoTransform : list double) : MO CPLErr :=
  thisDS_set (fun d =>
    ProxyDataset.set_core (set_bHasSrcGeoTransform false (ProxyDataset.core d)) d) ;;
  GDALProxyDataset_SetGeoTransform padfGeoTransform.

(** [GetProjectionRef] and [GetGeoTransform] on the object. *)
Definition GDALProxyPoolDataset_GetProjectionRef : MO (option string) :=
  d <- thisDS ;;
  r <- lift (GetProjectionRef drv (ProxyDataset.core d)) ;;
  thisDS_set (ProxyDataset.set_core (snd r)) ;;
  retO (fst r).

Definition GDALProxyPoolDataset_GetGeoTransform
    : MO (CPLErr * option (list double)) :=
  d <- thisDS ;;
  r <- lift (GetGeoTransform drv (ProxyDataset.core d)) ;;
  thisDS_set (ProxyDataset.set_core (snd r)) ;;
  retO (fst r).

(** [GDALProxyPoolDataset::GetMetadata]. *)
Definition GDALProxyPoolDataset_GetMetadata (pszDomain : option string)
    : MO (option (list string)) :=
  d <- thisDS ;;
  (if bool_decide (ProxyDataset.metadataSet d = None)
   then thisDS_set (ProxyDataset.set_metadataSet (Some []))
   else retO tt) ;;
  poUnderlyingDataset <- GDALProxyPoolDataset_RefUnderlyingDataset ;;
  match poUnderlyingDataset with
  | None => retO None
  | Some hDS =>
      papszUnderlyingMetadata <- lift (DSGetMetadata src hDS pszDomain) ;;
      let pElt :=
        {| elt_pszDomain := CPLStrdupO <$> pszDomain;
           elt_papszMetadata := CSLDuplicate papszUnderlyingMetadata |} in
      d <- thisDS ;;
      set_ <- (match ProxyDataset.metadataSet d with
               | Some s => retO s
               | None => crashO NullPointerDereference
               end) ;;
      thisDS_set (ProxyDataset.set_metadataSet
                    (Some (CPLHashSetInsert_GetMetadataElt set_ pElt))) ;;
      GDALProxyPoolDataset_UnrefUnderlyingDataset (Some hDS) ;;
      retO (elt_papszMetadata pElt)
  end.

(** [GDALProxyPoolDataset::GetMetadataItem]. *)
Definition GDALProxyPoolDataset_GetMetadataItem (pszName pszDomain : option string)
    : MO (option string) :=
  d <- thisDS ;;
  (if bool_decide (ProxyDataset.metadataItemSet d = None)
   then thisDS_set (ProxyDataset.set_metadataItemSet (Some []))
   else retO tt) ;;
  poUnderlyingDataset <- GDALProxyPoolDataset_RefUnderlyingDataset ;;
  match poUnderlyingDataset with
  | None => retO None
  | Some hDS =>
      pszUnderlyingMetadataItem <-
        lift (DSGetMetadataItem src hDS pszName pszDomain) ;;
      let pElt :=
        {| item_pszName := CPLStrdupO <$> pszName;
           item_pszDomain := CPLStrdupO <$> pszDomain;
           item_pszMetadataItem := CPLStrdupO <$> pszUnderlyingMetadataItem |} in
      d <- thisDS ;;
      set_ <- (match ProxyDataset.metadataItemSet d with
               | Some s => retO s
               | None => crashO NullPointerDereference
               end) ;;
      thisDS_set (ProxyDataset.set_metadataItemSet
                    (Some (CPLHashSetInsert_GetMetadataItemElt set_ pElt))) ;;
      GDALProxyPoolDataset_UnrefUnderlyingDataset (Some hDS) ;;
      retO (item_pszMetadataItem pElt)
  end.

Definition internal_handle_message : string :=
  String.append
    "GetInternalHandle() cannot be safely called on a proxy pool dataset"
    (String.append newline
       (String.append
          "as the returned value may be invalidated at any time."
          newline)).

(** [GDALProxyPoolDataset::GetInternalHandle]. *)
Definition GetInternalHandle (pszRequest : option string)
    : MO (option InternalHandle) :=
  lift (CPLError CE_Warning CPLE_AppDefined internal_handle_message []) ;;
  GDALProxyDataset_GetInternalHandle pszRequest.

(** [GDALProxyPoolDataset::GetGCPProjection]. *)
Definition GetGCPProjection : MO (option string) :=
  poUnderlyingDataset <- GDALProxyPoolDataset_RefUnderlyingDataset ;;
  match poUnderlyingDataset with
  | None => retO None
  | Some hDS =>
      thisDS_set (ProxyDataset.set_pszGCPProjection None) ;;
      pszUnderlyingGCPProjection <- lift (DSGetGCPProjection src hDS) ;;
      (match pszUnderlyingGCPProjection with
       | Some s => thisDS_set (ProxyDataset.set_pszGCPProjection (Some (CPLStrdupO s)))
       | None => retO tt
       end) ;;
      GDALProxyPoolDataset_UnrefUnderlyingDataset (Some hDS) ;;
      d <- thisDS ;;
      retO (ProxyDataset.pszGCPProjection d)
  end.

(** [GDALProxyPoolDataset::GetGCPs]. *)
Definition GetGCPs : MO (option (list GDAL_GCP)) :=
  poUnderlyingDataset <- GDALProxyPoolDataset_RefUnderlyingDataset ;;
  match poUnderlyingDataset with
  | None => retO None
  | Some hDS =>
      d <- thisDS ;;
      (if ProxyDataset.nGCPCount d =? 0 then retO tt
       else thisDS_set (ProxyDataset.set_pasGCPList None)) ;;
      pasUnderlyingGCPList <- lift (DSGetGCPs src hDS) ;;
      n <- lift (DSGetGCPCount src hDS) ;;
      thisDS_set (ProxyDataset.set_nGCPCount n) ;;
      (if n =? 0 then retO tt
       else thisDS_set (ProxyDataset.set_pasGCPList
                          (GDALDuplicateGCPs n pasUnderlyingGCPList))) ;;
      GDALProxyPoolDataset_UnrefUnderlyingDataset (Some hDS) ;;
      d <- thisDS ;;
      retO (ProxyDataset.pasGCPList d)
  end.

(** The C entry point [GDALProxyPoolDatasetAddSrcBandDescription]. *)
Definition GDALProxyPoolDatasetAddSrcBandDescription (eDataType : GDALDataType)
    (nBlockXSize nBlockYSize : Z) : MO unit :=
  AddSrcBandDescription eDataType nBlockXSize nBlockYSize.

(** ** GDALProxyPoolRasterBand and its two derived classes *)

(** [RefUnderlyingRasterBand], a virtual method: the body is chosen by the
    class of the object.  The methods of the derived classes go through
    [poMainBand], which costs one unit of fuel. *)
Fixpoint RefUnderlyingRasterBand (fuel : nat) (b : ProxyBandP)
    : MO (option GDALRasterBandH) :=
  match fuel with
  | O => outOfFuelO
  | S fuel' =>
      this <- loadB b ;;
      match ProxyBand.class this with
      | ProxyBand.GDALProxyPoolRasterBand =>
          poUnderlyingDataset <- GDALProxyPoolDataset_RefUnderlyingDataset ;;
          match poUnderlyingDataset with
          | None => retO None
          | Some hDS =>
              poBand <- lift (DSGetRasterBand src hDS (ProxyBand.nBand this)) ;;
              (match poBand with
               | None => GDALProxyPoolDataset_UnrefUnderlyingDataset (Some hDS)
               | Some _ => retO tt
               end) ;;
              retO poBand
          end
      | ProxyBand.GDALProxyPoolOverviewRasterBand =>
          main <- derefB (ProxyBand.poMainBand this) ;;
          m <- RefUnderlyingRasterBand fuel' main ;;
          storeB b (ProxyBand.set_poUnderlyingMainRasterBand m) ;;
          match m with
          | None => retO None
          | Some hMain =>
              this <- loadB b ;;
              v <- lift (int_succ (ProxyBand.nRefCountUnderlyingMainRasterBand this)) ;;
              storeB b (ProxyBand.set_nRefCountUnderlyingMainRasterBand v) ;;
              this <- loadB b ;;
              lift (RBGetOverview src hMain (ProxyBand.nOverviewBand this))
          end
      | ProxyBand.GDALProxyPoolMaskBand =>
          main <- derefB (ProxyBand.poMainBand this) ;;
          m <- RefUnderlyingRasterBand fuel' main ;;
          storeB b (ProxyBand.set_poUnderlyingMainRasterBand m) ;;
          match m with
          | None => retO None
          | Some hMain =>
              this <- loadB b ;;
              v <- lift (int_succ (ProxyBand.nRefCountUnderlyingMainRasterBand this)) ;;
              storeB b (ProxyBand.set_nRefCountUnderlyingMainRasterBand v) ;;
              lift (RBGetMaskBand src hMain)
          end
      end
  end.

(** [UnrefUnderlyingRasterBand], virtual as well. *)
Fixpoint UnrefUnderlyingRasterBand (fuel : nat) (b : ProxyBandP)
    (poUnderlyingRasterBand : option GDALRasterBandH) : MO unit :=
  match fuel with
  | O => outOfFuelO
  | S fuel' =>
      this <- loadB b ;;
      match ProxyBand.class this with
      | ProxyBand.GDALProxyPoolRasterBand =>
          match poUnderlyingRasterBand with
          | Some u =>
              hDS <- lift (RBGetDataset src u) ;;
              GDALProxyPoolDataset_UnrefUnderlyingDataset hDS
          | None => retO tt
          end
      | ProxyBand.GDALProxyPoolOverviewRasterBand
      | ProxyBand.GDALProxyPoolMaskBand =>
          main <- derefB (ProxyBand.poMainBand this) ;;
          UnrefUnderlyingRasterBand fuel' main
            (ProxyBand.poUnderlyingMainRasterBand this) ;;
          this <- loadB b ;;
          v <- lift (int_pred (ProxyBand.nRefCountUnderlyingMainRasterBand this)) ;;
          storeB b (ProxyBand.set_nRefCountUnderlyingMainRasterBand v)
      end
  end.

(** [GDALProxyPoolRasterBand::AddSrcMaskBandDescription]; the constructor
    of the mask band passes the band number 1. *)
Definition AddSrcMaskBandDescription (b : ProxyBandP) (eDataTypeIn : GDALDataType)
    (nBlockXSizeIn nBlockYSizeIn : Z) : MO unit :=
  this <- loadB b ;;
  lift (CPLAssert (bool_decide (ProxyBand.poProxyMaskBand this = None))
          "poProxyMaskBand == NULL") ;;
  m <- new_band_described ProxyBand.GDALProxyPoolMaskBand 1 eDataTypeIn
         nBlockXSizeIn nBlockYSizeIn (Some b) ;;
  storeB b (ProxyBand.set_poProxyMaskBand (Some m)).

(** [GDALProxyPoolRasterBand::GetMetadata]. *)
Definition GDALProxyPoolRasterBand_GetMetadata (fuel : nat) (b : ProxyBandP)
    (pszDomain : option string) : MO (option (list string)) :=
  this <- loadB b ;;
  (if bool_decide (ProxyBand.metadataSet this = None)
   then storeB b (ProxyBand.set_metadataSet (Some []))
   else retO tt) ;;
  poUnderlyingRasterBand <- RefUnderlyingRasterBand fuel b ;;
  match poUnderlyingRasterBand with
  | None => retO None
  | Some u =>
      papszUnderlyingMetadata <- lift (RBGetMetadata src u pszDomain) ;;
      let pElt :=
        {| elt_pszDomain := CPLStrdupO <$> pszDomain;
           elt_papszMetadata := CSLDuplicate papszUnderlyingMetadata |} in
      this <- loadB b ;;
      set_ <- (match ProxyBand.metadataSet this with
               | Some s => retO s
               | None => crashO NullPointerDereference
               end) ;;
      storeB b (ProxyBand.set_metadataSet
                  (Some (CPLHashSetInsert_GetMetadataElt set_ pElt))) ;;
      UnrefUnderlyingRasterBand fuel b (Some u) ;;
      retO (elt_papszMetadata pElt)
  end.

(** [GDALProxyPoolRasterBand::GetMetadataItem]. *)
Definition GDALProxyPoolRasterBand_GetMetadataItem (fuel : nat) (b : ProxyBandP)
    (pszName pszDomain : option string) : MO (option string) :=
  this <- loadB b ;;
  (if bool_decide (ProxyBand.metadataItemSet this = None)
   then storeB b (ProxyBand.set_metadataItemSet (Some []))
   else retO tt) ;;
  poUnderlyingRasterBand <- RefUnderlyingRasterBand fuel b ;;
  match poUnderlyingRasterBand with
  | None => retO None
  | Some u =>
      pszUnderlyingMetadataItem <-
        lift (RBGetMetadataItem src u pszName pszDomain) ;;
      let pElt :=
        {| item_pszName := CPLStrdupO <$> pszName;
           item_pszDomain := CPLStrdupO <$> pszDomain;
           item_pszMetadataItem := CPLStrdupO <$> pszUnderlyingMetadataItem |} in
      this <- loadB b ;;
      set_ <- (match ProxyBand.metadataItemSet this with
               | Some s => retO s
               | None => crashO NullPointerDereference
               end) ;;
      storeB b (ProxyBand.set_metadataItemSet
                  (Some (CPLHashSetInsert_GetMetadataItemElt set_ pElt))) ;;
      UnrefUnderlyingRasterBand fuel b (Some u) ;;
      retO (item_pszMetadataItem pElt)
  end.

(** [GDALProxyPoolRasterBand::GetCategoryNames]. *)
Definition GetCategoryNames (fuel : nat) (b : ProxyBandP)
    : MO (option (list string)) :=
  poUnderlyingRasterBand <- RefUnderlyingRasterBand fuel b ;;
  match poUnderlyingRasterBand with
  | None => retO None
  | Some u =>
      storeB b (ProxyBand.set_papszCategoryNames None) ;;
      papszUnderlyingCategoryNames <- lift (RBGetCategoryNames src u) ;;
      (match papszUnderlyingCategoryNames with
       | Some _ =>
           storeB b (ProxyBand.set_papszCategoryNames
                       (CSLDuplicate papszUnderlyingCategoryNames))
       | None => retO tt
       end) ;;
      UnrefUnderlyingRasterBand fuel b (Some u) ;;
      this <- loadB b ;;
      retO (ProxyBand.papszCategoryNames this)
  end.

(** [GDALProxyPoolRasterBand::GetUnitType]. *)
Definition GetUnitType (fuel : nat) (b : ProxyBandP) : MO (option string) :=
  poUnderlyingRasterBand <- RefUnderlyingRasterBand fuel b ;;
  match poUnderlyingRasterBand with
  | None => retO None
  | Some u =>
      storeB b (ProxyBand.set_pszUnitType None) ;;
      pszUnderlyingUnitType <- lift (RBGetUnitType src u) ;;
      (match pszUnderlyingUnitType with
       | Some s => storeB b (ProxyBand.set_pszUnitType (Some (CPLStrdupO s)))
       | None => retO tt
       end) ;;
      UnrefUnderlyingRasterBand fuel b (Some u) ;;
      this <- loadB b ;;
      retO (ProxyBand.pszUnitType this)
  end.

(** [GDALProxyPoolRasterBand::GetColorTable]; [Clone] copies the table. *)
Definition GetColorTable (fuel : nat) (b : ProxyBandP)
    : MO (option GDALColorTable) :=
  poUnderlyingRasterBand <- RefUnderlyingRasterBand fuel b ;;
  match poUnderlyingRasterBand with
  | None => retO None
  | Some u =>
      storeB b (ProxyBand.set_poColorTable None) ;;
      poUnderlyingColorTable <- lift (RBGetColorTable src u) ;;
      (match poUnderlyingColorTable with
       | Some t => storeB b (ProxyBand.set_poColorTable (Some t))
       | None => retO tt
       end) ;;
      UnrefUnderlyingRasterBand fuel b (Some u) ;;
      this <- loadB b ;;
      retO (ProxyBand.poColorTable this)
  end.

(** [papoProxyOverviewRasterBand[i]], read and written. *)
Definition overview_slot (b : ProxyBandP) (i : Z) : MO (option ProxyBandP) :=
  this <- loadB b ;;
  if i <? 0 then crashO InvalidPointer
  else
    match ProxyBand.papoProxyOverviewRasterBand this !! Z.to_nat i with
    | Some x => retO x
    | None => crashO InvalidPointer
    end.

Definition overview_slot_set (b : ProxyBandP) (i : Z) (v : option ProxyBandP)
    : MO unit :=
  this <- loadB b ;;
  if (i <? 0) ||
     (Z.of_nat (length (ProxyBand.papoProxyOverviewRasterBand this)) <=? i)
  then crashO InvalidPointer
  else
    storeB b (fun this =>
      ProxyBand.set_papoProxyOverviewRasterBand
        (<[Z.to_nat i := v]> (ProxyBand.papoProxyOverviewRasterBand this)) this).

(** The [CPLRealloc] of [GetOverview] with the loop that follows it: the
    array keeps its first [nSizeProxyOverviewRasterBand] cells and has
    [nNewSize] cells, the new ones set to [NULL]. *)
Definition grow_overviews (b : ProxyBandP) (nNewSize : Z) : MO unit :=
  storeB b (fun this =>
    ProxyBand.set_papoProxyOverviewRasterBand
      (take (Z.to_nat (ProxyBand.nSizeProxyOverviewRasterBand this))
         (ProxyBand.papoProxyOverviewRasterBand this) ++
       replicate (Z.to_nat (nNewSize - ProxyBand.nSizeProxyOverviewRasterBand this))
         None)
      this) ;;
  storeB b (ProxyBand.set_nSizeProxyOverviewRasterBand nNewSize).

(** [GDALProxyPoolRasterBand::GetOverview]. *)
Definition GetOverview (fuel : nat) (b : ProxyBandP) (nOverviewBand : Z)
    : MO (option ProxyBandP) :=
  this <- loadB b ;;
  cached <- (if (0 <=? nOverviewBand) &&
                (nOverviewBand <? ProxyBand.nSizeProxyOverviewRasterBand this)
             then overview_slot b nOverviewBand
             else retO None) ;;
  match cached with
  | Some ov => retO (Some ov)
  | None =>
      poUnderlyingRasterBand <- RefUnderlyingRasterBand fuel b ;;
      match poUnderlyingRasterBand with
      | None => retO None
      | Some u =>
          poOverviewRasterBand <- lift (RBGetOverview src u nOverviewBand) ;;
          match poOverviewRasterBand with
          | None =>
              UnrefUnderlyingRasterBand fuel b (Some u) ;;
              retO None
          | Some _ =>
              this <- loadB b ;;
              (if ProxyBand.nSizeProxyOverviewRasterBand this <=? nOverviewBand
               then
                 n <- lift (int_succ nOverviewBand) ;;
                 grow_overviews b n
               else retO tt) ;;
              ov <- new_band_like ProxyBand.GDALProxyPoolOverviewRasterBand
                      poOverviewRasterBand (Some b) nOverviewBand ;;
              overview_slot_set b nOverviewBand (Some ov) ;;
              UnrefUnderlyingRasterBand fuel b (Some u) ;;
              overview_slot b nOverviewBand
          end
      end
  end.

(** [GDALProxyPoolRasterBand::GetRasterSampleOverview]. *)
Definition GetRasterSampleOverview (b : ProxyBandP) (nDesiredSamples : Z)
    : MO (option ProxyBandP) :=
  lift (CPLError CE_Failure CPLE_AppDefined
          "GDALProxyPoolRasterBand::GetRasterSampleOverview : not implemented yet"
          []) ;;
  retO None.

(** [GDALProxyPoolRasterBand::GetMaskBand]. *)
Definition GetMaskBand (fuel : nat) (b : ProxyBandP) : MO (option ProxyBandP) :=
  this <- loadB b ;;
  match ProxyBand.poProxyMaskBand this with
  | Some m => retO (Some m)
  | None =>
      poUnderlyingRasterBand <- RefUnderlyingRasterBand fuel b ;;
      match poUnderlyingRasterBand with
      | None => retO None
      | Some u =>
          poMaskBand <- lift (RBGetMaskBand src u) ;;
          m <- new_band_like ProxyBand.GDALProxyPoolMaskBand poMaskBand
                 (Some b) 0 ;;
          storeB b (ProxyBand.set_poProxyMaskBand (Some m)) ;;
          UnrefUnderlyingRasterBand fuel b (Some u) ;;
          this <- loadB b ;;
          retO (ProxyBand.poProxyMaskBand this)
      end
  end.

End ProxyObjects.

(** ** The vocabulary of the proxy objects *)

(** The objects once [RefUnderlyingDataset] has run, and once the reference
    it took on the entry [c] is given back. *)
Definition referenced (d1 : ProxyPoolDataset.t) (st1 : State) (o : Objects)
    : Objects :=
  with_proxy (ProxyDataset.set_core d1 (proxy o)) (with_process st1 o).

Definition released (c : addr) (e : CacheEntry.t) (st1 : State) : State :=
  with_heap
    (alter (CacheEntry.set_refCount (CacheEntry.refCount e - 1)) c (heap st1))
    st1.


(** The objects while the overview or mask band [ob] holds, through its
    main band, the underlying band [u]. *)
Definition holding (ob : ProxyBandP) (u : GDALRasterBandH) (o : Objects)
    : Objects :=
  with_bands
    (alter (fun x =>
              ProxyBand.set_nRefCountUnderlyingMainRasterBand
                (ProxyBand.nRefCountUnderlyingMainRasterBand x + 1)
                (ProxyBand.set_poUnderlyingMainRasterBand (Some u) x))
       ob (bands o)) o.

(** And once it has given that band back. *)
Definition handed_back (ob : ProxyBandP) (u : GDALRasterBandH) (o : Objects)
    : Objects :=
  with_bands
    (alter (ProxyBand.set_poUnderlyingMainRasterBand (Some u)) ob (bands o)) o.

(** The bands of the dataset are numbered from 1 in the order of
    [papoBands], and [nBands] counts them. *)
Definition bands_numbered (o : Objects) : Prop :=
  ProxyDataset.nBands (proxy o)
    = Z.of_nat (length (ProxyDataset.papoBands (proxy o))) /\
  forall (i : nat) b,
    ProxyDataset.papoBands (proxy o) !! i = Some b ->
    exists x, bands o !! b = Some x /\ ProxyBand.nBand x = Z.of_nat i + 1 /\
              ProxyBand.class x = ProxyBand.GDALProxyPoolRasterBand.

(** ** Concrete objects *)

(** A world in which every open gives the dataset 42. *)
Definition steady_world : World :=
  {| open_result := fun _ _ _ _ => Some 42%nat;
     projection_of := fun _ => Some "UNDERLYING"%string;
     geotransform_of := fun _ => (CE_None, [1; 2; 3; 4; 5; 6]) |}.

(** An underlying dataset with one band, the band 50; the band has the
    overviews 0 and 1 and a mask band.  Writes of the projection succeed,
    writes of the geotransform fail. *)
Definition demo_source : Source :=
  {| DSSetProjection := fun _ _ => ret CE_None;
     DSSetGeoTransform := fun _ _ => ret CE_Failure;
     DSGetMetadata := fun _ _ => ret (Some ["AREA_OR_POINT=Area"%string]);
     DSGetMetadataItem := fun _ _ _ => ret (Some "Area"%string);
     DSGetInternalHandle := fun _ _ => ret None;
     DSGetGCPProjection := fun _ => ret (Some "WGS84"%string);
     DSGetGCPs := fun _ => ret (Some [1%nat; 2%nat]);
     DSGetGCPCount := fun _ => ret 2;
     DSGetRasterBand := fun _ n => ret (if n =? 1 then Some 50%nat else None);
     RBGetDataset := fun _ => ret (Some 42%nat);
     RBGetBand := fun _ => ret 1;
     RBGetRasterDataType := fun _ => ret 1;
     RBGetXSize := fun _ => ret 5;
     RBGetYSize := fun _ => ret 5;
     RBGetBlockSize := fun _ => ret (5, 1);
     RBGetMetadata := fun _ _ => ret (Some ["STATISTICS_MINIMUM=0"%string]);
     RBGetMetadataItem := fun _ _ _ => ret (Some "0"%string);
     RBGetCategoryNames := fun _ => ret (Some ["water"%string; "land"%string]);
     RBGetUnitType := fun _ => ret (Some "m"%string);
     RBGetColorTable := fun _ => ret (Some 3%nat);
     RBGetOverview := fun _ n =>
       ret (if (0 <=? n) && (n <? 2) then Some (51 + Z.to_nat n)%nat else None);
     RBGetMaskBand := fun _ => ret (Some 60%nat) |}.

Definition demo_CSLDuplicate (l : option (list string)) : option (list string) := l.
Definition demo_CPLStrdupO (s : string) : string := s.
Definition demo_GDALDuplicateGCPs (n : Z) (l : option (list GDAL_GCP))
    : option (list GDAL_GCP) :=
  Some (take (Z.to_nat n) (default [] l)).
Definition demo_CPLHashSetInsert {A} (s : list A) (x : A) : list A := x :: s.

(** A string hash and the equality that goes with it. *)
Definition demo_CPLHashSetHashStr (s : option string) : Z :=
  match s with Some s => Z.of_nat (String.length s) | None => 0 end.
Definition demo_CPLHashSetEqualStr (a b : option string) : Z :=
  if bool_decide (a = b) then 1 else 0.

(** The proxy of ["C"] on a new pool, without bands. *)
Definition empty_objects : Objects :=
  {| process := fresh_state;
     proxy := {| ProxyDataset.core := demo_proxy;
                 ProxyDataset.pszGCPProjection := None;
                 ProxyDataset.nGCPCount := 0;
                 ProxyDataset.pasGCPList := None;
                 ProxyDataset.metadataSet := None;
                 ProxyDataset.metadataItemSet := None;
                 ProxyDataset.nBands := 0;
                 ProxyDataset.papoBands := [] |};
     bands := ∅ |}.

(** The same with its band 1 at address 0. *)
Definition demo_band : ProxyBand.t :=
  new_band_members ProxyBand.GDALProxyPoolRasterBand 1 1 10 10 5 1 None 0.

Definition demo_objects : Objects :=
  with_proxy (ProxyDataset.set_bands 1 [0%nat] (proxy empty_objects))
    (with_bands {[ 0%nat := demo_band ]} empty_objects).

(** And with the proxies of the overview 0 (address 1) and of the mask band
    (address 2) of that band. *)
Definition derived_objects : Objects :=
  with_bands
    (<[0%nat := ProxyBand.set_poProxyMaskBand (Some 2%nat)
                  (ProxyBand.set_nSizeProxyOverviewRasterBand 1
                     (ProxyBand.set_papoProxyOverviewRasterBand [Some 1%nat]
                        demo_band))]>
     (<[1%nat := new_band_members ProxyBand.GDALProxyPoolOverviewRasterBand
                   1 1 5 5 5 1 (Some 0%nat) 0]>
      (<[2%nat := new_band_members ProxyBand.GDALProxyPoolMaskBand
                    1 1 10 10 5 1 (Some 0%nat) 0]> ∅)))
    demo_objects.

(** An overview band for the overview 2, which the underlying band does not
    have. *)
Definition missing_overview_objects : Objects :=
  with_bands
    (<[1%nat := new_band_members ProxyBand.GDALProxyPoolOverviewRasterBand
                  1 1 5 5 5 1 (Some 0%nat) 2]> (bands derived_objects))
    derived_objects.

(** A full pool of three datasets: ["C"] at address 2 is the first entry,
    ["A"] at address 0 the last, and only ["B"] in the middle has no
    reference. *)
Definition three_pool : GDALDatasetPool :=
  {| refCount := 1; maxSize := 3; currentSize := 3;
     firstEntry := Some 2%nat; lastEntry := Some 0%nat;
     refCountOfDisableRefCount := 0 |}.

Definition three_state : State :=
  {| singleton := Some three_pool;
     heap := <[2%nat := CacheEntry.Build 7 "C" (Some 12%nat) 1 None (Some 1%nat)]>
               (<[1%nat := CacheEntry.Build 7 "B" (Some 11%nat) 0 (Some 2%nat)
                             (Some 0%nat)]>
                  (<[0%nat := CacheEntry.Build 7 "A" (Some 10%nat) 1 (Some 1%nat)
                                None]> ∅));
     tlsResponsiblePID := 9;
     configOptions := {[ "GDAL_MAX_DATASET_POOL_SIZE"%string := "3"%string ]};
     trace := [] |}.

(** ** A driver whose datasets own a proxy

    A dataset that holds a proxy dataset from its open to its close, as a
    virtual dataset holds its sources: [GDALOpenEx] constructs the proxy and
    [GDALClose] destroys it.  [inner] says, per file name, which proxy is
    constructed, and [owned], per dataset, which proxy object it holds. *)
Definition owningDriver (CPLStrdup : option string -> string) (w : World)
    (inner : string -> option InnerProxy)
    (owned : GDALDatasetH -> option ProxyPoolDataset.t) : Driver :=
  {| GDALOpenEx := fun pszFileName nFlag papszOpenOptions =>
       (match inner pszFileName with
        | Some ip =>
            _ <- GDALProxyPoolDataset_new CPLStrdup (ip_description ip) 0 0
                   (ip_eAccess ip) (ip_bShared ip) (ip_projection ip)
                   (ip_geotransform ip) ;;
            ret tt
        | None => ret tt
        end) ;;
       GDALOpenEx (recDriver w) pszFileName nFlag papszOpenOptions;
     GDALClose := fun hDS =>
       (match owned hDS with
        | Some d => GDALProxyPoolDataset_delete (recDriver w) d
        | None => ret tt
        end) ;;
       GDALClose (recDriver w) hDS;
     DSGetProjectionRef := DSGetProjectionRef (recDriver w);
     DSGetGeoTransform := DSGetGeoTransform (recDriver w) |}.

(** The proxy for ["inner.tif"] that [demo_inner] describes, as its
    constructor leaves it under the PID 7. *)
Definition inner_object : ProxyPoolDataset.t :=
  {| ProxyPoolDataset.description := "inner.tif";
     ProxyPoolDataset.nRasterXSize := 0;
     ProxyPoolDataset.nRasterYSize := 0;
     ProxyPoolDataset.eAccess := GA_ReadOnly;
     ProxyPoolDataset.bShared := 0;
     ProxyPoolDataset.responsiblePID := 7;
     ProxyPoolDataset.pszProjectionRef := Some ""%string;
     ProxyPoolDataset.bHasSrcProjection := true;
     ProxyPoolDataset.adfGeoTransform :=
       [double_0; double_1; double_0; double_0; double_0; double_1];
     ProxyPoolDataset.bHasSrcGeoTransform := false;
     ProxyPoolDataset.papszOpenOptions := None;
     ProxyPoolDataset.cacheEntry := None |}.




(** * Properties *)

Section ListLemmas.

Implicit Types (h : gmap addr CacheEntry.t) (l : list addr) (a : addr).

Lemma hd_or_app l1 l2 n : hd_or (l1 ++ l2) n = hd_or l1 (hd_or l2 n).
Proof. by destruct l1. Qed.

Lemma last_or_cons p a l : last_or p (a :: l) = last_or (Some a) l.
Proof. unfold last_or. destruct l as [|b l]; [done|]. simpl.
  by destruct (last (b :: l)) eqn:E; [|by apply last_None in E]. Qed.

Lemma head_hd_or l : head l = hd_or l None.
Proof. by destruct l. Qed.

Lemma last_last_or l : last l = last_or None l.
Proof. unfold last_or. by destruct (last l). Qed.

Lemma dlseg_app h p l1 l2 n :
  dlseg h p (l1 ++ l2) n <->
  dlseg h p l1 (hd_or l2 n) /\ dlseg h (last_or p l1) l2 n.
Proof.
  revert p. induction l1 as [|a l1 IH]; intros p; simpl.
  - tauto.
  - destruct (h !! a) as [e|]; [|tauto].
    rewrite IH, hd_or_app, last_or_cons. tauto.
Qed.

Lemma dlseg_cons h p a l n e :
  h !! a = Some e ->
  dlseg h p (a :: l) n <->
  CacheEntry.prev e = p /\ CacheEntry.next e = hd_or l n /\
  dlseg h (Some a) l n.
Proof. intros He. simpl. by rewrite He. Qed.

Lemma dlseg_lookup h p l n a : dlseg h p l n -> a ∈ l -> is_Some (h !! a).
Proof.
  revert p. induction l as [|b l IH]; intros p H Hin; [by inversion Hin|].
  simpl in H. destruct (h !! b) as [e|] eqn:E; [|done].
  apply elem_of_cons in Hin as [->|Hin]; [by rewrite E|].
  destruct H as (_ & _ & H). eauto.
Qed.

Lemma dlseg_agree h h' p l n :
  (forall a, a ∈ l ->
     match h !! a, h' !! a with
     | Some e, Some e' => CacheEntry.prev e' = CacheEntry.prev e /\
                          CacheEntry.next e' = CacheEntry.next e
     | None, _ => True
     | Some _, None => False
     end) ->
  dlseg h p l n -> dlseg h' p l n.
Proof.
  revert p. induction l as [|b l IH]; intros p Hag H; [done|].
  simpl in *. pose proof (Hag b (list_elem_of_here _ _)) as Hb.
  destruct (h !! b) as [e|]; [|done]. destruct (h' !! b) as [e'|]; [|done].
  destruct Hb as [-> ->]. destruct H as (? & ? & H). repeat split; [done..|].
  apply IH; [|done]. intros a Ha. apply Hag. by apply list_elem_of_further.
Qed.

Lemma dlseg_alter_notin h f a p l n :
  a ∉ l -> dlseg h p l n -> dlseg (alter f a h) p l n.
Proof.
  intros Hni. apply dlseg_agree. intros b Hb.
  rewrite lookup_alter_ne by (intros ->; done).
  by destruct (h !! b).
Qed.

Lemma dlseg_insert_notin h e a p l n :
  a ∉ l -> dlseg h p l n -> dlseg (<[a:=e]> h) p l n.
Proof.
  intros Hni. apply dlseg_agree. intros b Hb.
  rewrite lookup_insert_ne by (intros ->; done).
  by destruct (h !! b).
Qed.

Lemma dlseg_alter_content h f a p l n :
  (forall e, CacheEntry.prev (f e) = CacheEntry.prev e /\
             CacheEntry.next (f e) = CacheEntry.next e) ->
  dlseg h p l n -> dlseg (alter f a h) p l n.
Proof.
  intros Hf. apply dlseg_agree. intros b Hb.
  destruct (decide (a = b)) as [->|Hne].
  - rewrite lookup_alter_eq. destruct (h !! b); simpl; [apply Hf|done].
  - rewrite lookup_alter_ne by done. by destruct (h !! b).
Qed.

Lemma dlseg_set_prev_head h a v p l n :
  a ∉ l -> dlseg h p (a :: l) n ->
  dlseg (alter (CacheEntry.set_prev v) a h) v (a :: l) n.
Proof.
  intros Hni H. simpl in *. rewrite lookup_alter_eq.
  destruct (h !! a) as [e|]; [|done]. simpl.
  destruct H as (_ & ? & H). repeat split; [done|].
  by apply dlseg_alter_notin.
Qed.

Lemma dlseg_set_next_last h a v p l n :
  a ∉ l -> dlseg h p (l ++ [a]) n ->
  dlseg (alter (CacheEntry.set_next v) a h) p (l ++ [a]) v.
Proof.
  intros Hni H. apply dlseg_app in H as [H1 H2]. apply dlseg_app. split.
  - simpl in *. by apply dlseg_alter_notin.
  - simpl in *. rewrite lookup_alter_eq.
    destruct (h !! a) as [e|]; [|done]. simpl. tauto.
Qed.

(** A list without repetition that lives in the heap has at most as many
    cells as the heap: the fuel of the scans is enough. *)
Lemma dlseg_length h p l n :
  NoDup l -> dlseg h p l n -> (length l <= size h)%nat.
Proof.
  intros Hnd H.
  rewrite <- (size_dom (D:=gset addr)).
  rewrite <- (size_list_to_set (C:=gset addr) l) by done.
  apply subseteq_size. intros a Ha. apply elem_of_list_to_set in Ha.
  apply elem_of_dom. eauto using dlseg_lookup.
Qed.

End ListLemmas.

Arguments dlseg : simpl never.

(** ** Running the monad *)

Section Run.

Context {A B : Type}.

Lemma bind_ok (m : M A) (k : A -> M B) st a st' :
  m st = Ok (a, st') -> bind m k st = k a st'.
Proof. unfold bind. by intros ->. Qed.

End Run.

Lemma load_ok a e st : heap st !! a = Some e -> load a st = Ok (e, st).
Proof. unfold load. by intros ->. Qed.

Lemma store_ok a f st :
  is_Some (heap st !! a) ->
  store a f st = Ok (tt, with_heap (alter f a (heap st)) st).
Proof. unfold store. by intros [e ->]. Qed.

Lemma this_ok p st : singleton st = Some p -> this st = Ok (p, st).
Proof. unfold this. by intros ->. Qed.

Lemma this_set_ok f p st :
  singleton st = Some p ->
  this_set f st = Ok (tt, with_singleton (Some (f p)) st).
Proof. unfold this_set. by intros ->. Qed.

Lemma int_succ_ok x st : x < INT_MAX -> int_succ x st = Ok (x + 1, st).
Proof. unfold int_succ. intros H. apply Z.ltb_lt in H. by rewrite H. Qed.

Lemma int_pred_ok x st : INT_MIN < x -> int_pred x st = Ok (x - 1, st).
Proof. unfold int_pred. intros H. apply Z.ltb_lt in H. by rewrite H. Qed.

Lemma is_Some_alter (h : gmap addr CacheEntry.t) f a b :
  is_Some (h !! b) -> is_Some (alter f a h !! b).
Proof.
  intros [e He]. destruct (decide (a = b)) as [->|Hne].
  - rewrite lookup_alter_eq, He. by eexists.
  - rewrite lookup_alter_ne by done. by rewrite He.
Qed.

Lemma content_at_alter (h : gmap addr CacheEntry.t) f a b :
  (forall e, CacheEntry.content (f e) = CacheEntry.content e) ->
  content_at (alter f a h) b = content_at h b.
Proof.
  intros Hf. unfold content_at. destruct (decide (a = b)) as [->|Hne].
  - rewrite lookup_alter_eq. destruct (h !! b); simpl; [by rewrite Hf|done].
  - by rewrite lookup_alter_ne.
Qed.

Lemma content_at_alter_ne (h : gmap addr CacheEntry.t) f a b :
  a <> b -> content_at (alter f a h) b = content_at h b.
Proof. intros Hne. unfold content_at. by rewrite lookup_alter_ne. Qed.

#[local] Hint Resolve is_Some_alter : core.

Ltac simpl_state :=
  cbn [heap singleton tlsResponsiblePID configOptions trace
       with_heap with_singleton with_tlsResponsiblePID with_trace] in *.

(** Rewrites the first statement of a sequence with its outcome. *)
Ltac step E := rewrite (bind_ok _ _ _ _ _ E); cbn beta iota.

Ltac step_load H :=
  lazymatch type of H with
  | _ !! ?a = Some ?e =>
      rewrite (bind_ok (load a) _ _ e _ (load_ok a e _ H)); cbn beta iota
  end.

Ltac step_load_in H :=
  erewrite bind_ok
    by (apply load_ok; simpl_state; rewrite ?lookup_alter_ne by done; exact H).

Ltac step_store :=
  lazymatch goal with
  | |- bind (store ?a ?f) _ ?st = _ =>
      rewrite (bind_ok (store a f) _ st tt _ (store_ok a f st ltac:(simpl; eauto)));
      cbn beta iota; simpl_state
  end.

Lemma NoDup_middle (l1 l2 : list addr) c :
  NoDup (l1 ++ c :: l2) ->
  NoDup (l1 ++ l2) /\ c ∉ l1 ++ l2.
Proof.
  intros H. apply NoDup_app in H as (H1 & H12 & H2).
  apply NoDup_cons in H2 as [Hc H2]. split.
  - apply NoDup_app. repeat split; [done| |done].
    intros x Hx Hx2. apply (H12 x Hx). by apply list_elem_of_further.
  - intros Hin. apply elem_of_app in Hin as [Hin|Hin]; [|done].
    apply (H12 c Hin). apply list_elem_of_here.
Qed.

Lemma content_set_prev v e :
  CacheEntry.content (CacheEntry.set_prev v e) = CacheEntry.content e.
Proof. done. Qed.
Lemma content_set_next v e :
  CacheEntry.content (CacheEntry.set_next v e) = CacheEntry.content e.
Proof. done. Qed.

#[local] Hint Resolve content_set_prev content_set_next : core.

Lemma move_to_begin_relink_ok st p c l :
  singleton st = Some p -> detached p (heap st) c l -> l <> [] ->
  exists st' p',
    move_to_begin_relink c st = Ok (tt, st') /\
    list_step st st' p p' /\
    NoDup (c :: l) /\ firstEntry p' = Some c /\ lastEntry p' = last (c :: l) /\
    dlseg (heap st') None (c :: l) None.
Proof.
  intros Hs [Hnd Hni Hf Hl Hlk Hc] Hne.
  destruct l as [|f l]; [done|]. simpl in Hf.
  destruct Hc as [ec Hc].
  assert (Hcf : c <> f) by (intros ->; apply Hni, list_elem_of_here).
  assert (Hff : is_Some (heap st !! f)).
  { eapply dlseg_lookup; [done|]. apply list_elem_of_here. }
  eexists _, (set_firstEntry (Some c) p). split.
  { unfold move_to_begin_relink.
    step_store.
    erewrite bind_ok by (by apply this_ok). rewrite Hf. simpl deref.
    erewrite bind_ok by reflexivity. cbn beta.
    step_store.
    erewrite bind_ok by (by apply this_ok). rewrite Hf.
    step_store.
    by apply this_set_ok. }
  simpl_state.
  split; [|split; [|split; [done|split]]].
  - split; [done|]. split; [done|]. split; [done|].
    intros a. simpl. by rewrite !content_at_alter.
  - apply NoDup_cons. done.
  - simpl. rewrite Hl. done.
  - eapply dlseg_cons.
    { by rewrite lookup_alter_eq, lookup_alter_ne, lookup_alter_eq, Hc. }
    simpl. split; [done|]. split; [done|].
    apply dlseg_alter_notin; [done|].
    apply NoDup_cons in Hnd as [Hfl _].
    eapply dlseg_set_prev_head; [done|].
    apply dlseg_alter_notin; [done|]. exact Hlk.
Qed.

Lemma recycle_relink_ok st p c l :
  singleton st = Some p -> detached p (heap st) c l -> l <> [] ->
  exists st' p',
    recycle_relink c st = Ok (tt, st') /\
    list_step st st' p p' /\
    NoDup (c :: l) /\ firstEntry p' = Some c /\ lastEntry p' = last (c :: l) /\
    dlseg (heap st') None (c :: l) None.
Proof.
  intros Hs [Hnd Hni Hf Hl Hlk Hc] Hne.
  destruct l as [|f l]; [done|]. simpl in Hf.
  destruct Hc as [ec Hc].
  assert (Hcf : c <> f) by (intros ->; apply Hni, list_elem_of_here).
  assert (Hff : is_Some (heap st !! f)).
  { eapply dlseg_lookup; [done|]. apply list_elem_of_here. }
  eexists _, (set_firstEntry (Some c) p). split.
  { unfold recycle_relink.
    step_store.
    erewrite bind_ok by (by apply this_ok). rewrite Hf.
    step_store.
    erewrite bind_ok by (by apply this_ok). rewrite Hf. simpl deref.
    erewrite bind_ok by reflexivity. cbn beta.
    step_store.
    by apply this_set_ok. }
  simpl_state.
  split; [|split; [|split; [done|split]]].
  - split; [done|]. split; [done|]. split; [done|].
    intros a. simpl. by rewrite !content_at_alter.
  - apply NoDup_cons. done.
  - simpl. rewrite Hl. done.
  - eapply dlseg_cons.
    { by rewrite lookup_alter_ne, lookup_alter_eq, lookup_alter_eq, Hc. }
    simpl. split; [done|]. split; [done|].
    apply NoDup_cons in Hnd as [Hfl _].
    eapply dlseg_set_prev_head; [done|].
    apply dlseg_alter_notin; [done|].
    apply dlseg_alter_notin; [done|]. exact Hlk.
Qed.

(** The cell in the middle of a chain and the two halves around it. *)
Lemma dlseg_middle h l1 c l2 :
  dlseg h None (l1 ++ c :: l2) None ->
  exists ec, h !! c = Some ec /\
    CacheEntry.prev ec = last l1 /\ CacheEntry.next ec = head l2 /\
    dlseg h None l1 (Some c) /\ dlseg h (Some c) l2 None.
Proof.
  intros H. apply dlseg_app in H as [H1 H2].
  destruct (h !! c) as [ec|] eqn:Ec.
  - pose proof (proj1 (dlseg_cons _ _ _ _ _ _ Ec) H2) as (Hp & Hn & H2').
    exists ec. rewrite last_last_or, head_hd_or. done.
  - unfold dlseg in H2. by rewrite Ec in H2.
Qed.

Lemma detached_of_halves p h c l1 l2 :
  NoDup (l1 ++ c :: l2) -> l1 <> [] ->
  firstEntry p = head l1 ->
  lastEntry p = last (l1 ++ l2) ->
  is_Some (h !! c) ->
  dlseg h None l1 (head l2) -> dlseg h (last l1) l2 None ->
  detached p h c (l1 ++ l2).
Proof.
  intros Hnd Hne Hf Hl Hc H1 H2.
  apply NoDup_middle in Hnd as [Hnd Hni].
  split; try done.
  - rewrite Hf. by destruct l1.
  - apply dlseg_app. by rewrite <- head_hd_or, <- last_last_or.
Qed.

Lemma last_app_cons {X} (l1 : list X) x l2 :
  last (l1 ++ x :: l2) = last (x :: l2).
Proof. rewrite last_app. by destruct (last (x :: l2)) eqn:E; [|apply last_None in E]. Qed.

Lemma move_to_begin_unlink_ok st p l1 c l2 :
  singleton st = Some p -> l1 <> [] ->
  NoDup (l1 ++ c :: l2) ->
  firstEntry p = head (l1 ++ c :: l2) ->
  lastEntry p = last (l1 ++ c :: l2) ->
  dlseg (heap st) None (l1 ++ c :: l2) None ->
  exists st' p',
    move_to_begin_unlink c st = Ok (tt, st') /\
    list_step st st' p p' /\
    detached p' (heap st') c (l1 ++ l2).
Proof.
  intros Hs Hne Hnd Hf Hl Hlk.
  destruct (dlseg_middle _ _ _ _ Hlk) as (ec & Hc & Hprev & Hnext & H1 & H2).
  assert (Hf' : firstEntry p = head l1) by (rewrite Hf; by destruct l1).
  destruct (exists_last Hne) as (l1' & pp & ->).
  rewrite last_snoc in Hprev.
  pose proof Hnd as Hnd0.
  apply NoDup_app in Hnd as (Hnd1 & Hd12 & Hnd2).
  apply NoDup_app in Hnd1 as (_ & Hpp & _).
  assert (Hppin : pp ∈ l1' ++ [pp]) by (apply elem_of_app; right; apply list_elem_of_here).
  assert (Hcpp : pp <> c) by (intros ->; apply (Hd12 c Hppin), list_elem_of_here).
  assert (Hpp1 : pp ∉ l1') by (intros Hin; apply (Hpp pp Hin), list_elem_of_here).
  assert (Hpp2 : pp ∉ l2).
  { intros Hin. apply (Hd12 pp Hppin). by apply list_elem_of_further. }
  assert (Hpps : is_Some (heap st !! pp)).
  { eapply dlseg_lookup; [exact H1|exact Hppin]. }
  apply NoDup_cons in Hnd2 as [Hc2 Hnd2].
  destruct l2 as [|n l2].
  - (* [cur] is the last entry *)
    eexists _, (set_lastEntry (Some pp) p). split.
    { unfold move_to_begin_unlink.
      step_load Hc. rewrite Hnext. cbn [head].
      erewrite bind_ok by (by apply this_set_ok).
      erewrite bind_ok by (by apply load_ok).
      rewrite Hprev. simpl deref. erewrite bind_ok by reflexivity. cbn beta.
      rewrite Hnext. by apply store_ok. }
    unfold list_step. simpl_state. split.
    { split; [done|]. split; [done|]. split; [done|].
      intros a. by rewrite content_at_alter. }
    apply detached_of_halves; try done.
    + by rewrite app_nil_r, last_snoc.
    + by apply is_Some_alter.
    + eapply dlseg_set_next_last; [done|]. exact H1.
  - (* [cur] has a successor [n] *)
    assert (Hnc : n <> c) by (intros ->; apply Hc2, list_elem_of_here).
    assert (Hnpp : n <> pp) by (intros ->; apply Hpp2, list_elem_of_here).
    assert (Hn1 : n ∉ l1' ++ [pp]).
    { intros Hin. apply (Hd12 n Hin). apply list_elem_of_further, list_elem_of_here. }
    assert (Hn2 : n ∉ l2) by (by apply NoDup_cons in Hnd2 as [? _]).
    assert (Hns : is_Some (heap st !! n)).
    { eapply dlseg_lookup; [exact H2|]. apply list_elem_of_here. }
    eexists _, p. split.
    { unfold move_to_begin_unlink.
      step_load Hc. rewrite Hnext. cbn [head].
      step_store.
      erewrite bind_ok
        by (apply load_ok; simpl_state; rewrite lookup_alter_ne by done; exact Hc).
      rewrite Hprev. simpl deref. erewrite bind_ok by reflexivity. cbn beta.
      rewrite Hnext. apply store_ok. simpl_state. by apply is_Some_alter. }
    unfold list_step. simpl_state. split.
    { split; [done|]. split; [done|]. split; [done|].
      intros a. by rewrite !content_at_alter. }
    apply detached_of_halves; try done.
    + rewrite Hl. by rewrite !last_app_cons.
    + by do 2 apply is_Some_alter.
    + simpl head. eapply dlseg_set_next_last; [done|].
      apply dlseg_alter_notin; [done|]. exact H1.
    + rewrite last_snoc. apply dlseg_alter_notin; [done|].
      eapply dlseg_set_prev_head; [done|]. exact H2.
Qed.

Lemma same_counters_refl p : same_counters p p.
Proof. by repeat split. Qed.

Lemma same_outside_refl st : same_outside st st.
Proof. by repeat split. Qed.

Lemma list_step_trans st1 st2 st3 p1 p2 p3 :
  list_step st1 st2 p1 p2 -> list_step st2 st3 p2 p3 -> list_step st1 st3 p1 p3.
Proof.
  intros (_ & (?&?&?&?) & (?&?&?) & Hc1) (Hs & (?&?&?&?) & (?&?&?) & Hc2).
  split; [done|]. repeat split; congruence.
Qed.

Lemma move_to_begin_ok st p l1 c l2 :
  singleton st = Some p -> wf_pool p (heap st) (l1 ++ c :: l2) -> l1 <> [] ->
  exists st' p',
    move_to_begin c st = Ok (tt, st') /\
    list_step st st' p p' /\
    wf_pool p' (heap st') (c :: l1 ++ l2).
Proof.
  intros Hs [Hnd Hf Hl Hsz Hlk] Hne.
  destruct (move_to_begin_unlink_ok st p l1 c l2)
    as (st1 & p1 & E1 & Hstep1 & Hdet); try done.
  assert (Hne' : l1 ++ l2 <> []) by (by destruct l1).
  destruct (move_to_begin_relink_ok st1 p1 c (l1 ++ l2))
    as (st2 & p2 & E2 & Hstep2 & Hnd2 & Hf2 & Hl2 & Hlk2);
    [apply Hstep1|done|done|].
  exists st2, p2. split.
  { unfold move_to_begin. by rewrite (bind_ok _ _ _ _ _ E1). }
  pose proof (list_step_trans _ _ _ _ _ _ Hstep1 Hstep2) as Hstep.
  split; [done|].
  split; try done.
  destruct Hstep as (_ & (_ & _ & -> & _) & _).
  rewrite Hsz. rewrite !length_app. simpl. rewrite length_app. lia.
Qed.

Lemma recycle_unlink_ok st p l1 c l2 :
  singleton st = Some p -> l1 <> [] ->
  NoDup (l1 ++ c :: l2) ->
  firstEntry p = head (l1 ++ c :: l2) ->
  lastEntry p = last (l1 ++ c :: l2) ->
  dlseg (heap st) None (l1 ++ c :: l2) None ->
  exists st' p',
    recycle_unlink c st = Ok (tt, st') /\
    list_step st st' p p' /\
    detached p' (heap st') c (l1 ++ l2).
Proof.
  intros Hs Hne Hnd Hf Hl Hlk.
  destruct (dlseg_middle _ _ _ _ Hlk) as (ec & Hc & Hprev & Hnext & H1 & H2).
  assert (Hf' : firstEntry p = head l1) by (rewrite Hf; by destruct l1).
  destruct (exists_last Hne) as (l1' & pp & ->).
  rewrite last_snoc in Hprev.
  pose proof Hnd as Hnd0.
  apply NoDup_app in Hnd as (Hnd1 & Hd12 & Hnd2).
  apply NoDup_app in Hnd1 as (_ & Hpp & _).
  assert (Hppin : pp ∈ l1' ++ [pp]) by (apply elem_of_app; right; apply list_elem_of_here).
  assert (Hcpp : pp <> c) by (intros ->; apply (Hd12 c Hppin), list_elem_of_here).
  assert (Hpp1 : pp ∉ l1') by (intros Hin; apply (Hpp pp Hin), list_elem_of_here).
  assert (Hpp2 : pp ∉ l2).
  { intros Hin. apply (Hd12 pp Hppin). by apply list_elem_of_further. }
  assert (Hpps : is_Some (heap st !! pp)).
  { eapply dlseg_lookup; [exact H1|exact Hppin]. }
  apply NoDup_cons in Hnd2 as [Hc2 Hnd2].
  destruct l2 as [|n l2].
  - (* the victim is the last entry *)
    rewrite last_snoc in Hl.
    eexists _, (set_lastEntry (Some pp) p). split.
    { unfold recycle_unlink.
      step_load Hc. rewrite Hprev.
      step_store.
      step_load_in Hc.
      rewrite Hnext. cbn [head].
      erewrite bind_ok by (by apply this_ok).
      rewrite Hl. rewrite bool_decide_eq_true_2 by done. unfold CPLAssert.
      erewrite bind_ok by reflexivity. simpl deref.
      erewrite bind_ok by reflexivity. cbn beta.
      step_load_in Hc.
      rewrite Hprev. simpl deref. erewrite bind_ok by reflexivity. cbn beta.
      step_store.
      erewrite bind_ok by (by apply this_ok).
      rewrite Hl. simpl deref. erewrite bind_ok by reflexivity. cbn beta.
      step_load_in Hc.
      rewrite Hprev. by apply this_set_ok. }
    unfold list_step. simpl_state. rewrite ?Hprev, ?Hnext. cbn [head]. split.
    { split; [done|]. split; [done|]. split; [done|].
      intros a. by rewrite !content_at_alter. }
    apply detached_of_halves; try done.
    + by rewrite app_nil_r, last_snoc.
    + by do 2 apply is_Some_alter.
    + eapply dlseg_set_next_last; [done|].
      eapply dlseg_set_next_last; [done|]. exact H1.
  - (* the victim has a successor [n] *)
    assert (Hnc : n <> c) by (intros ->; apply Hc2, list_elem_of_here).
    assert (Hnpp : n <> pp) by (intros ->; apply Hpp2, list_elem_of_here).
    assert (Hn1 : n ∉ l1' ++ [pp]).
    { intros Hin. apply (Hd12 n Hin). apply list_elem_of_further, list_elem_of_here. }
    assert (Hn2 : n ∉ l2) by (by apply NoDup_cons in Hnd2 as [? _]).
    assert (Hns : is_Some (heap st !! n)).
    { eapply dlseg_lookup; [exact H2|]. apply list_elem_of_here. }
    eexists _, p. split.
    { unfold recycle_unlink.
      step_load Hc. rewrite Hprev.
      step_store.
      step_load_in Hc.
      rewrite Hnext. cbn [head].
      apply store_ok. simpl_state. by apply is_Some_alter. }
    unfold list_step. simpl_state. rewrite ?Hprev, ?Hnext. cbn [head]. split.
    { split; [done|]. split; [done|]. split; [done|].
      intros a. by rewrite !content_at_alter. }
    apply detached_of_halves; try done.
    + rewrite Hl. by rewrite !last_app_cons.
    + by do 2 apply is_Some_alter.
    + cbn [head]. apply dlseg_alter_notin; [done|].
      eapply dlseg_set_next_last; [done|]. exact H1.
    + rewrite last_snoc.
      eapply dlseg_set_prev_head; [done|].
      apply dlseg_alter_notin; [done|]. exact H2.
Qed.

(** ** The recording driver under the list code *)

Lemma disableRefCount_incr_ok st p :
  singleton st = Some p -> refCountOfDisableRefCount p < INT_MAX ->
  disableRefCount_incr st =
  Ok (tt, with_singleton
            (Some (set_refCountOfDisableRefCount (refCountOfDisableRefCount p + 1) p)) st).
Proof.
  intros Hs Hlt. unfold disableRefCount_incr.
  erewrite bind_ok by (by apply this_ok).
  erewrite bind_ok by (by apply int_succ_ok).
  by apply this_set_ok.
Qed.

Lemma disableRefCount_decr_ok st p :
  singleton st = Some p -> INT_MIN < refCountOfDisableRefCount p ->
  disableRefCount_decr st =
  Ok (tt, with_singleton
            (Some (set_refCountOfDisableRefCount (refCountOfDisableRefCount p - 1) p)) st).
Proof.
  intros Hs Hlt. unfold disableRefCount_decr.
  erewrite bind_ok by (by apply this_ok).
  erewrite bind_ok by (by apply int_pred_ok).
  by apply this_set_ok.
Qed.

Lemma recycle_close_ok w st p v ev :
  singleton st = Some p -> heap st !! v = Some ev ->
  INT_MIN <= refCountOfDisableRefCount p < INT_MAX ->
  recycle_close (recDriver w) (tlsResponsiblePID st) v st =
  Ok (tt, with_trace (trace st ++ close_events ev)
            (with_heap (alter vacate v (heap st)) st)).
Proof.
  intros Hs Hv Hb. unfold recycle_close.
  step_store.
  erewrite bind_ok
    by (apply load_ok; simpl_state; by rewrite lookup_alter_eq, Hv).
  cbn [CacheEntry.poDS CacheEntry.set_pszFileName CacheEntry.responsiblePID].
  unfold close_events.
  destruct (CacheEntry.poDS ev) as [hDS|] eqn:EDS.
  - unfold GDALSetResponsiblePIDForCurrentThread at 1, modify at 1.
    erewrite bind_ok by reflexivity.
    erewrite bind_ok by (apply disableRefCount_incr_ok; [done|lia]).
    unfold GDALClose, recDriver, get, emit, modify.
    erewrite bind_ok by reflexivity.
    erewrite bind_ok by (apply disableRefCount_decr_ok; [done|simpl; lia]).
    erewrite bind_ok
      by (apply store_ok; simpl_state; rewrite lookup_alter_eq, Hv; by eexists).
    unfold GDALSetResponsiblePIDForCurrentThread, modify.
    destruct st as [s h t c tr], p as [rc ms cs fe le dr]. simpl in *.
    subst s. unfold with_tlsResponsiblePID, with_heap, with_singleton, with_trace.
    simpl. do 3 f_equal.
    + unfold set_refCountOfDisableRefCount. simpl. do 2 f_equal. lia.
    + by rewrite alter_alter_eq.
  - unfold ret. destruct st as [s h t c tr]. simpl in *.
    unfold with_heap, with_trace. simpl. rewrite app_nil_r. do 3 f_equal.
    apply map_eq. intros a. destruct (decide (v = a)) as [<-|Hne].
    + rewrite !lookup_alter_eq, Hv. simpl. f_equal.
      unfold vacate. destruct ev; simpl in *. by subst.
    + by rewrite !lookup_alter_ne.
Qed.

(** The driver is called with the disable counter raised. *)
Lemma open_call_state_suppressed p cur fn rid st :
  0 <= refCountOfDisableRefCount p ->
  exists p',
    singleton (open_call_state p cur fn rid st) = Some p' /\
    0 < refCountOfDisableRefCount p' /\ refCount p' = refCount p.
Proof. intros H. eexists. split; [reflexivity|]. simpl. split; [lia|done]. Qed.

Lemma open_in_ok w st p cur fn acc opts rid :
  singleton st = Some p -> is_Some (heap st !! cur) ->
  INT_MIN <= refCountOfDisableRefCount p < INT_MAX ->
  open_in (recDriver w) cur fn acc opts rid st =
  let r := open_result w (open_call_state p cur fn rid st) fn (nFlag_of acc) opts in
  Ok (tt, with_trace
            (trace st ++ [EvGDALOpenEx (tlsResponsiblePID st) fn
                            (nFlag_of acc) opts r])
            (with_heap (alter (fill fn rid r) cur (heap st)) st)).
Proof.
  intros Hs Hc Hb. unfold open_in.
  step_store. step_store. step_store.
  erewrite bind_ok by (apply disableRefCount_incr_ok; [done|lia]).
  unfold GDALOpenEx at 1, recDriver at 1.
  unfold get at 1. erewrite (bind_ok (bind _ _)) by reflexivity.
  step_store.
  erewrite disableRefCount_decr_ok; [|done|simpl; lia].
  cbn zeta. simpl_state. unfold open_call_state.
  destruct st as [s h t c tr], p as [rc ms cs fe le dr]. simpl in *.
  subst s. unfold with_heap, with_singleton, with_trace. simpl.
  do 3 f_equal.
  - unfold set_refCountOfDisableRefCount. simpl. do 2 f_equal. lia.
  - by rewrite !alter_alter_eq.
Qed.

Lemma prepend_ok st p l :
  singleton st = Some p -> wf_pool p (heap st) l -> currentSize p < INT_MAX ->
  exists st' p',
    prepend st = Ok (fresh (dom (heap st)), st') /\
    singleton st' = Some p' /\
    wf_pool p' (heap st') (fresh (dom (heap st)) :: l) /\
    heap st !! fresh (dom (heap st)) = None /\
    is_Some (heap st' !! fresh (dom (heap st))) /\
    (forall b, b <> fresh (dom (heap st)) ->
               content_at (heap st') b = content_at (heap st) b) /\
    same_outside st st' /\
    refCount p' = refCount p /\ maxSize p' = maxSize p /\
    refCountOfDisableRefCount p' = refCountOfDisableRefCount p /\
    currentSize p' = currentSize p + 1.
Proof.
  intros Hs [Hnd Hf Hl Hsz Hlk] Hlt.
  set (a := fresh (dom (heap st))).
  assert (Ha : heap st !! a = None).
  { apply not_elem_of_dom. apply is_fresh. }
  assert (Hal : a ∉ l).
  { intros Hin. destruct (dlseg_lookup _ _ _ _ _ Hlk Hin) as [e He]. congruence. }
  set (e0 := CacheEntry.Build 0 EmptyString None 0 None None).
  assert (E0 : CPLMalloc_entry st = Ok (a, with_heap (<[a:=e0]> (heap st)) st)) by done.
  destruct l as [|f l].
  - simpl in Hf, Hl.
    eexists _, (set_currentSize (currentSize p + 1)
                  (set_firstEntry (Some a) (set_lastEntry (Some a) p))).
    split.
    { unfold prepend. rewrite (bind_ok _ _ _ _ _ E0).
      erewrite bind_ok by (by apply this_ok).
      rewrite Hl, bool_decide_eq_true_2 by done.
      erewrite bind_ok by (by apply this_set_ok).
      erewrite bind_ok
        by (apply store_ok; simpl_state; by rewrite lookup_insert_eq).
      erewrite bind_ok by (by apply this_ok).
      erewrite bind_ok
        by (apply store_ok; simpl_state; apply is_Some_alter; by rewrite lookup_insert_eq).
      erewrite bind_ok by (by apply this_ok).
      cbn [firstEntry set_lastEntry]. rewrite Hf.
      erewrite bind_ok by reflexivity.
      erewrite bind_ok by (by apply this_set_ok).
      erewrite bind_ok by (by apply this_ok).
      erewrite bind_ok by (by apply int_succ_ok).
      erewrite bind_ok by (by apply this_set_ok).
      reflexivity. }
    simpl_state. split; [done|]. split.
    { split; try done.
      - apply NoDup_singleton.
      - simpl. rewrite Hsz. simpl. lia.
      - eapply dlseg_cons.
        { by rewrite !lookup_alter_eq, lookup_insert_eq. }
        done. }
    split; [done|]. split.
    { do 2 apply is_Some_alter. by rewrite lookup_insert_eq. }
    split.
    { intros b Hb. rewrite !content_at_alter by done.
      unfold content_at. by rewrite lookup_insert_ne. }
    done.
  - simpl in Hf.
    assert (Haf : a <> f) by (intros ->; apply Hal, list_elem_of_here).
    assert (Hfs : is_Some (heap st !! f)).
    { eapply dlseg_lookup; [exact Hlk|]. apply list_elem_of_here. }
    eexists _, (set_currentSize (currentSize p + 1) (set_firstEntry (Some a) p)).
    split.
    { unfold prepend. rewrite (bind_ok _ _ _ _ _ E0).
      erewrite bind_ok by (by apply this_ok).
      rewrite Hl, bool_decide_eq_false_2
        by (intros E; by apply last_None in E).
      erewrite bind_ok by reflexivity.
      erewrite bind_ok
        by (apply store_ok; simpl_state; by rewrite lookup_insert_eq).
      erewrite bind_ok by (by apply this_ok).
      erewrite bind_ok
        by (apply store_ok; simpl_state; apply is_Some_alter; by rewrite lookup_insert_eq).
      erewrite bind_ok by (by apply this_ok).
      rewrite Hf.
      erewrite bind_ok
        by (apply store_ok; simpl_state; do 2 apply is_Some_alter;
            by rewrite lookup_insert_ne).
      erewrite bind_ok by (by apply this_set_ok).
      erewrite bind_ok by (by apply this_ok).
      erewrite bind_ok by (by apply int_succ_ok).
      erewrite bind_ok by (by apply this_set_ok).
      reflexivity. }
    simpl_state. split; [done|]. split.
    { split; try done.
      - by apply NoDup_cons.
      - cbn [length] in *. rewrite Hsz. simpl. lia.
      - eapply dlseg_cons.
        { by rewrite lookup_alter_ne, !lookup_alter_eq, lookup_insert_eq. }
        split; [done|]. split; [done|].
        apply NoDup_cons in Hnd as [Hfl _].
        eapply dlseg_set_prev_head; [done|].
        do 2 (apply dlseg_alter_notin; [done|]).
        apply dlseg_insert_notin; [done|]. exact Hlk. }
    split; [done|]. split.
    { do 3 apply is_Some_alter. by rewrite lookup_insert_eq. }
    split.
    { intros b Hb. rewrite !content_at_alter by done.
      unfold content_at. by rewrite lookup_insert_ne. }
    done.
Qed.

(** ** The scans, read off the list *)

Lemma RefDataset_scan_ok st fn bShared rid l :
  forall p fuel acc,
  dlseg (heap st) p l None -> (length l <= fuel)%nat ->
  RefDataset_scan fuel fn bShared rid (head l) acc st =
  Ok (scan_list (heap st) fn bShared rid l acc, st).
Proof.
  induction l as [|c l IH]; intros p fuel acc Hlk Hfuel.
  - by destruct fuel.
  - destruct fuel as [|fuel]; [simpl in Hfuel; lia|].
    destruct (heap st !! c) as [e|] eqn:Ec.
    2:{ unfold dlseg in Hlk. by rewrite Ec in Hlk. }
    apply (dlseg_cons _ _ _ _ _ _ Ec) in Hlk as (_ & Hn & Hlk).
    cbn [head RefDataset_scan scan_list]. rewrite Ec.
    step_load Ec.
    destruct (ref_matches fn bShared rid e); [done|].
    rewrite Hn, <- head_hd_or.
    apply (IH (Some c)); [done|]. simpl in Hfuel. lia.
Qed.

Lemma CloseDataset_scan_ok st fn l :
  forall p fuel,
  dlseg (heap st) p l None -> (length l <= fuel)%nat ->
  CloseDataset_scan fuel fn (head l) st = Ok (close_list (heap st) fn l, st).
Proof.
  induction l as [|c l IH]; intros p fuel Hlk Hfuel.
  - by destruct fuel.
  - destruct fuel as [|fuel]; [simpl in Hfuel; lia|].
    destruct (heap st !! c) as [e|] eqn:Ec.
    2:{ unfold dlseg in Hlk. by rewrite Ec in Hlk. }
    apply (dlseg_cons _ _ _ _ _ _ Ec) in Hlk as (_ & Hn & Hlk).
    cbn [head CloseDataset_scan close_list]. rewrite Ec.
    step_load Ec.
    destruct (close_matches fn e); [done|].
    rewrite Hn, <- head_hd_or.
    apply (IH (Some c)); [done|]. simpl in Hfuel. lia.
Qed.

Lemma all_entries_cons h a l P :
  all_entries h (a :: l) P ->
  (forall e, h !! a = Some e -> P e) /\ all_entries h l P.
Proof.
  intros H. split.
  - intros e. apply H, list_elem_of_here.
  - intros b e Hb. apply H. by apply list_elem_of_further.
Qed.

Lemma scan_list_cons h fn sh rid c l acc e :
  h !! c = Some e ->
  scan_list h fn sh rid (c :: l) acc =
  if ref_matches fn sh rid e then Found c
  else scan_list h fn sh rid l
         (if CacheEntry.refCount e =? 0 then Some c else acc).
Proof. intros He. simpl. by rewrite He. Qed.

Lemma scan_list_found h fn bShared rid l :
  forall acc c,
  scan_list h fn bShared rid l acc = Found c ->
  exists l1 l2 e,
    l = l1 ++ c :: l2 /\ h !! c = Some e /\
    ref_matches fn bShared rid e = true.
Proof.
  induction l as [|a l IH]; intros acc c; simpl; [done|].
  destruct (h !! a) as [e|] eqn:Ea; [|done].
  destruct (ref_matches fn bShared rid e) eqn:Em.
  - intros [= <-]. by exists [], l, e.
  - intros H. apply IH in H as (l1 & l2 & e' & -> & ? & ?).
    by exists (a :: l1), l2, e'.
Qed.

Lemma scan_list_all_pinned h fn bShared rid l :
  forall acc,
  all_entries h l (fun e => ref_matches fn bShared rid e = false) ->
  all_entries h l (fun e => CacheEntry.refCount e <> 0) ->
  (forall a, a ∈ l -> is_Some (h !! a)) ->
  scan_list h fn bShared rid l acc = NotFound acc.
Proof.
  induction l as [|a l IH]; intros acc Hm Hp Hs; simpl; [done|].
  apply all_entries_cons in Hm as [Hma Hm].
  apply all_entries_cons in Hp as [Hpa Hp].
  destruct (Hs a (list_elem_of_here _ _)) as [e Ea]. rewrite Ea.
  rewrite (Hma e Ea).
  destruct (Z.eqb_spec (CacheEntry.refCount e) 0) as [E0|_];
    [by apply Hpa in E0|].
  apply IH; [done..|]. intros b Hb. apply Hs. by apply list_elem_of_further.
Qed.

Lemma scan_list_all_unpinned h fn bShared rid l :
  forall acc,
  all_entries h l (fun e => ref_matches fn bShared rid e = false) ->
  all_entries h l (fun e => CacheEntry.refCount e = 0) ->
  (forall a, a ∈ l -> is_Some (h !! a)) ->
  scan_list h fn bShared rid l acc = NotFound (last_or acc l).
Proof.
  induction l as [|a l IH]; intros acc Hm Hp Hs; simpl; [done|].
  apply all_entries_cons in Hm as [Hma Hm].
  apply all_entries_cons in Hp as [Hpa Hp].
  destruct (Hs a (list_elem_of_here _ _)) as [e Ea]. rewrite Ea.
  rewrite (Hma e Ea), (Hpa e Ea). simpl.
  rewrite last_or_cons.
  apply IH; [done..|]. intros b Hb. apply Hs. by apply list_elem_of_further.
Qed.


Lemma close_list_some h fn l c :
  close_list h fn l = Some c ->
  exists l1 l2 e,
    l = l1 ++ c :: l2 /\ h !! c = Some e /\ close_matches fn e = true /\
    all_entries h l1 (fun e => close_matches fn e = false).
Proof.
  revert c. induction l as [|a l IH]; intros c; simpl; [done|].
  destruct (h !! a) as [e|] eqn:Ea; [|done].
  destruct (close_matches fn e) eqn:Em.
  - intros [= <-]. exists [], l, e. repeat split; [done..|].
    intros ? ? Hin. by inversion Hin.
  - intros H. apply IH in H as (l1 & l2 & e' & -> & ? & ? & Hall).
    exists (a :: l1), l2, e'. repeat split; [done..|].
    intros b eb Hb Heb. apply elem_of_cons in Hb as [->|Hb].
    + congruence.
    + by apply (Hall b).
Qed.

(** The fuel that [_RefDataset] and [_CloseDataset] give to their scan is
    enough on a well-formed pool. *)
Lemma scan_fuel_enough st p l :
  wf_pool p (heap st) l -> (length l <= scan_fuel st)%nat.
Proof.
  intros [Hnd _ _ _ Hlk]. unfold scan_fuel.
  pose proof (dlseg_length _ _ _ _ Hnd Hlk). lia.
Qed.

(** ** [_RefDataset] and [_CloseDataset] on a well-formed pool *)

Lemma wf_lookup p h l a : wf_pool p h l -> a ∈ l -> is_Some (h !! a).
Proof. intros [_ _ _ _ Hlk]. by eapply dlseg_lookup. Qed.

Lemma RefDataset_scanned drv st p l fn acc opts sh :
  singleton st = Some p -> wf_pool p (heap st) l ->
  _RefDataset drv fn acc opts sh st =
  match scan_list (heap st) fn sh (tlsResponsiblePID st) l None with
  | Found cur => RefDataset_hit cur st
  | NotFound lz =>
      RefDataset_miss drv fn acc opts (tlsResponsiblePID st) lz st
  end.
Proof.
  intros Hs Hwf. unfold _RefDataset.
  erewrite bind_ok by (by apply this_ok).
  unfold GDALGetResponsiblePIDForCurrentThread, get.
  erewrite bind_ok by reflexivity.
  erewrite bind_ok by reflexivity.
  rewrite (wf_first _ _ _ Hwf).
  erewrite bind_ok.
  2:{ eapply RefDataset_scan_ok; [apply Hwf|by eapply scan_fuel_enough]. }
  by destruct (scan_list _ _ _ _ _ _).
Qed.

Lemma CloseDataset_scanned drv st p l fn acc :
  singleton st = Some p -> wf_pool p (heap st) l ->
  _CloseDataset drv fn acc st =
  match close_list (heap st) fn l with
  | Some cur => CloseDataset_close drv (tlsResponsiblePID st) cur st
  | None => Ok (tt, st)
  end.
Proof.
  intros Hs Hwf. unfold _CloseDataset.
  erewrite bind_ok by (by apply this_ok).
  unfold GDALGetResponsiblePIDForCurrentThread, get.
  erewrite bind_ok by reflexivity.
  erewrite bind_ok by reflexivity.
  rewrite (wf_first _ _ _ Hwf).
  erewrite bind_ok.
  2:{ eapply CloseDataset_scan_ok; [apply Hwf|by eapply scan_fuel_enough]. }
  by destruct (close_list _ _ _).
Qed.

Lemma dlseg_alter_content_wf p h l f a :
  (forall e, CacheEntry.prev (f e) = CacheEntry.prev e /\
             CacheEntry.next (f e) = CacheEntry.next e) ->
  wf_pool p h l -> wf_pool p (alter f a h) l.
Proof.
  intros Hf [? ? ? ? Hlk]. split; try done. by apply dlseg_alter_content.
Qed.

Lemma fill_links fn rid r e :
  CacheEntry.prev (fill fn rid r e) = CacheEntry.prev e /\
  CacheEntry.next (fill fn rid r e) = CacheEntry.next e.
Proof. done. Qed.

(** The eviction block on a well-formed pool, for a victim [v] that is not
    the first entry: the dataset of [v] is closed under the responsible PID
    stored in [v], and the emptied cell is the new first entry. *)
Lemma recycle_ok w st p l1 v l2 ev :
  singleton st = Some p -> wf_pool p (heap st) (l1 ++ v :: l2) ->
  l1 <> [] -> heap st !! v = Some ev ->
  INT_MIN <= refCountOfDisableRefCount p < INT_MAX ->
  exists st' p',
    recycle (recDriver w) (tlsResponsiblePID st) v st = Ok (tt, st') /\
    singleton st' = Some p' /\ same_counters p p' /\
    wf_pool p' (heap st') (v :: l1 ++ l2) /\
    tlsResponsiblePID st' = tlsResponsiblePID st /\
    configOptions st' = configOptions st /\
    trace st' = trace st ++ close_events ev /\
    (forall a, a <> v -> content_at (heap st') a = content_at (heap st) a).
Proof.
  intros Hs Hwf Hne Hv Hb.
  pose proof (recycle_close_ok w st p v ev Hs Hv Hb) as E1.
  set (st1 := with_trace _ _) in E1.
  assert (Hs1 : singleton st1 = Some p) by done.
  destruct Hwf as [Hnd Hf Hl Hsz Hlk].
  destruct (recycle_unlink_ok st1 p l1 v l2)
    as (st2 & p2 & E2 & Hstep2 & Hdet); try done.
  { simpl. apply dlseg_alter_content; [by intros []|done]. }
  assert (Hne' : l1 ++ l2 <> []) by (by destruct l1).
  destruct (recycle_relink_ok st2 p2 v (l1 ++ l2))
    as (st3 & p3 & E3 & Hstep3 & Hnd3 & Hf3 & Hl3 & Hlk3);
    [apply Hstep2|done|done|].
  pose proof (list_step_trans _ _ _ _ _ _ Hstep2 Hstep3)
    as (Hs3 & Hcnt & (Htls & Hcfg & Htr) & Hcont).
  exists st3, p3. split.
  { unfold recycle. rewrite (bind_ok _ _ _ _ _ E1).
    by rewrite (bind_ok _ _ _ _ _ E2). }
  split_and!; try done.
  - split; try done.
    destruct Hcnt as (_ & _ & -> & _). rewrite Hsz.
    rewrite !length_app. simpl. rewrite length_app. lia.
  - intros a Ha. rewrite Hcont. subst st1. simpl.
    by rewrite content_at_alter_ne.
Qed.

(** The entry of [_RefDataset] on a miss when the pool is full and has an
    unreferenced entry [v] that is not the first one. *)
Lemma RefDataset_miss_recycle w st p l1 v l2 ev fn acc opts :
  singleton st = Some p -> wf_pool p (heap st) (l1 ++ v :: l2) ->
  l1 <> [] -> heap st !! v = Some ev ->
  currentSize p = maxSize p ->
  INT_MIN <= refCountOfDisableRefCount p < INT_MAX ->
  exists st' p' r,
    RefDataset_miss (recDriver w) fn acc opts (tlsResponsiblePID st) (Some v) st
      = Ok (Some v, st') /\
    singleton st' = Some p' /\ same_counters p p' /\
    wf_pool p' (heap st') (v :: l1 ++ l2) /\
    tlsResponsiblePID st' = tlsResponsiblePID st /\
    configOptions st' = configOptions st /\
    trace st' = trace st ++ close_events ev ++
                [EvGDALOpenEx (tlsResponsiblePID st) fn (nFlag_of acc) opts r] /\
    content_at (heap st') v = Some (tlsResponsiblePID st, fn, r, 1) /\
    (forall a, a <> v -> content_at (heap st') a = content_at (heap st) a) /\
    (exists stc, r = open_result w stc fn (nFlag_of acc) opts).
Proof.
  intros Hs Hwf Hne Hv Hfull Hb.
  destruct (recycle_ok w st p l1 v l2 ev Hs Hwf Hne Hv Hb)
    as (st3 & p3 & Erec & Hs3 & Hcnt & Hwf3 & Htls & Hcfg & Htr & Hcont).
  assert (Hv3 : is_Some (heap st3 !! v)).
  { eapply wf_lookup; [exact Hwf3|]. apply list_elem_of_here. }
  assert (Hb3 : INT_MIN <= refCountOfDisableRefCount p3 < INT_MAX).
  { destruct Hcnt as (_ & _ & _ & ->). done. }
  pose proof (open_in_ok w st3 p3 v fn acc opts (tlsResponsiblePID st) Hs3 Hv3 Hb3)
    as E4. cbn zeta in E4.
  set (r := open_result _ _ _ _ _) in E4.
  eexists _, p3, r. split.
  { unfold RefDataset_miss.
    erewrite bind_ok by (by apply this_ok).
    apply Z.eqb_eq in Hfull. rewrite Hfull.
    rewrite (bind_ok _ _ _ _ _ Erec).
    rewrite (bind_ok _ _ _ _ _ E4). reflexivity. }
  simpl_state.
  split; [done|]. split; [done|]. split.
  { apply dlseg_alter_content_wf; [apply fill_links|done]. }
  split; [by rewrite Htls|]. split; [by rewrite Hcfg|]. split.
  { rewrite Htr, Htls. by rewrite <- app_assoc. }
  split.
  { unfold content_at. rewrite lookup_alter_eq.
    destruct Hv3 as [e3 ->]. done. }
  split; [|by eexists].
  intros a Ha. rewrite content_at_alter_ne by done. by apply Hcont.
Qed.

Lemma all_unpinned_scan st p l fn sh :
  wf_pool p (heap st) l ->
  all_entries (heap st) l (fun e => CacheEntry.refCount e = 0) ->
  all_entries (heap st) l
    (fun e => ref_matches fn sh (tlsResponsiblePID st) e = false) ->
  scan_list (heap st) fn sh (tlsResponsiblePID st) l None = NotFound (last l).
Proof.
  intros Hwf H0 Hm. rewrite last_last_or.
  apply scan_list_all_unpinned; [done..|].
  intros a Ha. by eapply wf_lookup.
Qed.

(** C3. When the pool is full ([currentSize == maxSize], at least 2), every
    entry is unreferenced and none matches the request, [RefDataset] evicts
    exactly the last entry [v] of the list: its dataset, if it has one, is
    closed while the responsible PID of the thread is the one stored in the
    entry (the [EvGDALClose] event records the PID in force), the PID is
    back to the caller's when the new dataset is opened and on return, the
    cell [v] is reused at the head of the list for the new path with
    reference count 1, the size is unchanged and every other entry caches
    what it cached before. *)
Theorem C3_full_unpinned_pool_evicts_tail w st p l fn acc opts sh :
  singleton st = Some p -> wf_pool p (heap st) l ->
  currentSize p = maxSize p -> 2 <= maxSize p ->
  INT_MIN <= refCountOfDisableRefCount p < INT_MAX ->
  all_entries (heap st) l (fun e => CacheEntry.refCount e = 0) ->
  all_entries (heap st) l
    (fun e => ref_matches fn sh (tlsResponsiblePID st) e = false) ->
  exists v ev st' p' r,
    last l = Some v /\ heap st !! v = Some ev /\
    RefDataset (recDriver w) fn acc opts sh st = Ok (Some v, st') /\
    singleton st' = Some p' /\ same_counters p p' /\
    wf_pool p' (heap st') (v :: removelast l) /\
    tlsResponsiblePID st' = tlsResponsiblePID st /\
    trace st' = trace st ++ close_events ev ++
                [EvGDALOpenEx (tlsResponsiblePID st) fn (nFlag_of acc) opts r] /\
    content_at (heap st') v = Some (tlsResponsiblePID st, fn, r, 1) /\
    (forall a, a <> v -> content_at (heap st') a = content_at (heap st) a).
Proof.
  intros Hs Hwf Hfull Hmax Hb H0 Hm.
  pose proof (wf_size _ _ _ Hwf) as Hsz.
  destruct l as [|a l] using rev_ind; [simpl in Hsz; lia|]. clear IHl.
  rename a into v.
  assert (Hne : l <> []).
  { intros ->. simpl in Hsz. lia. }
  assert (Hvin : v ∈ l ++ [v]) by (apply elem_of_app; right; apply list_elem_of_here).
  destruct (wf_lookup _ _ _ _ Hwf Hvin) as [ev Hv].
  destruct (RefDataset_miss_recycle w st p l v [] ev fn acc opts)
    as (st' & p' & r & E & Hs' & Hcnt & Hwf' & Htls & _ & Htr & Hcv & Hco & _);
    try done.
  exists v, ev, st', p', r.
  rewrite last_snoc, removelast_last. rewrite app_nil_r in Hwf'.
  split_and!; try done.
  unfold RefDataset. erewrite RefDataset_scanned by done.
  rewrite (all_unpinned_scan st p (l ++ [v]) fn sh) by done.
  by rewrite last_snoc.
Qed.

(** C4. When the pool is full, every entry is referenced and none matches
    the request, [RefDataset] returns no entry; the state is what it was but
    for the error message, whose argument is [maxSize].  It holds whatever
    the driver is, which is not called. *)
Theorem C4_full_pinned_pool_is_exhausted drv st p l fn acc opts sh :
  singleton st = Some p -> wf_pool p (heap st) l ->
  currentSize p = maxSize p ->
  all_entries (heap st) l (fun e => 0 < CacheEntry.refCount e) ->
  all_entries (heap st) l
    (fun e => ref_matches fn sh (tlsResponsiblePID st) e = false) ->
  RefDataset drv fn acc opts sh st =
  Ok (None,
      with_trace
        (trace st ++
         [EvCPLError CE_Failure CPLE_AppDefined pool_size_message [maxSize p]])
        st).
Proof.
  intros Hs Hwf Hfull Hpin Hm.
  unfold RefDataset. erewrite RefDataset_scanned by done.
  rewrite scan_list_all_pinned; [|done| |by intros a Ha; eapply wf_lookup].
  2:{ intros a e Ha He. specialize (Hpin a e Ha He). simpl in Hpin. lia. }
  unfold RefDataset_miss.
  erewrite bind_ok by (by apply this_ok).
  apply Z.eqb_eq in Hfull. by rewrite Hfull.
Qed.

Lemma scan_list_victim h fn sh rid l :
  forall acc v,
  scan_list h fn sh rid l acc = NotFound (Some v) -> acc = Some v \/ v ∈ l.
Proof.
  induction l as [|a l IH]; intros acc v; simpl.
  - intros [= ->]. by left.
  - destruct (h !! a) as [e|]; [|intros [= ->]; by left].
    destruct (ref_matches fn sh rid e); [done|].
    intros H. apply IH in H as [H|H].
    + destruct (CacheEntry.refCount e =? 0).
      * injection H as ->. right. apply list_elem_of_here.
      * by left.
    + right. by apply list_elem_of_further.
Qed.

Lemma RefDataset_hit_ok st p l1 c l2 ec :
  singleton st = Some p -> wf_pool p (heap st) (l1 ++ c :: l2) ->
  heap st !! c = Some ec -> CacheEntry.refCount ec < INT_MAX ->
  exists st' p',
    RefDataset_hit c st = Ok (Some c, st') /\
    singleton st' = Some p' /\ same_counters p p' /\
    wf_pool p' (heap st') (c :: l1 ++ l2) /\
    same_outside st st' /\
    content_at (heap st') c =
      Some (CacheEntry.responsiblePID ec, CacheEntry.pszFileName ec,
            CacheEntry.poDS ec, CacheEntry.refCount ec + 1) /\
    (forall a, a <> c -> content_at (heap st') a = content_at (heap st) a).
Proof.
  intros Hs Hwf Hc Hlt.
  assert (exists st1 p1,
    (if bool_decide (Some c <> firstEntry p) then move_to_begin c else ret tt) st
      = Ok (tt, st1) /\
    list_step st st1 p p1 /\ wf_pool p1 (heap st1) (c :: l1 ++ l2))
    as (st1 & p1 & E1 & (Hs1 & Hcnt & Hout & Hco) & Hwf1).
  { rewrite (wf_first _ _ _ Hwf). destruct l1 as [|f l1].
    - exists st, p. split.
      + simpl. by rewrite bool_decide_eq_false_2 by (by intros []).
      + split; [|done]. split; [done|].
        split; [apply same_counters_refl|]. split; [apply same_outside_refl|done].
    - destruct (move_to_begin_ok st p (f :: l1) c l2)
        as (st1 & p1 & E1 & Hstep & Hwf1); try done.
      exists st1, p1. split; [|done].
      simpl. rewrite bool_decide_eq_true_2; [done|].
      intros [= ->]. destruct Hwf as [Hnd _ _ _ _]. simpl in Hnd.
      apply NoDup_cons in Hnd as [Hni _]. apply Hni.
      apply elem_of_app. right. apply list_elem_of_here. }
  assert (exists e1, heap st1 !! c = Some e1 /\
                     CacheEntry.content e1 = CacheEntry.content ec)
    as (e1 & He1 & Hce1).
  { specialize (Hco c). unfold content_at in Hco. rewrite Hc in Hco.
    destruct (heap st1 !! c) as [e1|]; [|done].
    exists e1. split; [done|]. simpl in Hco. congruence. }
  assert (Hrc : CacheEntry.refCount e1 = CacheEntry.refCount ec).
  { unfold CacheEntry.content in Hce1. congruence. }
  eexists _, p1. split.
  { unfold RefDataset_hit.
    erewrite bind_ok by (by apply this_ok).
    rewrite (bind_ok _ _ _ _ _ E1).
    step_load He1.
    erewrite bind_ok by (apply int_succ_ok; lia).
    erewrite bind_ok by (apply store_ok; by rewrite He1).
    reflexivity. }
  simpl_state. split_and!; try done.
  - destruct Hwf1. split; try done.
    apply dlseg_alter_content; [by intros []|done].
  - unfold content_at. rewrite lookup_alter_eq, He1. simpl.
    unfold CacheEntry.content in *. simpl. rewrite Hrc. congruence.
  - intros a Ha. by rewrite content_at_alter_ne.
Qed.

(** A miss while the pool has room: a new cell goes in front. *)
Lemma RefDataset_miss_prepend w st p l lz fn acc opts :
  singleton st = Some p -> wf_pool p (heap st) l ->
  currentSize p <> maxSize p -> currentSize p < INT_MAX ->
  INT_MIN <= refCountOfDisableRefCount p < INT_MAX ->
  exists cur st' p' r,
    RefDataset_miss (recDriver w) fn acc opts (tlsResponsiblePID st) lz st
      = Ok (Some cur, st') /\
    heap st !! cur = None /\
    singleton st' = Some p' /\
    wf_pool p' (heap st') (cur :: l) /\
    refCount p' = refCount p /\ maxSize p' = maxSize p /\
    refCountOfDisableRefCount p' = refCountOfDisableRefCount p /\
    currentSize p' = currentSize p + 1 /\
    tlsResponsiblePID st' = tlsResponsiblePID st /\
    trace st' = trace st ++
                [EvGDALOpenEx (tlsResponsiblePID st) fn (nFlag_of acc) opts r] /\
    content_at (heap st') cur = Some (tlsResponsiblePID st, fn, r, 1) /\
    (forall a, a <> cur -> content_at (heap st') a = content_at (heap st) a) /\
    (exists stc, r = open_result w stc fn (nFlag_of acc) opts).
Proof.
  intros Hs Hwf Hroom Hlt Hb.
  destruct (prepend_ok st p l Hs Hwf Hlt)
    as (st1 & p1 & E1 & Hs1 & Hwf1 & Hfresh & Hcur & Hco & (Htls & Hcfg & Htr)
        & Hrc & Hms & Hdr & Hcs).
  set (cur := fresh (dom (heap st))) in *.
  assert (Hb1 : INT_MIN <= refCountOfDisableRefCount p1 < INT_MAX) by (by rewrite Hdr).
  pose proof (open_in_ok w st1 p1 cur fn acc opts (tlsResponsiblePID st) Hs1 Hcur Hb1)
    as E2. cbn zeta in E2.
  set (r := open_result _ _ _ _ _) in E2.
  eexists cur, _, p1, r. split.
  { unfold RefDataset_miss.
    erewrite bind_ok by (by apply this_ok).
    apply Z.eqb_neq in Hroom. rewrite Hroom.
    rewrite (bind_ok _ _ _ _ _ E1).
    rewrite (bind_ok _ _ _ _ _ E2). reflexivity. }
  simpl_state. split_and!; try done.
  - destruct Hwf1. split; try done.
    apply dlseg_alter_content; [by intros []|done].
  - by rewrite Htr, Htls.
  - unfold content_at. rewrite lookup_alter_eq.
    destruct Hcur as [e1 ->]. done.
  - intros a Ha. rewrite content_at_alter_ne by done. by apply Hco.
  - by eexists.
Qed.

(** A miss on a full pool whose only unreferenced entry is the first one:
    the assertion of the eviction block is violated, and the release build
    goes on to tie the victim to itself. *)
Lemma RefDataset_miss_recycle_head w st p v n l2 ev fn acc opts :
  singleton st = Some p -> wf_pool p (heap st) (v :: n :: l2) ->
  heap st !! v = Some ev ->
  currentSize p = maxSize p ->
  INT_MIN <= refCountOfDisableRefCount p < INT_MAX ->
  exists st' p' r e',
    RefDataset_miss (recDriver w) fn acc opts (tlsResponsiblePID st) (Some v) st
      = Ok (Some v, st') /\
    singleton st' = Some p' /\ same_counters p p' /\
    firstEntry p' = Some v /\
    tlsResponsiblePID st' = tlsResponsiblePID st /\
    trace st' = trace st ++ close_events ev ++
                [EvCPLAssert "0";
                 EvGDALOpenEx (tlsResponsiblePID st) fn (nFlag_of acc) opts r] /\
    content_at (heap st') v = Some (tlsResponsiblePID st, fn, r, 1) /\
    (forall a, a <> v -> content_at (heap st') a = content_at (heap st) a) /\
    heap st' !! v = Some e' /\
    CacheEntry.prev e' = Some v /\ CacheEntry.next e' = Some v /\
    (exists stc, r = open_result w stc fn (nFlag_of acc) opts).
Proof.
  intros Hs Hwf Hv Hfull Hb.
  pose proof (recycle_close_ok w st p v ev Hs Hv Hb) as E1.
  set (st1 := with_trace _ _) in E1.
  assert (Hs1 : singleton st1 = Some p) by done.
  destruct Hwf as [Hnd Hf Hl Hsz Hlk]. simpl in Hf.
  pose proof (proj1 (dlseg_cons _ _ _ _ _ _ Hv) Hlk) as (Hprev & Hnext & Hlk').
  simpl in Hnext.
  assert (Hvn : n <> v).
  { intros ->. apply NoDup_cons in Hnd as [Hni _]. apply Hni, list_elem_of_here. }
  assert (Hns : is_Some (heap st !! n)).
  { eapply dlseg_lookup; [exact Hlk'|]. apply list_elem_of_here. }
  assert (Hv1 : heap st1 !! v = Some (vacate ev)).
  { subst st1. simpl. by rewrite lookup_alter_eq, Hv. }
  assert (exists st2,
    recycle_unlink v st1 = Ok (tt, st2) /\
    singleton st2 = Some p /\
    tlsResponsiblePID st2 = tlsResponsiblePID st /\
    trace st2 = trace st1 ++ [EvCPLAssert "0"] /\
    heap st2 = alter (CacheEntry.set_prev None) n (heap st1))
    as (st2 & E2 & Hs2 & Htls2 & Htr2 & Hh2).
  { eexists. split.
    { unfold recycle_unlink.
      step_load Hv1.
      cbn [vacate CacheEntry.prev CacheEntry.set_poDS CacheEntry.set_pszFileName].
      rewrite Hprev. unfold CPLAssert at 1, emit at 1, modify at 1.
      erewrite bind_ok by reflexivity.
      erewrite bind_ok by (by apply load_ok).
      cbn [vacate CacheEntry.next CacheEntry.prev CacheEntry.set_poDS
           CacheEntry.set_pszFileName].
      rewrite Hnext, Hprev.
      apply store_ok. subst st1. simpl_state. by apply is_Some_alter. }
    by subst st1. }
  assert (Hv2 : heap st2 !! v = Some (vacate ev)).
  { by rewrite Hh2, lookup_alter_ne. }
  assert (exists st3,
    recycle_relink v st2 = Ok (tt, st3) /\
    singleton st3 = Some (set_firstEntry (Some v) p) /\
    tlsResponsiblePID st3 = tlsResponsiblePID st /\
    trace st3 = trace st1 ++ [EvCPLAssert "0"] /\
    heap st3 =
      alter (CacheEntry.set_prev (Some v)) v
        (alter (CacheEntry.set_next (Some v)) v
           (alter (CacheEntry.set_prev None) v
              (alter (CacheEntry.set_prev None) n (heap st1)))))
    as (st3 & E3 & Hs3 & Htls3 & Htr3 & Hh3).
  { eexists. split.
    { unfold recycle_relink.
      erewrite bind_ok by (apply store_ok; by rewrite Hv2).
      erewrite bind_ok by (by apply this_ok). rewrite Hf.
      erewrite bind_ok
        by (apply store_ok; simpl_state; apply is_Some_alter; by rewrite Hv2).
      erewrite bind_ok by (by apply this_ok). rewrite Hf. simpl deref.
      erewrite bind_ok by reflexivity.
      erewrite bind_ok
        by (apply store_ok; simpl_state; do 2 apply is_Some_alter; by rewrite Hv2).
      by apply this_set_ok. }
    simpl_state. by rewrite Hh2. }
  assert (Hv3 : heap st3 !! v =
    Some (CacheEntry.set_prev (Some v)
            (CacheEntry.set_next (Some v)
               (CacheEntry.set_prev None (vacate ev))))).
  { rewrite Hh3. rewrite !lookup_alter_eq, lookup_alter_ne, Hv1 by done. done. }
  assert (Hb3 : INT_MIN <= refCountOfDisableRefCount (set_firstEntry (Some v) p)
                < INT_MAX) by done.
  pose proof (open_in_ok w st3 _ v fn acc opts (tlsResponsiblePID st) Hs3
                ltac:(by rewrite Hv3) Hb3) as E4. cbn zeta in E4.
  set (r := open_result _ _ _ _ _) in E4.
  eexists _, (set_firstEntry (Some v) p), r, _. split.
  { unfold RefDataset_miss.
    erewrite bind_ok by (by apply this_ok).
    apply Z.eqb_eq in Hfull. rewrite Hfull.
    assert (Erec : recycle (recDriver w) (tlsResponsiblePID st) v st = Ok (tt, st3)).
    { unfold recycle. rewrite (bind_ok _ _ _ _ _ E1).
      by rewrite (bind_ok _ _ _ _ _ E2). }
    rewrite (bind_ok _ _ _ _ _ Erec).
    rewrite (bind_ok _ _ _ _ _ E4). reflexivity. }
  simpl_state. split_and!; try done.
  - rewrite Htr3, Htls3. subst st1. simpl. by rewrite <- !app_assoc.
  - unfold content_at. by rewrite lookup_alter_eq, Hv3.
  - intros a Ha. rewrite content_at_alter_ne by done.
    rewrite Hh3. rewrite !content_at_alter by done.
    subst st1. simpl. by rewrite content_at_alter_ne.
  - by rewrite lookup_alter_eq, Hv3.
  - done.
  - done.
  - by eexists.
Qed.

(** A request that the first entry answers: no move, one more reference.
    Nothing is asked of the rest of the list. *)
Lemma RefDataset_hit_at_head drv st p e ee fn acc opts sh :
  singleton st = Some p -> firstEntry p = Some e ->
  heap st !! e = Some ee ->
  ref_matches fn sh (tlsResponsiblePID st) ee = true ->
  CacheEntry.refCount ee < INT_MAX ->
  RefDataset drv fn acc opts sh st =
  Ok (Some e,
      with_heap (alter (CacheEntry.set_refCount (CacheEntry.refCount ee + 1)) e
                   (heap st)) st).
Proof.
  intros Hs Hf He Hm Hlt. unfold RefDataset, _RefDataset.
  erewrite bind_ok by (by apply this_ok).
  unfold GDALGetResponsiblePIDForCurrentThread, get.
  erewrite bind_ok by reflexivity.
  erewrite bind_ok by reflexivity.
  rewrite Hf. unfold scan_fuel. cbn [RefDataset_scan].
  erewrite (bind_ok (bind _ _)).
  2:{ step_load He. by rewrite Hm. }
  cbn iota. unfold RefDataset_hit.
  erewrite bind_ok by (by apply this_ok).
  rewrite Hf, bool_decide_eq_false_2 by (by intros []).
  erewrite bind_ok by reflexivity.
  step_load He.
  erewrite bind_ok by (by apply int_succ_ok).
  erewrite bind_ok by (apply store_ok; by rewrite He).
  reflexivity.
Qed.

Lemma RefDataset_miss_exhausted drv st p fn acc opts rid :
  singleton st = Some p -> currentSize p = maxSize p ->
  RefDataset_miss drv fn acc opts rid None st =
  Ok (None,
      with_trace
        (trace st ++
         [EvCPLError CE_Failure CPLE_AppDefined pool_size_message [maxSize p]])
        st).
Proof.
  intros Hs Hfull. unfold RefDataset_miss.
  erewrite bind_ok by (by apply this_ok).
  apply Z.eqb_eq in Hfull. by rewrite Hfull.
Qed.

(** Every miss that does not exhaust the pool: the entry that comes back is
    the first of the list, caches the request with one reference and holds
    whatever the driver answered. *)
Lemma RefDataset_miss_summary w st p l fn acc opts lz :
  singleton st = Some p -> wf_pool p (heap st) l -> pool_bounds p ->
  (lz = None \/ exists v, lz = Some v /\ v ∈ l) ->
  (currentSize p = maxSize p -> lz <> None) ->
  exists cur st' p' r,
    RefDataset_miss (recDriver w) fn acc opts (tlsResponsiblePID st) lz st
      = Ok (Some cur, st') /\
    singleton st' = Some p' /\ firstEntry p' = Some cur /\
    refCount p' = refCount p /\ maxSize p' = maxSize p /\
    refCountOfDisableRefCount p' = refCountOfDisableRefCount p /\
    tlsResponsiblePID st' = tlsResponsiblePID st /\
    content_at (heap st') cur = Some (tlsResponsiblePID st, fn, r, 1) /\
    (forall a, a <> cur -> content_at (heap st') a = content_at (heap st) a) /\
    (exists stc, r = open_result w stc fn (nFlag_of acc) opts) /\
    (exists evs, trace st' = trace st ++ evs ++
       [EvGDALOpenEx (tlsResponsiblePID st) fn (nFlag_of acc) opts r]).
Proof.
  intros Hs Hwf (Hmax & Hcs & Hdr) Hlz Hex.
  assert (Hb : INT_MIN <= refCountOfDisableRefCount p < INT_MAX).
  { unfold INT_MIN. lia. }
  destruct (decide (currentSize p = maxSize p)) as [Hfull|Hroom].
  - destruct Hlz as [->|(v & -> & Hv)]; [by destruct (Hex Hfull)|].
    destruct (wf_lookup _ _ _ _ Hwf Hv) as [ev Hev].
    apply list_elem_of_split in Hv as (l1 & l2 & ->).
    destruct l1 as [|f l1].
    + destruct l2 as [|n l2].
      { pose proof (wf_size _ _ _ Hwf) as Hsz. simpl in Hsz. lia. }
      destruct (RefDataset_miss_recycle_head w st p v n l2 ev fn acc opts)
        as (st' & p' & r & e' & E & Hs' & (?&?&?&?) & Hf' & Htls & Htr & Hcv
            & Hco & _ & _ & _ & Hr); try done.
      exists v, st', p', r. split_and!; try done.
      exists (close_events ev ++ [EvCPLAssert "0"]).
      rewrite Htr. by rewrite <- !app_assoc.
    + destruct (RefDataset_miss_recycle w st p (f :: l1) v l2 ev fn acc opts)
        as (st' & p' & r & E & Hs' & (?&?&?&?) & Hwf' & Htls & _ & Htr & Hcv
            & Hco & Hr); try done.
      exists v, st', p', r. split_and!; try done.
      * by rewrite (wf_first _ _ _ Hwf').
      * by eexists.
  - destruct (RefDataset_miss_prepend w st p l lz fn acc opts)
      as (cur & st' & p' & r & E & _ & Hs' & Hwf' & ? & ? & ? & _ & Htls & Htr
          & Hcv & Hco & Hr); try done.
    { unfold INT_MAX. lia. }
    exists cur, st', p', r. split_and!; try done.
    + by rewrite (wf_first _ _ _ Hwf').
    + by exists [].
Qed.

Lemma scan_list_victim_in h fn sh rid l lz :
  scan_list h fn sh rid l None = NotFound lz ->
  lz = None \/ exists v, lz = Some v /\ v ∈ l.
Proof.
  destruct lz as [v|]; [|by left]. intros H.
  apply scan_list_victim in H as [H|H]; [done|]. right. by exists v.
Qed.

(** The invariants of the list across [RefDataset]: unless the eviction
    takes the first entry as victim, the pool stays well-formed and within
    its bounds, and an entry that is returned is the first of the list. *)
Lemma RefDataset_keeps_wf w st p l fn acc opts sh r st' :
  singleton st = Some p -> wf_pool p (heap st) l -> pool_bounds p ->
  all_entries (heap st) l (fun e => CacheEntry.refCount e < INT_MAX) ->
  (forall v,
     scan_list (heap st) fn sh (tlsResponsiblePID st) l None = NotFound (Some v) ->
     currentSize p = maxSize p -> Some v <> firstEntry p) ->
  RefDataset (recDriver w) fn acc opts sh st = Ok (r, st') ->
  exists p' l',
    singleton st' = Some p' /\ wf_pool p' (heap st') l' /\ pool_bounds p' /\
    (forall a, r = Some a -> head l' = Some a).
Proof.
  intros Hs Hwf Hpb Hrc Hnh E.
  pose proof Hpb as (Hmax & Hcs & Hdr).
  assert (Hb : INT_MIN <= refCountOfDisableRefCount p < INT_MAX).
  { unfold INT_MIN. lia. }
  unfold RefDataset in E. erewrite RefDataset_scanned in E by done.
  destruct (scan_list _ _ _ _ _ _) as [c|lz] eqn:Escan.
  - apply scan_list_found in Escan as (l1 & l2 & ec & -> & Hc & Hm).
    assert (Hcin : c ∈ l1 ++ c :: l2).
    { apply elem_of_app. right. apply list_elem_of_here. }
    destruct (RefDataset_hit_ok st p l1 c l2 ec Hs Hwf Hc (Hrc c ec Hcin Hc))
      as (st1 & p1 & E1 & Hs1 & (_ & Hm1 & Hc1 & Hd1) & Hwf1 & _).
    rewrite E1 in E. injection E as <- <-.
    exists p1, (c :: l1 ++ l2). split_and!; try done.
    unfold pool_bounds. rewrite Hm1, Hc1, Hd1. done.
  - destruct (decide (currentSize p = maxSize p)) as [Hfull|Hroom].
    + destruct lz as [v|].
      * pose proof (Hnh v eq_refl Hfull) as Hv.
        apply scan_list_victim in Escan as [?|Hvin]; [done|].
        destruct (wf_lookup _ _ _ _ Hwf Hvin) as [ev Hev].
        apply list_elem_of_split in Hvin as (l1 & l2 & ->).
        assert (Hne : l1 <> []).
        { intros ->. apply Hv. by rewrite (wf_first _ _ _ Hwf). }
        destruct (RefDataset_miss_recycle w st p l1 v l2 ev fn acc opts)
          as (st1 & p1 & r1 & E1 & Hs1 & (_ & Hm1 & Hc1 & Hd1) & Hwf1 & _);
          try done.
        rewrite E1 in E. injection E as <- <-.
        exists p1, (v :: l1 ++ l2). split_and!; try done.
        unfold pool_bounds. rewrite Hm1, Hc1, Hd1. done.
      * rewrite (RefDataset_miss_exhausted _ st p) in E by done.
        injection E as <- <-.
        exists p, l. split_and!; done.
    + destruct (RefDataset_miss_prepend w st p l lz fn acc opts)
        as (cur & st1 & p1 & r1 & E1 & _ & Hs1 & Hwf1 & _ & Hm1 & Hd1 & Hc1 & _);
        try done.
      { unfold INT_MAX. lia. }
      rewrite E1 in E. injection E as <- <-.
      exists p1, (cur :: l). split_and!; try done.
      unfold pool_bounds. rewrite Hm1, Hc1, Hd1. lia.
Qed.

(** [UnrefDataset] and [CloseDataset] keep the list as it is. *)
Lemma UnrefDataset_keeps_wf st p l a e :
  singleton st = Some p -> wf_pool p (heap st) l ->
  heap st !! a = Some e -> INT_MIN < CacheEntry.refCount e ->
  exists st',
    UnrefDataset a st = Ok (tt, st') /\
    singleton st' = Some p /\ wf_pool p (heap st') l /\
    content_at (heap st') a =
      Some (CacheEntry.responsiblePID e, CacheEntry.pszFileName e,
            CacheEntry.poDS e, CacheEntry.refCount e - 1) /\
    (forall b, b <> a -> content_at (heap st') b = content_at (heap st) b).
Proof.
  intros Hs Hwf Ha Hlt. eexists. split.
  { unfold UnrefDataset. step_load Ha.
    erewrite bind_ok by (by apply int_pred_ok).
    apply store_ok. by rewrite Ha. }
  simpl_state. split_and!; try done.
  - apply dlseg_alter_content_wf; [by intros []|done].
  - unfold content_at. by rewrite lookup_alter_eq, Ha.
  - intros b Hb. by rewrite content_at_alter_ne.
Qed.

(** C7. A miss whose open fails.  The proxy [d] asks for its dataset on a
    well-formed pool, no entry matches, the pool is not exhausted and the
    driver cannot open the dataset.  [RefDataset], which
    [RefUnderlyingDataset] calls under the responsible PID of the proxy,
    still returns an entry [cur]: it is the first of the list, it caches the
    request with reference count 1 and it has no dataset.
    [RefUnderlyingDataset] then gives the reference back (the count of [cur]
    is 0 afterwards), restores the responsible PID of the caller and returns
    no dataset. *)
Theorem C7_failed_open_returns_entry_without_dataset w st p l d lz :
  singleton st = Some p -> wf_pool p (heap st) l -> pool_bounds p ->
  scan_list (heap st) (ProxyPoolDataset.description d)
    (ProxyPoolDataset.bShared d) (ProxyPoolDataset.responsiblePID d) l None
    = NotFound lz ->
  (currentSize p = maxSize p -> lz <> None) ->
  (forall stc,
     open_result w stc (ProxyPoolDataset.description d)
       (nFlag_of (ProxyPoolDataset.eAccess d))
       (ProxyPoolDataset.papszOpenOptions d) = None) ->
  exists cur st1 p1,
    RefDataset (recDriver w) (ProxyPoolDataset.description d)
      (ProxyPoolDataset.eAccess d) (ProxyPoolDataset.papszOpenOptions d)
      (ProxyPoolDataset.bShared d)
      (with_tlsResponsiblePID (ProxyPoolDataset.responsiblePID d) st)
      = Ok (Some cur, st1) /\
    singleton st1 = Some p1 /\ firstEntry p1 = Some cur /\
    content_at (heap st1) cur =
      Some (ProxyPoolDataset.responsiblePID d,
            ProxyPoolDataset.description d, None, 1) /\
    RefUnderlyingDataset (recDriver w) d st =
      Ok ((None, ProxyPoolDataset.set_cacheEntry (Some cur) d),
          with_heap (alter (CacheEntry.set_refCount 0) cur (heap st1))
            (with_tlsResponsiblePID (tlsResponsiblePID st) st1)).
Proof.
  intros Hs Hwf Hpb Hscan Hex Hfail.
  set (str := with_tlsResponsiblePID (ProxyPoolDataset.responsiblePID d) st).
  assert (Hsr : singleton str = Some p) by done.
  assert (Hwfr : wf_pool p (heap str) l) by done.
  destruct (RefDataset_miss_summary w str p l (ProxyPoolDataset.description d)
              (ProxyPoolDataset.eAccess d) (ProxyPoolDataset.papszOpenOptions d)
              lz Hsr Hwfr Hpb (scan_list_victim_in _ _ _ _ _ _ Hscan) Hex)
    as (cur & st1 & p1 & r & E & Hs1 & Hf1 & _ & _ & _ & Htls & Hcv & _
        & (stc & Hr) & _).
  rewrite Hfail in Hr. subst r.
  assert (ERef : RefDataset (recDriver w) (ProxyPoolDataset.description d)
      (ProxyPoolDataset.eAccess d) (ProxyPoolDataset.papszOpenOptions d)
      (ProxyPoolDataset.bShared d) str = Ok (Some cur, st1)).
  { unfold RefDataset. erewrite RefDataset_scanned by done.
    simpl heap. simpl tlsResponsiblePID. by rewrite Hscan. }
  exists cur, st1, p1. split_and!; try done.
  unfold content_at in Hcv.
  destruct (heap st1 !! cur) as [e1|] eqn:He1; [|done].
  injection Hcv as Hrid Hfn Hds Hrc.
  unfold RefUnderlyingDataset.
  unfold GDALGetResponsiblePIDForCurrentThread at 1.
  erewrite bind_ok by reflexivity.
  unfold GDALSetResponsiblePIDForCurrentThread at 1, modify at 1.
  erewrite bind_ok by reflexivity.
  fold str. rewrite (bind_ok _ _ _ _ _ ERef).
  unfold GDALSetResponsiblePIDForCurrentThread at 1, modify at 1.
  erewrite bind_ok by reflexivity.
  erewrite bind_ok by (by apply load_ok).
  rewrite Hds.
  unfold UnrefDataset.
  erewrite (bind_ok (bind _ _)).
  2:{ erewrite bind_ok by (by apply load_ok).
      rewrite Hrc.
      erewrite bind_ok by (by apply int_pred_ok).
      apply store_ok. simpl. by rewrite He1. }
  reflexivity.
Qed.

Lemma ref_matches_shared fn sh rid e :
  sh <> 0 -> CacheEntry.pszFileName e = fn -> CacheEntry.responsiblePID e = rid ->
  ref_matches fn sh rid e = true.
Proof.
  intros Hsh <- <-. unfold ref_matches.
  rewrite String.eqb_refl, Z.eqb_refl.
  apply Z.eqb_neq in Hsh. by rewrite Hsh.
Qed.

Lemma ref_matches_shared_inv fn sh rid e :
  sh <> 0 -> ref_matches fn sh rid e = true ->
  CacheEntry.pszFileName e = fn /\ CacheEntry.responsiblePID e = rid.
Proof.
  intros Hsh. unfold ref_matches. apply Z.eqb_neq in Hsh. rewrite Hsh. simpl.
  rewrite orb_false_r. intros [H1 H2]%andb_prop.
  apply String.eqb_eq in H1. apply Z.eqb_eq in H2. done.
Qed.

(** C5, as the code has it.  On a well-formed pool, when a shared
    [RefDataset] returns an entry [e], the same request repeated at once
    from the same thread returns [e] again; [e] is then the first entry of
    the list and its reference count is 2 more than the references that the
    answering entry had before the first call ([prior_refs]: none when the
    first call opened the dataset or found its entry unreferenced, in which
    case the count is 2). *)
Theorem C5_shared_ref_twice_same_entry w st p l fn acc opts sh e st1 :
  sh <> 0 ->
  singleton st = Some p -> wf_pool p (heap st) l -> pool_bounds p ->
  all_entries (heap st) l (fun e => CacheEntry.refCount e < INT_MAX - 1) ->
  RefDataset (recDriver w) fn acc opts sh st = Ok (Some e, st1) ->
  exists st2 p2,
    RefDataset (recDriver w) fn acc opts sh st1 = Ok (Some e, st2) /\
    singleton st2 = Some p2 /\ firstEntry p2 = Some e /\
    refCount_at st1 e = Some (prior_refs st l fn sh + 1) /\
    refCount_at st2 e = Some (prior_refs st l fn sh + 2).
Proof.
  intros Hsh Hs Hwf Hpb Hrc E1.
  assert (exists p1 e1,
    singleton st1 = Some p1 /\ firstEntry p1 = Some e /\
    heap st1 !! e = Some e1 /\
    CacheEntry.pszFileName e1 = fn /\
    CacheEntry.responsiblePID e1 = tlsResponsiblePID st1 /\
    CacheEntry.refCount e1 = prior_refs st l fn sh + 1 /\
    CacheEntry.refCount e1 < INT_MAX)
    as (p1 & e1 & Hs1 & Hf1 & He1 & Hfn1 & Hrid1 & Hrc1 & Hlt1).
  { unfold RefDataset in E1. erewrite RefDataset_scanned in E1 by done.
    unfold prior_refs.
    destruct (scan_list _ _ _ _ _ _) as [c|lz] eqn:Escan.
    - apply scan_list_found in Escan as (l1 & l2 & ec & -> & Hc & Hm).
      assert (Hcin : c ∈ l1 ++ c :: l2).
      { apply elem_of_app. right. apply list_elem_of_here. }
      pose proof (Hrc c ec Hcin Hc) as Hlt. simpl in Hlt.
      destruct (RefDataset_hit_ok st p l1 c l2 ec Hs Hwf Hc ltac:(lia))
        as (st' & p' & E & Hs' & _ & Hwf' & (Htls & _) & Hcv & _).
      rewrite E in E1. injection E1 as <- <-.
      unfold content_at in Hcv.
      destruct (heap st' !! c) as [e1|] eqn:He1; [|done].
      injection Hcv as Hrid Hfn Hds Hrc1.
      apply ref_matches_shared_inv in Hm as [Hm1 Hm2]; [|done].
      exists p', e1. split_and!; try done.
      + by rewrite (wf_first _ _ _ Hwf').
      + congruence.
      + congruence.
      + unfold refCount_at. rewrite Hc. simpl. lia.
      + lia.
    - pose proof (scan_list_victim_in _ _ _ _ _ _ Escan) as Hlz.
      destruct (decide (currentSize p = maxSize p /\ lz = None)) as [[Hfull ->]|Hn].
      { by rewrite (RefDataset_miss_exhausted _ st p) in E1. }
      destruct (RefDataset_miss_summary w st p l fn acc opts lz Hs Hwf Hpb Hlz)
        as (cur & st' & p' & r & E & Hs' & Hf' & _ & _ & _ & Htls & Hcv & _).
      { intros Hfull ->. by apply Hn. }
      rewrite E in E1. injection E1 as <- <-.
      unfold content_at in Hcv.
      destruct (heap st' !! cur) as [e1|] eqn:He1; [|done].
      injection Hcv as Hrid Hfn Hds Hrc1.
      exists p', e1. split_and!; try done.
      + congruence.
      + rewrite Hrc1. unfold INT_MAX. lia. }
  pose proof (RefDataset_hit_at_head (recDriver w) st1 p1 e e1 fn acc opts sh
                Hs1 Hf1 He1 (ref_matches_shared _ _ _ _ Hsh Hfn1 Hrid1) Hlt1) as E2.
  eexists _, p1. split; [exact E2|]. simpl_state. split_and!; try done.
  - unfold refCount_at. by rewrite He1, <- Hrc1.
  - unfold refCount_at. simpl_state. rewrite lookup_alter_eq, He1. simpl.
    f_equal. lia.
Qed.

(** ** [_CloseDataset] *)

Lemma CloseDataset_close_ok w st p cur ec :
  singleton st = Some p -> heap st !! cur = Some ec ->
  INT_MIN <= refCountOfDisableRefCount p < INT_MAX ->
  CloseDataset_close (recDriver w) (tlsResponsiblePID st) cur st =
  Ok (tt, closed_state cur ec st).
Proof.
  intros Hs Hc Hb. unfold CloseDataset_close.
  step_load Hc.
  unfold GDALSetResponsiblePIDForCurrentThread at 1, modify at 1.
  erewrite bind_ok by reflexivity.
  erewrite bind_ok by (apply disableRefCount_incr_ok; [done|lia]).
  erewrite bind_ok by (by apply load_ok).
  unfold closed_state, close_events.
  assert (Hclose : forall st0,
    (match CacheEntry.poDS ec with
     | Some hDS => GDALClose (recDriver w) hDS
     | None => ret tt
     end) st0 =
    Ok (tt, with_trace
              (trace st0 ++
               match CacheEntry.poDS ec with
               | Some hDS => [EvGDALClose (tlsResponsiblePID st0) hDS]
               | None => []
               end) st0)).
  { intros st0. destruct (CacheEntry.poDS ec); [done|].
    unfold ret, with_trace. rewrite app_nil_r. by destruct st0. }
  rewrite (bind_ok _ _ _ _ _ (Hclose _)).
  erewrite bind_ok by (apply disableRefCount_decr_ok; [done|simpl; lia]).
  unfold GDALSetResponsiblePIDForCurrentThread at 1, modify at 1.
  erewrite bind_ok by reflexivity.
  erewrite bind_ok by (apply store_ok; simpl; by rewrite Hc).
  erewrite store_ok
    by (simpl; rewrite lookup_alter_eq, Hc; by eexists).
  destruct st as [s h t c tr], p as [rc ms cs fe le dr]. simpl in *.
  subst s. unfold with_tlsResponsiblePID, with_heap, with_singleton, with_trace.
  simpl. do 3 f_equal.
  - unfold set_refCountOfDisableRefCount. simpl. do 2 f_equal. lia.
  - by rewrite alter_alter_eq.
Qed.




Lemma wf_pool_closed p h l cur :
  wf_pool p h l -> wf_pool p (alter vacate cur h) l.
Proof.
  intros [? ? ? ? Hlk]. split; try done.
  apply dlseg_alter_content; [by intros []|done].
Qed.

(** [_CloseDataset] on a well-formed pool: it closes the first entry of the
    list that has the name, no reference and a dataset, and does nothing
    when there is none. *)
Lemma CloseDataset_ok w st p l fn acc :
  singleton st = Some p -> wf_pool p (heap st) l ->
  INT_MIN <= refCountOfDisableRefCount p < INT_MAX ->
  CloseDataset (recDriver w) fn acc st =
  Ok (tt, match close_list (heap st) fn l with
          | Some cur =>
              match heap st !! cur with
              | Some ec => closed_state cur ec st
              | None => st
              end
          | None => st
          end).
Proof.
  intros Hs Hwf Hb. unfold CloseDataset.
  erewrite CloseDataset_scanned by done.
  destruct (close_list (heap st) fn l) as [cur|] eqn:Ecl; [|done].
  apply close_list_some in Ecl as (l1 & l2 & ec & -> & Hc & _).
  rewrite Hc. by eapply CloseDataset_close_ok.
Qed.

Lemma CloseDataset_keeps_wf w st p l fn acc :
  singleton st = Some p -> wf_pool p (heap st) l ->
  INT_MIN <= refCountOfDisableRefCount p < INT_MAX ->
  exists st',
    CloseDataset (recDriver w) fn acc st = Ok (tt, st') /\
    singleton st' = Some p /\ wf_pool p (heap st') l /\
    tlsResponsiblePID st' = tlsResponsiblePID st.
Proof.
  intros Hs Hwf Hb. rewrite (CloseDataset_ok w st p l) by done.
  eexists. split; [reflexivity|].
  destruct (close_list (heap st) fn l) as [cur|]; [|done].
  destruct (heap st !! cur) as [ec|]; [|done].
  split; [done|]. split; [|done]. by apply wf_pool_closed.
Qed.


(** ** The life of the singleton *)

Lemma Ref_creates st :
  singleton st = None ->
  INT_MIN <= atoi_value
               (default "100"%string
                  (configOptions st !! "GDAL_MAX_DATASET_POOL_SIZE"%string))
          <= INT_MAX ->
  Ref st =
  Ok (tt, with_singleton
            (Some (set_refCount 1 (newGDALDatasetPool (configured_maxSize st))))
            st).
Proof.
  intros Hs Hrange. unfold Ref.
  unfold get at 1. erewrite bind_ok by reflexivity. rewrite Hs.
  erewrite (bind_ok (bind _ _)).
  2:{ unfold CPLGetConfigOption. erewrite bind_ok by reflexivity.
      unfold atoi.
      assert (Hr : (INT_MIN <=? atoi_value
                      (default "100"%string
                         (configOptions st !! "GDAL_MAX_DATASET_POOL_SIZE"%string)))
                   && (atoi_value
                         (default "100"%string
                            (configOptions st !! "GDAL_MAX_DATASET_POOL_SIZE"%string))
                       <=? INT_MAX) = true).
      { apply andb_true_intro. split; apply Z.leb_le; lia. }
      rewrite Hr. erewrite bind_ok by reflexivity. reflexivity. }
  erewrite bind_ok by (by apply this_ok).
  cbn [refCountOfDisableRefCount newGDALDatasetPool Z.eqb].
  erewrite bind_ok by (by apply int_succ_ok).
  erewrite this_set_ok by reflexivity.
  by destruct st.
Qed.

Lemma Ref_live st p :
  singleton st = Some p ->
  Ref st =
  if refCountOfDisableRefCount p =? 0
  then (if refCount p <? INT_MAX
        then Ok (tt, with_singleton (Some (set_refCount (refCount p + 1) p)) st)
        else Crash SignedOverflow)
  else Ok (tt, st).
Proof.
  intros Hs. unfold Ref.
  unfold get at 1. erewrite bind_ok by reflexivity. rewrite Hs.
  erewrite bind_ok by reflexivity.
  erewrite bind_ok by (by apply this_ok).
  destruct (refCountOfDisableRefCount p =? 0); [|done].
  unfold int_succ. destruct (refCount p <? INT_MAX); [|done].
  erewrite bind_ok by reflexivity. by apply this_set_ok.
Qed.

Lemma Unref_suppressed drv st p :
  singleton st = Some p -> refCountOfDisableRefCount p <> 0 ->
  Unref drv st = Ok (tt, st).
Proof.
  intros Hs Hd. unfold Unref.
  unfold get at 1. erewrite bind_ok by reflexivity. rewrite Hs.
  apply Z.eqb_neq in Hd. by rewrite Hd.
Qed.

(** C2, as the code has it.  When [Ref] finds no pool it reads
    [GDAL_MAX_DATASET_POOL_SIZE] (default ["100"]) and creates the pool with
    the configured integer if that lies between 2 and 1000, and with 100
    otherwise: the limit is always between 2 and 1000, it is 100 when the
    option is unset, and a value outside the interval is replaced by 100,
    not clamped.  [Ref] on a pool that exists leaves [maxSize] alone, so the
    option is read when the pool is created and not again while it lives. *)
Theorem C2_maxSize_is_configured_value_or_100 st :
  INT_MIN <= atoi_value
               (default "100"%string
                  (configOptions st !! "GDAL_MAX_DATASET_POOL_SIZE"%string))
          <= INT_MAX ->
  (singleton st = None ->
   exists p,
     Ref st = Ok (tt, with_singleton (Some p) st) /\
     maxSize p = configured_maxSize st /\
     2 <= maxSize p <= 1000 /\
     (configOptions st !! "GDAL_MAX_DATASET_POOL_SIZE"%string = None ->
      maxSize p = 100) /\
     (forall s v,
        configOptions st !! "GDAL_MAX_DATASET_POOL_SIZE"%string = Some s ->
        atoi_value s = v ->
        (2 <= v <= 1000 -> maxSize p = v) /\
        (v < 2 \/ 1000 < v -> maxSize p = 100))) /\
  (forall p st',
     singleton st = Some p -> Ref st = Ok (tt, st') ->
     exists p', singleton st' = Some p' /\ maxSize p' = maxSize p).
Proof.
  intros Hrange. split.
  - intros Hs. eexists. split; [by apply Ref_creates|].
    cbn [maxSize set_refCount newGDALDatasetPool].
    unfold configured_maxSize. split; [done|]. split.
    { destruct (_ || _) eqn:E; [lia|].
      apply orb_false_elim in E as [E1 E2]. lia. }
    split.
    { intros ->. reflexivity. }
    intros s v -> <-. simpl. split; intros Hv.
    + destruct (_ || _) eqn:E; [|done].
      apply orb_true_elim in E as [E|E]; lia.
    + destruct (_ || _) eqn:E; [done|].
      apply orb_false_elim in E as [E1 E2]. lia.
  - intros p st' Hs E. rewrite (Ref_live st p Hs) in E.
    destruct (refCountOfDisableRefCount p =? 0).
    + destruct (refCount p <? INT_MAX); [|done].
      injection E as <-. by eexists.
    + injection E as <-. by eexists.
Qed.

(** While [refCountOfDisableRefCount] is positive, [Ref] and [Unref] return
    without touching anything: the reference count of the pool is what it
    was and the pool is not destroyed. *)
Lemma Ref_Unref_suppressed drv st p :
  singleton st = Some p -> 0 < refCountOfDisableRefCount p ->
  Ref st = Ok (tt, st) /\ Unref drv st = Ok (tt, st).
Proof.
  intros Hs Hd. split.
  - rewrite (Ref_live st p Hs).
    destruct (Z.eqb_spec (refCountOfDisableRefCount p) 0); [lia|done].
  - apply (Unref_suppressed drv st p Hs). lia.
Qed.

Lemma dlseg_delete_notin h c p l n :
  c ∉ l -> dlseg h p l n -> dlseg (delete c h) p l n.
Proof.
  intros Hni. apply dlseg_agree. intros a Ha.
  rewrite lookup_delete_ne by (intros ->; done).
  by destruct (h !! a).
Qed.

(** The loop of the destructor on a chain: every cell of the chain is
    freed, nothing else is, and the pool object is not touched. *)
Lemma destroy_entries_ok w l :
  forall st p fuel,
  NoDup l -> dlseg (heap st) p l None -> (length l <= fuel)%nat ->
  exists st',
    destroy_entries (recDriver w) fuel (head l) st = Ok (tt, st') /\
    singleton st' = singleton st /\
    configOptions st' = configOptions st /\
    (forall a, a ∈ l -> heap st' !! a = None) /\
    (forall a, a ∉ l -> heap st' !! a = heap st !! a).
Proof.
  induction l as [|c l IH]; intros st p fuel Hnd Hlk Hfuel.
  - exists st. destruct fuel; (split; [done|]); split_and!; try done;
      intros a Ha; by inversion Ha.
  - destruct fuel as [|fuel]; [simpl in Hfuel; lia|].
    destruct (heap st !! c) as [e|] eqn:Ec.
    2:{ unfold dlseg in Hlk. by rewrite Ec in Hlk. }
    apply (dlseg_cons _ _ _ _ _ _ Ec) in Hlk as (_ & Hn & Hlk).
    apply NoDup_cons in Hnd as [Hc Hnd].
    cbn [head destroy_entries].
    assert (exists sta,
      CPLAssert (CacheEntry.refCount e =? 0) "cur->refCount == 0" st
        = Ok (tt, sta) /\
      singleton sta = singleton st /\ configOptions sta = configOptions st /\
      heap sta = heap st) as (sta & Ea & Hsa & Hca & Hha).
    { unfold CPLAssert, emit, modify, ret.
      destruct (CacheEntry.refCount e =? 0); by eexists. }
    assert (exists st1,
      (match CacheEntry.poDS e with
       | Some hDS =>
           GDALSetResponsiblePIDForCurrentThread (CacheEntry.responsiblePID e) ;;
           GDALClose (recDriver w) hDS
       | None => ret tt
       end) sta = Ok (tt, st1) /\
      singleton st1 = singleton st /\ configOptions st1 = configOptions st /\
      heap st1 = heap st) as (st1 & E1 & Hs1 & Hc1 & Hh1).
    { unfold GDALSetResponsiblePIDForCurrentThread.
      cbn [GDALClose recDriver]. unfold emit, modify, get, ret, bind.
      destruct (CacheEntry.poDS e); by eexists. }
    set (st2 := with_heap (delete c (heap st1)) st1).
    destruct (IH st2 (Some c) fuel Hnd) as (st' & E & Hs' & Hc' & Hin & Hout).
    { subst st2. simpl. rewrite Hh1. by apply dlseg_delete_notin. }
    { simpl in Hfuel. lia. }
    exists st'. split.
    { step_load Ec.
      rewrite (bind_ok _ _ _ _ _ Ea).
      rewrite (bind_ok _ _ _ _ _ E1).
      assert (Ef : CPLFree_entry c st1 = Ok (tt, st2)).
      { unfold CPLFree_entry.
        assert (heap st1 !! c = Some e) as -> by (by rewrite Hh1). done. }
      rewrite (bind_ok _ _ _ _ _ Ef).
      rewrite Hn, <- head_hd_or. exact E. }
    split; [by rewrite Hs'|]. split; [by rewrite Hc'|]. split.
    + intros a Ha. apply elem_of_cons in Ha as [->|Ha]; [|by apply Hin].
      rewrite (Hout c Hc). subst st2. simpl. by rewrite lookup_delete_eq.
    + intros a Ha. apply not_elem_of_cons in Ha as [Hac Ha].
      rewrite (Hout a Ha). subst st2. simpl.
      by rewrite lookup_delete_ne, Hh1.
Qed.

(** The last reference: [Unref] destroys the pool of a well-formed state
    and clears [singleton]. *)
Lemma Unref_last_reference w st p l :
  singleton st = Some p -> refCount p = 1 -> refCountOfDisableRefCount p = 0 ->
  wf_pool p (heap st) l ->
  exists st',
    Unref (recDriver w) st = Ok (tt, st') /\ singleton st' = None /\
    tlsResponsiblePID st' = tlsResponsiblePID st.
Proof.
  intros Hs Hrc Hdr Hwf. unfold Unref.
  unfold get at 1. erewrite bind_ok by reflexivity. rewrite Hs, Hdr. simpl.
  rewrite Hrc.
  erewrite bind_ok by reflexivity.
  erewrite bind_ok by (by apply this_set_ok).
  erewrite bind_ok by reflexivity.
  cbn [refCount set_refCount Z.eqb Z.sub Z.add Z.opp Z.pos_sub].
  set (st1 := with_singleton _ st).
  destruct (destroy_entries_ok w l st1 None (scan_fuel st1))
    as (st2 & E2 & Hs2 & _); [apply Hwf..| |].
  { eapply (scan_fuel_enough st1 p). exact Hwf. }
  assert (Ed : delete_GDALDatasetPool (recDriver w) st1 =
               Ok (tt, with_tlsResponsiblePID (tlsResponsiblePID st) st2)).
  { unfold delete_GDALDatasetPool.
    erewrite bind_ok by (by apply this_ok).
    unfold GDALGetResponsiblePIDForCurrentThread, get.
    erewrite bind_ok by reflexivity.
    erewrite bind_ok by reflexivity.
    cbn [firstEntry set_refCount]. rewrite (wf_first _ _ _ Hwf).
    rewrite (bind_ok _ _ _ _ _ E2). reflexivity. }
  eexists. split.
  { change (1 - 1 =? 0) with true. cbn iota.
    rewrite (bind_ok _ _ _ _ _ Ed). reflexivity. }
  done.
Qed.

(** C10.  [RefDataset] and [CloseDataset] go through [singleton] without a
    test: with no pool they dereference a null pointer, so they only return
    when there is a pool.  There is one from the first [Ref] on, and there
    is none again once [Unref] has taken the reference count to zero and
    destroyed it. *)
Theorem C10_entry_points_need_the_singleton :
  (forall drv st fn acc opts sh,
     singleton st = None ->
     RefDataset drv fn acc opts sh st = Crash NullPointerDereference /\
     CloseDataset drv fn acc st = Crash NullPointerDereference) /\
  (forall st,
     singleton st = None ->
     INT_MIN <= atoi_value
                  (default "100"%string
                     (configOptions st !! "GDAL_MAX_DATASET_POOL_SIZE"%string))
             <= INT_MAX ->
     exists st', Ref st = Ok (tt, st') /\ is_Some (singleton st')) /\
  (forall w st p l,
     singleton st = Some p -> refCount p = 1 ->
     refCountOfDisableRefCount p = 0 -> wf_pool p (heap st) l ->
     exists st', Unref (recDriver w) st = Ok (tt, st') /\ singleton st' = None).
Proof.
  split_and!.
  - intros drv st fn acc opts sh Hs.
    unfold RefDataset, _RefDataset, CloseDataset, _CloseDataset.
    unfold bind, this. by rewrite Hs.
  - intros st Hs Hr. eexists. split; [by apply Ref_creates|]. by eexists.
  - intros w st p l Hs Hrc Hdr Hwf.
    destruct (Unref_last_reference w st p l Hs Hrc Hdr Hwf) as (st' & E & Hn & _).
    by exists st'.
Qed.

Lemma GDALProxyPoolDataset_new_suppressed CPLStrdup st p desc x y acc sh proj gt :
  singleton st = Some p -> 0 < refCountOfDisableRefCount p ->
  (forall src, gt = Some src -> (6 <= length src)%nat) ->
  exists d,
    GDALProxyPoolDataset_new CPLStrdup desc x y acc sh proj gt st = Ok (d, st) /\
    ProxyPoolDataset.description d = desc /\
    ProxyPoolDataset.eAccess d = acc /\
    ProxyPoolDataset.bShared d = sh mod 256.
Proof.
  intros Hs Hd Hgt. unfold GDALProxyPoolDataset_new.
  destruct (Ref_Unref_suppressed (recDriver (BuildWorld (fun _ _ _ _ => None)
              (fun _ => None) (fun _ => (CE_None, [])))) st p Hs Hd) as [ERef _].
  rewrite (bind_ok _ _ _ _ _ ERef).
  unfold GDALGetResponsiblePIDForCurrentThread.
  erewrite bind_ok by reflexivity.
  destruct proj; destruct gt as [src|].
  - unfold memcpy_6_doubles.
    pose proof (Hgt src eq_refl) as Hlen. apply Nat.leb_le in Hlen. rewrite Hlen.
    eexists. split; [reflexivity|done].
  - eexists. split; [reflexivity|done].
  - unfold memcpy_6_doubles.
    pose proof (Hgt src eq_refl) as Hlen. apply Nat.leb_le in Hlen. rewrite Hlen.
    eexists. split; [reflexivity|done].
  - eexists. split; [reflexivity|done].
Qed.

Lemma GDALProxyPoolDataset_delete_suppressed w st p l d :
  singleton st = Some p -> wf_pool p (heap st) l ->
  0 < refCountOfDisableRefCount p < INT_MAX ->
  exists st',
    GDALProxyPoolDataset_delete (recDriver w) d st = Ok (tt, st') /\
    singleton st' = Some p /\
    (forall a, is_Some (heap st !! a) -> is_Some (heap st' !! a)) /\
    tlsResponsiblePID st' = tlsResponsiblePID st.
Proof.
  intros Hs Hwf Hd. unfold GDALProxyPoolDataset_delete.
  assert (Hb : INT_MIN <= refCountOfDisableRefCount p < INT_MAX).
  { unfold INT_MIN. lia. }
  destruct (ProxyPoolDataset.bShared d =? 0).
  - rewrite (bind_ok _ _ _ _ _
      (CloseDataset_ok w st p l _ _ Hs Hwf Hb)).
    set (st1 := match close_list _ _ _ with Some _ => _ | None => _ end).
    assert (H1 : singleton st1 = Some p /\
                 (forall a, is_Some (heap st !! a) -> is_Some (heap st1 !! a)) /\
                 tlsResponsiblePID st1 = tlsResponsiblePID st).
    { subst st1. destruct (close_list _ _ _) as [cur|]; [|done].
      destruct (heap st !! cur) as [ec|]; [|done].
      split; [done|]. split; [|done]. intros a Ha. simpl. by apply is_Some_alter. }
    destruct H1 as (Hs1 & Hh1 & Ht1).
    exists st1. split; [|done].
    apply (Unref_suppressed _ st1 p Hs1). lia.
  - erewrite bind_ok by reflexivity.
    exists st. split; [|done].
    apply (Unref_suppressed _ st p Hs). lia.
Qed.

Lemma cascade_open_ok CPLStrdup w inner st p l fn nFlag opts :
  inner_well_formed inner ->
  singleton st = Some p -> wf_pool p (heap st) l ->
  0 < refCountOfDisableRefCount p < INT_MAX ->
  exists r st',
    GDALOpenEx (cascadeDriver CPLStrdup w inner) fn nFlag opts st = Ok (r, st') /\
    singleton st' = Some p /\
    (forall a, is_Some (heap st !! a) -> is_Some (heap st' !! a)).
Proof.
  intros Hin Hs Hwf Hd. cbn [GDALOpenEx cascadeDriver].
  assert (exists st1,
    (match inner fn with
     | Some ip =>
         d <- GDALProxyPoolDataset_new CPLStrdup (ip_description ip) 0 0
                (ip_eAccess ip) (ip_bShared ip) (ip_projection ip)
                (ip_geotransform ip) ;;
         GDALProxyPoolDataset_delete (recDriver w) d
     | None => ret tt
     end) st = Ok (tt, st1) /\
    singleton st1 = Some p /\
    (forall a, is_Some (heap st !! a) -> is_Some (heap st1 !! a)))
    as (st1 & E1 & Hs1 & Hh1).
  { destruct (inner fn) as [ip|] eqn:Ei; [|by exists st].
    destruct (GDALProxyPoolDataset_new_suppressed CPLStrdup st p
                (ip_description ip) 0 0 (ip_eAccess ip) (ip_bShared ip)
                (ip_projection ip) (ip_geotransform ip) Hs ltac:(lia))
      as (d & En & _).
    { intros src Hsrc. by eapply Hin. }
    destruct (GDALProxyPoolDataset_delete_suppressed w st p l d Hs Hwf Hd)
      as (st1 & Ed & Hs1 & Hh1 & _).
    exists st1. split; [|done]. by rewrite (bind_ok _ _ _ _ _ En). }
  rewrite (bind_ok _ _ _ _ _ E1).
  cbn [GDALOpenEx recDriver]. unfold get, emit, modify, ret, bind.
  eexists _, _. split; [reflexivity|]. done.
Qed.

(** [open_in] with the cascading driver, on a well-formed pool: the proxy
    that the driver builds and destroys finds the disable counter raised,
    so the reference count of the pool is not touched. *)
Lemma open_in_cascade_ok CPLStrdup w inner st p l cur fn acc opts rid :
  inner_well_formed inner ->
  singleton st = Some p -> wf_pool p (heap st) l -> cur ∈ l ->
  0 <= refCountOfDisableRefCount p < INT_MAX - 1 ->
  exists st' p',
    open_in (cascadeDriver CPLStrdup w inner) cur fn acc opts rid st
      = Ok (tt, st') /\
    singleton st' = Some p' /\
    refCount p' = refCount p /\
    refCountOfDisableRefCount p' = refCountOfDisableRefCount p.
Proof.
  intros Hin Hs Hwf Hcur Hdr.
  pose proof (wf_lookup _ _ _ _ Hwf Hcur) as Hc.
  (* the three stores of [open_in], then the disable counter goes up *)
  set (h2 := alter (CacheEntry.set_refCount 1) cur
               (alter (CacheEntry.set_responsiblePID rid) cur
                  (alter (CacheEntry.set_pszFileName fn) cur (heap st)))).
  set (p2 := set_refCountOfDisableRefCount (refCountOfDisableRefCount p + 1) p).
  set (st2 := with_singleton (Some p2) (with_heap h2 st)).
  assert (Hwf2 : wf_pool p2 (heap st2) l).
  { destruct Hwf as [? ? ? ? Hlk]. split; try done. simpl. subst h2.
    do 3 (apply dlseg_alter_content; [by intros []|]). done. }
  assert (Hd2 : 0 < refCountOfDisableRefCount p2 < INT_MAX).
  { subst p2. simpl. unfold INT_MAX in *. lia. }
  destruct (cascade_open_ok CPLStrdup w inner st2 p2 l fn
              (nFlag_of acc) opts Hin eq_refl Hwf2 Hd2)
    as (r & st3 & E3 & Hs3 & Hh3).
  eexists _, _. split.
  { unfold open_in.
    step_store. step_store. step_store.
    erewrite bind_ok
      by (apply disableRefCount_incr_ok; [done|unfold INT_MAX in *; lia]).
    fold h2. fold p2. fold st2.
    rewrite (bind_ok _ _ _ _ _ E3).
    erewrite bind_ok by (apply store_ok; apply Hh3; subst st2 h2; simpl; eauto).
    apply disableRefCount_decr_ok; [done|].
    subst p2. simpl. unfold INT_MIN. lia. }
  simpl_state. split; [done|]. subst p2. simpl. split; [done|lia].
Qed.

(** While [refCountOfDisableRefCount] is positive, [Ref] and [Unref]
    change nothing: the reference count of the pool stays and the pool is
    not destroyed.  In particular, when [RefDataset] opens a dataset (in a
    new cell, or in the cell of an evicted entry that is not the first of
    the list) with a driver that constructs a proxy dataset and destroys it
    during the open, the reference count of the pool after [RefDataset] is
    what it was before, and so is the disable counter. *)
Lemma no_pool_reference_while_suppressed :
  (forall drv st p,
     singleton st = Some p -> 0 < refCountOfDisableRefCount p ->
     Ref st = Ok (tt, st) /\ Unref drv st = Ok (tt, st)) /\
  (forall CPLStrdup w inner st p l fn acc opts sh lz,
     inner_well_formed inner ->
     singleton st = Some p -> wf_pool p (heap st) l -> pool_bounds p ->
     refCountOfDisableRefCount p < INT_MAX - 1 ->
     scan_list (heap st) fn sh (tlsResponsiblePID st) l None = NotFound lz ->
     (currentSize p = maxSize p ->
      exists v, lz = Some v /\ Some v <> firstEntry p) ->
     exists cur st' p',
       RefDataset (cascadeDriver CPLStrdup w inner) fn acc opts sh st
         = Ok (Some cur, st') /\
       singleton st' = Some p' /\
       refCount p' = refCount p /\
       refCountOfDisableRefCount p' = refCountOfDisableRefCount p).
Proof.
  split; [apply Ref_Unref_suppressed|].
  intros CPLStrdup w inner st p l fn acc opts sh lz Hin Hs Hwf
    (Hmax & Hcs & Hdr) Hdr' Hscan Hvictim.
  unfold RefDataset. erewrite RefDataset_scanned by done. rewrite Hscan.
  unfold RefDataset_miss.
  erewrite bind_ok by (by apply this_ok).
  destruct (Z.eqb_spec (currentSize p) (maxSize p)) as [Hfull|Hroom].
  - destruct (Hvictim Hfull) as (v & -> & Hnf).
    apply scan_list_victim in Hscan as [Hscan|Hv]; [done|].
    destruct (wf_lookup _ _ _ _ Hwf Hv) as [ev Hev].
    apply list_elem_of_split in Hv as (l1 & l2 & ->).
    assert (Hne : l1 <> []).
    { intros ->. apply Hnf. by rewrite (wf_first _ _ _ Hwf). }
    destruct (recycle_ok w st p l1 v l2 ev Hs Hwf Hne Hev)
      as (st1 & p1 & E1 & Hs1 & (Hrc1 & _ & _ & Hdr1) & Hwf1 & _).
    { unfold INT_MIN. lia. }
    destruct (open_in_cascade_ok CPLStrdup w inner st1 p1 (v :: l1 ++ l2) v
                fn acc opts (tlsResponsiblePID st) Hin Hs1 Hwf1)
      as (st2 & p2 & E2 & Hs2 & Hrc2 & Hdr2).
    { apply list_elem_of_here. }
    { rewrite Hdr1. lia. }
    exists v, st2, p2. split.
    { change (recycle (cascadeDriver CPLStrdup w inner))
        with (recycle (recDriver w)).
      rewrite (bind_ok _ _ _ _ _ E1).
      by rewrite (bind_ok _ _ _ _ _ E2). }
    split; [done|]. split; congruence.
  - destruct (prepend_ok st p l Hs Hwf ltac:(unfold INT_MAX; lia))
      as (st1 & p1 & E1 & Hs1 & Hwf1 & _ & _ & _ & _ & Hrc1 & _ & Hdr1 & _).
    destruct (open_in_cascade_ok CPLStrdup w inner st1 p1
                (fresh (dom (heap st)) :: l) (fresh (dom (heap st)))
                fn acc opts (tlsResponsiblePID st) Hin Hs1 Hwf1)
      as (st2 & p2 & E2 & Hs2 & Hrc2 & Hdr2).
    { apply list_elem_of_here. }
    { rewrite Hdr1. lia. }
    exists (fresh (dom (heap st))), st2, p2. split.
    { rewrite (bind_ok _ _ _ _ _ E1).
      by rewrite (bind_ok _ _ _ _ _ E2). }
    split; [done|]. split; congruence.
Qed.

(** The calls of the driver that owns a proxy, while the disable counter is
    raised: the proxy it constructs or destroys leaves the pool as it is. *)
Lemma owning_open_suppressed CPLStrdup w inner owned st p fn nFlag opts :
  inner_well_formed inner ->
  singleton st = Some p -> 0 < refCountOfDisableRefCount p ->
  exists r st',
    GDALOpenEx (owningDriver CPLStrdup w inner owned) fn nFlag opts st
      = Ok (r, st') /\
    singleton st' = Some p /\ heap st' = heap st.
Proof.
  intros Hin Hs Hd. cbn [GDALOpenEx owningDriver].
  assert (E1 :
    (match inner fn with
     | Some ip =>
         _ <- GDALProxyPoolDataset_new CPLStrdup (ip_description ip) 0 0
                (ip_eAccess ip) (ip_bShared ip) (ip_projection ip)
                (ip_geotransform ip) ;;
         ret tt
     | None => ret tt
     end) st = Ok (tt, st)).
  { destruct (inner fn) as [ip|] eqn:Ei; [|done].
    destruct (GDALProxyPoolDataset_new_suppressed CPLStrdup st p
                (ip_description ip) 0 0 (ip_eAccess ip) (ip_bShared ip)
                (ip_projection ip) (ip_geotransform ip) Hs Hd)
      as (d & En & _).
    { intros src Hsrc. by eapply Hin. }
    by rewrite (bind_ok _ _ _ _ _ En). }
  rewrite (bind_ok _ _ _ _ _ E1).
  cbn [GDALOpenEx recDriver]. unfold get, emit, modify, ret, bind.
  eexists _, _. split; [reflexivity|]. done.
Qed.

Lemma owning_close_suppressed CPLStrdup w inner owned st p l hDS :
  singleton st = Some p -> wf_pool p (heap st) l ->
  0 < refCountOfDisableRefCount p < INT_MAX ->
  exists st',
    GDALClose (owningDriver CPLStrdup w inner owned) hDS st = Ok (tt, st') /\
    singleton st' = Some p /\
    (forall a, is_Some (heap st !! a) -> is_Some (heap st' !! a)).
Proof.
  intros Hs Hwf Hd. cbn [GDALClose owningDriver].
  assert (exists st1,
    (match owned hDS with
     | Some d => GDALProxyPoolDataset_delete (recDriver w) d
     | None => ret tt
     end) st = Ok (tt, st1) /\
    singleton st1 = Some p /\
    (forall a, is_Some (heap st !! a) -> is_Some (heap st1 !! a)))
    as (st1 & E1 & Hs1 & Hh1).
  { destruct (owned hDS) as [d|]; [|by exists st].
    destruct (GDALProxyPoolDataset_delete_suppressed w st p l d Hs Hwf Hd)
      as (st1 & Ed & Hs1 & Hh1 & _).
    by exists st1. }
  rewrite (bind_ok _ _ _ _ _ E1).
  cbn [GDALClose recDriver]. unfold get, emit, modify, ret, bind.
  eexists. split; [reflexivity|]. done.
Qed.


(** The proxy that ["outer.vrt"] owns is the one its open constructs. *)
Lemma inner_object_constructed :
  GDALProxyPoolDataset_new demo_CPLStrdup "inner.tif" 0 0 GA_ReadOnly 0 None None
    (with_tlsResponsiblePID 7 busy_state)
  = Ok (inner_object, with_tlsResponsiblePID 7 busy_state).
Proof. vm_compute. reflexivity. Qed.

(** ** Concrete runs *)

Lemma all_entries_Forall h l P :
  Forall (fun a => match h !! a with Some e => P e | None => True end) l ->
  all_entries h l P.
Proof.
  intros H a e Ha He. rewrite Forall_forall in H.
  specialize (H a Ha). by rewrite He in H.
Qed.

Lemma full_state_wf rcA rcB :
  wf_pool full_pool (heap (full_state rcA rcB)) [1%nat; 0%nat].
Proof.
  split; [|reflexivity..|].
  - apply NoDup_cons. split; [|apply NoDup_singleton].
    intros H. apply list_elem_of_singleton in H. discriminate.
  - unfold dlseg. simpl. vm_compute. tauto.
Defined.

Lemma full_pool_bounds : pool_bounds full_pool.
Proof. vm_compute. intuition congruence. Defined.

(** The eviction of the first entry in general: on a well-formed full pool
    whose first entry is the only one without a reference, a request that no
    entry matches violates the assertion of the eviction block and leaves
    the first entry as its own successor. *)
Lemma RefDataset_asserts_on_head_victim w st p v n l2 ev fn acc opts sh :
  singleton st = Some p -> wf_pool p (heap st) (v :: n :: l2) ->
  currentSize p = maxSize p ->
  INT_MIN <= refCountOfDisableRefCount p < INT_MAX ->
  heap st !! v = Some ev -> CacheEntry.refCount ev = 0 ->
  ref_matches fn sh (tlsResponsiblePID st) ev = false ->
  all_entries (heap st) (n :: l2) (fun e => CacheEntry.refCount e <> 0) ->
  all_entries (heap st) (n :: l2)
    (fun e => ref_matches fn sh (tlsResponsiblePID st) e = false) ->
  exists st' r e',
    RefDataset (recDriver w) fn acc opts sh st = Ok (Some v, st') /\
    trace st' = trace st ++ close_events ev ++
                [EvCPLAssert "0";
                 EvGDALOpenEx (tlsResponsiblePID st) fn (nFlag_of acc) opts r] /\
    heap st' !! v = Some e' /\
    CacheEntry.prev e' = Some v /\ CacheEntry.next e' = Some v.
Proof.
  intros Hs Hwf Hfull Hb Hv H0 Hm Hpin Hnm.
  destruct (RefDataset_miss_recycle_head w st p v n l2 ev fn acc opts
              Hs Hwf Hv Hfull Hb)
    as (st' & p' & r & e' & E & _ & _ & _ & _ & Htr & _ & _ & He' & Hp' & Hn' & _).
  exists st', r, e'. split_and!; try done.
  unfold RefDataset. erewrite RefDataset_scanned by done.
  rewrite (scan_list_cons _ _ _ _ _ _ _ _ Hv), Hm, H0. cbn [Z.eqb].
  rewrite scan_list_all_pinned; [done..|].
  intros a Ha. eapply wf_lookup; [exact Hwf|]. by apply list_elem_of_further.
Qed.

(** The scan on an entry that is its own successor and does not match: no
    amount of fuel is enough, the loop of the C++ does not end. *)
Lemma RefDataset_scan_self_loop st c e fn sh rid :
  heap st !! c = Some e -> CacheEntry.next e = Some c ->
  ref_matches fn sh rid e = false ->
  forall fuel acc, RefDataset_scan fuel fn sh rid (Some c) acc st = OutOfFuel.
Proof.
  intros Hc Hn Hm. induction fuel as [|fuel IH]; intros acc; [done|].
  cbn [RefDataset_scan]. step_load Hc. rewrite Hm, Hn. apply IH.
Qed.

(** C9 at a failing input.  With a pool of size 2, the public operations
    [Ref], [RefDataset "A"], [RefDataset "B"], [UnrefDataset] of the second
    lead to a well-formed full pool whose only unreferenced entry is the
    first of the list.  A request for a third file then takes the eviction
    branch with that entry as victim: its [prev] link is null, the
    assertion [CPLAssert(0)] is violated, and the release build ties the
    victim to itself ([next] of the victim is the victim), after which a
    request for a fourth file never leaves the scan. *)
Theorem C9_eviction_victim_can_be_the_first_entry :
  exists st st',
    ref_A_ref_B_unref_B (recDriver demo_world) (initial_state pool_size_2 7)
      = Ok (tt, st) /\
    (maxSize <$> singleton st) = Some 2 /\
    wf_pool (default full_pool (singleton st)) (heap st) [1%nat; 0%nat] /\
    scan_list (heap st) "C" 1 (tlsResponsiblePID st) [1%nat; 0%nat] None
      = NotFound (Some 1%nat) /\
    (CacheEntry.prev <$> heap st !! 1%nat) = Some None /\
    RefDataset (recDriver demo_world) "C" GA_ReadOnly None 1 st
      = Ok (Some 1%nat, st') /\
    trace st' = trace st ++
      [EvGDALClose 7 1%nat; EvCPLAssert "0";
       EvGDALOpenEx 7 "C" (nFlag_of GA_ReadOnly) None (Some 4%nat)] /\
    (CacheEntry.next <$> heap st' !! 1%nat) = Some (Some 1%nat) /\
    (forall fuel,
       RefDataset_scan fuel "D" 1 (tlsResponsiblePID st') (Some 1%nat) None st'
         = OutOfFuel) /\
    RefDataset (recDriver demo_world) "D" GA_ReadOnly None 1 st' = OutOfFuel.
Proof.
  eexists _, _. split; [vm_compute; reflexivity|].
  split; [reflexivity|]. split.
  { split; [|reflexivity..|].
    - apply NoDup_cons. split; [|apply NoDup_singleton].
      intros H. apply list_elem_of_singleton in H. discriminate.
    - vm_compute. tauto. }
  split; [reflexivity|]. split; [reflexivity|].
  split; [vm_compute; reflexivity|].
  split; [reflexivity|]. split; [reflexivity|]. split; [|reflexivity].
  intros fuel. eapply RefDataset_scan_self_loop; reflexivity.
Qed.

(** The half of C1 that the code keeps: a proxy constructed with a
    geotransform hands back the six values it was given, bit for bit, and
    the state (pool, heap, trace) is not touched by the read. *)
Lemma geotransform_overlay_read_back drv CPLStrdup desc x y acc sh proj gt st d st' :
  length gt = 6%nat ->
  GDALProxyPoolDataset_new CPLStrdup desc x y acc sh proj (Some gt) st
    = Ok (d, st') ->
  GetGeoTransform drv d st' = Ok ((CE_None, Some gt, d), st').
Proof.
  intros Hlen. unfold GDALProxyPoolDataset_new.
  destruct (Ref st) as [[[] st1]| |] eqn:ERef; unfold bind at 1; rewrite ERef;
    [|done..].
  unfold GDALGetResponsiblePIDForCurrentThread.
  erewrite bind_ok by reflexivity.
  unfold memcpy_6_doubles. rewrite Hlen. simpl.
  rewrite firstn_all2 by lia.
  destruct proj; intros [= <- <-]; unfold GetGeoTransform; simpl;
    unfold memcpy_6_doubles; rewrite Hlen; simpl;
    by rewrite firstn_all2 by lia.
Qed.

(** The constructor has the test on the projection the wrong way round. *)
Lemma projection_overlay_inverted CPLStrdup desc x y acc sh proj gt st d st' :
  GDALProxyPoolDataset_new CPLStrdup desc x y acc sh proj gt st = Ok (d, st') ->
  ProxyPoolDataset.bHasSrcProjection d = negb (bool_decide (is_Some proj)) /\
  ProxyPoolDataset.pszProjectionRef d =
    match proj with
    | Some _ => None
    | None => Some (CPLStrdup None)
    end.
Proof.
  unfold GDALProxyPoolDataset_new.
  destruct (Ref st) as [[[] st1]| |] eqn:ERef; unfold bind at 1; rewrite ERef;
    [|done..].
  unfold GDALGetResponsiblePIDForCurrentThread.
  erewrite bind_ok by reflexivity.
  destruct proj, gt as [src|]; simpl; unfold memcpy_6_doubles, bind, ret, crash;
    try destruct (6 <=? length src)%nat; intros [= <- <-] || done;
    split; try done; apply eq_sym, bool_decide_eq_false_2; by intros [? ?].
Qed.

(** C1 at a failing input.  A proxy is constructed with the projection
    [proj] (whatever it is) and read back at once: the constructor has not
    kept it ([bHasSrcProjection] is false), so [GetProjectionRef] goes to
    the pool, opens the underlying dataset and returns the projection of
    that dataset. *)
Theorem C1_projection_overlay_is_not_read_back (proj : string) :
  exists d st1 d' st2,
    GDALProxyPoolDataset_new demo_CPLStrdup "a.tif" 10 10 GA_ReadOnly 1
      (Some proj) None (initial_state ∅ 7) = Ok (d, st1) /\
    ProxyPoolDataset.bHasSrcProjection d = false /\
    ProxyPoolDataset.pszProjectionRef d = None /\
    trace st1 = [] /\
    GetProjectionRef (recDriver demo_world) d st1
      = Ok ((Some "UNDERLYING"%string, d'), st2) /\
    trace st2 =
      [EvGDALOpenEx 7 "a.tif" (nFlag_of GA_ReadOnly) None (Some 0%nat)].
Proof.
  eexists _, _, _, _. split; [vm_compute; reflexivity|].
  split; [reflexivity|]. split; [reflexivity|]. split; [reflexivity|].
  split; [vm_compute; reflexivity|]. reflexivity.
Qed.

(** C2 at two configured values outside the interval: 1 and 5000 both give
    a pool of size 100, where clamping would give 2 and 1000. *)
Lemma C2_out_of_range_is_not_clamped :
  (exists st p,
     Ref (initial_state {[ "GDAL_MAX_DATASET_POOL_SIZE"%string := "1"%string ]} 7)
       = Ok (tt, st) /\
     singleton st = Some p /\ maxSize p = 100 /\
     spec_clamped_maxSize (atoi_value "1") = 2) /\
  (exists st p,
     Ref (initial_state {[ "GDAL_MAX_DATASET_POOL_SIZE"%string := "5000"%string ]} 7)
       = Ok (tt, st) /\
     singleton st = Some p /\ maxSize p = 100 /\
     spec_clamped_maxSize (atoi_value "5000") = 1000).
Proof.
  split; eexists _, _; (split; [vm_compute; reflexivity|]);
    split; try reflexivity; split; reflexivity.
Qed.

(** C5 at two inputs where it fails as stated.  An entry that is already
    referenced once has three references after two more shared requests; and
    on a full pool in which everything is referenced, a request for another
    file returns no entry, twice. *)
Lemma C5_refcount_is_not_always_2 :
  (exists st st1 st2,
     (Ref ;; RefDataset (recDriver demo_world) "A" GA_ReadOnly None 1)
       (initial_state ∅ 7) = Ok (Some 0%nat, st) /\
     RefDataset (recDriver demo_world) "A" GA_ReadOnly None 1 st
       = Ok (Some 0%nat, st1) /\
     RefDataset (recDriver demo_world) "A" GA_ReadOnly None 1 st1
       = Ok (Some 0%nat, st2) /\
     refCount_at st2 0%nat = Some 3) /\
  (exists st1 st2,
     RefDataset (recDriver demo_world) "C" GA_ReadOnly None 1 (full_state 1 1)
       = Ok (None, st1) /\
     RefDataset (recDriver demo_world) "C" GA_ReadOnly None 1 st1
       = Ok (None, st2)).
Proof.
  split.
  - eexists _, _, _. split; [vm_compute; reflexivity|].
    split; [vm_compute; reflexivity|]. split; [vm_compute; reflexivity|].
    reflexivity.
  - eexists _, _. split; [vm_compute; reflexivity|]. vm_compute; reflexivity.
Qed.


(** Scenario 1 of the specification, with a pool of two: after "A" then
    "B" the list is B, A; another reference to "A" makes it A, B. *)
Example scenario_promotion_run :
  exists st,
    scenario_promotion (recDriver demo_world) (initial_state pool_size_2 7)
      = Ok ((["B"; "A"], ["A"; "B"])%string, st).
Proof. eexists. vm_compute. reflexivity. Qed.

(** Scenario 2: "A" and "B" were opened under the responsible PID 7 and
    released; a request for "C" closes "A" (handle 0) under PID 7 and the
    list is C, B. *)
Example scenario_eviction_run :
  exists st,
    scenario_eviction (recDriver demo_world) (initial_state pool_size_2 7)
      = Ok (["C"; "B"]%string, st) /\
    trace st =
      [EvGDALOpenEx 7 "A" (nFlag_of GA_ReadOnly) None (Some 0%nat);
       EvGDALOpenEx 7 "B" (nFlag_of GA_ReadOnly) None (Some 1%nat);
       EvGDALClose 7 0%nat;
       EvGDALOpenEx 7 "C" (nFlag_of GA_ReadOnly) None (Some 3%nat)].
Proof. eexists. split; [vm_compute; reflexivity|reflexivity]. Qed.

(** Scenario 4: a proxy created under the responsible PID 7 is used by a
    thread whose PID is 9; the driver sees 7 during the open and the thread
    has 9 again afterwards. *)
Example scenario_rid_attribution :
  exists h d st,
    RefUnderlyingDataset (recDriver demo_world) demo_proxy
      (with_tlsResponsiblePID 9 fresh_state) = Ok ((Some h, d), st) /\
    trace st = [EvGDALOpenEx 7 "C" (nFlag_of GA_ReadOnly) None (Some h)] /\
    tlsResponsiblePID st = 9.
Proof.
  eexists _, _, _. split; [vm_compute; reflexivity|]. split; reflexivity.
Qed.

(** ** The theorems at concrete inputs *)

(** C2 at the configured value "2", and on a pool that already exists. *)
Lemma C2_witness :
  (exists p,
     Ref (initial_state pool_size_2 7)
       = Ok (tt, with_singleton (Some p) (initial_state pool_size_2 7)) /\
     maxSize p = 2) /\
  (forall st',
     Ref (full_state 0 0) = Ok (tt, st') ->
     exists p', singleton st' = Some p' /\ maxSize p' = 2).
Proof.
  split.
  - destruct (C2_maxSize_is_configured_value_or_100 (initial_state pool_size_2 7))
      as [H _].
    { vm_compute. split; discriminate. }
    destruct (H eq_refl) as (p & E & Hm & _).
    exists p. split; [exact E|]. rewrite Hm. reflexivity.
  - intros st' E.
    destruct (C2_maxSize_is_configured_value_or_100 (full_state 0 0)) as [_ H].
    { vm_compute. split; discriminate. }
    exact (H full_pool st' eq_refl E).
Defined.

(** C3 on the full pool of two unreferenced entries, for a third file. *)
Lemma C3_witness :
  exists v ev st' p' r,
    last [1%nat; 0%nat] = Some v /\ heap (full_state 0 0) !! v = Some ev /\
    RefDataset (recDriver demo_world) "C" GA_ReadOnly None 1 (full_state 0 0)
      = Ok (Some v, st') /\
    singleton st' = Some p' /\ same_counters full_pool p' /\
    wf_pool p' (heap st') (v :: removelast [1%nat; 0%nat]) /\
    tlsResponsiblePID st' = 9 /\
    trace st' = [] ++ close_events ev ++
                [EvGDALOpenEx 9 "C" (nFlag_of GA_ReadOnly) None r] /\
    content_at (heap st') v = Some (9, "C"%string, r, 1) /\
    (forall a, a <> v ->
       content_at (heap st') a = content_at (heap (full_state 0 0)) a).
Proof.
  apply (C3_full_unpinned_pool_evicts_tail demo_world (full_state 0 0)
           full_pool [1%nat; 0%nat] "C" GA_ReadOnly None 1).
  - reflexivity.
  - apply full_state_wf.
  - reflexivity.
  - vm_compute. discriminate.
  - unfold INT_MIN, INT_MAX. simpl. lia.
  - apply all_entries_Forall. repeat constructor.
  - apply all_entries_Forall. repeat constructor.
Defined.

(** C4 on the full pool of two referenced entries, for a third file. *)
Lemma C4_witness :
  RefDataset (recDriver demo_world) "C" GA_ReadOnly None 1 (full_state 1 1) =
  Ok (None,
      with_trace
        [EvCPLError CE_Failure CPLE_AppDefined pool_size_message [2]]
        (full_state 1 1)).
Proof.
  apply (C4_full_pinned_pool_is_exhausted (recDriver demo_world) (full_state 1 1)
           full_pool [1%nat; 0%nat] "C" GA_ReadOnly None 1).
  - reflexivity.
  - apply full_state_wf.
  - reflexivity.
  - apply all_entries_Forall. repeat constructor.
  - apply all_entries_Forall. repeat constructor.
Defined.

(** C5 on the full pool of two unreferenced entries: the first request
    evicts, the second finds the new entry, which then has two references. *)
Lemma C5_witness :
  exists st1 st2 p2,
    RefDataset (recDriver demo_world) "A" GA_ReadOnly None 1 (full_state 0 0)
      = Ok (Some 0%nat, st1) /\
    RefDataset (recDriver demo_world) "A" GA_ReadOnly None 1 st1
      = Ok (Some 0%nat, st2) /\
    singleton st2 = Some p2 /\ firstEntry p2 = Some 0%nat /\
    refCount_at st1 0%nat = Some 1 /\
    refCount_at st2 0%nat = Some 2.
Proof.
  assert (E1 : { st1 | RefDataset (recDriver demo_world) "A" GA_ReadOnly None 1
                         (full_state 0 0) = Ok (Some 0%nat, st1) }).
  { eexists. vm_compute. reflexivity. }
  destruct E1 as [st1 E1].
  destruct (C5_shared_ref_twice_same_entry demo_world (full_state 0 0) full_pool
              [1%nat; 0%nat] "A" GA_ReadOnly None 1 0%nat st1)
    as (st2 & p2 & E2 & Hs2 & Hf2 & Hr1 & Hr2).
  - discriminate.
  - reflexivity.
  - apply full_state_wf.
  - apply full_pool_bounds.
  - apply all_entries_Forall. repeat constructor.
  - exact E1.
  - exists st1, st2, p2. repeat split; assumption.
Defined.

(** The same on a pool at work, and on a fresh pool with the cascading
    driver. *)
Lemma no_pool_reference_example :
  (Ref busy_state = Ok (tt, busy_state) /\
   Unref (recDriver demo_world) busy_state = Ok (tt, busy_state)) /\
  (exists cur st' p',
     RefDataset (cascadeDriver demo_CPLStrdup demo_world demo_inner)
       "outer.vrt" GA_ReadOnly None 1 fresh_state = Ok (Some cur, st') /\
     singleton st' = Some p' /\
     refCount p' = 1 /\ refCountOfDisableRefCount p' = 0).
Proof.
  destruct no_pool_reference_while_suppressed as [Ha Hb]. split.
  - apply (Ha (recDriver demo_world) busy_state
             (set_refCountOfDisableRefCount 1 full_pool)).
    + reflexivity.
    + reflexivity.
  - apply (Hb demo_CPLStrdup demo_world demo_inner fresh_state fresh_pool []
             "outer.vrt" GA_ReadOnly None 1 None).
    + intros fn ip gt Hi Hg. unfold demo_inner in Hi.
      destruct (String.eqb fn "outer.vrt"); [|discriminate].
      injection Hi as <-. discriminate.
    + reflexivity.
    + split; [apply NoDup_nil_2|reflexivity..|exact I].
    + vm_compute. intuition congruence.
    + vm_compute. reflexivity.
    + reflexivity.
    + intros H. vm_compute in H. discriminate.
Defined.

(** C7 on the full pool of two unreferenced entries, when nothing opens. *)
Lemma C7_witness :
  exists cur st1 p1,
    RefDataset (recDriver closed_world) "C" GA_ReadOnly None 1
      (with_tlsResponsiblePID 7 (full_state 0 0)) = Ok (Some cur, st1) /\
    singleton st1 = Some p1 /\ firstEntry p1 = Some cur /\
    content_at (heap st1) cur = Some (7, "C"%string, None, 1) /\
    RefUnderlyingDataset (recDriver closed_world) demo_proxy (full_state 0 0) =
      Ok ((None, ProxyPoolDataset.set_cacheEntry (Some cur) demo_proxy),
          with_heap (alter (CacheEntry.set_refCount 0) cur (heap st1))
            (with_tlsResponsiblePID 9 st1)).
Proof.
  apply (C7_failed_open_returns_entry_without_dataset closed_world
           (full_state 0 0) full_pool [1%nat; 0%nat] demo_proxy (Some 0%nat)).
  - reflexivity.
  - apply full_state_wf.
  - apply full_pool_bounds.
  - reflexivity.
  - discriminate.
  - reflexivity.
Defined.


(** C10 before any [Ref], at the first [Ref], and at the last [Unref]. *)
Lemma C10_witness :
  (RefDataset (recDriver demo_world) "A" GA_ReadOnly None 1 (initial_state ∅ 7)
     = Crash NullPointerDereference /\
   CloseDataset (recDriver demo_world) "A" GA_ReadOnly (initial_state ∅ 7)
     = Crash NullPointerDereference) /\
  (exists st', Ref (initial_state ∅ 7) = Ok (tt, st') /\ is_Some (singleton st')) /\
  (exists st', Unref (recDriver demo_world) (full_state 0 0) = Ok (tt, st') /\
               singleton st' = None).
Proof.
  destruct C10_entry_points_need_the_singleton as (Ha & Hb & Hc).
  split; [|split].
  - apply (Ha (recDriver demo_world) (initial_state ∅ 7) "A" GA_ReadOnly None 1).
    reflexivity.
  - apply (Hb (initial_state ∅ 7)).
    + reflexivity.
    + vm_compute. split; discriminate.
  - apply (Hc demo_world (full_state 0 0) full_pool [1%nat; 0%nat]).
    + reflexivity.
    + reflexivity.
    + reflexivity.
    + apply full_state_wf.
Defined.

(** * The list check, the destructor and the proxy objects *)

Lemma CheckLinks_loop_ok st p l1 :
  forall l2 fuel,
  singleton st = Some p -> wf_pool p (heap st) (l2 ++ l1) ->
  currentSize p <= INT_MAX -> (length l1 <= fuel)%nat ->
  CheckLinks_loop fuel (head l1) (Z.of_nat (length l2)) st =
  Ok (Z.of_nat (length (l2 ++ l1)), st).
Proof.
  induction l1 as [|c l1 IH]; intros l2 fuel Hs Hwf Hsz Hfuel.
  - rewrite app_nil_r. by destruct fuel.
  - destruct fuel as [|fuel]; [simpl in Hfuel; lia|].
    pose proof (wf_links _ _ _ Hwf) as Hlk.
    pose proof (wf_first _ _ _ Hwf) as Hfirst.
    pose proof (wf_last _ _ _ Hwf) as Hlast.
    apply dlseg_app in Hlk as [Hlk1 Hlk2].
    destruct (heap st !! c) as [e|] eqn:Ec.
    2:{ unfold dlseg in Hlk2. by rewrite Ec in Hlk2. }
    apply (dlseg_cons _ _ _ _ _ _ Ec) in Hlk2 as (Hprev & Hnext & Hlk2).
    cbn [head CheckLinks_loop].
    assert (E1 : CheckLinks_prev_linked c st = Ok (true, st)).
    { unfold CheckLinks_prev_linked. erewrite bind_ok by (by apply this_ok).
      case_bool_decide as Hf; [done|].
      step_load Ec. rewrite Hprev.
      destruct l2 as [|b l2 _] using rev_ind.
      { exfalso. apply Hf. by rewrite Hfirst. }
      rewrite last_last_or in *. unfold last_or. rewrite last_snoc.
      cbn [deref]. erewrite bind_ok by reflexivity.
      apply dlseg_app in Hlk1 as [_ Hb].
      destruct (heap st !! b) as [eb|] eqn:Eb.
      2:{ unfold dlseg in Hb. by rewrite Eb in Hb. }
      apply (dlseg_cons _ _ _ _ _ _ Eb) in Hb as (_ & Hbn & _).
      step_load Eb. simpl in Hbn. rewrite Hbn.
      by rewrite bool_decide_eq_true_2. }
    rewrite (bind_ok _ _ _ _ _ E1). cbn [CPLAssert].
    erewrite bind_ok by reflexivity.
    assert (E2 : CheckLinks_next_linked c st = Ok (true, st)).
    { unfold CheckLinks_next_linked. erewrite bind_ok by (by apply this_ok).
      case_bool_decide as Hl; [done|].
      step_load Ec. rewrite Hnext.
      destruct l1 as [|n l1].
      { exfalso. apply Hl. by rewrite Hlast, last_snoc. }
      cbn [hd_or deref]. erewrite bind_ok by reflexivity.
      destruct (heap st !! n) as [en|] eqn:En.
      2:{ unfold dlseg in Hlk2. by rewrite En in Hlk2. }
      apply (dlseg_cons _ _ _ _ _ _ En) in Hlk2 as (Hnp & _).
      step_load En. rewrite Hnp. by rewrite bool_decide_eq_true_2. }
    rewrite (bind_ok _ _ _ _ _ E2). cbn [CPLAssert].
    erewrite bind_ok by reflexivity.
    pose proof (wf_size _ _ _ Hwf) as Hsize. rewrite length_app in Hsize.
    simpl in Hsize.
    erewrite bind_ok by (apply int_succ_ok; lia).
    assert (E3 : CheckLinks_ends_at_last c st = Ok (true, st)).
    { unfold CheckLinks_ends_at_last. step_load Ec.
      case_bool_decide as Hn; [done|].
      erewrite bind_ok by (by apply this_ok).
      destruct l1 as [|n l1]; [|rewrite Hnext in Hn; simpl in Hn; congruence].
      by rewrite Hlast, last_snoc, bool_decide_eq_true_2. }
    rewrite (bind_ok _ _ _ _ _ E3). cbn [CPLAssert].
    erewrite bind_ok by reflexivity.
    step_load Ec. rewrite Hnext, <- head_hd_or.
    specialize (IH (l2 ++ [c]) fuel Hs).
    rewrite <- app_assoc in IH. simpl in IH.
    rewrite length_app in IH. simpl in IH.
    replace (Z.of_nat (length l2) + 1) with (Z.of_nat (length l2 + 1)) by lia.
    apply IH; [done|done|simpl in Hfuel; lia].
Qed.

(** [CheckLinks] on a well-formed pool. *)
Lemma CheckLinks_ok st p l :
  singleton st = Some p -> wf_pool p (heap st) l -> currentSize p <= INT_MAX ->
  CheckLinks st = Ok (tt, st).
Proof.
  intros Hs Hwf Hsz. unfold CheckLinks.
  erewrite bind_ok by (by apply this_ok).
  unfold get at 1. erewrite bind_ok by reflexivity.
  rewrite (wf_first _ _ _ Hwf).
  pose proof (CheckLinks_loop_ok st p l [] (scan_fuel st) Hs Hwf Hsz
                (scan_fuel_enough st p l Hwf)) as E.
  simpl in E. rewrite (bind_ok _ _ _ _ _ E).
  erewrite bind_ok by (by apply this_ok).
  rewrite (wf_size _ _ _ Hwf), Z.eqb_refl. reflexivity.
Qed.

(** X1. [CheckLinks], the list check of the debug build, accepts every
    well-formed pool: when the list is doubly linked from [firstEntry] to
    [lastEntry] and has [currentSize] entries, none of its assertions fails,
    and it changes nothing. *)
Theorem X1_CheckLinks_accepts_well_formed_pool st p l :
  singleton st = Some p -> wf_pool p (heap st) l -> currentSize p <= INT_MAX ->
  CheckLinks st = Ok (tt, st).
Proof. apply CheckLinks_ok. Qed.

(** ** What a request finds *)

Lemma scan_list_first_match h fn sh rid l1 c l2 ec :
  forall acc,
  all_entries h l1 (fun e => ref_matches fn sh rid e = false) ->
  (forall a, a ∈ l1 -> is_Some (h !! a)) ->
  h !! c = Some ec -> ref_matches fn sh rid ec = true ->
  scan_list h fn sh rid (l1 ++ c :: l2) acc = Found c.
Proof.
  induction l1 as [|b l1 IH]; intros acc Hno Hin Hc Hm.
  - simpl. by rewrite Hc, Hm.
  - destruct (Hin b (list_elem_of_here _ _)) as [eb Eb].
    rewrite <- app_comm_cons, (scan_list_cons _ _ _ _ _ _ _ _ Eb).
    rewrite (Hno b eb (list_elem_of_here _ _) Eb).
    apply IH; [|by intros a Ha; apply Hin, list_elem_of_further|done..].
    intros a e Ha. apply Hno. by apply list_elem_of_further.
Qed.

Lemma scan_list_no_match h fn sh rid l :
  forall acc,
  all_entries h l (fun e => ref_matches fn sh rid e = false) ->
  exists lz, scan_list h fn sh rid l acc = NotFound lz.
Proof.
  induction l as [|b l IH]; intros acc Hno; [by eexists|].
  simpl. destruct (h !! b) as [eb|] eqn:Eb; [|by eexists].
  rewrite (Hno b eb (list_elem_of_here _ _) Eb).
  apply IH. intros a e Ha. apply Hno. by apply list_elem_of_further.
Qed.

Lemma scan_list_last_unpinned h fn sh rid l1 v l2 ev :
  forall acc,
  all_entries h (l1 ++ v :: l2) (fun e => ref_matches fn sh rid e = false) ->
  (forall a, a ∈ l1 ++ v :: l2 -> is_Some (h !! a)) ->
  h !! v = Some ev -> CacheEntry.refCount ev = 0 ->
  all_entries h l2 (fun e => CacheEntry.refCount e <> 0) ->
  scan_list h fn sh rid (l1 ++ v :: l2) acc = NotFound (Some v).
Proof.
  induction l1 as [|b l1 IH]; intros acc Hno Hin Hv Hrc Hpin.
  - simpl app. rewrite (scan_list_cons _ _ _ _ _ _ _ _ Hv).
    rewrite (Hno v ev (list_elem_of_here _ _) Hv), Hrc. simpl.
    apply scan_list_all_pinned; [|done|].
    + intros a e Ha. apply Hno. by apply list_elem_of_further.
    + intros a Ha. apply Hin. by apply list_elem_of_further.
  - destruct (Hin b (list_elem_of_here _ _)) as [eb Eb].
    rewrite <- app_comm_cons, (scan_list_cons _ _ _ _ _ _ _ _ Eb).
    rewrite (Hno b eb (list_elem_of_here _ _) Eb).
    apply IH; [|by intros a Ha; apply Hin, list_elem_of_further|done..].
    intros a e Ha. apply Hno. by apply list_elem_of_further.
Qed.

(** X3. A hit.  When [c] is the first entry of the list that answers the
    request, [RefDataset] returns it whatever the driver, the access mode and
    the open options are: nothing is opened or closed, [c] moves to the front
    of the list with one more reference, and the other entries keep their
    order and their content. *)
Theorem X3_RefDataset_hit_serves_from_the_list drv st p l1 c l2 ec fn acc opts sh :
  singleton st = Some p -> wf_pool p (heap st) (l1 ++ c :: l2) ->
  all_entries (heap st) l1
    (fun e => ref_matches fn sh (tlsResponsiblePID st) e = false) ->
  heap st !! c = Some ec ->
  ref_matches fn sh (tlsResponsiblePID st) ec = true ->
  CacheEntry.refCount ec < INT_MAX ->
  exists st' p',
    RefDataset drv fn acc opts sh st = Ok (Some c, st') /\
    singleton st' = Some p' /\ same_counters p p' /\
    wf_pool p' (heap st') (c :: l1 ++ l2) /\
    same_outside st st' /\
    content_at (heap st') c =
      Some (CacheEntry.responsiblePID ec, fn, CacheEntry.poDS ec,
            CacheEntry.refCount ec + 1) /\
    (forall a, a <> c -> content_at (heap st') a = content_at (heap st) a).
Proof.
  intros Hs Hwf Hno Hc Hm Hrc.
  destruct (RefDataset_hit_ok st p l1 c l2 ec Hs Hwf Hc Hrc)
    as (st' & p' & E & Hs' & Hcnt & Hwf' & Hout & Hcc & Hoth).
  exists st', p'. split.
  { unfold RefDataset. rewrite (RefDataset_scanned drv st p _ fn acc opts sh Hs Hwf).
    rewrite (scan_list_first_match _ _ _ _ l1 c l2 ec); [done|done| |done|done].
    intros a Ha. eapply wf_lookup; [exact Hwf|].
    apply elem_of_app. by left. }
  split_and!; try done.
  rewrite Hcc. unfold ref_matches in Hm.
  apply andb_true_iff in Hm as [Hn _]. apply String.eqb_eq in Hn.
  by rewrite Hn.
Qed.

(** X4. A miss in a pool with room.  When no entry answers the request and
    the pool is below its limit, [RefDataset] opens the file under the PID of
    the caller, with the flag of the access mode, [GDAL_OF_RASTER] and
    [GDAL_OF_VERBOSE_ERROR], and puts a new entry with one reference in front
    of the list; the size grows by one and the other entries are untouched. *)
Theorem X4_RefDataset_miss_with_room_opens_a_new_entry w st p l fn acc opts sh :
  singleton st = Some p -> wf_pool p (heap st) l ->
  all_entries (heap st) l
    (fun e => ref_matches fn sh (tlsResponsiblePID st) e = false) ->
  currentSize p < maxSize p -> maxSize p <= INT_MAX ->
  INT_MIN <= refCountOfDisableRefCount p < INT_MAX ->
  exists cur st' p' r,
    RefDataset (recDriver w) fn acc opts sh st = Ok (Some cur, st') /\
    heap st !! cur = None /\
    singleton st' = Some p' /\
    wf_pool p' (heap st') (cur :: l) /\
    currentSize p' = currentSize p + 1 /\
    refCount p' = refCount p /\ maxSize p' = maxSize p /\
    refCountOfDisableRefCount p' = refCountOfDisableRefCount p /\
    tlsResponsiblePID st' = tlsResponsiblePID st /\
    trace st' = trace st ++
      [EvGDALOpenEx (tlsResponsiblePID st) fn
         [match acc with
          | GA_Update => GDAL_OF_UPDATE
          | GA_ReadOnly => GDAL_OF_READONLY
          end; GDAL_OF_RASTER; GDAL_OF_VERBOSE_ERROR] opts r] /\
    content_at (heap st') cur = Some (tlsResponsiblePID st, fn, r, 1) /\
    (forall a, a <> cur -> content_at (heap st') a = content_at (heap st) a).
Proof.
  intros Hs Hwf Hno Hroom Hmax Hdr.
  destruct (scan_list_no_match (heap st) fn sh (tlsResponsiblePID st) l None Hno)
    as [lz Hscan].
  destruct (RefDataset_miss_prepend w st p l lz fn acc opts Hs Hwf)
    as (cur & st' & p' & r & E & Hfresh & Hs' & Hwf' & Hrc & Hm & Hd & Hsz &
        Htls & Htr & Hc & Hoth & _); [lia|lia|done|].
  exists cur, st', p', r. split.
  { unfold RefDataset.
    rewrite (RefDataset_scanned _ st p l fn acc opts sh Hs Hwf).
    by rewrite Hscan. }
  split_and!; done.
Qed.

(** X5. The eviction skips the referenced entries.  In a full pool where no
    entry answers the request, the victim is the last entry without a
    reference, also when referenced entries follow it: its dataset is closed,
    the file is opened in its place, and it moves to the front with one
    reference, while the entries before and after it keep their order and
    their content. *)
Theorem X5_RefDataset_evicts_the_last_unreferenced_entry
    w st p l1 v l2 ev fn acc opts sh :
  singleton st = Some p -> wf_pool p (heap st) (l1 ++ v :: l2) -> l1 <> [] ->
  currentSize p = maxSize p ->
  INT_MIN <= refCountOfDisableRefCount p < INT_MAX ->
  all_entries (heap st) (l1 ++ v :: l2)
    (fun e => ref_matches fn sh (tlsResponsiblePID st) e = false) ->
  heap st !! v = Some ev -> CacheEntry.refCount ev = 0 ->
  all_entries (heap st) l2 (fun e => CacheEntry.refCount e <> 0) ->
  exists st' p' r,
    RefDataset (recDriver w) fn acc opts sh st = Ok (Some v, st') /\
    singleton st' = Some p' /\ same_counters p p' /\
    wf_pool p' (heap st') (v :: l1 ++ l2) /\
    tlsResponsiblePID st' = tlsResponsiblePID st /\
    trace st' = trace st ++ close_events ev ++
                [EvGDALOpenEx (tlsResponsiblePID st) fn (nFlag_of acc) opts r] /\
    content_at (heap st') v = Some (tlsResponsiblePID st, fn, r, 1) /\
    (forall a, a <> v -> content_at (heap st') a = content_at (heap st) a).
Proof.
  intros Hs Hwf Hl1 Hfull Hdr Hno Hv Hrc Hpin.
  destruct (RefDataset_miss_recycle w st p l1 v l2 ev fn acc opts
              Hs Hwf Hl1 Hv Hfull Hdr)
    as (st' & p' & r & E & Hs' & Hcnt & Hwf' & Htls & _ & Htr & Hc & Hoth & _).
  exists st', p', r. split.
  { unfold RefDataset.
    rewrite (RefDataset_scanned _ st p _ fn acc opts sh Hs Hwf).
    rewrite (scan_list_last_unpinned _ _ _ _ l1 v l2 ev); [done|done| |done..].
    intros a Ha. by eapply wf_lookup. }
  split_and!; done.
Qed.

(** X6. Whatever way [RefDataset] takes, an entry it returns is the first of
    the list and carries the requested file name; for an exclusive request
    ([bShared] is 0) it has exactly one reference, and for a shared request
    it belongs to the PID of the caller. *)
Theorem X6_RefDataset_result_caches_the_request w st p l fn acc opts sh c st' :
  singleton st = Some p -> wf_pool p (heap st) l -> pool_bounds p ->
  all_entries (heap st) l (fun e => CacheEntry.refCount e < INT_MAX) ->
  RefDataset (recDriver w) fn acc opts sh st = Ok (Some c, st') ->
  exists p' rid hDS rc,
    singleton st' = Some p' /\ firstEntry p' = Some c /\
    content_at (heap st') c = Some (rid, fn, hDS, rc) /\
    (sh = 0 -> rc = 1) /\
    (sh <> 0 -> rid = tlsResponsiblePID st).
Proof.
  intros Hs Hwf Hb Hrc E. unfold RefDataset in E.
  rewrite (RefDataset_scanned _ st p l fn acc opts sh Hs Hwf) in E.
  destruct (scan_list _ _ _ _ _ _) as [cur|lz] eqn:Hscan.
  - destruct (scan_list_found _ _ _ _ _ _ _ Hscan)
      as (l1 & l2 & ec & -> & Hc & Hm).
    destruct (RefDataset_hit_ok st p l1 cur l2 ec Hs Hwf Hc)
      as (st1 & p1 & E1 & Hs1 & _ & Hwf1 & _ & Hcc & _).
    { eapply Hrc; [|exact Hc]. apply elem_of_app. right. apply list_elem_of_here. }
    rewrite E1 in E. injection E as <- <-.
    exists p1, (CacheEntry.responsiblePID ec), (CacheEntry.poDS ec),
      (CacheEntry.refCount ec + 1).
    unfold ref_matches in Hm. apply andb_true_iff in Hm as [Hn Hm].
    apply String.eqb_eq in Hn. rewrite Hn in Hcc.
    split; [done|]. split; [by rewrite (wf_first _ _ _ Hwf1)|].
    split; [done|]. split.
    + intros ->. simpl in Hm. apply Z.eqb_eq in Hm. lia.
    + intros Hsh. apply Z.eqb_neq in Hsh. rewrite Hsh in Hm. simpl in Hm.
      rewrite orb_false_r in Hm. by apply Z.eqb_eq in Hm.
  - destruct (Z.eq_dec (currentSize p) (maxSize p)) as [Hfull|Hroom];
      destruct lz as [v|].
    + destruct (RefDataset_miss_summary w st p l fn acc opts (Some v) Hs Hwf Hb)
        as (cur & st1 & p1 & r & E1 & Hs1 & Hf1 & _ & _ & _ & _ & Hc1 & _);
        [by apply (scan_list_victim_in _ _ _ _ _ _ Hscan)|done|].
      rewrite E1 in E. injection E as <- <-.
      exists p1, (tlsResponsiblePID st), r, 1. by split_and!.
    + rewrite (RefDataset_miss_exhausted _ st p fn acc opts _ Hs Hfull) in E.
      discriminate.
    + destruct (RefDataset_miss_summary w st p l fn acc opts (Some v) Hs Hwf Hb)
        as (cur & st1 & p1 & r & E1 & Hs1 & Hf1 & _ & _ & _ & _ & Hc1 & _);
        [by apply (scan_list_victim_in _ _ _ _ _ _ Hscan)|done|].
      rewrite E1 in E. injection E as <- <-.
      exists p1, (tlsResponsiblePID st), r, 1. by split_and!.
    + destruct (RefDataset_miss_summary w st p l fn acc opts None Hs Hwf Hb)
        as (cur & st1 & p1 & r & E1 & Hs1 & Hf1 & _ & _ & _ & _ & Hc1 & _);
        [by left|done|].
      rewrite E1 in E. injection E as <- <-.
      exists p1, (tlsResponsiblePID st), r, 1. by split_and!.
Qed.

(** ** The destructor *)

Lemma destroy_trace_agree h h' l :
  (forall a, a ∈ l -> h' !! a = h !! a) -> destroy_trace h' l = destroy_trace h l.
Proof.
  induction l as [|c l IH]; intros H; [done|]. simpl.
  rewrite (H c (list_elem_of_here _ _)).
  destruct (h !! c); [|done]. f_equal. apply IH.
  intros a Ha. apply H. by apply list_elem_of_further.
Qed.

(** The loop of the destructor with what it writes to the trace. *)
Lemma destroy_entries_trace w l :
  forall st p fuel,
  NoDup l -> dlseg (heap st) p l None -> (length l <= fuel)%nat ->
  exists st',
    destroy_entries (recDriver w) fuel (head l) st = Ok (tt, st') /\
    singleton st' = singleton st /\
    configOptions st' = configOptions st /\
    trace st' = trace st ++ destroy_trace (heap st) l /\
    (forall a, a ∈ l -> heap st' !! a = None) /\
    (forall a, a ∉ l -> heap st' !! a = heap st !! a).
Proof.
  induction l as [|c l IH]; intros st p fuel Hnd Hlk Hfuel.
  - exists st. destruct fuel; (split; [done|]); split_and!; try done;
      try (by rewrite app_nil_r); intros a Ha; by inversion Ha.
  - destruct fuel as [|fuel]; [simpl in Hfuel; lia|].
    destruct (heap st !! c) as [e|] eqn:Ec.
    2:{ unfold dlseg in Hlk. by rewrite Ec in Hlk. }
    apply (dlseg_cons _ _ _ _ _ _ Ec) in Hlk as (_ & Hn & Hlk).
    apply NoDup_cons in Hnd as [Hc Hnd].
    cbn [head destroy_entries].
    assert (exists st1,
      (CPLAssert (CacheEntry.refCount e =? 0) "cur->refCount == 0" ;;
       match CacheEntry.poDS e with
       | Some hDS =>
           GDALSetResponsiblePIDForCurrentThread (CacheEntry.responsiblePID e) ;;
           GDALClose (recDriver w) hDS
       | None => ret tt
       end) st = Ok (tt, st1) /\
      singleton st1 = singleton st /\ configOptions st1 = configOptions st /\
      heap st1 = heap st /\
      trace st1 = trace st ++ destroy_events e)
      as (st1 & E1 & Hs1 & Hc1 & Hh1 & Ht1).
    { unfold destroy_events, close_events, CPLAssert,
        GDALSetResponsiblePIDForCurrentThread.
      cbn [GDALClose recDriver]. unfold emit, modify, get, ret, bind.
      destruct (CacheEntry.refCount e =? 0), (CacheEntry.poDS e);
        eexists; (split; [reflexivity|]); simpl;
        rewrite <- ?app_assoc, ?app_nil_r; done. }
    set (st2 := with_heap (delete c (heap st1)) st1).
    destruct (IH st2 (Some c) fuel Hnd)
      as (st' & E & Hs' & Hc' & Ht' & Hin & Hout).
    { subst st2. simpl. rewrite Hh1. by apply dlseg_delete_notin. }
    { simpl in Hfuel. lia. }
    exists st'. split.
    { step_load Ec.
      unfold bind at 1 in E1. unfold bind at 1 2.
      destruct (CPLAssert _ _ st) as [[[] sta]| |] eqn:Ea; try done.
      rewrite E1.
      assert (Ef : CPLFree_entry c st1 = Ok (tt, st2)).
      { unfold CPLFree_entry.
        assert (heap st1 !! c = Some e) as -> by (by rewrite Hh1). done. }
      rewrite (bind_ok _ _ _ _ _ Ef).
      rewrite Hn, <- head_hd_or. exact E. }
    split; [by rewrite Hs'|]. split; [by rewrite Hc'|]. split.
    { rewrite Ht'. subst st2. simpl. rewrite Ht1, Ec, <- app_assoc.
      do 2 f_equal. apply destroy_trace_agree. intros a Ha.
      rewrite Hh1. apply lookup_delete_ne. by intros ->. }
    split.
    + intros a Ha. apply elem_of_cons in Ha as [->|Ha]; [|by apply Hin].
      rewrite (Hout c Hc). subst st2. simpl. by rewrite lookup_delete_eq.
    + intros a Ha. apply not_elem_of_cons in Ha as [Hac Ha].
      rewrite (Hout a Ha). subst st2. simpl.
      by rewrite lookup_delete_ne, Hh1.
Qed.

(** [delete singleton] on a well-formed pool. *)
Lemma delete_GDALDatasetPool_ok w st p l :
  singleton st = Some p -> wf_pool p (heap st) l ->
  exists st',
    delete_GDALDatasetPool (recDriver w) st = Ok (tt, st') /\
    singleton st' = Some p /\
    configOptions st' = configOptions st /\
    tlsResponsiblePID st' = tlsResponsiblePID st /\
    trace st' = trace st ++ destroy_trace (heap st) l /\
    (forall a, a ∈ l -> heap st' !! a = None) /\
    (forall a, a ∉ l -> heap st' !! a = heap st !! a).
Proof.
  intros Hs Hwf.
  destruct (destroy_entries_trace w l st None (scan_fuel st))
    as (st2 & E2 & Hs2 & Hc2 & Ht2 & Hin & Hout); [apply Hwf..| |].
  { by eapply scan_fuel_enough. }
  exists (with_tlsResponsiblePID (tlsResponsiblePID st) st2). split.
  { unfold delete_GDALDatasetPool.
    erewrite bind_ok by (by apply this_ok).
    unfold GDALGetResponsiblePIDForCurrentThread, get.
    erewrite bind_ok by reflexivity.
    erewrite bind_ok by reflexivity.
    rewrite (wf_first _ _ _ Hwf).
    rewrite (bind_ok _ _ _ _ _ E2). reflexivity. }
  simpl. split_and!; try done. by rewrite Hs2.
Qed.

Lemma Unref_last_reference_trace w st p l :
  singleton st = Some p -> wf_pool p (heap st) l ->
  refCount p = 1 -> refCountOfDisableRefCount p = 0 ->
  exists st',
    Unref (recDriver w) st = Ok (tt, st') /\
    singleton st' = None /\
    tlsResponsiblePID st' = tlsResponsiblePID st /\
    trace st' = trace st ++ destroy_trace (heap st) l /\
    (forall a, a ∈ l -> heap st' !! a = None) /\
    (forall a, a ∉ l -> heap st' !! a = heap st !! a).
Proof.
  intros Hs Hwf Hrc Hdr.
  set (st1 := with_singleton (Some (set_refCount 0 p)) st).
  destruct (delete_GDALDatasetPool_ok w st1 (set_refCount 0 p) l)
    as (st2 & E2 & Hs2 & Hc2 & Htls2 & Ht2 & Hin & Hout);
    [done|by destruct Hwf|].
  exists (with_singleton None st2). split.
  { unfold Unref.
    unfold get at 1. erewrite bind_ok by reflexivity. rewrite Hs, Hdr. simpl.
    rewrite Hrc.
    erewrite bind_ok by reflexivity.
    erewrite bind_ok by (by apply this_set_ok).
    erewrite bind_ok by reflexivity.
    cbn [refCount set_refCount]. change (1 - 1 =? 0) with true. cbn iota.
    change (1 - 1) with 0. fold st1.
    rewrite (bind_ok _ _ _ _ _ E2). reflexivity. }
  simpl. split_and!; done.
Qed.

(** X9. The [Unref] of the last reference destroys the pool.  Every entry of
    the list is visited in order: an entry that is still referenced trips
    the assertion of the destructor, a dataset is closed under the PID of
    its entry, and the entry is freed.  The singleton is cleared, the PID of
    the caller is restored and nothing else of the heap changes. *)
Theorem X9_last_Unref_closes_every_dataset w st p l :
  singleton st = Some p -> wf_pool p (heap st) l ->
  refCount p = 1 -> refCountOfDisableRefCount p = 0 ->
  exists st',
    Unref (recDriver w) st = Ok (tt, st') /\
    singleton st' = None /\
    tlsResponsiblePID st' = tlsResponsiblePID st /\
    trace st' = trace st ++ destroy_trace (heap st) l /\
    (forall a, a ∈ l -> heap st' !! a = None) /\
    (forall a, a ∉ l -> heap st' !! a = heap st !! a).
Proof. apply Unref_last_reference_trace. Qed.

(** [ForceDestroy] on a well-formed pool, whatever its counters are. *)
Lemma ForceDestroy_ok w st p l :
  singleton st = Some p -> wf_pool p (heap st) l ->
  INT_MIN < refCountOfDisableRefCount p ->
  exists st',
    ForceDestroy (recDriver w) st = Ok (tt, st') /\
    singleton st' = None /\
    configOptions st' = configOptions st /\
    tlsResponsiblePID st' = tlsResponsiblePID st /\
    trace st' = trace st ++
      (if refCountOfDisableRefCount p - 1 =? 0 then []
       else [EvCPLAssert "singleton->refCountOfDisableRefCount == 0"]) ++
      destroy_trace (heap st) l /\
    (forall a, a ∈ l -> heap st' !! a = None) /\
    (forall a, a ∉ l -> heap st' !! a = heap st !! a).
Proof.
  intros Hs Hwf Hdr.
  set (p1 := set_refCountOfDisableRefCount (refCountOfDisableRefCount p - 1) p).
  set (evs := if refCountOfDisableRefCount p - 1 =? 0 then []
              else [EvCPLAssert "singleton->refCountOfDisableRefCount == 0"]).
  set (st1 := with_singleton (Some (set_refCount 0 p1))
                (with_trace (trace st ++ evs) st)).
  destruct (delete_GDALDatasetPool_ok w st1 (set_refCount 0 p1) l)
    as (st2 & E2 & Hs2 & Hc2 & Htls2 & Ht2 & Hin & Hout);
    [done|by destruct Hwf|].
  exists (with_singleton None st2). split.
  { unfold ForceDestroy.
    unfold get at 1. erewrite bind_ok by reflexivity. rewrite Hs.
    erewrite bind_ok by (by apply disableRefCount_decr_ok).
    erewrite bind_ok by reflexivity. fold p1.
    assert (Ea : CPLAssert (refCountOfDisableRefCount p1 =? 0)
                   "singleton->refCountOfDisableRefCount == 0"
                   (with_singleton (Some p1) st)
                 = Ok (tt, with_trace (trace st ++ evs)
                             (with_singleton (Some p1) st))).
    { unfold CPLAssert, evs. cbn [refCountOfDisableRefCount p1
                                   set_refCountOfDisableRefCount].
      destruct (_ =? 0); [|done].
      unfold ret. rewrite app_nil_r. by destruct st. }
    rewrite (bind_ok _ _ _ _ _ Ea).
    erewrite bind_ok by (by apply this_set_ok).
    change (with_singleton _ (with_trace _ (with_singleton _ st))) with st1.
    rewrite (bind_ok _ _ _ _ _ E2). reflexivity. }
  simpl. split_and!; try done. rewrite Ht2. simpl. by rewrite <- app_assoc.
Qed.

(** X10. [GDALDatasetPoolPreventDestroy] followed by
    [GDALDatasetPoolForceDestroy] destroys the pool whatever its reference
    count is: the datasets are closed, the entries freed and the singleton
    cleared, although the proxies that hold the references are still
    there. *)
Theorem X10_PreventDestroy_then_ForceDestroy_destroys_the_pool w st p l :
  singleton st = Some p -> wf_pool p (heap st) l ->
  refCountOfDisableRefCount p = 0 ->
  exists st',
    (GDALDatasetPoolPreventDestroy ;;
     GDALDatasetPoolForceDestroy (recDriver w)) st = Ok (tt, st') /\
    singleton st' = None /\
    tlsResponsiblePID st' = tlsResponsiblePID st /\
    trace st' = trace st ++ destroy_trace (heap st) l /\
    (forall a, a ∈ l -> heap st' !! a = None) /\
    (forall a, a ∉ l -> heap st' !! a = heap st !! a).
Proof.
  intros Hs Hwf Hdr.
  set (p1 := set_refCountOfDisableRefCount (refCountOfDisableRefCount p + 1) p).
  destruct (ForceDestroy_ok w (with_singleton (Some p1) st) p1 l)
    as (st' & E & Hs' & _ & Htls & Htr & Hin & Hout);
    [done|by destruct Hwf| |].
  { subst p1. simpl. unfold INT_MIN. lia. }
  exists st'. split.
  { unfold GDALDatasetPoolPreventDestroy, GDALDatasetPoolForceDestroy.
    assert (Ep : PreventDestroy st = Ok (tt, with_singleton (Some p1) st)).
    { unfold PreventDestroy. unfold get at 1.
      erewrite bind_ok by reflexivity. rewrite Hs.
      apply disableRefCount_incr_ok; [done|]. rewrite Hdr. by compute. }
    by rewrite (bind_ok _ _ _ _ _ Ep). }
  split_and!; try done. rewrite Htr. subst p1. simpl. rewrite Hdr. done.
Qed.

(** X11. [ForceDestroy] without a [PreventDestroy] before it takes the
    disable counter below zero: the assertion
    [refCountOfDisableRefCount == 0] fails, and the pool is destroyed all the
    same. *)
Theorem X11_ForceDestroy_alone_trips_its_assertion w st p l :
  singleton st = Some p -> wf_pool p (heap st) l ->
  refCountOfDisableRefCount p = 0 ->
  exists st',
    ForceDestroy (recDriver w) st = Ok (tt, st') /\
    singleton st' = None /\
    trace st' = trace st ++
      EvCPLAssert "singleton->refCountOfDisableRefCount == 0" ::
      destroy_trace (heap st) l /\
    (forall a, a ∈ l -> heap st' !! a = None).
Proof.
  intros Hs Hwf Hdr.
  destruct (ForceDestroy_ok w st p l Hs Hwf)
    as (st' & E & Hs' & _ & Htls & Htr & Hin & Hout).
  { rewrite Hdr. by compute. }
  exists st'. split_and!; try done. rewrite Htr, Hdr. done.
Qed.

Lemma destroy_trace_asserts h l a e :
  (forall b, b ∈ l -> is_Some (h !! b)) ->
  a ∈ l -> h !! a = Some e -> CacheEntry.refCount e <> 0 ->
  EvCPLAssert "cur->refCount == 0" ∈ destroy_trace h l.
Proof.
  induction l as [|c l IH]; intros Hin Ha He Hrc; [by inversion Ha|].
  simpl. destruct (Hin c (list_elem_of_here _ _)) as [ec Ec]. rewrite Ec.
  apply elem_of_app.
  apply elem_of_cons in Ha as [->|Ha].
  - left. rewrite He in Ec. injection Ec as <-. unfold destroy_events.
    apply Z.eqb_neq in Hrc. rewrite Hrc. apply elem_of_app. left.
    apply list_elem_of_here.
  - right. apply IH; try done. intros b Hb. apply Hin.
    by apply list_elem_of_further.
Qed.

Lemma destroy_trace_silent h l :
  all_entries h l (fun e => CacheEntry.refCount e = 0) ->
  forall ex, EvCPLAssert ex ∉ destroy_trace h l.
Proof.
  induction l as [|c l IH]; intros Hall ex Hin; [by inversion Hin|].
  simpl in Hin. destruct (h !! c) as [ec|] eqn:Ec; [|by inversion Hin].
  apply elem_of_app in Hin as [Hin|Hin].
  - unfold destroy_events in Hin.
    rewrite (Hall c ec (list_elem_of_here _ _) Ec) in Hin. simpl in Hin.
    unfold close_events in Hin. destruct (CacheEntry.poDS ec).
    + apply list_elem_of_singleton in Hin. discriminate.
    + by inversion Hin.
  - apply (IH ltac:(intros a e Ha; apply Hall; by apply list_elem_of_further)
              ex Hin).
Qed.

(** X12. The destructor does not wait for the entries.  When the last
    [Unref] comes while an entry is still referenced, the assertion of the
    destructor fails, the entry is freed with the others, and the
    [UnrefDataset] of whoever held it reaches freed memory. *)
Theorem X12_destroyed_pool_leaves_dangling_entries w st p l a e :
  singleton st = Some p -> wf_pool p (heap st) l ->
  refCount p = 1 -> refCountOfDisableRefCount p = 0 ->
  a ∈ l -> heap st !! a = Some e -> CacheEntry.refCount e <> 0 ->
  exists st',
    Unref (recDriver w) st = Ok (tt, st') /\
    EvCPLAssert "cur->refCount == 0" ∈ trace st' /\
    heap st' !! a = None /\
    UnrefDataset a st' = Crash InvalidPointer.
Proof.
  intros Hs Hwf Hrc Hdr Ha He Hpin.
  destruct (Unref_last_reference_trace w st p l
              Hs Hwf Hrc Hdr) as (st' & E & _ & _ & Htr & Hin & _).
  exists st'. split; [done|]. split.
  { rewrite Htr. apply elem_of_app. right.
    eapply destroy_trace_asserts; [|done..].
    intros b Hb. by eapply wf_lookup. }
  split; [by apply Hin|].
  unfold UnrefDataset, bind, load. by rewrite (Hin a Ha).
Qed.

(** ** Counting the references to the pool *)

Lemma set_refCount_same p : set_refCount (refCount p) p = p.
Proof. by destruct p. Qed.

Lemma with_singleton_same st : with_singleton (singleton st) st = st.
Proof. by destruct st. Qed.

Lemma repeatM_Ref_live n :
  forall st p,
  singleton st = Some p -> refCountOfDisableRefCount p = 0 ->
  refCount p + Z.of_nat n <= INT_MAX ->
  repeatM n Ref st =
  Ok (tt, with_singleton
            (Some (set_refCount (refCount p + Z.of_nat n) p)) st).
Proof.
  induction n as [|n IH]; intros st p Hs Hd Hle.
  - simpl. rewrite Z.add_0_r, set_refCount_same, <- Hs.
    by rewrite with_singleton_same.
  - cbn [repeatM].
    assert (E : Ref st =
                Ok (tt, with_singleton (Some (set_refCount (refCount p + 1) p)) st)).
    { rewrite (Ref_live st p Hs), Hd. simpl.
      destruct (Z.ltb_spec (refCount p) INT_MAX); [done|lia]. }
    rewrite (bind_ok _ _ _ _ _ E).
    rewrite (IH _ (set_refCount (refCount p + 1) p)); [|done|done|simpl; lia].
    unfold with_singleton, set_refCount. simpl. do 5 f_equal. lia.
Qed.

Lemma Unref_live drv st p :
  singleton st = Some p -> refCountOfDisableRefCount p = 0 ->
  INT_MIN < refCount p -> refCount p <> 1 ->
  Unref drv st =
  Ok (tt, with_singleton (Some (set_refCount (refCount p - 1) p)) st).
Proof.
  intros Hs Hd Hmin Hne. unfold Unref.
  unfold get at 1. erewrite bind_ok by reflexivity. rewrite Hs, Hd. simpl.
  erewrite bind_ok by (by apply int_pred_ok).
  erewrite bind_ok by (by apply this_set_ok).
  erewrite bind_ok by reflexivity.
  cbn [refCount set_refCount].
  destruct (Z.eqb_spec (refCount p - 1) 0); [lia|done].
Qed.

Lemma repeatM_Unref_live drv k :
  forall st p,
  singleton st = Some p -> refCountOfDisableRefCount p = 0 ->
  Z.of_nat k < refCount p -> refCount p <= INT_MAX ->
  repeatM k (Unref drv) st =
  Ok (tt, with_singleton
            (Some (set_refCount (refCount p - Z.of_nat k) p)) st).
Proof.
  induction k as [|k IH]; intros st p Hs Hd Hlt Hmax.
  - simpl. rewrite Z.sub_0_r, set_refCount_same, <- Hs.
    by rewrite with_singleton_same.
  - cbn [repeatM].
    rewrite (bind_ok _ _ _ _ _ (Unref_live drv st p Hs Hd
               ltac:(unfold INT_MIN; lia) ltac:(lia))).
    rewrite (IH _ (set_refCount (refCount p - 1) p));
      [|done|done|simpl; lia|simpl; lia].
    unfold with_singleton, set_refCount. simpl. do 5 f_equal. lia.
Qed.

(** The last [Unref] on a pool without entries, for any driver. *)
Lemma Unref_last_reference_empty drv st p :
  singleton st = Some p -> refCountOfDisableRefCount p = 0 ->
  refCount p = 1 -> firstEntry p = None ->
  Unref drv st = Ok (tt, with_singleton None st).
Proof.
  intros Hs Hd Hrc Hf. unfold Unref.
  unfold get at 1. erewrite bind_ok by reflexivity. rewrite Hs, Hd. simpl.
  erewrite bind_ok by (apply int_pred_ok; rewrite Hrc; by compute).
  erewrite bind_ok by (by apply this_set_ok).
  erewrite bind_ok by reflexivity.
  cbn [refCount set_refCount]. rewrite Hrc. change (1 - 1 =? 0) with true.
  cbn iota. unfold delete_GDALDatasetPool.
  erewrite (bind_ok (bind _ _)).
  2:{ erewrite bind_ok by reflexivity.
      unfold GDALGetResponsiblePIDForCurrentThread. erewrite bind_ok by reflexivity.
      unfold get. erewrite bind_ok by reflexivity.
      cbn [firstEntry set_refCount]. rewrite Hf.
      unfold scan_fuel. cbn [destroy_entries].
      erewrite bind_ok by reflexivity. reflexivity. }
  unfold modify. by destruct st.
Qed.

Lemma repeatM_snoc m (c : M unit) :
  forall s, repeatM (S m) c s = (repeatM m c ;; c) s.
Proof.
  induction m as [|m IH]; intros s.
  - cbn [repeatM]. unfold bind, ret. by destruct (c s) as [[[] ?]| |].
  - change (repeatM (S (S m)) c s) with (bind c (fun _ => repeatM (S m) c) s).
    change ((repeatM (S m) c;; c) s) with
      (bind (bind c (fun _ => repeatM m c)) (fun _ => c) s).
    unfold bind. destruct (c s) as [[[] s']| |]; [apply IH|done..].
Qed.

(** X8. The references to the pool balance.  On a process without a pool,
    [n] calls of [Ref] followed by [k < n] calls of [Unref] leave a pool with
    [n - k] references, and with the [n]-th [Unref] the pool is destroyed:
    the process is as it was before the first [Ref]. *)
Theorem X8_Ref_Unref_balance drv st (n : nat) :
  singleton st = None ->
  INT_MIN <= atoi_value
               (default "100"%string
                  (configOptions st !! "GDAL_MAX_DATASET_POOL_SIZE"%string))
          <= INT_MAX ->
  (0 < n)%nat -> Z.of_nat n <= INT_MAX ->
  (forall k, (k < n)%nat ->
     (repeatM n Ref ;; repeatM k (Unref drv)) st =
     Ok (tt, with_singleton
               (Some (set_refCount (Z.of_nat n - Z.of_nat k)
                        (newGDALDatasetPool (configured_maxSize st)))) st)) /\
  (repeatM n Ref ;; repeatM n (Unref drv)) st = Ok (tt, st).
Proof.
  intros Hs Hcfg Hn Hmax.
  set (p0 := newGDALDatasetPool (configured_maxSize st)).
  assert (En : repeatM n Ref st =
               Ok (tt, with_singleton (Some (set_refCount (Z.of_nat n) p0)) st)).
  { destruct n as [|n]; [lia|]. cbn [repeatM].
    rewrite (bind_ok _ _ _ _ _ (Ref_creates st Hs Hcfg)). fold p0.
    rewrite (repeatM_Ref_live n _ (set_refCount 1 p0)); [|done|done|simpl; lia].
    unfold with_singleton, set_refCount. simpl. do 5 f_equal. lia. }
  assert (Ek : forall k, (k < n)%nat ->
     (repeatM n Ref ;; repeatM k (Unref drv)) st =
     Ok (tt, with_singleton
               (Some (set_refCount (Z.of_nat n - Z.of_nat k) p0)) st)).
  { intros k Hk. rewrite (bind_ok _ _ _ _ _ En).
    rewrite (repeatM_Unref_live drv k _ (set_refCount (Z.of_nat n) p0));
      [|done|done|simpl; lia|simpl; lia].
    reflexivity. }
  split; [exact Ek|].
  destruct n as [|n]; [lia|].
  specialize (Ek n ltac:(lia)).
  change ((repeatM (S n) Ref;; repeatM (S n) (Unref drv)) st) with
    (bind (repeatM (S n) Ref) (fun _ => repeatM (S n) (Unref drv)) st).
  unfold bind at 1. unfold bind at 1 in Ek.
  destruct (repeatM (S n) Ref st) as [[[] s1]| |]; try done.
  rewrite repeatM_snoc. rewrite (bind_ok _ _ _ _ _ Ek).
  rewrite (Unref_last_reference_empty drv _
             (set_refCount (Z.of_nat (S n) - Z.of_nat n) p0)); try done.
  - destruct st. simpl in *. by rewrite Hs.
  - simpl. lia.
Qed.

(** ** What [CloseDataset] leaves alone *)

(** X13. [CloseDataset] never touches an entry that is referenced, that has
    another file name or that has no dataset, and the access mode plays no
    part.  It closes at most one dataset, under the PID of its entry, and
    that entry stays in the list, with an empty name and no dataset. *)
Theorem X13_CloseDataset_spares_the_other_entries w st p l fn acc :
  singleton st = Some p -> wf_pool p (heap st) l ->
  INT_MIN <= refCountOfDisableRefCount p < INT_MAX ->
  exists st',
    CloseDataset (recDriver w) fn acc st = Ok (tt, st') /\
    singleton st' = Some p /\ wf_pool p (heap st') l /\
    tlsResponsiblePID st' = tlsResponsiblePID st /\
    (forall a e, heap st !! a = Some e ->
       CacheEntry.pszFileName e <> fn \/ CacheEntry.refCount e <> 0 \/
       CacheEntry.poDS e = None ->
       heap st' !! a = Some e) /\
    (st' = st \/
     exists c e hDS,
       c ∈ l /\ heap st !! c = Some e /\
       CacheEntry.pszFileName e = fn /\ CacheEntry.refCount e = 0 /\
       CacheEntry.poDS e = Some hDS /\
       trace st' = trace st ++ [EvGDALClose (CacheEntry.responsiblePID e) hDS] /\
       content_at (heap st') c =
         Some (CacheEntry.responsiblePID e, ""%string, None, 0) /\
       (forall a, a <> c -> heap st' !! a = heap st !! a)).
Proof.
  intros Hs Hwf Hb. rewrite (CloseDataset_ok w st p l) by done.
  eexists. split; [reflexivity|].
  destruct (close_list (heap st) fn l) as [cur|] eqn:Ecl.
  2:{ split_and!; try done. by left. }
  destruct (close_list_some _ _ _ _ Ecl) as (l1 & l2 & ec & -> & Hc & Hm & _).
  rewrite Hc. unfold close_matches in Hm.
  apply andb_true_iff in Hm as [Hm Hds]. apply andb_true_iff in Hm as [Hn Hrc].
  apply String.eqb_eq in Hn. apply Z.eqb_eq in Hrc.
  apply bool_decide_eq_true_1 in Hds.
  destruct (CacheEntry.poDS ec) as [hDS|] eqn:Eds; [|done].
  split; [done|]. split; [by apply wf_pool_closed|]. split; [done|]. split.
  - intros a e Ha Hsp. simpl. destruct (decide (a = cur)) as [->|Hne].
    + rewrite Hc in Ha. injection Ha as <-.
      destruct Hsp as [?|[?|?]]; congruence.
    + by rewrite lookup_alter_ne.
  - right. exists cur, ec, hDS. split.
    { apply elem_of_app. right. apply list_elem_of_here. }
    split_and!; try done.
    + simpl. unfold close_events. by rewrite Eds.
    + simpl. unfold content_at. rewrite lookup_alter_eq, Hc. simpl.
      unfold CacheEntry.content, vacate. simpl. by rewrite Hrc.
    + intros a Ha. simpl. by rewrite lookup_alter_ne.
Qed.

(** ** A reference and its release *)

(** X7. [UnrefDataset] undoes the count of a hit.  After [RefDataset] on a
    file of the pool and [UnrefDataset] on the entry it returned, every
    entry has the content it had and nothing outside the pool has changed;
    what remains is that the entry is now the first of the list. *)
Theorem X7_RefDataset_then_UnrefDataset_restores_the_counts drv st p l1 c l2 ec fn acc opts sh :
  singleton st = Some p -> wf_pool p (heap st) (l1 ++ c :: l2) ->
  all_entries (heap st) l1
    (fun e => ref_matches fn sh (tlsResponsiblePID st) e = false) ->
  heap st !! c = Some ec ->
  ref_matches fn sh (tlsResponsiblePID st) ec = true ->
  INT_MIN <= CacheEntry.refCount ec < INT_MAX ->
  exists st1 st2 p',
    RefDataset drv fn acc opts sh st = Ok (Some c, st1) /\
    UnrefDataset c st1 = Ok (tt, st2) /\
    singleton st2 = Some p' /\ same_counters p p' /\
    wf_pool p' (heap st2) (c :: l1 ++ l2) /\
    same_outside st st2 /\
    (forall a, content_at (heap st2) a = content_at (heap st) a).
Proof.
  intros Hs Hwf Hno Hc Hm [Hlo Hhi].
  destruct (RefDataset_hit_ok st p l1 c l2 ec Hs Hwf Hc Hhi)
    as (st1 & p1 & E & Hs1 & Hcnt & Hwf1 & Hout & Hcc & Hoth).
  assert (exists e1, heap st1 !! c = Some e1) as [e1 He1].
  { eapply wf_lookup; [exact Hwf1|]. apply list_elem_of_here. }
  assert (CacheEntry.content e1 = (CacheEntry.responsiblePID ec,
            CacheEntry.pszFileName ec, CacheEntry.poDS ec,
            CacheEntry.refCount ec + 1)) as Hce1.
  { unfold content_at in Hcc. rewrite He1 in Hcc. simpl in Hcc. congruence. }
  unfold CacheEntry.content in Hce1. injection Hce1 as H1 H2 H3 H4.
  destruct (UnrefDataset_keeps_wf st1 p1 _ c e1 Hs1 Hwf1 He1)
    as (st2 & E2 & Hs2 & Hwf2 & Hc2 & Hoth2); [lia|].
  exists st1, st2, p1. split.
  { unfold RefDataset. rewrite (RefDataset_scanned drv st p _ fn acc opts sh Hs Hwf).
    rewrite (scan_list_first_match _ _ _ _ l1 c l2 ec); [done|done| |done|done].
    intros a Ha. eapply wf_lookup; [exact Hwf|].
    apply elem_of_app. by left. }
  split_and!; try done.
  - destruct Hout as (? & ? & ?).
    unfold UnrefDataset in E2. rewrite (bind_ok _ _ _ _ _ (load_ok _ _ _ He1)) in E2.
    rewrite (bind_ok _ _ _ _ _
               (int_pred_ok (CacheEntry.refCount e1) st1 ltac:(lia))) in E2.
    rewrite store_ok in E2 by (by rewrite He1). injection E2 as <-.
    by split_and!.
  - intros a. destruct (decide (a = c)) as [->|Hne].
    + rewrite Hc2. unfold content_at. rewrite Hc. simpl.
      unfold CacheEntry.content. rewrite H1, H2, H3, H4. do 3 f_equal. lia.
    + rewrite (Hoth2 a Hne). by apply Hoth.
Qed.

(** ** The proxy dataset and its entry *)

Lemma RefUnderlyingDataset_run drv d st c st1 e1 hDS :
  RefDataset drv (ProxyPoolDataset.description d) (ProxyPoolDataset.eAccess d)
    (ProxyPoolDataset.papszOpenOptions d) (ProxyPoolDataset.bShared d)
    (with_tlsResponsiblePID (ProxyPoolDataset.responsiblePID d) st)
    = Ok (Some c, st1) ->
  heap st1 !! c = Some e1 -> CacheEntry.poDS e1 = Some hDS ->
  RefUnderlyingDataset drv d st =
  Ok ((Some hDS, ProxyPoolDataset.set_cacheEntry (Some c) d),
      with_tlsResponsiblePID (tlsResponsiblePID st) st1).
Proof.
  intros E He1 Hds. unfold RefUnderlyingDataset.
  unfold GDALGetResponsiblePIDForCurrentThread at 1.
  erewrite bind_ok by reflexivity.
  unfold GDALSetResponsiblePIDForCurrentThread at 1, modify at 1.
  erewrite bind_ok by reflexivity.
  rewrite (bind_ok _ _ _ _ _ E).
  unfold GDALSetResponsiblePIDForCurrentThread at 1, modify at 1.
  erewrite bind_ok by reflexivity.
  erewrite bind_ok by (by apply load_ok).
  by rewrite Hds.
Qed.

Lemma UnrefUnderlyingDataset_run d c st e hDS :
  ProxyPoolDataset.cacheEntry d = Some c ->
  heap st !! c = Some e -> CacheEntry.poDS e = Some hDS ->
  INT_MIN < CacheEntry.refCount e ->
  UnrefUnderlyingDataset d (Some hDS) st =
  Ok (tt, with_heap
            (alter (CacheEntry.set_refCount (CacheEntry.refCount e - 1)) c
               (heap st)) st).
Proof.
  intros Hc He Hds Hrc. unfold UnrefUnderlyingDataset. rewrite Hc.
  step_load He. rewrite Hds, bool_decide_eq_true_2 by done.
  cbn [CPLAssert]. erewrite bind_ok by reflexivity.
  step_load He. rewrite Hds. unfold UnrefDataset.
  step_load He. erewrite bind_ok by (by apply int_pred_ok).
  apply store_ok. by rewrite He.
Qed.

(** A request of a proxy that no entry answers, in a pool with room. *)
Lemma RefUnderlyingDataset_miss_with_room w st p l d hDS :
  singleton st = Some p -> wf_pool p (heap st) l ->
  all_entries (heap st) l
    (fun e => ref_matches (ProxyPoolDataset.description d)
                (ProxyPoolDataset.bShared d)
                (ProxyPoolDataset.responsiblePID d) e = false) ->
  currentSize p < maxSize p -> maxSize p <= INT_MAX ->
  INT_MIN <= refCountOfDisableRefCount p < INT_MAX ->
  (forall stc,
     open_result w stc (ProxyPoolDataset.description d)
       (nFlag_of (ProxyPoolDataset.eAccess d))
       (ProxyPoolDataset.papszOpenOptions d) = Some hDS) ->
  exists c st1 p1 e1,
    RefUnderlyingDataset (recDriver w) d st =
      Ok ((Some hDS, ProxyPoolDataset.set_cacheEntry (Some c) d), st1) /\
    heap st !! c = None /\
    singleton st1 = Some p1 /\ wf_pool p1 (heap st1) (c :: l) /\
    refCount p1 = refCount p /\ maxSize p1 = maxSize p /\
    refCountOfDisableRefCount p1 = refCountOfDisableRefCount p /\
    trace st1 = trace st ++
      [EvGDALOpenEx (ProxyPoolDataset.responsiblePID d)
         (ProxyPoolDataset.description d)
         (nFlag_of (ProxyPoolDataset.eAccess d))
         (ProxyPoolDataset.papszOpenOptions d) (Some hDS)] /\
    tlsResponsiblePID st1 = tlsResponsiblePID st /\
    heap st1 !! c = Some e1 /\
    CacheEntry.content e1 =
      (ProxyPoolDataset.responsiblePID d, ProxyPoolDataset.description d,
       Some hDS, 1).
Proof.
  intros Hs Hwf Hno Hroom Hmax Hdr Hopen.
  set (str := with_tlsResponsiblePID (ProxyPoolDataset.responsiblePID d) st).
  destruct (scan_list_no_match (heap st) _ _ _ l None Hno) as [lz Hscan].
  destruct (RefDataset_miss_prepend w str p l lz
              (ProxyPoolDataset.description d) (ProxyPoolDataset.eAccess d)
              (ProxyPoolDataset.papszOpenOptions d) Hs Hwf)
    as (cur & st1 & p1 & r & E & Hfresh & Hs1 & Hwf1 & Hrc1 & Hm1 & Hd1 & _ &
        Htls & Htr & Hc & _ & (stc & Hr)); [lia|lia|done|].
  rewrite Hopen in Hr. subst r.
  assert (ERef : RefDataset (recDriver w) (ProxyPoolDataset.description d)
      (ProxyPoolDataset.eAccess d) (ProxyPoolDataset.papszOpenOptions d)
      (ProxyPoolDataset.bShared d) str = Ok (Some cur, st1)).
  { unfold RefDataset. erewrite RefDataset_scanned by done.
    simpl heap. simpl tlsResponsiblePID. by rewrite Hscan. }
  unfold content_at in Hc.
  destruct (heap st1 !! cur) as [e1|] eqn:He1; [|done].
  simpl in Hc.
  assert (Hc' : CacheEntry.content e1 =
                (ProxyPoolDataset.responsiblePID d,
                 ProxyPoolDataset.description d, Some hDS, 1))
    by congruence.
  exists cur, (with_tlsResponsiblePID (tlsResponsiblePID st) st1), p1, e1.
  split.
  { eapply RefUnderlyingDataset_run; [exact ERef|exact He1|].
    unfold CacheEntry.content in Hc'. congruence. }
  split_and!; done.
Qed.

(** X14. A proxy opens its file once.  The first [RefUnderlyingDataset] on
    a pool with room opens the file under the PID of the thread that created
    the proxy and restores the PID of the caller.  After
    [UnrefUnderlyingDataset] the entry stays in the pool without a
    reference, and the next [RefUnderlyingDataset], from any thread and
    with any driver, gets the same dataset without a call to the driver. *)
Theorem X14_RefUnderlyingDataset_opens_once w drv' st p l d hDS :
  singleton st = Some p -> wf_pool p (heap st) l ->
  all_entries (heap st) l
    (fun e => ref_matches (ProxyPoolDataset.description d)
                (ProxyPoolDataset.bShared d)
                (ProxyPoolDataset.responsiblePID d) e = false) ->
  currentSize p < maxSize p -> maxSize p <= INT_MAX ->
  INT_MIN <= refCountOfDisableRefCount p < INT_MAX ->
  (forall stc,
     open_result w stc (ProxyPoolDataset.description d)
       (nFlag_of (ProxyPoolDataset.eAccess d))
       (ProxyPoolDataset.papszOpenOptions d) = Some hDS) ->
  exists c st1 st2,
    let d1 := ProxyPoolDataset.set_cacheEntry (Some c) d in
    RefUnderlyingDataset (recDriver w) d st = Ok ((Some hDS, d1), st1) /\
    trace st1 = trace st ++
      [EvGDALOpenEx (ProxyPoolDataset.responsiblePID d)
         (ProxyPoolDataset.description d)
         (nFlag_of (ProxyPoolDataset.eAccess d))
         (ProxyPoolDataset.papszOpenOptions d) (Some hDS)] /\
    tlsResponsiblePID st1 = tlsResponsiblePID st /\
    refCount_at st1 c = Some 1 /\
    UnrefUnderlyingDataset d1 (Some hDS) st1 = Ok (tt, st2) /\
    refCount_at st2 c = Some 0 /\
    forall tid, exists st3,
      RefUnderlyingDataset drv' d1 (with_tlsResponsiblePID tid st2)
        = Ok ((Some hDS, d1), st3) /\
      trace st3 = trace st1 /\ tlsResponsiblePID st3 = tid /\
      refCount_at st3 c = Some 1.
Proof.
  intros Hs Hwf Hno Hroom Hmax Hdr Hopen.
  destruct (RefUnderlyingDataset_miss_with_room w st p l d hDS
              Hs Hwf Hno Hroom Hmax Hdr Hopen)
    as (cur & st1 & p1 & e1 & E1 & _ & Hs1 & Hwf1 & _ & _ & _ & Htr & Htls &
        He1 & Hc).
  unfold CacheEntry.content in Hc. injection Hc as Hrid Hfn Hds Hrc.
  set (e2 := CacheEntry.set_refCount 0 e1).
  set (st2 := with_heap (alter (CacheEntry.set_refCount 0) cur (heap st1)) st1).
  exists cur, st1, st2. cbn zeta. split; [done|].
  split; [done|]. split; [done|]. split.
  { unfold refCount_at. by rewrite He1, <- Hrc. }
  split.
  { erewrite UnrefUnderlyingDataset_run; [|done|exact He1|done|].
    - by rewrite Hrc.
    - rewrite Hrc. by compute. }
  split.
  { unfold refCount_at. simpl. by rewrite lookup_alter_eq, He1. }
  intros tid.
  assert (He2 : heap st2 !! cur = Some e2).
  { simpl. by rewrite lookup_alter_eq, He1. }
  assert (Hm : ref_matches (ProxyPoolDataset.description d)
                 (ProxyPoolDataset.bShared d)
                 (ProxyPoolDataset.responsiblePID d) e2 = true).
  { unfold ref_matches, e2. simpl. rewrite Hfn, String.eqb_refl, Hrid.
    simpl. rewrite Z.eqb_refl.
    by destruct (ProxyPoolDataset.bShared d =? 0). }
  set (d1 := ProxyPoolDataset.set_cacheEntry (Some cur) d).
  set (str2 := with_tlsResponsiblePID (ProxyPoolDataset.responsiblePID d1)
                 (with_tlsResponsiblePID tid st2)).
  set (st3 := with_heap
                (alter (CacheEntry.set_refCount (CacheEntry.refCount e2 + 1))
                   cur (heap str2)) str2).
  assert (Ehit : RefDataset drv' (ProxyPoolDataset.description d1)
      (ProxyPoolDataset.eAccess d1) (ProxyPoolDataset.papszOpenOptions d1)
      (ProxyPoolDataset.bShared d1) str2 = Ok (Some cur, st3)).
  { apply (RefDataset_hit_at_head drv' str2 p1 cur e2); try done.
    by rewrite (wf_first _ _ _ Hwf1). }
  assert (He3 : heap st3 !! cur = Some (CacheEntry.set_refCount 1 e2)).
  { simpl. rewrite lookup_alter_eq. simpl. rewrite lookup_alter_eq, He1.
    reflexivity. }
  exists (with_tlsResponsiblePID tid st3). split.
  { by rewrite (RefUnderlyingDataset_run drv' d1 _ cur st3 _ hDS Ehit He3 Hds). }
  simpl. split; [done|]. split; [done|].
  unfold refCount_at. simpl. rewrite lookup_alter_eq. simpl.
  by rewrite lookup_alter_eq, He1.
Qed.

(** ** The life of a proxy dataset *)

Lemma GDALProxyPoolDataset_new_run CPLStrdup st st1 desc x y acc sh proj gt :
  Ref st = Ok (tt, st1) ->
  (forall src, gt = Some src -> (6 <= length src)%nat) ->
  exists d,
    GDALProxyPoolDataset_new CPLStrdup desc x y acc sh proj gt st = Ok (d, st1) /\
    ProxyPoolDataset.description d = desc /\
    ProxyPoolDataset.eAccess d = acc /\
    ProxyPoolDataset.bShared d = sh mod 256 /\
    ProxyPoolDataset.responsiblePID d = tlsResponsiblePID st1 /\
    ProxyPoolDataset.papszOpenOptions d = None /\
    ProxyPoolDataset.cacheEntry d = None.
Proof.
  intros E Hgt. unfold GDALProxyPoolDataset_new.
  rewrite (bind_ok _ _ _ _ _ E).
  unfold GDALGetResponsiblePIDForCurrentThread. erewrite bind_ok by reflexivity.
  destruct gt as [src|].
  - unfold memcpy_6_doubles.
    assert ((6 <=? length src)%nat = true) as ->
      by (apply Nat.leb_le; by apply Hgt).
    destruct proj; eexists; (split; [reflexivity|done]).
  - destruct proj; eexists; (split; [reflexivity|done]).
Qed.

Lemma configured_maxSize_range st : 2 <= configured_maxSize st <= 1000.
Proof.
  unfold configured_maxSize. destruct (_ || _) eqn:E; [lia|].
  apply orb_false_elim in E as [E1 E2]. lia.
Qed.

(** X15. The life of a proxy on a process without a pool.  The constructor
    creates the pool, [RefUnderlyingDataset] from any thread opens the file
    under the PID of the thread that constructed the proxy, and the
    destructor closes it under that PID and destroys the pool with its last
    reference: the trace holds this open and this close and nothing else,
    and the entry is freed. *)
Theorem X15_proxy_life_cycle CPLStrdup w st desc x y acc sh proj gt hDS tid :
  singleton st = None ->
  INT_MIN <= atoi_value
               (default "100"%string
                  (configOptions st !! "GDAL_MAX_DATASET_POOL_SIZE"%string))
          <= INT_MAX ->
  (forall src, gt = Some src -> (6 <= length src)%nat) ->
  (forall stc, open_result w stc desc (nFlag_of acc) None = Some hDS) ->
  exists d c st1 st2 st3 st4,
    let d1 := ProxyPoolDataset.set_cacheEntry (Some c) d in
    GDALProxyPoolDataset_new CPLStrdup desc x y acc sh proj gt st
      = Ok (d, st1) /\
    RefUnderlyingDataset (recDriver w) d (with_tlsResponsiblePID tid st1)
      = Ok ((Some hDS, d1), st2) /\
    UnrefUnderlyingDataset d1 (Some hDS) st2 = Ok (tt, st3) /\
    GDALProxyPoolDataset_delete (recDriver w) d1 st3 = Ok (tt, st4) /\
    singleton st4 = None /\ heap st4 !! c = None /\
    tlsResponsiblePID st4 = tid /\
    trace st4 = trace st ++
      [EvGDALOpenEx (tlsResponsiblePID st) desc (nFlag_of acc) None (Some hDS);
       EvGDALClose (tlsResponsiblePID st) hDS].
Proof.
  intros Hs Hcfg Hgt Hopen.
  set (p0 := set_refCount 1 (newGDALDatasetPool (configured_maxSize st))).
  set (st1 := with_singleton (Some p0) st).
  destruct (GDALProxyPoolDataset_new_run CPLStrdup st st1 desc x y acc sh proj gt
              (Ref_creates st Hs Hcfg) Hgt)
    as (d & Enew & Hdesc & Hacc & Hsh & Hpid & Hopts & Hce).
  simpl in Hpid.
  pose proof (configured_maxSize_range st) as Hrange.
  destruct (RefUnderlyingDataset_miss_with_room w
              (with_tlsResponsiblePID tid st1) p0 [] d hDS)
    as (c & st2 & p2 & e2 & E2 & _ & Hs2 & Hwf2 & Hrc2 & _ & Hd2 & Htr2 &
        Htls2 & He2 & Hc2).
  { done. }
  { split; [apply NoDup_nil_2|reflexivity..|exact I]. }
  { intros a e Ha. by inversion Ha. }
  { simpl. lia. }
  { simpl. unfold INT_MAX. lia. }
  { by compute. }
  { rewrite Hdesc, Hacc, Hopts. exact Hopen. }
  unfold CacheEntry.content in Hc2. injection Hc2 as Hrid Hfn Hds Hrc.
  set (e3 := CacheEntry.set_refCount 0 e2).
  set (st3 := with_heap (alter (CacheEntry.set_refCount 0) c (heap st2)) st2).
  assert (He3 : heap st3 !! c = Some e3).
  { simpl. by rewrite lookup_alter_eq, He2. }
  assert (Hwf3 : wf_pool p2 (heap st3) [c]).
  { apply dlseg_alter_content_wf; [by intros []|done]. }
  assert (Hclose : close_events e3 =
                   [EvGDALClose (tlsResponsiblePID st) hDS]).
  { unfold close_events, e3. simpl. by rewrite Hds, Hrid, Hpid. }
  assert (Hfinal : exists st4,
    GDALProxyPoolDataset_delete (recDriver w)
      (ProxyPoolDataset.set_cacheEntry (Some c) d) st3 = Ok (tt, st4) /\
    singleton st4 = None /\ heap st4 !! c = None /\
    tlsResponsiblePID st4 = tlsResponsiblePID st3 /\
    trace st4 = trace st3 ++ [EvGDALClose (tlsResponsiblePID st) hDS]).
  { unfold GDALProxyPoolDataset_delete.
    cbn [ProxyPoolDataset.bShared ProxyPoolDataset.set_cacheEntry
         ProxyPoolDataset.description ProxyPoolDataset.eAccess].
    destruct (ProxyPoolDataset.bShared d =? 0) eqn:Esh.
    - assert (Hcl : close_list (heap st3) (ProxyPoolDataset.description d) [c]
                    = Some c).
      { simpl. rewrite lookup_alter_eq, He2. simpl.
        unfold close_matches. simpl.
        by rewrite Hfn, String.eqb_refl, Hds. }
      pose proof (CloseDataset_ok w st3 p2 [c] (ProxyPoolDataset.description d)
                    (ProxyPoolDataset.eAccess d) Hs2 Hwf3) as Ec.
      rewrite Hcl, He3 in Ec.
      specialize (Ec ltac:(rewrite Hd2; by compute)).
      destruct (Unref_last_reference_trace w (closed_state c e3 st3) p2 [c])
        as (st4 & E4 & Hs4 & Htls4 & Htr4 & Hin4 & _); [done| |done|done|].
      { by apply wf_pool_closed. }
      exists st4. split.
      { rewrite (bind_ok _ _ _ _ _ Ec). exact E4. }
      split; [done|]. split; [apply Hin4, list_elem_of_here|].
      split; [done|].
      rewrite Htr4. simpl. rewrite lookup_alter_eq, lookup_alter_eq, He2.
      simpl. unfold destroy_events, vacate. simpl.
      by rewrite app_nil_r, Hclose.
    - destruct (Unref_last_reference_trace w st3 p2 [c])
        as (st4 & E4 & Hs4 & Htls4 & Htr4 & Hin4 & _); [done..|].
      exists st4. split.
      { erewrite bind_ok by reflexivity. exact E4. }
      split; [done|]. split; [apply Hin4, list_elem_of_here|].
      split; [done|].
      rewrite Htr4. simpl. rewrite lookup_alter_eq, He2. simpl.
      rewrite app_nil_r. unfold destroy_events.
      change (CacheEntry.set_refCount 0 e2) with e3. by rewrite Hclose. }
  destruct Hfinal as (st4 & E4 & Hs4 & Hh4 & Htls4 & Htr4).
  exists d, c, st1, st2, st3, st4. cbn zeta.
  split; [done|]. split; [done|]. split.
  { erewrite UnrefUnderlyingDataset_run; [|done|exact He2|done|].
    - by rewrite Hrc.
    - rewrite Hrc. by compute. }
  split; [done|]. split; [done|]. split; [done|]. split.
  { rewrite Htls4. done. }
  rewrite Htr4. simpl. rewrite Htr2. simpl.
  rewrite Hpid, Hdesc, Hacc, Hopts, <- app_assoc. done.
Qed.

(** * The proxy objects *)

Section RunO.

Context {A B : Type}.

Lemma bindO_ok (m : MO A) (k : A -> MO B) o a o' :
  m o = Ok (a, o') -> bindO m k o = k a o'.
Proof. unfold bindO. by intros ->. Qed.

Lemma lift_ok (m : M A) o a st :
  m (process o) = Ok (a, st) -> lift m o = Ok (a, with_process st o).
Proof. unfold lift. by intros ->. Qed.

End RunO.

Lemma loadB_ok b x o : bands o !! b = Some x -> loadB b o = Ok (x, o).
Proof. unfold loadB. by intros ->. Qed.

Lemma storeB_ok b f o :
  is_Some (bands o !! b) ->
  storeB b f o = Ok (tt, with_bands (alter f b (bands o)) o).
Proof. unfold storeB. by intros [x ->]. Qed.

Ltac simpl_objects :=
  cbn [process proxy bands with_process with_proxy with_bands] in *.

Lemma RefUnderlyingDataset_on_object drv o u d1 st1 :
  RefUnderlyingDataset drv (ProxyDataset.core (proxy o)) (process o)
    = Ok ((u, d1), st1) ->
  GDALProxyPoolDataset_RefUnderlyingDataset drv o =
  Ok (u, with_proxy (ProxyDataset.set_core d1 (proxy o)) (with_process st1 o)).
Proof.
  intros E. unfold GDALProxyPoolDataset_RefUnderlyingDataset.
  unfold thisDS at 1. erewrite bindO_ok by reflexivity.
  erewrite bindO_ok by (apply lift_ok; exact E).
  unfold thisDS_set. erewrite bindO_ok by reflexivity. reflexivity.
Qed.

Lemma UnrefUnderlyingDataset_on_object o u st1 :
  UnrefUnderlyingDataset (ProxyDataset.core (proxy o)) u (process o)
    = Ok (tt, st1) ->
  GDALProxyPoolDataset_UnrefUnderlyingDataset u o = Ok (tt, with_process st1 o).
Proof.
  intros E. unfold GDALProxyPoolDataset_UnrefUnderlyingDataset.
  unfold thisDS at 1. erewrite bindO_ok by reflexivity.
  by apply lift_ok.
Qed.

(** What [RefUnderlyingDataset] has done when it returns a dataset: the
    proxy points to an entry of the pool that holds this dataset. *)
Lemma RefUnderlyingDataset_Some drv d st hDS d1 st1 :
  RefUnderlyingDataset drv d st = Ok ((Some hDS, d1), st1) ->
  exists c e,
    ProxyPoolDataset.cacheEntry d1 = Some c /\
    heap st1 !! c = Some e /\ CacheEntry.poDS e = Some hDS.
Proof.
  unfold RefUnderlyingDataset.
  unfold GDALGetResponsiblePIDForCurrentThread at 1.
  erewrite bind_ok by reflexivity.
  unfold GDALSetResponsiblePIDForCurrentThread at 1, modify at 1.
  erewrite bind_ok by reflexivity.
  unfold bind at 1.
  destruct (RefDataset _ _ _ _ _ _) as [[[c|] st']| |]; try done.
  unfold GDALSetResponsiblePIDForCurrentThread at 1, modify at 1.
  erewrite bind_ok by reflexivity.
  unfold bind at 1, load at 1. simpl_state.
  destruct (heap st' !! c) as [e|] eqn:Ec; [|done].
  destruct (CacheEntry.poDS e) as [h|] eqn:Eds.
  - unfold ret. intros [= <- <- <-]. exists c, e. by split_and!.
  - unfold bind. destruct (UnrefDataset c _) as [[[] ?]| |]; by unfold ret.
Qed.

(** ** The reference of a band *)

Lemma UnrefUnderlyingDataset_referenced d1 st1 o c e hDS :
  ProxyPoolDataset.cacheEntry d1 = Some c ->
  heap st1 !! c = Some e -> CacheEntry.poDS e = Some hDS ->
  INT_MIN < CacheEntry.refCount e ->
  GDALProxyPoolDataset_UnrefUnderlyingDataset (Some hDS) (referenced d1 st1 o)
  = Ok (tt, referenced d1 (released c e st1) o).
Proof.
  intros Hc He Hds Hrc.
  erewrite UnrefUnderlyingDataset_on_object; [reflexivity|].
  simpl. by apply UnrefUnderlyingDataset_run.
Qed.

Lemma RefUnderlyingRasterBand_plain drv src fuel b o this :
  bands o !! b = Some this ->
  ProxyBand.class this = ProxyBand.GDALProxyPoolRasterBand ->
  RefUnderlyingRasterBand drv src (S fuel) b o =
  bindO (GDALProxyPoolDataset_RefUnderlyingDataset drv)
    (fun poUnderlyingDataset =>
       match poUnderlyingDataset with
       | None => retO None
       | Some hDS =>
           bindO (lift (DSGetRasterBand src hDS (ProxyBand.nBand this)))
             (fun poBand =>
                bindO (match poBand with
                       | None =>
                           GDALProxyPoolDataset_UnrefUnderlyingDataset (Some hDS)
                       | Some _ => retO tt
                       end)
                  (fun _ => retO poBand))
       end) o.
Proof.
  intros Hb Hcl. cbn [RefUnderlyingRasterBand].
  rewrite (bindO_ok _ _ _ _ _ (loadB_ok _ _ _ Hb)). by rewrite Hcl.
Qed.

Lemma UnrefUnderlyingRasterBand_plain src fuel b o this u :
  bands o !! b = Some this ->
  ProxyBand.class this = ProxyBand.GDALProxyPoolRasterBand ->
  UnrefUnderlyingRasterBand src (S fuel) b (Some u) o =
  bindO (lift (RBGetDataset src u))
    (fun hDS => GDALProxyPoolDataset_UnrefUnderlyingDataset hDS) o.
Proof.
  intros Hb Hcl. cbn [UnrefUnderlyingRasterBand].
  rewrite (bindO_ok _ _ _ _ _ (loadB_ok _ _ _ Hb)). by rewrite Hcl.
Qed.

(** A plain band and the reference of its dataset. *)
Lemma plain_band_reference drv src fuel o b this hDS d1 st1 c e :
  bands o !! b = Some this ->
  ProxyBand.class this = ProxyBand.GDALProxyPoolRasterBand ->
  RefUnderlyingDataset drv (ProxyDataset.core (proxy o)) (process o)
    = Ok ((Some hDS, d1), st1) ->
  ProxyPoolDataset.cacheEntry d1 = Some c -> heap st1 !! c = Some e ->
  INT_MIN < CacheEntry.refCount e ->
  ((forall st, DSGetRasterBand src hDS (ProxyBand.nBand this) st = Ok (None, st)) ->
   RefUnderlyingRasterBand drv src (S fuel) b o =
   Ok (None, referenced d1 (released c e st1) o)) /\
  (forall u,
     (forall st, DSGetRasterBand src hDS (ProxyBand.nBand this) st
                 = Ok (Some u, st)) ->
     (forall st, RBGetDataset src u st = Ok (Some hDS, st)) ->
     RefUnderlyingRasterBand drv src (S fuel) b o =
       Ok (Some u, referenced d1 st1 o) /\
     UnrefUnderlyingRasterBand src (S fuel) b (Some u) (referenced d1 st1 o) =
       Ok (tt, referenced d1 (released c e st1) o)).
Proof.
  intros Hb Hcl Href Hc He Hrc.
  destruct (RefUnderlyingDataset_Some _ _ _ _ _ _ Href) as (c' & e' & Hc' & He' & Hds).
  rewrite Hc in Hc'. injection Hc' as <-. rewrite He in He'. injection He' as <-.
  split.
  - intros Hnone. rewrite (RefUnderlyingRasterBand_plain _ _ _ _ _ _ Hb Hcl).
    rewrite (bindO_ok _ _ _ _ _ (RefUnderlyingDataset_on_object _ _ _ _ _ Href)).
    erewrite bindO_ok by (apply lift_ok; apply Hnone).
    fold (referenced d1 st1 o).
    assert (with_process (process (referenced d1 st1 o)) (referenced d1 st1 o)
            = referenced d1 st1 o) as -> by done.
    erewrite bindO_ok by (by eapply UnrefUnderlyingDataset_referenced).
    reflexivity.
  - intros u Hsome Hds'. split.
    + rewrite (RefUnderlyingRasterBand_plain _ _ _ _ _ _ Hb Hcl).
      rewrite (bindO_ok _ _ _ _ _ (RefUnderlyingDataset_on_object _ _ _ _ _ Href)).
      erewrite bindO_ok by (apply lift_ok; apply Hsome).
      erewrite bindO_ok by reflexivity. reflexivity.
    + rewrite (UnrefUnderlyingRasterBand_plain _ _ _ _ this); [|done|done].
      erewrite bindO_ok by (apply lift_ok; apply Hds').
      assert (with_process (process (referenced d1 st1 o)) (referenced d1 st1 o)
              = referenced d1 st1 o) as -> by done.
      by eapply UnrefUnderlyingDataset_referenced.
Qed.

(** X22. The reference of a plain band is a reference to the entry of its
    dataset.  When the dataset has no band of that number,
    [RefUnderlyingRasterBand] gives the reference back at once and returns
    [NULL]; otherwise it returns the band and keeps the reference, which
    [UnrefUnderlyingRasterBand] gives back through the dataset of the
    band. *)
Theorem X22_plain_band_reference drv src fuel o b this hDS d1 st1 c e :
  bands o !! b = Some this ->
  ProxyBand.class this = ProxyBand.GDALProxyPoolRasterBand ->
  RefUnderlyingDataset drv (ProxyDataset.core (proxy o)) (process o)
    = Ok ((Some hDS, d1), st1) ->
  ProxyPoolDataset.cacheEntry d1 = Some c -> heap st1 !! c = Some e ->
  INT_MIN < CacheEntry.refCount e ->
  ((forall st, DSGetRasterBand src hDS (ProxyBand.nBand this) st = Ok (None, st)) ->
   RefUnderlyingRasterBand drv src (S fuel) b o =
   Ok (None, referenced d1 (released c e st1) o)) /\
  (forall u,
     (forall st, DSGetRasterBand src hDS (ProxyBand.nBand this) st
                 = Ok (Some u, st)) ->
     (forall st, RBGetDataset src u st = Ok (Some hDS, st)) ->
     RefUnderlyingRasterBand drv src (S fuel) b o =
       Ok (Some u, referenced d1 st1 o) /\
     UnrefUnderlyingRasterBand src (S fuel) b (Some u) (referenced d1 st1 o) =
       Ok (tt, referenced d1 (released c e st1) o)).
Proof. apply plain_band_reference. Qed.

Lemma RefUnderlyingRasterBand_overview drv src fuel ob o this :
  bands o !! ob = Some this ->
  ProxyBand.class this = ProxyBand.GDALProxyPoolOverviewRasterBand ->
  RefUnderlyingRasterBand drv src (S fuel) ob o =
  bindO (derefB (ProxyBand.poMainBand this)) (fun main =>
  bindO (RefUnderlyingRasterBand drv src fuel main) (fun m =>
  bindO (storeB ob (ProxyBand.set_poUnderlyingMainRasterBand m)) (fun _ =>
    match m with
    | None => retO None
    | Some hMain =>
        bindO (loadB ob) (fun this =>
        bindO (lift (int_succ (ProxyBand.nRefCountUnderlyingMainRasterBand this)))
          (fun v =>
        bindO (storeB ob (ProxyBand.set_nRefCountUnderlyingMainRasterBand v))
          (fun _ =>
        bindO (loadB ob) (fun this =>
          lift (RBGetOverview src hMain (ProxyBand.nOverviewBand this))))))
    end))) o.
Proof.
  intros Hb Hcl. cbn [RefUnderlyingRasterBand].
  rewrite (bindO_ok _ _ _ _ _ (loadB_ok _ _ _ Hb)). by rewrite Hcl.
Qed.

Lemma UnrefUnderlyingRasterBand_derived src fuel ob o this r :
  bands o !! ob = Some this ->
  ProxyBand.class this <> ProxyBand.GDALProxyPoolRasterBand ->
  UnrefUnderlyingRasterBand src (S fuel) ob r o =
  bindO (derefB (ProxyBand.poMainBand this)) (fun main =>
  bindO (UnrefUnderlyingRasterBand src fuel main
           (ProxyBand.poUnderlyingMainRasterBand this)) (fun _ =>
  bindO (loadB ob) (fun this =>
  bindO (lift (int_pred (ProxyBand.nRefCountUnderlyingMainRasterBand this)))
    (fun v =>
  storeB ob (ProxyBand.set_nRefCountUnderlyingMainRasterBand v))))) o.
Proof.
  intros Hb Hcl. cbn [UnrefUnderlyingRasterBand].
  rewrite (bindO_ok _ _ _ _ _ (loadB_ok _ _ _ Hb)).
  by destruct (ProxyBand.class this).
Qed.

(** An overview band whose main band is a plain band. *)
Lemma overview_band_reference drv src fuel o ob b this_ob this hDS d1 st1 c e u r :
  bands o !! ob = Some this_ob ->
  ProxyBand.class this_ob = ProxyBand.GDALProxyPoolOverviewRasterBand ->
  ProxyBand.poMainBand this_ob = Some b ->
  bands o !! b = Some this ->
  ProxyBand.class this = ProxyBand.GDALProxyPoolRasterBand ->
  RefUnderlyingDataset drv (ProxyDataset.core (proxy o)) (process o)
    = Ok ((Some hDS, d1), st1) ->
  ProxyPoolDataset.cacheEntry d1 = Some c -> heap st1 !! c = Some e ->
  INT_MIN < CacheEntry.refCount e ->
  (forall st, DSGetRasterBand src hDS (ProxyBand.nBand this) st = Ok (Some u, st)) ->
  (forall st, RBGetDataset src u st = Ok (Some hDS, st)) ->
  (forall st, RBGetOverview src u (ProxyBand.nOverviewBand this_ob) st
              = Ok (r, st)) ->
  INT_MIN <= ProxyBand.nRefCountUnderlyingMainRasterBand this_ob < INT_MAX ->
  RefUnderlyingRasterBand drv src (S (S fuel)) ob o =
    Ok (r, holding ob u (referenced d1 st1 o)) /\
  forall r',
    UnrefUnderlyingRasterBand src (S (S fuel)) ob r'
      (holding ob u (referenced d1 st1 o)) =
    Ok (tt, handed_back ob u (referenced d1 (released c e st1) o)).
Proof.
  intros Hob Hcl Hmain Hb Hclb Href Hc He Hrc Hband Hds Hov Hn.
  destruct (plain_band_reference drv src fuel o b this hDS d1 st1 c e
              Hb Hclb Href Hc He Hrc) as [_ Hplain].
  destruct (Hplain u Hband Hds) as [Eref Eunref].
  destruct (RefUnderlyingDataset_Some _ _ _ _ _ _ Href)
    as (c' & e' & Hc' & He' & Hpo).
  rewrite Hc in Hc'. injection Hc' as <-. rewrite He in He'. injection He' as <-.
  assert (Hne : ob <> b).
  { intros ->. rewrite Hob in Hb. injection Hb as ->. congruence. }
  split.
  - rewrite (RefUnderlyingRasterBand_overview _ _ _ _ _ _ Hob Hcl), Hmain.
    cbn [derefB]. erewrite bindO_ok by reflexivity.
    rewrite (bindO_ok _ _ _ _ _ Eref).
    erewrite bindO_ok by (apply storeB_ok; simpl; by rewrite Hob).
    erewrite bindO_ok by (apply loadB_ok; simpl; by rewrite lookup_alter_eq, Hob).
    erewrite bindO_ok by (apply lift_ok; apply int_succ_ok; simpl; lia).
    erewrite bindO_ok by (apply storeB_ok; simpl; by rewrite lookup_alter_eq, Hob).
    erewrite bindO_ok.
    2:{ apply loadB_ok. simpl. by rewrite !lookup_alter_eq, Hob. }
    erewrite lift_ok by apply Hov.
    unfold holding, referenced, with_process, with_bands, with_proxy. simpl.
    rewrite alter_alter_eq. do 3 f_equal. apply alter_ext. intros x Hx. rewrite Hob in Hx.
    by injection Hx as <-.
  - intros r'.
    erewrite UnrefUnderlyingRasterBand_derived;
      [|by simpl; rewrite lookup_alter_eq, Hob|by simpl; rewrite Hcl].
    cbn [ProxyBand.class ProxyBand.set_nRefCountUnderlyingMainRasterBand
         ProxyBand.set_poUnderlyingMainRasterBand ProxyBand.poMainBand
         ProxyBand.poUnderlyingMainRasterBand].
    rewrite Hmain.
    cbn [derefB]. erewrite bindO_ok by reflexivity.
    erewrite bindO_ok.
    2:{ rewrite (UnrefUnderlyingRasterBand_plain _ _ _ _ this); [|
          by simpl; rewrite lookup_alter_ne, Hb|done].
        erewrite bindO_ok by (apply lift_ok; apply Hds).
        erewrite UnrefUnderlyingDataset_on_object; [reflexivity|].
        unfold holding, referenced. simpl.
        by eapply UnrefUnderlyingDataset_run. }
    erewrite bindO_ok.
    2:{ apply loadB_ok. simpl. by rewrite lookup_alter_eq, Hob. }
    erewrite bindO_ok by (apply lift_ok; apply int_pred_ok; simpl; lia).
    erewrite storeB_ok by (simpl; by rewrite lookup_alter_eq, Hob).
    unfold handed_back, holding, referenced, released,
      with_process, with_bands, with_proxy. simpl.
    rewrite alter_alter_eq. do 3 f_equal.
    apply alter_ext. intros x Hx. rewrite Hob in Hx. injection Hx as <-.
    destruct this_ob. unfold compose. simpl.
    unfold ProxyBand.set_nRefCountUnderlyingMainRasterBand,
      ProxyBand.set_poUnderlyingMainRasterBand. simpl.
    f_equal; lia.
Qed.

(** ** The overviews of a band *)

Lemma overview_slot_ok b o this i x :
  bands o !! b = Some this -> 0 <= i ->
  ProxyBand.papoProxyOverviewRasterBand this !! Z.to_nat i = Some x ->
  overview_slot b i o = Ok (x, o).
Proof.
  intros Hb Hi Hx. unfold overview_slot.
  rewrite (bindO_ok _ _ _ _ _ (loadB_ok _ _ _ Hb)).
  destruct (Z.ltb_spec i 0); [lia|]. by rewrite Hx.
Qed.

Lemma GetOverview_cached drv src fuel o b this n ov :
  bands o !! b = Some this ->
  0 <= n < ProxyBand.nSizeProxyOverviewRasterBand this ->
  ProxyBand.papoProxyOverviewRasterBand this !! Z.to_nat n = Some (Some ov) ->
  GetOverview drv src fuel b n o = Ok (Some ov, o).
Proof.
  intros Hb Hn Hov. unfold GetOverview.
  rewrite (bindO_ok _ _ _ _ _ (loadB_ok _ _ _ Hb)).
  destruct (Z.leb_spec 0 n); [|lia].
  destruct (Z.ltb_spec n (ProxyBand.nSizeProxyOverviewRasterBand this)); [|lia].
  cbn [andb].
  by rewrite (bindO_ok _ _ _ _ _
                (overview_slot_ok b o this n (Some ov) Hb (proj1 Hn) Hov)).
Qed.

(** The start of [GetOverview] when the array has no proxy for [n]. *)
Lemma GetOverview_not_cached drv src fuel o b this n :
  bands o !! b = Some this ->
  (n < 0 \/ ProxyBand.nSizeProxyOverviewRasterBand this <= n \/
   ProxyBand.papoProxyOverviewRasterBand this !! Z.to_nat n = Some None) ->
  GetOverview drv src fuel b n o =
  bindO (RefUnderlyingRasterBand drv src fuel b) (fun poUnderlyingRasterBand =>
    match poUnderlyingRasterBand with
    | None => retO None
    | Some u =>
        bindO (lift (RBGetOverview src u n)) (fun poOverviewRasterBand =>
          match poOverviewRasterBand with
          | None =>
              bindO (UnrefUnderlyingRasterBand src fuel b (Some u))
                (fun _ => retO None)
          | Some _ =>
              bindO (loadB b) (fun this =>
              bindO (if ProxyBand.nSizeProxyOverviewRasterBand this <=? n
                     then bindO (lift (int_succ n)) (fun n1 => grow_overviews b n1)
                     else retO tt) (fun _ =>
              bindO (new_band_like src ProxyBand.GDALProxyPoolOverviewRasterBand
                       poOverviewRasterBand (Some b) n) (fun ov =>
              bindO (overview_slot_set b n (Some ov)) (fun _ =>
              bindO (UnrefUnderlyingRasterBand src fuel b (Some u)) (fun _ =>
              overview_slot b n)))))
          end)
    end) o.
Proof.
  intros Hb Hn. unfold GetOverview.
  rewrite (bindO_ok _ _ _ _ _ (loadB_ok _ _ _ Hb)).
  destruct ((0 <=? n) && (n <? ProxyBand.nSizeProxyOverviewRasterBand this))
    eqn:Hin.
  - apply andb_true_iff in Hin as [H0 H1].
    apply Z.leb_le in H0. apply Z.ltb_lt in H1.
    destruct Hn as [?|[?|Hnone]]; [lia|lia|].
    by rewrite (bindO_ok _ _ _ _ _
                  (overview_slot_ok b o this n None Hb H0 Hnone)).
  - by erewrite bindO_ok by reflexivity.
Qed.

(** X26. [GetOverview] returns [NULL] when the underlying band has no
    overview of that index, for a negative index and for an index past the
    array as well: the reference is given back and nothing is cached. *)
Theorem X26_GetOverview_without_overview drv src fuel o b this hDS d1 st1 c e u n :
  bands o !! b = Some this ->
  ProxyBand.class this = ProxyBand.GDALProxyPoolRasterBand ->
  (n < 0 \/ ProxyBand.nSizeProxyOverviewRasterBand this <= n \/
   ProxyBand.papoProxyOverviewRasterBand this !! Z.to_nat n = Some None) ->
  RefUnderlyingDataset drv (ProxyDataset.core (proxy o)) (process o)
    = Ok ((Some hDS, d1), st1) ->
  ProxyPoolDataset.cacheEntry d1 = Some c -> heap st1 !! c = Some e ->
  INT_MIN < CacheEntry.refCount e ->
  (forall st, DSGetRasterBand src hDS (ProxyBand.nBand this) st = Ok (Some u, st)) ->
  (forall st, RBGetDataset src u st = Ok (Some hDS, st)) ->
  (forall st, RBGetOverview src u n st = Ok (None, st)) ->
  GetOverview drv src (S fuel) b n o =
  Ok (None, referenced d1 (released c e st1) o).
Proof.
  intros Hb Hcl Hn Href Hc He Hrc Hband Hds Hov.
  destruct (plain_band_reference drv src fuel o b this hDS d1 st1 c e
              Hb Hcl Href Hc He Hrc) as [_ Hplain].
  destruct (Hplain u Hband Hds) as [Eref Eunref].
  rewrite (GetOverview_not_cached _ _ _ _ _ _ _ Hb Hn).
  rewrite (bindO_ok _ _ _ _ _ Eref).
  erewrite bindO_ok by (apply lift_ok; apply Hov).
  assert (with_process (process (referenced d1 st1 o)) (referenced d1 st1 o)
          = referenced d1 st1 o) as -> by done.
  by rewrite (bindO_ok _ _ _ _ _ Eunref).
Qed.

(** The net effect of the growth step of [GetOverview] on the band. *)
Lemma grow_step_ok o b this n :
  bands o !! b = Some this -> 0 <= n < INT_MAX ->
  ProxyBand.nSizeProxyOverviewRasterBand this
    = Z.of_nat (length (ProxyBand.papoProxyOverviewRasterBand this)) ->
  (if ProxyBand.nSizeProxyOverviewRasterBand this <=? n
   then bindO (lift (int_succ n)) (fun n1 => grow_overviews b n1)
   else retO tt) o =
  Ok (tt, with_bands
            (<[b := ProxyBand.set_nSizeProxyOverviewRasterBand
                      (Z.max (ProxyBand.nSizeProxyOverviewRasterBand this) (n + 1))
                      (ProxyBand.set_papoProxyOverviewRasterBand
                         (ProxyBand.papoProxyOverviewRasterBand this ++
                          replicate
                            (Z.to_nat
                               (n + 1 - ProxyBand.nSizeProxyOverviewRasterBand this))
                            None) this)]> (bands o)) o).
Proof.
  intros Hb Hn Hsz.
  destruct (Z.leb_spec (ProxyBand.nSizeProxyOverviewRasterBand this) n) as [Hle|Hlt].
  - erewrite bindO_ok by (apply lift_ok; apply int_succ_ok; lia).
    unfold grow_overviews.
    erewrite bindO_ok by (apply storeB_ok; simpl; by rewrite Hb).
    erewrite storeB_ok by (simpl; by rewrite lookup_alter_eq, Hb).
    unfold with_process, with_bands. simpl. do 3 f_equal.
    rewrite alter_alter_eq. apply map_eq. intros x.
    destruct (decide (x = b)) as [->|Hne].
    + rewrite lookup_alter_eq, lookup_insert_eq, Hb. simpl. f_equal.
      rewrite take_ge by lia. rewrite Z.max_r by lia. by destruct this.
    + by rewrite lookup_alter_ne, lookup_insert_ne.
  - unfold retO. do 2 f_equal. unfold with_bands. destruct o as [pr px bs].
    simpl in *. f_equal. symmetry. apply map_eq. intros x.
    destruct (decide (x = b)) as [->|Hne].
    + rewrite lookup_insert_eq, Hb. f_equal.
      rewrite Z.max_l by lia.
      replace (Z.to_nat (n + 1 - ProxyBand.nSizeProxyOverviewRasterBand this))
        with 0%nat by lia.
      simpl. rewrite app_nil_r. by destruct this.
    + by rewrite lookup_insert_ne.
Qed.

Lemma new_band_like_ok src o class ovh main n nBand ty xs ys bx by_ :
  (forall st, RBGetBand src ovh st = Ok (nBand, st)) ->
  (forall st, RBGetRasterDataType src ovh st = Ok (ty, st)) ->
  (forall st, RBGetXSize src ovh st = Ok (xs, st)) ->
  (forall st, RBGetYSize src ovh st = Ok (ys, st)) ->
  (forall st, RBGetBlockSize src ovh st = Ok ((bx, by_), st)) ->
  new_band_like src class (Some ovh) main n o =
  Ok (fresh (dom (bands o)),
      with_bands
        (<[fresh (dom (bands o)) :=
             new_band_members class nBand ty xs ys bx by_ main n]> (bands o)) o).
Proof.
  intros H1 H2 H3 H4 H5. unfold new_band_like.
  erewrite bindO_ok by reflexivity.
  erewrite bindO_ok by (apply lift_ok; apply H1).
  erewrite bindO_ok by (apply lift_ok; apply H2).
  erewrite bindO_ok by (apply lift_ok; apply H3).
  erewrite bindO_ok by (apply lift_ok; apply H4).
  erewrite bindO_ok by (apply lift_ok; apply H5).
  unfold newB. simpl. by destruct o.
Qed.

(** X25. [GetOverview] builds the proxy of an overview once.  The first call
    for the overview [n] of a plain band references the dataset, creates a
    new overview band with the dimensions of the underlying overview, grows
    the array to [n + 1] slots with [NULL] in the new ones, and gives the
    reference back.  Every later call for [n] returns the same proxy and
    touches neither the pool nor the driver. *)
Theorem X25_GetOverview_creates_the_proxy_once drv src fuel o b this hDS d1 st1 c e u n ovh
    nBand ty xs ys bx by_ :
  bands o !! b = Some this ->
  ProxyBand.class this = ProxyBand.GDALProxyPoolRasterBand ->
  0 <= n < INT_MAX ->
  ProxyBand.nSizeProxyOverviewRasterBand this
    = Z.of_nat (length (ProxyBand.papoProxyOverviewRasterBand this)) ->
  (ProxyBand.nSizeProxyOverviewRasterBand this <= n \/
   ProxyBand.papoProxyOverviewRasterBand this !! Z.to_nat n = Some None) ->
  RefUnderlyingDataset drv (ProxyDataset.core (proxy o)) (process o)
    = Ok ((Some hDS, d1), st1) ->
  ProxyPoolDataset.cacheEntry d1 = Some c -> heap st1 !! c = Some e ->
  INT_MIN < CacheEntry.refCount e ->
  (forall st, DSGetRasterBand src hDS (ProxyBand.nBand this) st = Ok (Some u, st)) ->
  (forall st, RBGetDataset src u st = Ok (Some hDS, st)) ->
  (forall st, RBGetOverview src u n st = Ok (Some ovh, st)) ->
  (forall st, RBGetBand src ovh st = Ok (nBand, st)) ->
  (forall st, RBGetRasterDataType src ovh st = Ok (ty, st)) ->
  (forall st, RBGetXSize src ovh st = Ok (xs, st)) ->
  (forall st, RBGetYSize src ovh st = Ok (ys, st)) ->
  (forall st, RBGetBlockSize src ovh st = Ok ((bx, by_), st)) ->
  exists ov o',
    GetOverview drv src (S fuel) b n o = Ok (Some ov, o') /\
    bands o !! ov = None /\
    process o' = released c e st1 /\
    bands o' !! ov =
      Some (new_band_members ProxyBand.GDALProxyPoolOverviewRasterBand
              nBand ty xs ys bx by_ (Some b) n) /\
    bands o' !! b =
      Some (ProxyBand.set_nSizeProxyOverviewRasterBand
              (Z.max (ProxyBand.nSizeProxyOverviewRasterBand this) (n + 1))
              (ProxyBand.set_papoProxyOverviewRasterBand
                 (<[Z.to_nat n := Some ov]>
                    (ProxyBand.papoProxyOverviewRasterBand this ++
                     replicate
                       (Z.to_nat
                          (n + 1 - ProxyBand.nSizeProxyOverviewRasterBand this))
                       None)) this)) /\
    (forall x, x <> b -> x <> ov -> bands o' !! x = bands o !! x) /\
    forall drv' src' fuel',
      GetOverview drv' src' fuel' b n o' = Ok (Some ov, o').
Proof.
  intros Hb Hcl Hn Hsz Hslot Href Hc He Hrc Hband Hds Hov Hq1 Hq2 Hq3 Hq4 Hq5.
  destruct (plain_band_reference drv src fuel o b this hDS d1 st1 c e
              Hb Hcl Href Hc He Hrc) as [_ Hplain].
  destruct (Hplain u Hband Hds) as [Eref _].
  destruct (RefUnderlyingDataset_Some _ _ _ _ _ _ Href)
    as (c' & e' & Hc' & He' & Hpo).
  rewrite Hc in Hc'. injection Hc' as <-. rewrite He in He'. injection He' as <-.
  set (arr := ProxyBand.papoProxyOverviewRasterBand this) in *.
  set (nSize := ProxyBand.nSizeProxyOverviewRasterBand this) in *.
  set (arr_g := arr ++ replicate (Z.to_nat (n + 1 - nSize)) None).
  set (this_g := ProxyBand.set_nSizeProxyOverviewRasterBand (Z.max nSize (n + 1))
                   (ProxyBand.set_papoProxyOverviewRasterBand arr_g this)).
  set (o1 := referenced d1 st1 o).
  set (o2 := with_bands (<[b := this_g]> (bands o1)) o1).
  set (ov := fresh (dom (bands o2))).
  set (newband := new_band_members ProxyBand.GDALProxyPoolOverviewRasterBand
                    nBand ty xs ys bx by_ (Some b) n).
  set (o3 := with_bands (<[ov := newband]> (bands o2)) o2).
  set (F := fun this : ProxyBand.t =>
              ProxyBand.set_papoProxyOverviewRasterBand
                (<[Z.to_nat n := Some ov]>
                   (ProxyBand.papoProxyOverviewRasterBand this)) this).
  set (o4 := with_bands (alter F b (bands o3)) o3).
  set (o5 := with_process (released c e st1) o4).
  assert (Hfresh2 : bands o2 !! ov = None).
  { apply not_elem_of_dom. apply is_fresh. }
  assert (Hne : b <> ov).
  { intros Heq. rewrite <- Heq in Hfresh2. subst o2. simpl in Hfresh2.
    by rewrite lookup_insert_eq in Hfresh2. }
  assert (Hfresh : bands o !! ov = None).
  { subst o2 o1. simpl in Hfresh2. by rewrite lookup_insert_ne in Hfresh2. }
  assert (Hlen : (Z.to_nat n < length arr_g)%nat).
  { subst arr_g. rewrite length_app, length_replicate.
    destruct Hslot as [Hle|Hnone].
    - lia.
    - apply lookup_lt_Some in Hnone. lia. }
  assert (Hb3 : bands o3 !! b = Some this_g).
  { subst o3 o2. simpl. by rewrite lookup_insert_ne, lookup_insert_eq. }
  assert (Hb4 : bands o4 !! b = Some (F this_g)).
  { unfold o4. cbn [bands with_bands]. by rewrite lookup_alter_eq, Hb3. }
  exists ov, o5. split.
  { rewrite (GetOverview_not_cached _ _ _ _ _ _ _ Hb); [|tauto].
    rewrite (bindO_ok _ _ _ _ _ Eref).
    erewrite bindO_ok by (apply lift_ok; apply Hov).
    assert (with_process (process (referenced d1 st1 o)) (referenced d1 st1 o)
            = o1) as -> by done.
    assert (Hb1 : bands o1 !! b = Some this) by done.
    rewrite (bindO_ok _ _ _ _ _ (loadB_ok _ _ _ Hb1)).
    rewrite (bindO_ok _ _ _ _ _ (grow_step_ok o1 b this n Hb1 Hn Hsz)).
    fold nSize arr arr_g this_g o2.
    rewrite (bindO_ok _ _ _ _ _
               (new_band_like_ok src o2 _ ovh (Some b) n nBand ty xs ys bx by_
                  Hq1 Hq2 Hq3 Hq4 Hq5)).
    fold ov newband o3.
    assert (Eset : overview_slot_set b n (Some ov) o3 = Ok (tt, o4)).
    { unfold overview_slot_set.
      rewrite (bindO_ok _ _ _ _ _ (loadB_ok _ _ _ Hb3)).
      destruct (Z.ltb_spec n 0); [lia|].
      destruct (Z.leb_spec
                  (Z.of_nat (length (ProxyBand.papoProxyOverviewRasterBand this_g)))
                  n) as [Hbad|_].
      { subst this_g. simpl in Hbad. lia. }
      cbn [orb]. apply storeB_ok. by exists this_g. }
    rewrite (bindO_ok _ _ _ _ _ Eset).
    assert (Eun : UnrefUnderlyingRasterBand src (S fuel) b (Some u) o4
                  = Ok (tt, o5)).
    { rewrite (UnrefUnderlyingRasterBand_plain _ _ _ _ (F this_g)); [|done|done].
      erewrite bindO_ok by (apply lift_ok; apply Hds).
      erewrite UnrefUnderlyingDataset_on_object; [reflexivity|].
      simpl. by eapply UnrefUnderlyingDataset_run. }
    rewrite (bindO_ok _ _ _ _ _ Eun).
    apply (overview_slot_ok b o5 (F this_g)); [done|lia|].
    subst F. simpl. by apply list_lookup_insert_eq. }
  split; [done|]. split; [done|]. split.
  { subst o5 o4 o3. simpl. by rewrite lookup_alter_ne, lookup_insert_eq. }
  split.
  { unfold o5. cbn [bands with_process]. by rewrite Hb4. }
  split.
  { intros x Hxb Hxo. subst o5 o4 o3 o2 o1. simpl.
    by rewrite lookup_alter_ne, !lookup_insert_ne. }
  intros drv' src' fuel'.
  apply (GetOverview_cached drv' src' fuel' o5 b (F this_g)); [done| |].
  - subst F this_g. simpl. lia.
  - subst F. simpl. by apply list_lookup_insert_eq.
Qed.

(** ** The mask band of a band *)

Lemma GetMaskBand_cached drv src fuel o b this m :
  bands o !! b = Some this -> ProxyBand.poProxyMaskBand this = Some m ->
  GetMaskBand drv src fuel b o = Ok (Some m, o).
Proof.
  intros Hb Hm. unfold GetMaskBand.
  rewrite (bindO_ok _ _ _ _ _ (loadB_ok _ _ _ Hb)). by rewrite Hm.
Qed.

(** X27. [AddSrcMaskBandDescription] gives the band the proxy of its mask
    band: a new band with the number 1 and the raster size of the dataset.
    [GetMaskBand] then returns this proxy without a reference to the
    dataset, whatever the driver. *)
Theorem X27_described_mask_band_is_served o b this ty bx by_ :
  bands o !! b = Some this -> ProxyBand.poProxyMaskBand this = None ->
  exists m o',
    AddSrcMaskBandDescription b ty bx by_ o = Ok (tt, o') /\
    bands o !! m = None /\
    process o' = process o /\ proxy o' = proxy o /\
    bands o' !! m =
      Some (new_band_members ProxyBand.GDALProxyPoolMaskBand 1 ty
              (ProxyPoolDataset.nRasterXSize (ProxyDataset.core (proxy o)))
              (ProxyPoolDataset.nRasterYSize (ProxyDataset.core (proxy o)))
              bx by_ (Some b) 0) /\
    bands o' !! b = Some (ProxyBand.set_poProxyMaskBand (Some m) this) /\
    (forall x, x <> b -> x <> m -> bands o' !! x = bands o !! x) /\
    forall drv src fuel, GetMaskBand drv src fuel b o' = Ok (Some m, o').
Proof.
  intros Hb Hm.
  set (m := fresh (dom (bands o))).
  assert (Hfresh : bands o !! m = None).
  { apply not_elem_of_dom. apply is_fresh. }
  assert (Hne : b <> m).
  { intros Heq. rewrite <- Heq in Hfresh. congruence. }
  eexists m, _. split.
  { unfold AddSrcMaskBandDescription.
    rewrite (bindO_ok _ _ _ _ _ (loadB_ok _ _ _ Hb)).
    rewrite Hm, bool_decide_eq_true_2 by done.
    erewrite bindO_ok by (apply lift_ok; reflexivity).
    unfold new_band_described. unfold thisDS at 1.
    erewrite bindO_ok by reflexivity.
    apply storeB_ok. simpl. fold m. rewrite lookup_insert_ne by done.
    by eexists. }
  simpl. split; [done|]. split; [done|]. split; [done|]. split.
  { by rewrite lookup_alter_ne, lookup_insert_eq. }
  split.
  { by rewrite lookup_alter_eq, lookup_insert_ne, Hb. }
  split.
  { intros x Hxb Hxm. by rewrite lookup_alter_ne, lookup_insert_ne. }
  intros drv src fuel.
  eapply GetMaskBand_cached.
  - simpl. by rewrite lookup_alter_eq, lookup_insert_ne, Hb.
  - done.
Qed.

(** ** The values that a band caches *)

Lemma plain_band_unreferenced drv src fuel o b this d1 st1 :
  bands o !! b = Some this ->
  ProxyBand.class this = ProxyBand.GDALProxyPoolRasterBand ->
  RefUnderlyingDataset drv (ProxyDataset.core (proxy o)) (process o)
    = Ok ((None, d1), st1) ->
  RefUnderlyingRasterBand drv src (S fuel) b o = Ok (None, referenced d1 st1 o).
Proof.
  intros Hb Hcl Href. rewrite (RefUnderlyingRasterBand_plain _ _ _ _ _ _ Hb Hcl).
  by rewrite (bindO_ok _ _ _ _ _ (RefUnderlyingDataset_on_object _ _ _ _ _ Href)).
Qed.

(** The release of a plain band after its members were written. *)
Lemma plain_band_release src fuel o b f this hDS d1 st1 c e u :
  bands o !! b = Some this ->
  ProxyBand.class (f this) = ProxyBand.GDALProxyPoolRasterBand ->
  ProxyPoolDataset.cacheEntry d1 = Some c -> heap st1 !! c = Some e ->
  CacheEntry.poDS e = Some hDS -> INT_MIN < CacheEntry.refCount e ->
  (forall st, RBGetDataset src u st = Ok (Some hDS, st)) ->
  UnrefUnderlyingRasterBand src (S fuel) b (Some u)
    (with_bands (alter f b (bands o)) (referenced d1 st1 o)) =
  Ok (tt, with_bands (alter f b (bands o)) (referenced d1 (released c e st1) o)).
Proof.
  intros Hb Hcl Hc He Hpo Hrc Hds.
  rewrite (UnrefUnderlyingRasterBand_plain _ _ _ _ (f this));
    [|by simpl; rewrite lookup_alter_eq, Hb|done].
  erewrite bindO_ok by (apply lift_ok; apply Hds).
  erewrite UnrefUnderlyingDataset_on_object; [reflexivity|].
  unfold referenced. simpl. by eapply UnrefUnderlyingDataset_run.
Qed.

Lemma GetUnitType_plain drv src CPLStrdupO fuel o b this hDS d1 st1 c e u r :
  bands o !! b = Some this ->
  ProxyBand.class this = ProxyBand.GDALProxyPoolRasterBand ->
  RefUnderlyingDataset drv (ProxyDataset.core (proxy o)) (process o)
    = Ok ((Some hDS, d1), st1) ->
  ProxyPoolDataset.cacheEntry d1 = Some c -> heap st1 !! c = Some e ->
  INT_MIN < CacheEntry.refCount e ->
  (forall st, DSGetRasterBand src hDS (ProxyBand.nBand this) st = Ok (Some u, st)) ->
  (forall st, RBGetDataset src u st = Ok (Some hDS, st)) ->
  (forall st, RBGetUnitType src u st = Ok (r, st)) ->
  GetUnitType drv src CPLStrdupO (S fuel) b o =
  Ok (CPLStrdupO <$> r,
      with_bands
        (alter (ProxyBand.set_pszUnitType (CPLStrdupO <$> r)) b (bands o))
        (referenced d1 (released c e st1) o)).
Proof.
  intros Hb Hcl Href Hc He Hrc Hband Hds Hq.
  destruct (plain_band_reference drv src fuel o b this hDS d1 st1 c e
              Hb Hcl Href Hc He Hrc) as [_ Hplain].
  destruct (Hplain u Hband Hds) as [Eref _].
  destruct (RefUnderlyingDataset_Some _ _ _ _ _ _ Href)
    as (c' & e' & Hc' & He' & Hpo).
  rewrite Hc in Hc'. injection Hc' as <-. rewrite He in He'. injection He' as <-.
  unfold GetUnitType. rewrite (bindO_ok _ _ _ _ _ Eref).
  erewrite bindO_ok by (apply storeB_ok; simpl; by rewrite Hb).
  erewrite bindO_ok by (apply lift_ok; apply Hq).
  set (f := ProxyBand.set_pszUnitType (CPLStrdupO <$> r)).
  assert (Estore :
    (match r with
     | Some s => storeB b (ProxyBand.set_pszUnitType (Some (CPLStrdupO s)))
     | None => retO tt
     end)
      (with_process
         (process (with_bands
            (alter (ProxyBand.set_pszUnitType None) b
               (bands (referenced d1 st1 o))) (referenced d1 st1 o)))
         (with_bands
            (alter (ProxyBand.set_pszUnitType None) b
               (bands (referenced d1 st1 o))) (referenced d1 st1 o)))
    = Ok (tt, with_bands (alter f b (bands o)) (referenced d1 st1 o))).
  { destruct r as [s|].
    - erewrite storeB_ok by (simpl; by rewrite lookup_alter_eq, Hb).
      unfold with_bands, with_process. simpl. by rewrite alter_alter_eq.
    - reflexivity. }
  rewrite (bindO_ok _ _ _ _ _ Estore).
  erewrite bindO_ok by (by eapply (plain_band_release src fuel o b f this)).
  erewrite bindO_ok
    by (apply loadB_ok; simpl; by rewrite lookup_alter_eq, Hb).
  reflexivity.
Qed.

Lemma GetCategoryNames_plain drv src CSLDuplicate fuel o b this hDS d1 st1 c e u r :
  bands o !! b = Some this ->
  ProxyBand.class this = ProxyBand.GDALProxyPoolRasterBand ->
  RefUnderlyingDataset drv (ProxyDataset.core (proxy o)) (process o)
    = Ok ((Some hDS, d1), st1) ->
  ProxyPoolDataset.cacheEntry d1 = Some c -> heap st1 !! c = Some e ->
  INT_MIN < CacheEntry.refCount e ->
  (forall st, DSGetRasterBand src hDS (ProxyBand.nBand this) st = Ok (Some u, st)) ->
  (forall st, RBGetDataset src u st = Ok (Some hDS, st)) ->
  (forall st, RBGetCategoryNames src u st = Ok (r, st)) ->
  let v := match r with Some _ => CSLDuplicate r | None => None end in
  GetCategoryNames drv src CSLDuplicate (S fuel) b o =
  Ok (v,
      with_bands (alter (ProxyBand.set_papszCategoryNames v) b (bands o))
        (referenced d1 (released c e st1) o)).
Proof.
  intros Hb Hcl Href Hc He Hrc Hband Hds Hq v.
  destruct (plain_band_reference drv src fuel o b this hDS d1 st1 c e
              Hb Hcl Href Hc He Hrc) as [_ Hplain].
  destruct (Hplain u Hband Hds) as [Eref _].
  destruct (RefUnderlyingDataset_Some _ _ _ _ _ _ Href)
    as (c' & e' & Hc' & He' & Hpo).
  rewrite Hc in Hc'. injection Hc' as <-. rewrite He in He'. injection He' as <-.
  unfold GetCategoryNames. rewrite (bindO_ok _ _ _ _ _ Eref).
  erewrite bindO_ok by (apply storeB_ok; simpl; by rewrite Hb).
  erewrite bindO_ok by (apply lift_ok; apply Hq).
  set (f := ProxyBand.set_papszCategoryNames v).
  assert (Estore :
    (match r with
     | Some _ => storeB b (ProxyBand.set_papszCategoryNames (CSLDuplicate r))
     | None => retO tt
     end)
      (with_process
         (process (with_bands
            (alter (ProxyBand.set_papszCategoryNames None) b
               (bands (referenced d1 st1 o))) (referenced d1 st1 o)))
         (with_bands
            (alter (ProxyBand.set_papszCategoryNames None) b
               (bands (referenced d1 st1 o))) (referenced d1 st1 o)))
    = Ok (tt, with_bands (alter f b (bands o)) (referenced d1 st1 o))).
  { subst f v. destruct r as [s|].
    - erewrite storeB_ok by (simpl; by rewrite lookup_alter_eq, Hb).
      unfold with_bands, with_process. simpl. by rewrite alter_alter_eq.
    - reflexivity. }
  rewrite (bindO_ok _ _ _ _ _ Estore).
  erewrite bindO_ok by (by eapply (plain_band_release src fuel o b f this)).
  erewrite bindO_ok
    by (apply loadB_ok; simpl; by rewrite lookup_alter_eq, Hb).
  reflexivity.
Qed.

Lemma GetColorTable_plain drv src fuel o b this hDS d1 st1 c e u r :
  bands o !! b = Some this ->
  ProxyBand.class this = ProxyBand.GDALProxyPoolRasterBand ->
  RefUnderlyingDataset drv (ProxyDataset.core (proxy o)) (process o)
    = Ok ((Some hDS, d1), st1) ->
  ProxyPoolDataset.cacheEntry d1 = Some c -> heap st1 !! c = Some e ->
  INT_MIN < CacheEntry.refCount e ->
  (forall st, DSGetRasterBand src hDS (ProxyBand.nBand this) st = Ok (Some u, st)) ->
  (forall st, RBGetDataset src u st = Ok (Some hDS, st)) ->
  (forall st, RBGetColorTable src u st = Ok (r, st)) ->
  GetColorTable drv src (S fuel) b o =
  Ok (r,
      with_bands (alter (ProxyBand.set_poColorTable r) b (bands o))
        (referenced d1 (released c e st1) o)).
Proof.
  intros Hb Hcl Href Hc He Hrc Hband Hds Hq.
  destruct (plain_band_reference drv src fuel o b this hDS d1 st1 c e
              Hb Hcl Href Hc He Hrc) as [_ Hplain].
  destruct (Hplain u Hband Hds) as [Eref _].
  destruct (RefUnderlyingDataset_Some _ _ _ _ _ _ Href)
    as (c' & e' & Hc' & He' & Hpo).
  rewrite Hc in Hc'. injection Hc' as <-. rewrite He in He'. injection He' as <-.
  unfold GetColorTable. rewrite (bindO_ok _ _ _ _ _ Eref).
  erewrite bindO_ok by (apply storeB_ok; simpl; by rewrite Hb).
  erewrite bindO_ok by (apply lift_ok; apply Hq).
  set (f := ProxyBand.set_poColorTable r).
  assert (Estore :
    (match r with
     | Some t => storeB b (ProxyBand.set_poColorTable (Some t))
     | None => retO tt
     end)
      (with_process
         (process (with_bands
            (alter (ProxyBand.set_poColorTable None) b
               (bands (referenced d1 st1 o))) (referenced d1 st1 o)))
         (with_bands
            (alter (ProxyBand.set_poColorTable None) b
               (bands (referenced d1 st1 o))) (referenced d1 st1 o)))
    = Ok (tt, with_bands (alter f b (bands o)) (referenced d1 st1 o))).
  { subst f. destruct r as [s|].
    - erewrite storeB_ok by (simpl; by rewrite lookup_alter_eq, Hb).
      unfold with_bands, with_process. simpl. by rewrite alter_alter_eq.
    - reflexivity. }
  rewrite (bindO_ok _ _ _ _ _ Estore).
  erewrite bindO_ok by (by eapply (plain_band_release src fuel o b f this)).
  erewrite bindO_ok
    by (apply loadB_ok; simpl; by rewrite lookup_alter_eq, Hb).
  reflexivity.
Qed.

(** The three getters when the dataset cannot be referenced. *)
Lemma cached_getters_unreferenced drv src CPLStrdupO CSLDuplicate fuel o b this
    d1 st1 :
  bands o !! b = Some this ->
  ProxyBand.class this = ProxyBand.GDALProxyPoolRasterBand ->
  RefUnderlyingDataset drv (ProxyDataset.core (proxy o)) (process o)
    = Ok ((None, d1), st1) ->
  GetUnitType drv src CPLStrdupO (S fuel) b o = Ok (None, referenced d1 st1 o) /\
  GetCategoryNames drv src CSLDuplicate (S fuel) b o
    = Ok (None, referenced d1 st1 o) /\
  GetColorTable drv src (S fuel) b o = Ok (None, referenced d1 st1 o).
Proof.
  intros Hb Hcl Href.
  pose proof (plain_band_unreferenced drv src fuel o b this d1 st1 Hb Hcl Href)
    as E.
  unfold GetUnitType, GetCategoryNames, GetColorTable.
  by rewrite !(bindO_ok _ _ _ _ _ E).
Qed.

(** ** The values that the dataset caches *)

Lemma UnrefUnderlyingDataset_held o d1 st1 c e hDS :
  ProxyDataset.core (proxy o) = d1 -> process o = st1 ->
  ProxyPoolDataset.cacheEntry d1 = Some c ->
  heap st1 !! c = Some e -> CacheEntry.poDS e = Some hDS ->
  INT_MIN < CacheEntry.refCount e ->
  GDALProxyPoolDataset_UnrefUnderlyingDataset (Some hDS) o
  = Ok (tt, with_process (released c e st1) o).
Proof.
  intros <- <- Hc He Hds Hrc.
  erewrite UnrefUnderlyingDataset_on_object; [reflexivity|].
  by apply UnrefUnderlyingDataset_run.
Qed.

Lemma GetGCPProjection_ok drv src CPLStrdupO o hDS d1 st1 c e r :
  RefUnderlyingDataset drv (ProxyDataset.core (proxy o)) (process o)
    = Ok ((Some hDS, d1), st1) ->
  ProxyPoolDataset.cacheEntry d1 = Some c -> heap st1 !! c = Some e ->
  INT_MIN < CacheEntry.refCount e ->
  (forall st, DSGetGCPProjection src hDS st = Ok (r, st)) ->
  GetGCPProjection drv src CPLStrdupO o =
  Ok (CPLStrdupO <$> r,
      with_proxy
        (ProxyDataset.set_pszGCPProjection (CPLStrdupO <$> r)
           (ProxyDataset.set_core d1 (proxy o)))
        (with_process (released c e st1) o)).
Proof.
  intros Href Hc He Hrc Hq.
  destruct (RefUnderlyingDataset_Some _ _ _ _ _ _ Href)
    as (c' & e' & Hc' & He' & Hpo).
  rewrite Hc in Hc'. injection Hc' as <-. rewrite He in He'. injection He' as <-.
  unfold GetGCPProjection.
  rewrite (bindO_ok _ _ _ _ _ (RefUnderlyingDataset_on_object _ _ _ _ _ Href)).
  unfold thisDS_set at 1. erewrite bindO_ok by reflexivity.
  erewrite bindO_ok by (apply lift_ok; apply Hq).
  erewrite (bindO_ok (match r with Some _ => _ | None => _ end)).
  2:{ instantiate (1 :=
        with_proxy
          (ProxyDataset.set_pszGCPProjection (CPLStrdupO <$> r)
             (ProxyDataset.set_core d1 (proxy o))) (with_process st1 o)).
      instantiate (1 := tt). by destruct r. }
  erewrite bindO_ok by (by eapply UnrefUnderlyingDataset_held).
  unfold thisDS. erewrite bindO_ok by reflexivity. reflexivity.
Qed.

Lemma GetGCPs_ok drv src GDALDuplicateGCPs o hDS d1 st1 c e lst n :
  RefUnderlyingDataset drv (ProxyDataset.core (proxy o)) (process o)
    = Ok ((Some hDS, d1), st1) ->
  ProxyPoolDataset.cacheEntry d1 = Some c -> heap st1 !! c = Some e ->
  INT_MIN < CacheEntry.refCount e ->
  (forall st, DSGetGCPs src hDS st = Ok (lst, st)) ->
  (forall st, DSGetGCPCount src hDS st = Ok (n, st)) ->
  let v := if n =? 0
           then (if ProxyDataset.nGCPCount (proxy o) =? 0
                 then ProxyDataset.pasGCPList (proxy o) else None)
           else GDALDuplicateGCPs n lst in
  GetGCPs drv src GDALDuplicateGCPs o =
  Ok (v,
      with_proxy
        (ProxyDataset.set_pasGCPList v
           (ProxyDataset.set_nGCPCount n (ProxyDataset.set_core d1 (proxy o))))
        (with_process (released c e st1) o)).
Proof.
  intros Href Hc He Hrc Hq1 Hq2 v.
  destruct (RefUnderlyingDataset_Some _ _ _ _ _ _ Href)
    as (c' & e' & Hc' & He' & Hpo).
  rewrite Hc in Hc'. injection Hc' as <-. rewrite He in He'. injection He' as <-.
  unfold GetGCPs.
  rewrite (bindO_ok _ _ _ _ _ (RefUnderlyingDataset_on_object _ _ _ _ _ Href)).
  unfold thisDS at 1. erewrite bindO_ok by reflexivity.
  set (px1 := if ProxyDataset.nGCPCount (proxy o) =? 0
              then ProxyDataset.set_core d1 (proxy o)
              else ProxyDataset.set_pasGCPList None
                     (ProxyDataset.set_core d1 (proxy o))).
  erewrite (bindO_ok (if _ =? 0 then _ else _)).
  2:{ instantiate (1 := with_proxy px1 (with_process st1 o)).
      instantiate (1 := tt). subst px1. simpl.
      by destruct (ProxyDataset.nGCPCount (proxy o) =? 0). }
  erewrite bindO_ok by (apply lift_ok; apply Hq1).
  erewrite bindO_ok by (apply lift_ok; apply Hq2).
  unfold thisDS_set at 1. erewrite bindO_ok by reflexivity.
  erewrite (bindO_ok (if _ =? 0 then _ else _)).
  2:{ instantiate (1 :=
        with_proxy
          (ProxyDataset.set_pasGCPList v
             (ProxyDataset.set_nGCPCount n (ProxyDataset.set_core d1 (proxy o))))
          (with_process st1 o)).
      instantiate (1 := tt). subst v px1.
      unfold retO, thisDS_set, with_proxy, with_process. simpl.
      destruct (n =? 0), (ProxyDataset.nGCPCount (proxy o) =? 0); simpl;
        do 3 f_equal; by destruct (proxy o). }
  erewrite bindO_ok by (by eapply UnrefUnderlyingDataset_held).
  unfold thisDS. erewrite bindO_ok by reflexivity. reflexivity.
Qed.

Lemma GCP_getters_unreferenced drv src CPLStrdupO GDALDuplicateGCPs o d1 st1 :
  RefUnderlyingDataset drv (ProxyDataset.core (proxy o)) (process o)
    = Ok ((None, d1), st1) ->
  GetGCPProjection drv src CPLStrdupO o = Ok (None, referenced d1 st1 o) /\
  GetGCPs drv src GDALDuplicateGCPs o = Ok (None, referenced d1 st1 o).
Proof.
  intros Href. unfold GetGCPProjection, GetGCPs.
  by rewrite !(bindO_ok _ _ _ _ _ (RefUnderlyingDataset_on_object _ _ _ _ _ Href)).
Qed.

(** ** The metadata sets *)

Lemma GDALProxyPoolDataset_GetMetadata_ok drv src CPLStrdupO CSLDuplicate ins
    o hDS d1 st1 c e dom r :
  RefUnderlyingDataset drv (ProxyDataset.core (proxy o)) (process o)
    = Ok ((Some hDS, d1), st1) ->
  ProxyPoolDataset.cacheEntry d1 = Some c -> heap st1 !! c = Some e ->
  INT_MIN < CacheEntry.refCount e ->
  (forall st, DSGetMetadata src hDS dom st = Ok (r, st)) ->
  let pElt := {| elt_pszDomain := CPLStrdupO <$> dom;
                 elt_papszMetadata := CSLDuplicate r |} in
  GDALProxyPoolDataset_GetMetadata drv src CPLStrdupO CSLDuplicate ins dom o =
  Ok (CSLDuplicate r,
      with_proxy
        (ProxyDataset.set_metadataSet
           (Some (ins (default [] (ProxyDataset.metadataSet (proxy o))) pElt))
           (ProxyDataset.set_core d1 (proxy o)))
        (with_process (released c e st1) o)).
Proof.
  intros Href Hc He Hrc Hq pElt.
  destruct (RefUnderlyingDataset_Some _ _ _ _ _ _ Href)
    as (c' & e' & Hc' & He' & Hpo).
  rewrite Hc in Hc'. injection Hc' as <-. rewrite He in He'. injection He' as <-.
  unfold GDALProxyPoolDataset_GetMetadata.
  unfold thisDS at 1. erewrite bindO_ok by reflexivity.
  set (s0 := default [] (ProxyDataset.metadataSet (proxy o))).
  set (o0 := with_proxy (ProxyDataset.set_metadataSet (Some s0) (proxy o)) o).
  erewrite (bindO_ok (if bool_decide _ then _ else _)).
  2:{ instantiate (1 := o0). instantiate (1 := tt).
      subst o0 s0. case_bool_decide as Hm.
      - by rewrite Hm.
      - unfold retO. do 2 f_equal. destruct o as [pr [] bs]. simpl in *.
        destruct metadataSet; done. }
  assert (Href0 : RefUnderlyingDataset drv (ProxyDataset.core (proxy o0))
                    (process o0) = Ok ((Some hDS, d1), st1)) by done.
  rewrite (bindO_ok _ _ _ _ _ (RefUnderlyingDataset_on_object _ _ _ _ _ Href0)).
  erewrite bindO_ok by (apply lift_ok; apply Hq).
  unfold thisDS at 1. erewrite bindO_ok by reflexivity.
  cbn [ProxyDataset.metadataSet proxy with_proxy with_process
       ProxyDataset.set_core o0 ProxyDataset.set_metadataSet].
  erewrite bindO_ok by reflexivity.
  unfold thisDS_set at 1. erewrite bindO_ok by reflexivity.
  erewrite bindO_ok by (by eapply UnrefUnderlyingDataset_held).
  reflexivity.
Qed.

Lemma GDALProxyPoolDataset_GetMetadataItem_ok drv src CPLStrdupO ins
    o hDS d1 st1 c e name dom r :
  RefUnderlyingDataset drv (ProxyDataset.core (proxy o)) (process o)
    = Ok ((Some hDS, d1), st1) ->
  ProxyPoolDataset.cacheEntry d1 = Some c -> heap st1 !! c = Some e ->
  INT_MIN < CacheEntry.refCount e ->
  (forall st, DSGetMetadataItem src hDS name dom st = Ok (r, st)) ->
  let pElt := {| item_pszName := CPLStrdupO <$> name;
                 item_pszDomain := CPLStrdupO <$> dom;
                 item_pszMetadataItem := CPLStrdupO <$> r |} in
  GDALProxyPoolDataset_GetMetadataItem drv src CPLStrdupO ins name dom o =
  Ok (CPLStrdupO <$> r,
      with_proxy
        (ProxyDataset.set_metadataItemSet
           (Some (ins (default [] (ProxyDataset.metadataItemSet (proxy o))) pElt))
           (ProxyDataset.set_core d1 (proxy o)))
        (with_process (released c e st1) o)).
Proof.
  intros Href Hc He Hrc Hq pElt.
  destruct (RefUnderlyingDataset_Some _ _ _ _ _ _ Href)
    as (c' & e' & Hc' & He' & Hpo).
  rewrite Hc in Hc'. injection Hc' as <-. rewrite He in He'. injection He' as <-.
  unfold GDALProxyPoolDataset_GetMetadataItem.
  unfold thisDS at 1. erewrite bindO_ok by reflexivity.
  set (s0 := default [] (ProxyDataset.metadataItemSet (proxy o))).
  set (o0 := with_proxy (ProxyDataset.set_metadataItemSet (Some s0) (proxy o)) o).
  erewrite (bindO_ok (if bool_decide _ then _ else _)).
  2:{ instantiate (1 := o0). instantiate (1 := tt).
      subst o0 s0. case_bool_decide as Hm.
      - by rewrite Hm.
      - unfold retO. do 2 f_equal. destruct o as [pr [] bs]. simpl in *.
        destruct metadataItemSet; done. }
  assert (Href0 : RefUnderlyingDataset drv (ProxyDataset.core (proxy o0))
                    (process o0) = Ok ((Some hDS, d1), st1)) by done.
  rewrite (bindO_ok _ _ _ _ _ (RefUnderlyingDataset_on_object _ _ _ _ _ Href0)).
  erewrite bindO_ok by (apply lift_ok; apply Hq).
  unfold thisDS at 1. erewrite bindO_ok by reflexivity.
  cbn [ProxyDataset.metadataItemSet proxy with_proxy with_process
       ProxyDataset.set_core o0 ProxyDataset.set_metadataItemSet].
  erewrite bindO_ok by reflexivity.
  unfold thisDS_set at 1. erewrite bindO_ok by reflexivity.
  erewrite bindO_ok by (by eapply UnrefUnderlyingDataset_held).
  reflexivity.
Qed.

Lemma metadata_unreferenced drv src CPLStrdupO CSLDuplicate ins ins' o d1 st1
    name dom :
  RefUnderlyingDataset drv (ProxyDataset.core (proxy o)) (process o)
    = Ok ((None, d1), st1) ->
  GDALProxyPoolDataset_GetMetadata drv src CPLStrdupO CSLDuplicate ins dom o =
    Ok (None,
        with_proxy
          (ProxyDataset.set_metadataSet
             (Some (default [] (ProxyDataset.metadataSet (proxy o))))
             (ProxyDataset.set_core d1 (proxy o)))
          (with_process st1 o)) /\
  GDALProxyPoolDataset_GetMetadataItem drv src CPLStrdupO ins' name dom o =
    Ok (None,
        with_proxy
          (ProxyDataset.set_metadataItemSet
             (Some (default [] (ProxyDataset.metadataItemSet (proxy o))))
             (ProxyDataset.set_core d1 (proxy o)))
          (with_process st1 o)).
Proof.
  intros Href. split.
  - unfold GDALProxyPoolDataset_GetMetadata.
    unfold thisDS at 1. erewrite bindO_ok by reflexivity.
    set (s0 := default [] (ProxyDataset.metadataSet (proxy o))).
    set (o0 := with_proxy (ProxyDataset.set_metadataSet (Some s0) (proxy o)) o).
    erewrite (bindO_ok (if bool_decide _ then _ else _)).
    2:{ instantiate (1 := o0). instantiate (1 := tt).
        subst o0 s0. case_bool_decide as Hm.
        - by rewrite Hm.
        - unfold retO. do 2 f_equal. destruct o as [pr [] bs]. simpl in *.
          destruct metadataSet; done. }
    assert (Href0 : RefUnderlyingDataset drv (ProxyDataset.core (proxy o0))
                      (process o0) = Ok ((None, d1), st1)) by done.
    by rewrite (bindO_ok _ _ _ _ _ (RefUnderlyingDataset_on_object _ _ _ _ _ Href0)).
  - unfold GDALProxyPoolDataset_GetMetadataItem.
    unfold thisDS at 1. erewrite bindO_ok by reflexivity.
    set (s0 := default [] (ProxyDataset.metadataItemSet (proxy o))).
    set (o0 := with_proxy (ProxyDataset.set_metadataItemSet (Some s0) (proxy o)) o).
    erewrite (bindO_ok (if bool_decide _ then _ else _)).
    2:{ instantiate (1 := o0). instantiate (1 := tt).
        subst o0 s0. case_bool_decide as Hm.
        - by rewrite Hm.
        - unfold retO. do 2 f_equal. destruct o as [pr [] bs]. simpl in *.
          destruct metadataItemSet; done. }
    assert (Href0 : RefUnderlyingDataset drv (ProxyDataset.core (proxy o0))
                      (process o0) = Ok ((None, d1), st1)) by done.
    by rewrite (bindO_ok _ _ _ _ _ (RefUnderlyingDataset_on_object _ _ _ _ _ Href0)).
Qed.

(** ** The overlays and the open options *)

Lemma RefUnderlyingDataset_members drv d st u d1 st1 :
  RefUnderlyingDataset drv d st = Ok ((u, d1), st1) ->
  exists ce, d1 = ProxyPoolDataset.set_cacheEntry ce d.
Proof.
  unfold RefUnderlyingDataset.
  unfold GDALGetResponsiblePIDForCurrentThread at 1.
  erewrite bind_ok by reflexivity.
  unfold GDALSetResponsiblePIDForCurrentThread at 1, modify at 1.
  erewrite bind_ok by reflexivity.
  unfold bind at 1.
  destruct (RefDataset _ _ _ _ _ _) as [[ce st']| |]; try done.
  unfold GDALSetResponsiblePIDForCurrentThread at 1, modify at 1.
  erewrite bind_ok by reflexivity.
  destruct ce as [c|].
  - unfold bind at 1, load at 1. simpl_state.
    destruct (heap st' !! c) as [e|]; [|done].
    destruct (CacheEntry.poDS e).
    + unfold ret. intros [= <- <- <-]. by eexists.
    + unfold bind. destruct (UnrefDataset c _) as [[[] ?]| |]; try done.
      unfold ret. intros [= <- <- <-]. by eexists.
  - unfold ret. intros [= <- <- <-]. by eexists.
Qed.

Lemma SetGeoTransform_ok drv src o gt :
  let d0 := set_bHasSrcGeoTransform false (ProxyDataset.core (proxy o)) in
  (forall d1 st1,
     RefUnderlyingDataset drv d0 (process o) = Ok ((None, d1), st1) ->
     SetGeoTransform drv src gt o = Ok (CE_Failure, referenced d1 st1 o) /\
     ProxyPoolDataset.bHasSrcGeoTransform d1 = false) /\
  (forall hDS d1 st1 c e err,
     RefUnderlyingDataset drv d0 (process o) = Ok ((Some hDS, d1), st1) ->
     ProxyPoolDataset.cacheEntry d1 = Some c -> heap st1 !! c = Some e ->
     INT_MIN < CacheEntry.refCount e ->
     (forall st, DSSetGeoTransform src hDS gt st = Ok (err, st)) ->
     SetGeoTransform drv src gt o =
       Ok (err, referenced d1 (released c e st1) o) /\
     ProxyPoolDataset.bHasSrcGeoTransform d1 = false).
Proof.
  intros d0. split.
  - intros d1 st1 Href.
    destruct (RefUnderlyingDataset_members _ _ _ _ _ _ Href) as [ce ->].
    split; [|done].
    unfold SetGeoTransform. unfold thisDS_set at 1.
    erewrite bindO_ok by reflexivity.
    unfold GDALProxyDataset_SetGeoTransform.
    erewrite bindO_ok by (by apply RefUnderlyingDataset_on_object).
    reflexivity.
  - intros hDS d1 st1 c e err Href Hc He Hrc Hq.
    destruct (RefUnderlyingDataset_Some _ _ _ _ _ _ Href)
      as (c' & e' & Hc' & He' & Hpo).
    rewrite Hc in Hc'. injection Hc' as <-.
    rewrite He in He'. injection He' as <-.
    destruct (RefUnderlyingDataset_members _ _ _ _ _ _ Href) as [ce ->].
    split; [|done].
    unfold SetGeoTransform. unfold thisDS_set at 1.
    erewrite bindO_ok by reflexivity.
    unfold GDALProxyDataset_SetGeoTransform.
    erewrite bindO_ok by (by apply RefUnderlyingDataset_on_object).
    cbn beta iota.
    erewrite bindO_ok by (apply lift_ok; apply Hq).
    erewrite bindO_ok by (by eapply UnrefUnderlyingDataset_held).
    reflexivity.
Qed.

Lemma SetProjection_ok drv src o proj :
  let d0 := set_bHasSrcProjection false (ProxyDataset.core (proxy o)) in
  (forall d1 st1,
     RefUnderlyingDataset drv d0 (process o) = Ok ((None, d1), st1) ->
     SetProjection drv src proj o = Ok (CE_Failure, referenced d1 st1 o) /\
     ProxyPoolDataset.bHasSrcProjection d1 = false) /\
  (forall hDS d1 st1 c e err,
     RefUnderlyingDataset drv d0 (process o) = Ok ((Some hDS, d1), st1) ->
     ProxyPoolDataset.cacheEntry d1 = Some c -> heap st1 !! c = Some e ->
     INT_MIN < CacheEntry.refCount e ->
     (forall st, DSSetProjection src hDS proj st = Ok (err, st)) ->
     SetProjection drv src proj o =
       Ok (err, referenced d1 (released c e st1) o) /\
     ProxyPoolDataset.bHasSrcProjection d1 = false).
Proof.
  intros d0. split.
  - intros d1 st1 Href.
    destruct (RefUnderlyingDataset_members _ _ _ _ _ _ Href) as [ce ->].
    split; [|done].
    unfold SetProjection. unfold thisDS_set at 1.
    erewrite bindO_ok by reflexivity.
    unfold GDALProxyDataset_SetProjection.
    erewrite bindO_ok by (by apply RefUnderlyingDataset_on_object).
    reflexivity.
  - intros hDS d1 st1 c e err Href Hc He Hrc Hq.
    destruct (RefUnderlyingDataset_Some _ _ _ _ _ _ Href)
      as (c' & e' & Hc' & He' & Hpo).
    rewrite Hc in Hc'. injection Hc' as <-.
    rewrite He in He'. injection He' as <-.
    destruct (RefUnderlyingDataset_members _ _ _ _ _ _ Href) as [ce ->].
    split; [|done].
    unfold SetProjection. unfold thisDS_set at 1.
    erewrite bindO_ok by reflexivity.
    unfold GDALProxyDataset_SetProjection.
    erewrite bindO_ok by (by apply RefUnderlyingDataset_on_object).
    cbn beta iota.
    erewrite bindO_ok by (apply lift_ok; apply Hq).
    erewrite bindO_ok by (by eapply UnrefUnderlyingDataset_held).
    reflexivity.
Qed.

Lemma SetOpenOptions_ok CSLDuplicate o opts :
  SetOpenOptions CSLDuplicate opts o =
  Ok (tt,
      with_proxy
        (ProxyDataset.set_core
           (set_papszOpenOptions (CSLDuplicate opts)
              (ProxyDataset.core (proxy o))) (proxy o))
        (with_process
           (if bool_decide
                 (ProxyPoolDataset.papszOpenOptions
                    (ProxyDataset.core (proxy o)) = None)
            then process o
            else with_trace
                   (trace (process o) ++
                    [EvCPLAssert "papszOpenOptions == NULL"]) (process o))
           o)).
Proof.
  unfold SetOpenOptions. unfold thisDS at 1.
  erewrite bindO_ok by reflexivity.
  case_bool_decide as Hn.
  - erewrite bindO_ok by (apply lift_ok; reflexivity). reflexivity.
  - erewrite bindO_ok by (apply lift_ok; reflexivity). reflexivity.
Qed.

(** ** The bands of the dataset *)

Lemma AddSrcBandDescription_ok o ty bx by_ :
  ProxyDataset.nBands (proxy o) < INT_MAX ->
  let b := fresh (dom (bands o)) in
  AddSrcBandDescription ty bx by_ o =
  Ok (tt,
      with_proxy
        (ProxyDataset.set_bands (ProxyDataset.nBands (proxy o) + 1)
           (ProxyDataset.papoBands (proxy o) ++ [b]) (proxy o))
        (with_bands
           (<[b := new_band_members ProxyBand.GDALProxyPoolRasterBand
                     (ProxyDataset.nBands (proxy o) + 1) ty
                     (ProxyPoolDataset.nRasterXSize (ProxyDataset.core (proxy o)))
                     (ProxyPoolDataset.nRasterYSize (ProxyDataset.core (proxy o)))
                     bx by_ None 0]> (bands o)) o)).
Proof.
  intros Hn b. unfold AddSrcBandDescription. unfold thisDS at 1.
  erewrite bindO_ok by reflexivity.
  erewrite bindO_ok by (apply lift_ok; by apply int_succ_ok).
  unfold new_band_described. unfold thisDS at 1.
  erewrite bindO_ok by reflexivity.
  unfold SetBand, thisDS_set. destruct o as [pr px bs]. reflexivity.
Qed.

(** X18. [AddSrcBandDescription] appends a band whose number is the new
    band count and whose raster size is the one of the dataset; the pool is
    not touched, and a dataset whose bands are numbered from 1 in the order
    of the band array stays so. *)
Theorem X18_AddSrcBandDescription_numbers_the_bands o ty bx by_ :
  bands_numbered o -> ProxyDataset.nBands (proxy o) < INT_MAX ->
  exists b o',
    AddSrcBandDescription ty bx by_ o = Ok (tt, o') /\
    bands_numbered o' /\
    process o' = process o /\
    ProxyDataset.nBands (proxy o') = ProxyDataset.nBands (proxy o) + 1 /\
    ProxyDataset.papoBands (proxy o') = ProxyDataset.papoBands (proxy o) ++ [b] /\
    bands o !! b = None /\
    bands o' !! b =
      Some (new_band_members ProxyBand.GDALProxyPoolRasterBand
              (ProxyDataset.nBands (proxy o) + 1) ty
              (ProxyPoolDataset.nRasterXSize (ProxyDataset.core (proxy o)))
              (ProxyPoolDataset.nRasterYSize (ProxyDataset.core (proxy o)))
              bx by_ None 0).
Proof.
  intros [Hlen Hnum] Hn.
  set (b := fresh (dom (bands o))).
  assert (Hfresh : bands o !! b = None).
  { apply not_elem_of_dom. apply is_fresh. }
  eexists b, _. split; [by apply AddSrcBandDescription_ok|].
  simpl. split_and!; try done.
  - split; simpl.
    + rewrite length_app, Hlen. simpl. lia.
    + intros i x Hx. apply lookup_app_Some in Hx as [Hx|[Hi Hx]].
      * destruct (Hnum i x Hx) as (y & Hy & Hny & Hcy).
        exists y. split; [|done]. rewrite lookup_insert_ne; [done|].
        fold b. intros Heq. rewrite Heq in Hfresh. congruence.
      * apply list_lookup_singleton_Some in Hx as [Hi0 <-].
        eexists. rewrite lookup_insert_eq. split; [done|]. simpl.
        split; [|done]. rewrite Hlen. lia.
  - by rewrite lookup_insert_eq.
Qed.

(** ** The callbacks of the metadata sets *)

(** X21. The callbacks of the two metadata sets agree: elements that the
    equality callback takes for equal have the same hash, provided the
    string hash and the string equality of CPL agree in this way. *)
Theorem X21_metadata_callbacks_agree
    (CPLHashSetHashStr : option string -> Z)
    (CPLHashSetEqualStr : option string -> option string -> Z) :
  (forall a b, CPLHashSetEqualStr a b <> 0 ->
               CPLHashSetHashStr a = CPLHashSetHashStr b) ->
  (forall e1 e2,
     equal_func_get_metadata CPLHashSetEqualStr e1 e2 <> 0 ->
     hash_func_get_metadata CPLHashSetHashStr e1
       = hash_func_get_metadata CPLHashSetHashStr e2) /\
  (forall e1 e2,
     equal_func_get_metadata_item CPLHashSetEqualStr e1 e2 <> 0 ->
     hash_func_get_metadata_item CPLHashSetHashStr e1
       = hash_func_get_metadata_item CPLHashSetHashStr e2).
Proof.
  intros H. split.
  - intros e1 e2. apply H.
  - intros e1 e2. unfold equal_func_get_metadata_item, hash_func_get_metadata_item.
    destruct (Z.eqb_spec (CPLHashSetEqualStr (item_pszName e1) (item_pszName e2)) 0)
      as [|Hn]; [done|].
    destruct (Z.eqb_spec
                (CPLHashSetEqualStr (item_pszDomain e1) (item_pszDomain e2)) 0)
      as [|Hd]; [done|].
    intros _. by rewrite (H _ _ Hn), (H _ _ Hd).
Qed.

Lemma RefUnderlyingRasterBand_mask drv src fuel ob o this :
  bands o !! ob = Some this ->
  ProxyBand.class this = ProxyBand.GDALProxyPoolMaskBand ->
  RefUnderlyingRasterBand drv src (S fuel) ob o =
  bindO (derefB (ProxyBand.poMainBand this)) (fun main =>
  bindO (RefUnderlyingRasterBand drv src fuel main) (fun m =>
  bindO (storeB ob (ProxyBand.set_poUnderlyingMainRasterBand m)) (fun _ =>
    match m with
    | None => retO None
    | Some hMain =>
        bindO (loadB ob) (fun this =>
        bindO (lift (int_succ (ProxyBand.nRefCountUnderlyingMainRasterBand this)))
          (fun v =>
        bindO (storeB ob (ProxyBand.set_nRefCountUnderlyingMainRasterBand v))
          (fun _ => lift (RBGetMaskBand src hMain))))
    end))) o.
Proof.
  intros Hb Hcl. cbn [RefUnderlyingRasterBand].
  rewrite (bindO_ok _ _ _ _ _ (loadB_ok _ _ _ Hb)). by rewrite Hcl.
Qed.

(** X24. The reference of a mask band goes through its main band.
    [RefUnderlyingRasterBand] references the main band, keeps it in the
    object with a count, and returns its mask band; the reference to the
    entry is held also when that mask band is [NULL].
    [UnrefUnderlyingRasterBand] gives the main band back, whatever band it
    is passed. *)
Theorem X24_mask_band_reference drv src fuel o ob b this_ob this hDS d1 st1 c e u r :
  bands o !! ob = Some this_ob ->
  ProxyBand.class this_ob = ProxyBand.GDALProxyPoolMaskBand ->
  ProxyBand.poMainBand this_ob = Some b ->
  bands o !! b = Some this ->
  ProxyBand.class this = ProxyBand.GDALProxyPoolRasterBand ->
  RefUnderlyingDataset drv (ProxyDataset.core (proxy o)) (process o)
    = Ok ((Some hDS, d1), st1) ->
  ProxyPoolDataset.cacheEntry d1 = Some c -> heap st1 !! c = Some e ->
  INT_MIN < CacheEntry.refCount e ->
  (forall st, DSGetRasterBand src hDS (ProxyBand.nBand this) st = Ok (Some u, st)) ->
  (forall st, RBGetDataset src u st = Ok (Some hDS, st)) ->
  (forall st, RBGetMaskBand src u st = Ok (r, st)) ->
  INT_MIN <= ProxyBand.nRefCountUnderlyingMainRasterBand this_ob < INT_MAX ->
  RefUnderlyingRasterBand drv src (S (S fuel)) ob o =
    Ok (r, holding ob u (referenced d1 st1 o)) /\
  forall r',
    UnrefUnderlyingRasterBand src (S (S fuel)) ob r'
      (holding ob u (referenced d1 st1 o)) =
    Ok (tt, handed_back ob u (referenced d1 (released c e st1) o)).
Proof.
  intros Hob Hcl Hmain Hb Hclb Href Hc He Hrc Hband Hds Hov Hn.
  destruct (plain_band_reference drv src fuel o b this hDS d1 st1 c e
              Hb Hclb Href Hc He Hrc) as [_ Hplain].
  destruct (Hplain u Hband Hds) as [Eref Eunref].
  destruct (RefUnderlyingDataset_Some _ _ _ _ _ _ Href)
    as (c' & e' & Hc' & He' & Hpo).
  rewrite Hc in Hc'. injection Hc' as <-. rewrite He in He'. injection He' as <-.
  assert (Hne : ob <> b).
  { intros ->. rewrite Hob in Hb. injection Hb as ->. congruence. }
  split.
  - rewrite (RefUnderlyingRasterBand_mask _ _ _ _ _ _ Hob Hcl), Hmain.
    cbn [derefB]. erewrite bindO_ok by reflexivity.
    rewrite (bindO_ok _ _ _ _ _ Eref).
    erewrite bindO_ok by (apply storeB_ok; simpl; by rewrite Hob).
    erewrite bindO_ok by (apply loadB_ok; simpl; by rewrite lookup_alter_eq, Hob).
    erewrite bindO_ok by (apply lift_ok; apply int_succ_ok; simpl; lia).
    erewrite bindO_ok by (apply storeB_ok; simpl; by rewrite lookup_alter_eq, Hob).
    erewrite lift_ok by apply Hov.
    unfold holding, referenced, with_process, with_bands, with_proxy. simpl.
    rewrite alter_alter_eq. do 3 f_equal. apply alter_ext. intros x Hx.
    rewrite Hob in Hx. by injection Hx as <-.
  - intros r'.
    erewrite UnrefUnderlyingRasterBand_derived;
      [|by simpl; rewrite lookup_alter_eq, Hob|by simpl; rewrite Hcl].
    cbn [ProxyBand.class ProxyBand.set_nRefCountUnderlyingMainRasterBand
         ProxyBand.set_poUnderlyingMainRasterBand ProxyBand.poMainBand
         ProxyBand.poUnderlyingMainRasterBand].
    rewrite Hmain.
    cbn [derefB]. erewrite bindO_ok by reflexivity.
    erewrite bindO_ok.
    2:{ rewrite (UnrefUnderlyingRasterBand_plain _ _ _ _ this); [|
          by simpl; rewrite lookup_alter_ne, Hb|done].
        erewrite bindO_ok by (apply lift_ok; apply Hds).
        erewrite UnrefUnderlyingDataset_on_object; [reflexivity|].
        unfold holding, referenced. simpl.
        by eapply UnrefUnderlyingDataset_run. }
    erewrite bindO_ok.
    2:{ apply loadB_ok. simpl. by rewrite lookup_alter_eq, Hob. }
    erewrite bindO_ok by (apply lift_ok; apply int_pred_ok; simpl; lia).
    erewrite storeB_ok by (simpl; by rewrite lookup_alter_eq, Hob).
    unfold handed_back, holding, referenced, released,
      with_process, with_bands, with_proxy. simpl.
    rewrite alter_alter_eq. do 3 f_equal.
    apply alter_ext. intros x Hx. rewrite Hob in Hx. injection Hx as <-.
    destruct this_ob. unfold compose. simpl.
    unfold ProxyBand.set_nRefCountUnderlyingMainRasterBand,
      ProxyBand.set_poUnderlyingMainRasterBand. simpl.
    f_equal; lia.
Qed.

(** X29. [GetMetadata] of a plain band asks the underlying band on every
    call: it references the band, inserts a copy of the answer for the
    domain in the metadata set of the proxy, gives the reference back and
    returns the copy. *)
Theorem X29_band_GetMetadata_asks_every_time drv src CPLStrdupO CSLDuplicate
    ins fuel o b this hDS d1 st1 c e u dom r :
  bands o !! b = Some this ->
  ProxyBand.class this = ProxyBand.GDALProxyPoolRasterBand ->
  RefUnderlyingDataset drv (ProxyDataset.core (proxy o)) (process o)
    = Ok ((Some hDS, d1), st1) ->
  ProxyPoolDataset.cacheEntry d1 = Some c -> heap st1 !! c = Some e ->
  INT_MIN < CacheEntry.refCount e ->
  (forall st, DSGetRasterBand src hDS (ProxyBand.nBand this) st = Ok (Some u, st)) ->
  (forall st, RBGetDataset src u st = Ok (Some hDS, st)) ->
  (forall st, RBGetMetadata src u dom st = Ok (r, st)) ->
  let pElt := {| elt_pszDomain := CPLStrdupO <$> dom;
                 elt_papszMetadata := CSLDuplicate r |} in
  GDALProxyPoolRasterBand_GetMetadata drv src CPLStrdupO CSLDuplicate ins
    (S fuel) b dom o =
  Ok (CSLDuplicate r,
      with_bands
        (alter (ProxyBand.set_metadataSet
                  (Some (ins (default [] (ProxyBand.metadataSet this)) pElt)))
           b (bands o))
        (referenced d1 (released c e st1) o)).
Proof.
  intros Hb Hcl Href Hc He Hrc Hband Hds Hq pElt.
  destruct (RefUnderlyingDataset_Some _ _ _ _ _ _ Href)
    as (c' & e' & Hc' & He' & Hpo).
  rewrite Hc in Hc'. injection Hc' as <-. rewrite He in He'. injection He' as <-.
  unfold GDALProxyPoolRasterBand_GetMetadata.
  rewrite (bindO_ok _ _ _ _ _ (loadB_ok _ _ _ Hb)).
  set (s0 := default [] (ProxyBand.metadataSet this)).
  set (g := ProxyBand.set_metadataSet (Some s0)).
  set (o0 := with_bands (alter g b (bands o)) o).
  erewrite (bindO_ok (if bool_decide _ then _ else _)).
  2:{ instantiate (1 := o0). instantiate (1 := tt).
      subst o0 g s0. case_bool_decide as Hm.
      - rewrite storeB_ok by (by rewrite Hb). by rewrite Hm.
      - unfold retO. do 2 f_equal. destruct o as [pr px bs].
        unfold with_bands. simpl in *. f_equal. apply map_eq. intros x.
        destruct (decide (x = b)) as [->|Hne].
        + rewrite lookup_alter_eq, Hb. simpl. f_equal.
          destruct this. simpl in *. by destruct metadataSet.
        + by rewrite lookup_alter_ne. }
  assert (Hb0 : bands o0 !! b = Some (g this)).
  { unfold o0. cbn [bands with_bands]. by rewrite lookup_alter_eq, Hb. }
  assert (Href0 : RefUnderlyingDataset drv (ProxyDataset.core (proxy o0))
                    (process o0) = Ok ((Some hDS, d1), st1)) by done.
  destruct (plain_band_reference drv src fuel o0 b (g this) hDS d1 st1 c e
              Hb0 Hcl Href0 Hc He Hrc) as [_ Hplain].
  destruct (Hplain u Hband Hds) as [Eref _].
  rewrite (bindO_ok _ _ _ _ _ Eref).
  erewrite bindO_ok by (apply lift_ok; apply Hq).
  erewrite bindO_ok
    by (apply loadB_ok; unfold o0; simpl; by rewrite lookup_alter_eq, Hb).
  cbn [ProxyBand.metadataSet g ProxyBand.set_metadataSet].
  erewrite bindO_ok by reflexivity.
  erewrite bindO_ok
    by (apply storeB_ok; unfold o0; simpl; by rewrite lookup_alter_eq, Hb).
  set (f := ProxyBand.set_metadataSet (Some (ins s0 pElt))).
  assert (Hfinal :
    with_bands
      (alter f b
         (bands (with_process (process (referenced d1 st1 o0))
                   (referenced d1 st1 o0))))
      (with_process (process (referenced d1 st1 o0)) (referenced d1 st1 o0))
    = with_bands (alter f b (bands o)) (referenced d1 st1 o)).
  { unfold o0, referenced, with_bands, with_process, with_proxy. simpl.
    by rewrite alter_alter_eq. }
  fold pElt. fold f. rewrite Hfinal.
  erewrite bindO_ok by (by eapply (plain_band_release src fuel o b f this)).
  reflexivity.
Qed.

(** [RefDataset] returns on every well-formed pool within its bounds, and
    keeps both, unless the eviction takes the first entry. *)
Lemma RefDataset_total w st p l fn acc opts sh :
  singleton st = Some p -> wf_pool p (heap st) l -> pool_bounds p ->
  all_entries (heap st) l (fun e => CacheEntry.refCount e < INT_MAX) ->
  (forall v,
     scan_list (heap st) fn sh (tlsResponsiblePID st) l None = NotFound (Some v) ->
     currentSize p = maxSize p -> Some v <> firstEntry p) ->
  exists r st' p' l',
    RefDataset (recDriver w) fn acc opts sh st = Ok (r, st') /\
    singleton st' = Some p' /\ wf_pool p' (heap st') l' /\ pool_bounds p' /\
    (forall a, r = Some a -> head l' = Some a).
Proof.
  intros Hs Hwf Hpb Hrc Hnh.
  pose proof Hpb as (Hmax & Hcs & Hdr).
  assert (Hb : INT_MIN <= refCountOfDisableRefCount p < INT_MAX).
  { unfold INT_MIN. lia. }
  assert (Etot : exists r st',
            RefDataset (recDriver w) fn acc opts sh st = Ok (r, st')).
  { unfold RefDataset. erewrite RefDataset_scanned by done.
    destruct (scan_list _ _ _ _ _ _) as [c|lz] eqn:Escan.
    - apply scan_list_found in Escan as (l1 & l2 & ec & -> & Hc & Hm).
      assert (Hcin : c ∈ l1 ++ c :: l2).
      { apply elem_of_app. right. apply list_elem_of_here. }
      destruct (RefDataset_hit_ok st p l1 c l2 ec Hs Hwf Hc (Hrc c ec Hcin Hc))
        as (st1 & p1 & E1 & _). eauto.
    - destruct (decide (currentSize p = maxSize p)) as [Hfull|Hroom].
      + destruct lz as [v|].
        * pose proof (Hnh v eq_refl Hfull) as Hv.
          apply scan_list_victim in Escan as [?|Hvin]; [done|].
          destruct (wf_lookup _ _ _ _ Hwf Hvin) as [ev Hev].
          apply list_elem_of_split in Hvin as (l1 & l2 & ->).
          assert (Hne : l1 <> []).
          { intros ->. apply Hv. by rewrite (wf_first _ _ _ Hwf). }
          destruct (RefDataset_miss_recycle w st p l1 v l2 ev fn acc opts)
            as (st1 & p1 & r1 & E1 & _); try done. eauto.
        * rewrite (RefDataset_miss_exhausted _ st p) by done. eauto.
      + destruct (RefDataset_miss_prepend w st p l lz fn acc opts)
          as (cur & st1 & p1 & r1 & E1 & _); try done.
        { unfold INT_MAX. lia. }
        eauto. }
  destruct Etot as (r & st' & E). exists r, st'.
  destruct (RefDataset_keeps_wf w st p l fn acc opts sh r st'
              Hs Hwf Hpb Hrc Hnh E) as (p' & l' & H).
  exists p', l'. by split.
Qed.

(** X17. [SetOpenOptions] stores a copy of the options in the proxy, and the
    open that the next [RefUnderlyingDataset] causes passes this copy to
    [GDALOpenEx].  When the proxy had options already, the assertion
    [papszOpenOptions == NULL] fails and the new options take their
    place. *)
Theorem X17_SetOpenOptions_reaches_the_open w CSLDuplicate o p l opts hDS :
  let d := ProxyDataset.core (proxy o) in
  singleton (process o) = Some p -> wf_pool p (heap (process o)) l ->
  all_entries (heap (process o)) l
    (fun e => ref_matches (ProxyPoolDataset.description d)
                (ProxyPoolDataset.bShared d)
                (ProxyPoolDataset.responsiblePID d) e = false) ->
  currentSize p < maxSize p -> maxSize p <= INT_MAX ->
  INT_MIN <= refCountOfDisableRefCount p < INT_MAX ->
  (forall stc,
     open_result w stc (ProxyPoolDataset.description d)
       (nFlag_of (ProxyPoolDataset.eAccess d)) (CSLDuplicate opts) = Some hDS) ->
  exists o',
    bindO (SetOpenOptions CSLDuplicate opts)
      (fun _ => GDALProxyPoolDataset_RefUnderlyingDataset (recDriver w)) o
      = Ok (Some hDS, o') /\
    ProxyPoolDataset.papszOpenOptions (ProxyDataset.core (proxy o'))
      = CSLDuplicate opts /\
    trace (process o') =
      trace (process o) ++
      (if bool_decide (ProxyPoolDataset.papszOpenOptions d = None) then []
       else [EvCPLAssert "papszOpenOptions == NULL"]) ++
      [EvGDALOpenEx (ProxyPoolDataset.responsiblePID d)
         (ProxyPoolDataset.description d)
         (nFlag_of (ProxyPoolDataset.eAccess d))
         (CSLDuplicate opts) (Some hDS)].
Proof.
  intros d Hs Hwf Hno Hroom Hmax Hdr Hopen.
  rewrite (bindO_ok _ _ _ _ _ (SetOpenOptions_ok CSLDuplicate o opts)).
  fold d.
  set (st0 := if bool_decide (ProxyPoolDataset.papszOpenOptions d = None)
              then process o
              else with_trace (trace (process o) ++
                     [EvCPLAssert "papszOpenOptions == NULL"]) (process o)).
  set (d0 := set_papszOpenOptions (CSLDuplicate opts) d).
  assert (Hh : heap st0 = heap (process o)).
  { unfold st0. by case_bool_decide. }
  assert (Hs0 : singleton st0 = Some p).
  { unfold st0. by case_bool_decide. }
  destruct (RefUnderlyingDataset_miss_with_room w st0 p l d0 hDS)
    as (c & st1 & p1 & e1 & E1 & _ & _ & _ & _ & _ & _ & Htr & _); try done.
  { by rewrite Hh. }
  { by rewrite Hh. }
  eexists. split.
  { apply RefUnderlyingDataset_on_object. exact E1. }
  split; [reflexivity|].
  cbn [process with_process with_proxy]. rewrite Htr.
  unfold st0. case_bool_decide; simpl; [done|]. by rewrite <- app_assoc.
Qed.

(** X2. [RefDataset] returns on every well-formed pool within its bounds,
    whether it finds an entry, opens one, recycles one or gives up, and the
    pool it leaves is again well-formed and within its bounds, with the entry
    it returns first in the list: the list check [CheckLinks] passes on it.
    The hypothesis on the victim excludes the eviction of the first entry,
    which breaks the list. *)
Theorem X2_RefDataset_keeps_the_list_checked w st p l fn acc opts sh :
  singleton st = Some p -> wf_pool p (heap st) l -> pool_bounds p ->
  all_entries (heap st) l (fun e => CacheEntry.refCount e < INT_MAX) ->
  (forall v,
     scan_list (heap st) fn sh (tlsResponsiblePID st) l None = NotFound (Some v) ->
     currentSize p = maxSize p -> Some v <> firstEntry p) ->
  exists r st' p' l',
    RefDataset (recDriver w) fn acc opts sh st = Ok (r, st') /\
    singleton st' = Some p' /\ wf_pool p' (heap st') l' /\ pool_bounds p' /\
    (forall a, r = Some a -> head l' = Some a) /\
    CheckLinks st' = Ok (tt, st').
Proof.
  intros Hs Hwf Hpb Hrc Hnh.
  destruct (RefDataset_total w st p l fn acc opts sh Hs Hwf Hpb Hrc Hnh)
    as (r & st' & p' & l' & E & Hs' & Hwf' & Hpb' & Hhd).
  exists r, st', p', l'. split_and!; try done.
  apply (CheckLinks_ok st' p' l' Hs' Hwf').
  destruct Hpb' as (? & ? & ?). unfold INT_MAX. lia.
Qed.

(** X16. [SetProjection] and [SetGeoTransform] clear the flag of their
    overlay before anything else: the flag is cleared also when the dataset
    cannot be referenced, where they return [CE_Failure], and when the
    write to the underlying dataset fails.  With a dataset they return its
    error code and give the reference back. *)
Theorem X16_setters_clear_the_overlay_flags drv src o :
  (forall proj,
     let d0 := set_bHasSrcProjection false (ProxyDataset.core (proxy o)) in
     (forall d1 st1,
        RefUnderlyingDataset drv d0 (process o) = Ok ((None, d1), st1) ->
        SetProjection drv src proj o = Ok (CE_Failure, referenced d1 st1 o) /\
        ProxyPoolDataset.bHasSrcProjection d1 = false) /\
     (forall hDS d1 st1 c e err,
        RefUnderlyingDataset drv d0 (process o) = Ok ((Some hDS, d1), st1) ->
        ProxyPoolDataset.cacheEntry d1 = Some c -> heap st1 !! c = Some e ->
        INT_MIN < CacheEntry.refCount e ->
        (forall st, DSSetProjection src hDS proj st = Ok (err, st)) ->
        SetProjection drv src proj o =
          Ok (err, referenced d1 (released c e st1) o) /\
        ProxyPoolDataset.bHasSrcProjection d1 = false)) /\
  (forall gt,
     let d0 := set_bHasSrcGeoTransform false (ProxyDataset.core (proxy o)) in
     (forall d1 st1,
        RefUnderlyingDataset drv d0 (process o) = Ok ((None, d1), st1) ->
        SetGeoTransform drv src gt o = Ok (CE_Failure, referenced d1 st1 o) /\
        ProxyPoolDataset.bHasSrcGeoTransform d1 = false) /\
     (forall hDS d1 st1 c e err,
        RefUnderlyingDataset drv d0 (process o) = Ok ((Some hDS, d1), st1) ->
        ProxyPoolDataset.cacheEntry d1 = Some c -> heap st1 !! c = Some e ->
        INT_MIN < CacheEntry.refCount e ->
        (forall st, DSSetGeoTransform src hDS gt st = Ok (err, st)) ->
        SetGeoTransform drv src gt o =
          Ok (err, referenced d1 (released c e st1) o) /\
        ProxyPoolDataset.bHasSrcGeoTransform d1 = false)).
Proof.
  split; intros x.
  - apply SetProjection_ok.
  - apply SetGeoTransform_ok.
Qed.

(** X19. [GetGCPProjection] and [GetGCPs] answer from the dataset on every
    call: they reference it, keep a copy of the answer in the proxy, give
    the reference back and return the copy.  [GetGCPs] copies the list only
    when the dataset has GCPs.  When the dataset cannot be referenced they
    return [NULL] and the copies of an earlier call stay as they are. *)
Theorem X19_GCP_getters_copy_and_release drv src CPLStrdupO GDALDuplicateGCPs o :
  (forall d1 st1,
     RefUnderlyingDataset drv (ProxyDataset.core (proxy o)) (process o)
       = Ok ((None, d1), st1) ->
     GetGCPProjection drv src CPLStrdupO o = Ok (None, referenced d1 st1 o) /\
     GetGCPs drv src GDALDuplicateGCPs o = Ok (None, referenced d1 st1 o)) /\
  (forall hDS d1 st1 c e,
     RefUnderlyingDataset drv (ProxyDataset.core (proxy o)) (process o)
       = Ok ((Some hDS, d1), st1) ->
     ProxyPoolDataset.cacheEntry d1 = Some c -> heap st1 !! c = Some e ->
     INT_MIN < CacheEntry.refCount e ->
     (forall r,
        (forall st, DSGetGCPProjection src hDS st = Ok (r, st)) ->
        GetGCPProjection drv src CPLStrdupO o =
        Ok (CPLStrdupO <$> r,
            with_proxy
              (ProxyDataset.set_pszGCPProjection (CPLStrdupO <$> r)
                 (ProxyDataset.set_core d1 (proxy o)))
              (with_process (released c e st1) o))) /\
     (forall lst n,
        (forall st, DSGetGCPs src hDS st = Ok (lst, st)) ->
        (forall st, DSGetGCPCount src hDS st = Ok (n, st)) ->
        let v := if n =? 0
                 then (if ProxyDataset.nGCPCount (proxy o) =? 0
                       then ProxyDataset.pasGCPList (proxy o) else None)
                 else GDALDuplicateGCPs n lst in
        GetGCPs drv src GDALDuplicateGCPs o =
        Ok (v,
            with_proxy
              (ProxyDataset.set_pasGCPList v
                 (ProxyDataset.set_nGCPCount n
                    (ProxyDataset.set_core d1 (proxy o))))
              (with_process (released c e st1) o)))).
Proof.
  split.
  - intros d1 st1 Href. by apply GCP_getters_unreferenced.
  - intros hDS d1 st1 c e Href Hc He Hrc. split.
    + intros r Hq. by eapply GetGCPProjection_ok.
    + intros lst n Hq Hn. by eapply GetGCPs_ok.
Qed.

(** X20. [GetMetadata] and [GetMetadataItem] of the dataset never answer from
    their sets: every call references the dataset, asks it, inserts a copy
    of the answer in the set of the proxy, gives the reference back and
    returns the copy.  When the dataset cannot be referenced they return
    [NULL]; the set is created all the same. *)
Theorem X20_dataset_metadata_asks_every_time drv src CPLStrdupO CSLDuplicate
    ins ins' o :
  (forall d1 st1 name dom,
     RefUnderlyingDataset drv (ProxyDataset.core (proxy o)) (process o)
       = Ok ((None, d1), st1) ->
     GDALProxyPoolDataset_GetMetadata drv src CPLStrdupO CSLDuplicate ins dom o =
       Ok (None,
           with_proxy
             (ProxyDataset.set_metadataSet
                (Some (default [] (ProxyDataset.metadataSet (proxy o))))
                (ProxyDataset.set_core d1 (proxy o)))
             (with_process st1 o)) /\
     GDALProxyPoolDataset_GetMetadataItem drv src CPLStrdupO ins' name dom o =
       Ok (None,
           with_proxy
             (ProxyDataset.set_metadataItemSet
                (Some (default [] (ProxyDataset.metadataItemSet (proxy o))))
                (ProxyDataset.set_core d1 (proxy o)))
             (with_process st1 o))) /\
  (forall hDS d1 st1 c e,
     RefUnderlyingDataset drv (ProxyDataset.core (proxy o)) (process o)
       = Ok ((Some hDS, d1), st1) ->
     ProxyPoolDataset.cacheEntry d1 = Some c -> heap st1 !! c = Some e ->
     INT_MIN < CacheEntry.refCount e ->
     (forall dom r,
        (forall st, DSGetMetadata src hDS dom st = Ok (r, st)) ->
        let pElt := {| elt_pszDomain := CPLStrdupO <$> dom;
                       elt_papszMetadata := CSLDuplicate r |} in
        GDALProxyPoolDataset_GetMetadata drv src CPLStrdupO CSLDuplicate ins
          dom o =
        Ok (CSLDuplicate r,
            with_proxy
              (ProxyDataset.set_metadataSet
                 (Some (ins (default [] (ProxyDataset.metadataSet (proxy o)))
                          pElt))
                 (ProxyDataset.set_core d1 (proxy o)))
              (with_process (released c e st1) o))) /\
     (forall name dom r,
        (forall st, DSGetMetadataItem src hDS name dom st = Ok (r, st)) ->
        let pElt := {| item_pszName := CPLStrdupO <$> name;
                       item_pszDomain := CPLStrdupO <$> dom;
                       item_pszMetadataItem := CPLStrdupO <$> r |} in
        GDALProxyPoolDataset_GetMetadataItem drv src CPLStrdupO ins' name dom o =
        Ok (CPLStrdupO <$> r,
            with_proxy
              (ProxyDataset.set_metadataItemSet
                 (Some (ins' (default [] (ProxyDataset.metadataItemSet (proxy o)))
                          pElt))
                 (ProxyDataset.set_core d1 (proxy o)))
              (with_process (released c e st1) o)))).
Proof.
  split.
  - intros d1 st1 name dom Href. by apply metadata_unreferenced.
  - intros hDS d1 st1 c e Href Hc He Hrc. split.
    + intros dom r Hq. by eapply GDALProxyPoolDataset_GetMetadata_ok.
    + intros name dom r Hq. by eapply GDALProxyPoolDataset_GetMetadataItem_ok.
Qed.

(** X23. An overview band keeps the reference of its main band.
    [RefUnderlyingRasterBand] references the main band, keeps it in the
    object with a count, and returns its overview; when the main band has
    no such overview the result is [NULL] and the entry stays referenced.
    [UnrefUnderlyingRasterBand] gives the main band back, whatever band it
    is passed.  A getter that returns on [NULL], such as [GetUnitType],
    does not call it: it leaves the entry with the reference. *)
Theorem X23_overview_band_keeps_its_reference drv src CPLStrdupO fuel o ob b
    this_ob this hDS d1 st1 c e u r :
  bands o !! ob = Some this_ob ->
  ProxyBand.class this_ob = ProxyBand.GDALProxyPoolOverviewRasterBand ->
  ProxyBand.poMainBand this_ob = Some b ->
  bands o !! b = Some this ->
  ProxyBand.class this = ProxyBand.GDALProxyPoolRasterBand ->
  RefUnderlyingDataset drv (ProxyDataset.core (proxy o)) (process o)
    = Ok ((Some hDS, d1), st1) ->
  ProxyPoolDataset.cacheEntry d1 = Some c -> heap st1 !! c = Some e ->
  INT_MIN < CacheEntry.refCount e ->
  (forall st, DSGetRasterBand src hDS (ProxyBand.nBand this) st = Ok (Some u, st)) ->
  (forall st, RBGetDataset src u st = Ok (Some hDS, st)) ->
  (forall st, RBGetOverview src u (ProxyBand.nOverviewBand this_ob) st
              = Ok (r, st)) ->
  INT_MIN <= ProxyBand.nRefCountUnderlyingMainRasterBand this_ob < INT_MAX ->
  RefUnderlyingRasterBand drv src (S (S fuel)) ob o =
    Ok (r, holding ob u (referenced d1 st1 o)) /\
  (forall r',
     UnrefUnderlyingRasterBand src (S (S fuel)) ob r'
       (holding ob u (referenced d1 st1 o)) =
     Ok (tt, handed_back ob u (referenced d1 (released c e st1) o))) /\
  (r = None ->
   GetUnitType drv src CPLStrdupO (S (S fuel)) ob o =
     Ok (None, holding ob u (referenced d1 st1 o)) /\
   refCount_at (process (holding ob u (referenced d1 st1 o))) c =
     Some (CacheEntry.refCount e)).
Proof.
  intros Hob Hcl Hmain Hb Hclb Href Hc He Hrc Hband Hds Hov Hn.
  destruct (overview_band_reference drv src fuel o ob b this_ob this hDS d1
              st1 c e u r Hob Hcl Hmain Hb Hclb Href Hc He Hrc Hband Hds Hov Hn)
    as [Eref Eunref].
  split_and!; [done|done|]. intros ->. split.
  - unfold GetUnitType. by rewrite (bindO_ok _ _ _ _ _ Eref).
  - unfold refCount_at, holding, referenced. simpl. by rewrite He.
Qed.

(** X28. [GetUnitType], [GetCategoryNames] and [GetColorTable] of a plain band
    answer from the underlying band on every call: they reference it, drop
    the copy of the call before, keep a copy of the new answer in the proxy,
    give the reference back and return the copy.  When the dataset cannot
    be referenced they return [NULL] and the earlier copy stays. *)
Theorem X28_band_getters_copy_and_release drv src CPLStrdupO CSLDuplicate fuel
    o b this :
  bands o !! b = Some this ->
  ProxyBand.class this = ProxyBand.GDALProxyPoolRasterBand ->
  (forall d1 st1,
     RefUnderlyingDataset drv (ProxyDataset.core (proxy o)) (process o)
       = Ok ((None, d1), st1) ->
     GetUnitType drv src CPLStrdupO (S fuel) b o
       = Ok (None, referenced d1 st1 o) /\
     GetCategoryNames drv src CSLDuplicate (S fuel) b o
       = Ok (None, referenced d1 st1 o) /\
     GetColorTable drv src (S fuel) b o = Ok (None, referenced d1 st1 o)) /\
  (forall hDS d1 st1 c e u,
     RefUnderlyingDataset drv (ProxyDataset.core (proxy o)) (process o)
       = Ok ((Some hDS, d1), st1) ->
     ProxyPoolDataset.cacheEntry d1 = Some c -> heap st1 !! c = Some e ->
     INT_MIN < CacheEntry.refCount e ->
     (forall st, DSGetRasterBand src hDS (ProxyBand.nBand this) st
                 = Ok (Some u, st)) ->
     (forall st, RBGetDataset src u st = Ok (Some hDS, st)) ->
     (forall r,
        (forall st, RBGetUnitType src u st = Ok (r, st)) ->
        GetUnitType drv src CPLStrdupO (S fuel) b o =
        Ok (CPLStrdupO <$> r,
            with_bands
              (alter (ProxyBand.set_pszUnitType (CPLStrdupO <$> r)) b (bands o))
              (referenced d1 (released c e st1) o))) /\
     (forall r,
        (forall st, RBGetCategoryNames src u st = Ok (r, st)) ->
        let v := match r with Some _ => CSLDuplicate r | None => None end in
        GetCategoryNames drv src CSLDuplicate (S fuel) b o =
        Ok (v,
            with_bands (alter (ProxyBand.set_papszCategoryNames v) b (bands o))
              (referenced d1 (released c e st1) o))) /\
     (forall r,
        (forall st, RBGetColorTable src u st = Ok (r, st)) ->
        GetColorTable drv src (S fuel) b o =
        Ok (r,
            with_bands (alter (ProxyBand.set_poColorTable r) b (bands o))
              (referenced d1 (released c e st1) o)))).
Proof.
  intros Hb Hcl. split.
  - intros d1 st1 Href. by eapply cached_getters_unreferenced.
  - intros hDS d1 st1 c e u Href Hc He Hrc Hband Hds. split_and!.
    + intros r Hq. by eapply GetUnitType_plain.
    + intros r Hq. by eapply GetCategoryNames_plain.
    + intros r Hq. by eapply GetColorTable_plain.
Qed.

(** ** The theorems at work *)

(** A closed hypothesis, by evaluation. *)
Ltac by_computation :=
  vm_compute; first [reflexivity | intuition congruence].

Lemma fresh_state_wf : wf_pool fresh_pool (heap fresh_state) [].
Proof. split; [apply NoDup_nil_2|reflexivity..|exact I]. Defined.

Lemma three_state_wf : wf_pool three_pool (heap three_state) [2%nat; 1%nat; 0%nat].
Proof.
  split; [|reflexivity..|].
  - apply (bool_decide_unpack _). vm_compute. exact I.
  - unfold dlseg. simpl. vm_compute. tauto.
Defined.

Lemma X1_witness : CheckLinks (full_state 0 0) = Ok (tt, full_state 0 0).
Proof.
  apply (X1_CheckLinks_accepts_well_formed_pool (full_state 0 0) full_pool
           [1%nat; 0%nat]).
  - reflexivity.
  - apply full_state_wf.
  - vm_compute. discriminate.
Defined.

Lemma X2_witness :
  exists r st' p' l',
    RefDataset (recDriver demo_world) "C" GA_ReadOnly None 1 (full_state 0 0)
      = Ok (r, st') /\
    singleton st' = Some p' /\ wf_pool p' (heap st') l' /\ pool_bounds p' /\
    (forall a, r = Some a -> head l' = Some a) /\
    CheckLinks st' = Ok (tt, st').
Proof.
  apply (X2_RefDataset_keeps_the_list_checked demo_world (full_state 0 0)
           full_pool [1%nat; 0%nat] "C" GA_ReadOnly None 1).
  - reflexivity.
  - apply full_state_wf.
  - apply full_pool_bounds.
  - apply all_entries_Forall. repeat constructor.
  - intros v Hv _. vm_compute in Hv. injection Hv as <-. discriminate.
Defined.

Lemma X3_witness :
  exists st' p',
    RefDataset (recDriver closed_world) "A" GA_Update (Some ["X=Y"%string]) 0
      (full_state 0 0) = Ok (Some 0%nat, st') /\
    singleton st' = Some p' /\ same_counters full_pool p' /\
    wf_pool p' (heap st') [0%nat; 1%nat] /\
    same_outside (full_state 0 0) st' /\
    content_at (heap st') 0%nat = Some (7, "A"%string, Some 10%nat, 1) /\
    (forall a, a <> 0%nat ->
       content_at (heap st') a = content_at (heap (full_state 0 0)) a).
Proof.
  apply (X3_RefDataset_hit_serves_from_the_list (recDriver closed_world)
           (full_state 0 0) full_pool [1%nat] 0%nat []
           (CacheEntry.Build 7 "A" (Some 10%nat) 0 (Some 1%nat) None)
           "A" GA_Update (Some ["X=Y"%string]) 0).
  - reflexivity.
  - apply full_state_wf.
  - apply all_entries_Forall. repeat constructor.
  - reflexivity.
  - reflexivity.
  - vm_compute. reflexivity.
Defined.

Lemma X4_witness :
  exists cur st' p' r,
    RefDataset (recDriver demo_world) "A" GA_Update None 1 fresh_state
      = Ok (Some cur, st') /\
    heap fresh_state !! cur = None /\
    singleton st' = Some p' /\
    wf_pool p' (heap st') [cur] /\
    currentSize p' = 0 + 1 /\
    refCount p' = 1 /\ maxSize p' = 100 /\
    refCountOfDisableRefCount p' = 0 /\
    tlsResponsiblePID st' = 7 /\
    trace st' = [] ++
      [EvGDALOpenEx 7 "A"
         [GDAL_OF_UPDATE; GDAL_OF_RASTER; GDAL_OF_VERBOSE_ERROR] None r] /\
    content_at (heap st') cur = Some (7, "A"%string, r, 1) /\
    (forall a, a <> cur ->
       content_at (heap st') a = content_at (heap fresh_state) a).
Proof.
  apply (X4_RefDataset_miss_with_room_opens_a_new_entry demo_world fresh_state
           fresh_pool [] "A" GA_Update None 1).
  - reflexivity.
  - apply fresh_state_wf.
  - apply all_entries_Forall. constructor.
  - vm_compute. reflexivity.
  - vm_compute. discriminate.
  - vm_compute. intuition congruence.
Defined.

Lemma X5_witness :
  exists st' p' r,
    RefDataset (recDriver demo_world) "D" GA_ReadOnly None 1 three_state
      = Ok (Some 1%nat, st') /\
    singleton st' = Some p' /\ same_counters three_pool p' /\
    wf_pool p' (heap st') [1%nat; 2%nat; 0%nat] /\
    tlsResponsiblePID st' = 9 /\
    trace st' = [] ++ [EvGDALClose 7 11%nat] ++
                [EvGDALOpenEx 9 "D" (nFlag_of GA_ReadOnly) None r] /\
    content_at (heap st') 1%nat = Some (9, "D"%string, r, 1) /\
    (forall a, a <> 1%nat ->
       content_at (heap st') a = content_at (heap three_state) a).
Proof.
  apply (X5_RefDataset_evicts_the_last_unreferenced_entry demo_world
           three_state three_pool [2%nat] 1%nat [0%nat]
           (CacheEntry.Build 7 "B" (Some 11%nat) 0 (Some 2%nat) (Some 0%nat))
           "D" GA_ReadOnly None 1).
  - reflexivity.
  - apply three_state_wf.
  - discriminate.
  - reflexivity.
  - vm_compute. intuition congruence.
  - apply all_entries_Forall. repeat constructor.
  - reflexivity.
  - reflexivity.
  - apply all_entries_Forall. constructor; [vm_compute; discriminate|constructor].
Defined.

Lemma X6_witness :
  exists c st',
    RefDataset (recDriver demo_world) "C" GA_ReadOnly None 1 (full_state 0 0)
      = Ok (Some c, st') /\
    exists p' rid hDS rc,
      singleton st' = Some p' /\ firstEntry p' = Some c /\
      content_at (heap st') c = Some (rid, "C"%string, hDS, rc) /\
      (1 = 0 -> rc = 1) /\
      (1 <> 0 -> rid = 9).
Proof.
  eexists _, _. split; [vm_compute; reflexivity|].
  apply (X6_RefDataset_result_caches_the_request demo_world (full_state 0 0)
           full_pool [1%nat; 0%nat] "C" GA_ReadOnly None 1).
  - reflexivity.
  - apply full_state_wf.
  - apply full_pool_bounds.
  - apply all_entries_Forall. repeat constructor.
  - vm_compute. reflexivity.
Defined.

Lemma X7_witness :
  exists st1 st2 p',
    RefDataset (recDriver closed_world) "A" GA_ReadOnly None 0 (full_state 0 0)
      = Ok (Some 0%nat, st1) /\
    UnrefDataset 0%nat st1 = Ok (tt, st2) /\
    singleton st2 = Some p' /\ same_counters full_pool p' /\
    wf_pool p' (heap st2) [0%nat; 1%nat] /\
    same_outside (full_state 0 0) st2 /\
    (forall a, content_at (heap st2) a = content_at (heap (full_state 0 0)) a).
Proof.
  apply (X7_RefDataset_then_UnrefDataset_restores_the_counts
           (recDriver closed_world) (full_state 0 0) full_pool [1%nat] 0%nat []
           (CacheEntry.Build 7 "A" (Some 10%nat) 0 (Some 1%nat) None)
           "A" GA_ReadOnly None 0).
  - reflexivity.
  - apply full_state_wf.
  - apply all_entries_Forall. repeat constructor.
  - reflexivity.
  - reflexivity.
  - vm_compute. intuition congruence.
Defined.

Lemma X8_witness :
  (forall k, (k < 2)%nat ->
     (repeatM 2 Ref ;; repeatM k (Unref (recDriver demo_world)))
       (initial_state ∅ 7) =
     Ok (tt, with_singleton
               (Some (set_refCount (Z.of_nat 2 - Z.of_nat k)
                        (newGDALDatasetPool
                           (configured_maxSize (initial_state ∅ 7)))))
               (initial_state ∅ 7))) /\
  (repeatM 2 Ref ;; repeatM 2 (Unref (recDriver demo_world)))
    (initial_state ∅ 7) = Ok (tt, initial_state ∅ 7).
Proof.
  apply (X8_Ref_Unref_balance (recDriver demo_world) (initial_state ∅ 7) 2).
  - reflexivity.
  - vm_compute. intuition congruence.
  - lia.
  - vm_compute. discriminate.
Defined.

Lemma X9_witness :
  exists st',
    Unref (recDriver demo_world) (full_state 0 0) = Ok (tt, st') /\
    singleton st' = None /\
    tlsResponsiblePID st' = 9 /\
    trace st' = [] ++ destroy_trace (heap (full_state 0 0)) [1%nat; 0%nat] /\
    (forall a, a ∈ [1%nat; 0%nat] -> heap st' !! a = None) /\
    (forall a, a ∉ [1%nat; 0%nat] -> heap st' !! a = heap (full_state 0 0) !! a).
Proof.
  apply (X9_last_Unref_closes_every_dataset demo_world (full_state 0 0)
           full_pool [1%nat; 0%nat]).
  - reflexivity.
  - apply full_state_wf.
  - reflexivity.
  - reflexivity.
Defined.

Lemma X10_witness :
  exists st',
    (GDALDatasetPoolPreventDestroy ;;
     GDALDatasetPoolForceDestroy (recDriver demo_world)) (full_state 1 0)
      = Ok (tt, st') /\
    singleton st' = None /\
    tlsResponsiblePID st' = 9 /\
    trace st' = [] ++ destroy_trace (heap (full_state 1 0)) [1%nat; 0%nat] /\
    (forall a, a ∈ [1%nat; 0%nat] -> heap st' !! a = None) /\
    (forall a, a ∉ [1%nat; 0%nat] -> heap st' !! a = heap (full_state 1 0) !! a).
Proof.
  apply (X10_PreventDestroy_then_ForceDestroy_destroys_the_pool demo_world
           (full_state 1 0) full_pool [1%nat; 0%nat]).
  - reflexivity.
  - apply full_state_wf.
  - reflexivity.
Defined.

Lemma X11_witness :
  exists st',
    ForceDestroy (recDriver demo_world) (full_state 0 0) = Ok (tt, st') /\
    singleton st' = None /\
    trace st' = [] ++
      EvCPLAssert "singleton->refCountOfDisableRefCount == 0" ::
      destroy_trace (heap (full_state 0 0)) [1%nat; 0%nat] /\
    (forall a, a ∈ [1%nat; 0%nat] -> heap st' !! a = None).
Proof.
  apply (X11_ForceDestroy_alone_trips_its_assertion demo_world (full_state 0 0)
           full_pool [1%nat; 0%nat]).
  - reflexivity.
  - apply full_state_wf.
  - reflexivity.
Defined.

Lemma X12_witness :
  exists st',
    Unref (recDriver demo_world) (full_state 1 0) = Ok (tt, st') /\
    EvCPLAssert "cur->refCount == 0" ∈ trace st' /\
    heap st' !! 0%nat = None /\
    UnrefDataset 0%nat st' = Crash InvalidPointer.
Proof.
  apply (X12_destroyed_pool_leaves_dangling_entries demo_world (full_state 1 0)
           full_pool [1%nat; 0%nat] 0%nat
           (CacheEntry.Build 7 "A" (Some 10%nat) 1 (Some 1%nat) None)).
  - reflexivity.
  - apply full_state_wf.
  - reflexivity.
  - reflexivity.
  - apply (bool_decide_unpack _). vm_compute. exact I.
  - reflexivity.
  - discriminate.
Defined.

Lemma X13_witness :
  exists st',
    CloseDataset (recDriver demo_world) "A" GA_Update (full_state 0 0)
      = Ok (tt, st') /\
    heap st' !! 1%nat =
      Some (CacheEntry.Build 7 "B" (Some 11%nat) 0 None (Some 0%nat)) /\
    content_at (heap st') 0%nat = Some (7, ""%string, None, 0) /\
    trace st' = [EvGDALClose 7 10%nat].
Proof.
  destruct (X13_CloseDataset_spares_the_other_entries demo_world
              (full_state 0 0) full_pool [1%nat; 0%nat] "A" GA_Update)
    as (st' & E & _ & _ & _ & Hspare & _).
  - reflexivity.
  - apply full_state_wf.
  - vm_compute. intuition congruence.
  - exists st'. split; [exact E|].
    split.
    { apply Hspare; [reflexivity|]. left. discriminate. }
    vm_compute in E. injection E as <-. split; reflexivity.
Defined.

Lemma X14_witness :
  exists c st1 st2,
    let d1 := ProxyPoolDataset.set_cacheEntry (Some c) demo_proxy in
    RefUnderlyingDataset (recDriver steady_world) demo_proxy
      (with_tlsResponsiblePID 3 fresh_state) = Ok ((Some 42%nat, d1), st1) /\
    trace st1 = [EvGDALOpenEx 7 "C" (nFlag_of GA_ReadOnly) None (Some 42%nat)] /\
    tlsResponsiblePID st1 = 3 /\
    UnrefUnderlyingDataset d1 (Some 42%nat) st1 = Ok (tt, st2) /\
    refCount_at st2 c = Some 0 /\
    exists st3,
      RefUnderlyingDataset (recDriver closed_world) d1
        (with_tlsResponsiblePID 5 st2) = Ok ((Some 42%nat, d1), st3) /\
      trace st3 = trace st1 /\ tlsResponsiblePID st3 = 5.
Proof.
  destruct (X14_RefUnderlyingDataset_opens_once steady_world
              (recDriver closed_world) (with_tlsResponsiblePID 3 fresh_state)
              fresh_pool [] demo_proxy 42%nat)
    as (c & st1 & st2 & E1 & Htr & Htls & _ & E2 & Hrc & Hnext).
  - reflexivity.
  - apply fresh_state_wf.
  - apply all_entries_Forall. constructor.
  - vm_compute. reflexivity.
  - vm_compute. discriminate.
  - vm_compute. intuition congruence.
  - reflexivity.
  - destruct (Hnext 5) as (st3 & E3 & Htr3 & Htls3 & _).
    exists c, st1, st2. simpl. split_and!; try done. by exists st3.
Defined.

Lemma X15_witness :
  exists d c st1 st2 st3 st4,
    let d1 := ProxyPoolDataset.set_cacheEntry (Some c) d in
    GDALProxyPoolDataset_new demo_CPLStrdup "C" 10 10 GA_ReadOnly 1 None None
      (initial_state ∅ 7) = Ok (d, st1) /\
    RefUnderlyingDataset (recDriver steady_world) d
      (with_tlsResponsiblePID 3 st1) = Ok ((Some 42%nat, d1), st2) /\
    UnrefUnderlyingDataset d1 (Some 42%nat) st2 = Ok (tt, st3) /\
    GDALProxyPoolDataset_delete (recDriver steady_world) d1 st3 = Ok (tt, st4) /\
    singleton st4 = None /\ heap st4 !! c = None /\
    tlsResponsiblePID st4 = 3 /\
    trace st4 = [] ++
      [EvGDALOpenEx 7 "C" (nFlag_of GA_ReadOnly) None (Some 42%nat);
       EvGDALClose 7 42%nat].
Proof.
  apply (X15_proxy_life_cycle demo_CPLStrdup steady_world (initial_state ∅ 7)
           "C" 10 10 GA_ReadOnly 1 None None 42%nat 3).
  - reflexivity.
  - vm_compute. intuition congruence.
  - discriminate.
  - reflexivity.
Defined.

Lemma X16_witness :
  exists d1 st1 c e,
    SetProjection (recDriver steady_world) demo_source (Some "P"%string)
      empty_objects =
      Ok (CE_None, referenced d1 (released c e st1) empty_objects) /\
    SetGeoTransform (recDriver steady_world) demo_source [1; 2; 3; 4; 5; 6]
      empty_objects =
      Ok (CE_Failure, referenced d1 (released c e st1) empty_objects) /\
    ProxyPoolDataset.bHasSrcGeoTransform d1 = false.
Proof.
  destruct (X16_setters_clear_the_overlay_flags (recDriver steady_world)
              demo_source empty_objects) as [Hp Hg].
  destruct (Hp (Some "P"%string)) as [_ Hp2].
  destruct (Hg [1; 2; 3; 4; 5; 6]) as [_ Hg2].
  eexists _, _, _, _. split.
  - refine (proj1 (Hp2 42%nat _ _ _ _ CE_None _ _ _ _ _));
      [by_computation..].
  - refine (Hg2 42%nat _ _ _ _ CE_Failure _ _ _ _ _);
      [by_computation..].
Defined.

Lemma X17_witness :
  exists o',
    bindO (SetOpenOptions demo_CSLDuplicate (Some ["NUM_THREADS=2"%string]))
      (fun _ => GDALProxyPoolDataset_RefUnderlyingDataset
                  (recDriver steady_world)) empty_objects
      = Ok (Some 42%nat, o') /\
    ProxyPoolDataset.papszOpenOptions (ProxyDataset.core (proxy o'))
      = Some ["NUM_THREADS=2"%string] /\
    trace (process o') =
      [EvGDALOpenEx 7 "C" (nFlag_of GA_ReadOnly)
         (Some ["NUM_THREADS=2"%string]) (Some 42%nat)].
Proof.
  apply (X17_SetOpenOptions_reaches_the_open steady_world demo_CSLDuplicate
           empty_objects fresh_pool [] (Some ["NUM_THREADS=2"%string]) 42%nat).
  - reflexivity.
  - apply fresh_state_wf.
  - apply all_entries_Forall. constructor.
  - vm_compute. reflexivity.
  - vm_compute. discriminate.
  - vm_compute. intuition congruence.
  - reflexivity.
Defined.

Lemma demo_objects_numbered : bands_numbered demo_objects.
Proof.
  split; [reflexivity|]. intros [|i] b Hb; [|destruct i; discriminate].
  injection Hb as <-. exists demo_band. split_and!; reflexivity.
Defined.

Lemma X18_witness :
  exists b o',
    AddSrcBandDescription 1 5 1 demo_objects = Ok (tt, o') /\
    bands_numbered o' /\
    process o' = fresh_state /\
    ProxyDataset.nBands (proxy o') = 1 + 1 /\
    ProxyDataset.papoBands (proxy o') = [0%nat] ++ [b] /\
    bands demo_objects !! b = None /\
    bands o' !! b =
      Some (new_band_members ProxyBand.GDALProxyPoolRasterBand (1 + 1) 1
              10 10 5 1 None 0).
Proof.
  apply (X18_AddSrcBandDescription_numbers_the_bands demo_objects 1 5 1).
  - apply demo_objects_numbered.
  - vm_compute. reflexivity.
Defined.

Lemma X19_witness :
  exists d1 st1 c e,
    GetGCPProjection (recDriver steady_world) demo_source demo_CPLStrdupO
      demo_objects =
      Ok (Some "WGS84"%string,
          with_proxy
            (ProxyDataset.set_pszGCPProjection (Some "WGS84"%string)
               (ProxyDataset.set_core d1 (proxy demo_objects)))
            (with_process (released c e st1) demo_objects)) /\
    GetGCPs (recDriver steady_world) demo_source demo_GDALDuplicateGCPs
      demo_objects =
      Ok (Some [1%nat; 2%nat],
          with_proxy
            (ProxyDataset.set_pasGCPList (Some [1%nat; 2%nat])
               (ProxyDataset.set_nGCPCount 2
                  (ProxyDataset.set_core d1 (proxy demo_objects))))
            (with_process (released c e st1) demo_objects)).
Proof.
  destruct (X19_GCP_getters_copy_and_release (recDriver steady_world)
              demo_source demo_CPLStrdupO demo_GDALDuplicateGCPs demo_objects)
    as [_ H].
  eexists _, _, _, _.
  refine ((fun H' => conj (proj1 H' (Some "WGS84"%string) _)
                          (proj2 H' (Some [1%nat; 2%nat]) 2 _ _))
            (H 42%nat _ _ _ _ _ _ _ _));
    [by_computation..].
Defined.

Lemma X20_witness :
  exists d1 st1 c e,
    GDALProxyPoolDataset_GetMetadata (recDriver steady_world) demo_source
      demo_CPLStrdupO demo_CSLDuplicate demo_CPLHashSetInsert None
      demo_objects =
      Ok (Some ["AREA_OR_POINT=Area"%string],
          with_proxy
            (ProxyDataset.set_metadataSet
               (Some [ {| elt_pszDomain := None;
                          elt_papszMetadata :=
                            Some ["AREA_OR_POINT=Area"%string] |} ])
               (ProxyDataset.set_core d1 (proxy demo_objects)))
            (with_process (released c e st1) demo_objects)) /\
    GDALProxyPoolDataset_GetMetadataItem (recDriver steady_world) demo_source
      demo_CPLStrdupO demo_CPLHashSetInsert (Some "AREA_OR_POINT"%string) None
      demo_objects =
      Ok (Some "Area"%string,
          with_proxy
            (ProxyDataset.set_metadataItemSet
               (Some [ {| item_pszName := Some "AREA_OR_POINT"%string;
                          item_pszDomain := None;
                          item_pszMetadataItem := Some "Area"%string |} ])
               (ProxyDataset.set_core d1 (proxy demo_objects)))
            (with_process (released c e st1) demo_objects)).
Proof.
  destruct (X20_dataset_metadata_asks_every_time (recDriver steady_world)
              demo_source demo_CPLStrdupO demo_CSLDuplicate
              demo_CPLHashSetInsert demo_CPLHashSetInsert demo_objects)
    as [_ H].
  eexists _, _, _, _.
  refine ((fun H' =>
             conj (proj1 H' None (Some ["AREA_OR_POINT=Area"%string]) _)
                  (proj2 H' (Some "AREA_OR_POINT"%string) None
                     (Some "Area"%string) _))
            (H 42%nat _ _ _ _ _ _ _ _));
    [by_computation..].
Defined.

Lemma demo_string_callbacks_agree a b :
  demo_CPLHashSetEqualStr a b <> 0 ->
  demo_CPLHashSetHashStr a = demo_CPLHashSetHashStr b.
Proof.
  unfold demo_CPLHashSetEqualStr. case_bool_decide as H; [by subst|done].
Defined.

Lemma X21_witness :
  (forall e1 e2,
     equal_func_get_metadata demo_CPLHashSetEqualStr e1 e2 <> 0 ->
     hash_func_get_metadata demo_CPLHashSetHashStr e1
       = hash_func_get_metadata demo_CPLHashSetHashStr e2) /\
  (forall e1 e2,
     equal_func_get_metadata_item demo_CPLHashSetEqualStr e1 e2 <> 0 ->
     hash_func_get_metadata_item demo_CPLHashSetHashStr e1
       = hash_func_get_metadata_item demo_CPLHashSetHashStr e2).
Proof.
  apply (X21_metadata_callbacks_agree demo_CPLHashSetHashStr
           demo_CPLHashSetEqualStr).
  apply demo_string_callbacks_agree.
Defined.

Lemma X22_witness :
  exists d1 st1 c e,
    RefUnderlyingDataset (recDriver steady_world) demo_proxy fresh_state
      = Ok ((Some 42%nat, d1), st1) /\
    RefUnderlyingRasterBand (recDriver steady_world) demo_source 1 0%nat
      demo_objects = Ok (Some 50%nat, referenced d1 st1 demo_objects) /\
    UnrefUnderlyingRasterBand demo_source 1 0%nat (Some 50%nat)
      (referenced d1 st1 demo_objects) =
      Ok (tt, referenced d1 (released c e st1) demo_objects).
Proof.
  eexists _, _, _, _. split; [vm_compute; reflexivity|].
  refine (proj2 (X22_plain_band_reference (recDriver steady_world) demo_source
                   0 demo_objects 0%nat demo_band 42%nat _ _ _ _ _ _ _ _ _ _)
            50%nat _ _);
    [by_computation..].
Defined.

Lemma X23_witness :
  exists d1 st1,
    RefUnderlyingDataset (recDriver steady_world) demo_proxy fresh_state
      = Ok ((Some 42%nat, d1), st1) /\
    RefUnderlyingRasterBand (recDriver steady_world) demo_source 2 1%nat
      missing_overview_objects =
      Ok (None, holding 1%nat 50%nat (referenced d1 st1 missing_overview_objects)) /\
    GetUnitType (recDriver steady_world) demo_source demo_CPLStrdupO 2 1%nat
      missing_overview_objects =
      Ok (None, holding 1%nat 50%nat (referenced d1 st1 missing_overview_objects)) /\
    refCount_at
      (process (holding 1%nat 50%nat
                  (referenced d1 st1 missing_overview_objects))) 0%nat = Some 1.
Proof.
  eexists _, _. split; [vm_compute; reflexivity|].
  edestruct (X23_overview_band_keeps_its_reference (recDriver steady_world)
               demo_source demo_CPLStrdupO 0 missing_overview_objects
               1%nat 0%nat)
    with (hDS := 42%nat) (c := 0%nat) (u := 50%nat) (r := @None GDALRasterBandH)
    as (E1 & _ & E3); [by_computation..|].
  destruct (E3 eq_refl) as [E4 E5]. split_and!; [exact E1|exact E4|exact E5].
Defined.

Lemma X24_witness :
  exists d1 st1 c e,
    RefUnderlyingDataset (recDriver steady_world) demo_proxy fresh_state
      = Ok ((Some 42%nat, d1), st1) /\
    RefUnderlyingRasterBand (recDriver steady_world) demo_source 2 2%nat
      derived_objects =
      Ok (Some 60%nat, holding 2%nat 50%nat (referenced d1 st1 derived_objects)) /\
    forall r',
      UnrefUnderlyingRasterBand demo_source 2 2%nat r'
        (holding 2%nat 50%nat (referenced d1 st1 derived_objects)) =
      Ok (tt, handed_back 2%nat 50%nat
                (referenced d1 (released c e st1) derived_objects)).
Proof.
  eexists _, _, _, _. split; [vm_compute; reflexivity|].
  refine (X24_mask_band_reference (recDriver steady_world) demo_source 0
            derived_objects 2%nat 0%nat _ _ 42%nat _ _ _ _ 50%nat (Some 60%nat)
            _ _ _ _ _ _ _ _ _ _ _ _ _);
    [by_computation..].
Defined.

Lemma X25_witness :
  exists ov o',
    GetOverview (recDriver steady_world) demo_source 1 0%nat 1 demo_objects
      = Ok (Some ov, o') /\
    bands demo_objects !! ov = None /\
    bands o' !! ov =
      Some (new_band_members ProxyBand.GDALProxyPoolOverviewRasterBand
              1 1 5 5 5 1 (Some 0%nat) 1) /\
    (ProxyBand.papoProxyOverviewRasterBand <$> bands o' !! 0%nat)
      = Some [None; Some ov] /\
    GetOverview (recDriver closed_world) demo_source 0 0%nat 1 o'
      = Ok (Some ov, o').
Proof.
  edestruct (X25_GetOverview_creates_the_proxy_once (recDriver steady_world)
               demo_source 0 demo_objects 0%nat demo_band 42%nat)
    with (u := 50%nat) (n := 1) (ovh := 52%nat)
    as (ov & o' & E & Hnew & _ & Hov & Hb & _ & Hagain); [by_computation..|].
  exists ov, o'. split_and!; [exact E|exact Hnew|exact Hov| |apply Hagain].
  exact (f_equal (fmap ProxyBand.papoProxyOverviewRasterBand) Hb).
Defined.

Lemma X26_witness :
  exists d1 st1 c e,
    RefUnderlyingDataset (recDriver steady_world) demo_proxy fresh_state
      = Ok ((Some 42%nat, d1), st1) /\
    GetOverview (recDriver steady_world) demo_source 1 0%nat 5 demo_objects =
      Ok (None, referenced d1 (released c e st1) demo_objects) /\
    GetOverview (recDriver steady_world) demo_source 1 0%nat (-1) demo_objects =
      Ok (None, referenced d1 (released c e st1) demo_objects).
Proof.
  eexists _, _, _, _. split; [vm_compute; reflexivity|]. split.
  - refine (X26_GetOverview_without_overview (recDriver steady_world)
              demo_source 0 demo_objects 0%nat demo_band 42%nat _ _ _ _ 50%nat 5
              _ _ (or_intror (or_introl _)) _ _ _ _ _ _ _);
      [by_computation..].
  - refine (X26_GetOverview_without_overview (recDriver steady_world)
              demo_source 0 demo_objects 0%nat demo_band 42%nat _ _ _ _ 50%nat
              (-1) _ _ (or_introl _) _ _ _ _ _ _ _);
      [by_computation..].
Defined.

Lemma X27_witness :
  exists m o',
    AddSrcMaskBandDescription 0%nat 1 5 1 demo_objects = Ok (tt, o') /\
    bands demo_objects !! m = None /\
    bands o' !! m =
      Some (new_band_members ProxyBand.GDALProxyPoolMaskBand 1 1 10 10 5 1
              (Some 0%nat) 0) /\
    process o' = fresh_state /\
    GetMaskBand (recDriver closed_world) demo_source 0 0%nat o'
      = Ok (Some m, o').
Proof.
  destruct (X27_described_mask_band_is_served demo_objects 0%nat demo_band
              1 5 1) as (m & o' & E & Hnew & Hp & _ & Hm & _ & _ & Hget).
  - reflexivity.
  - reflexivity.
  - exists m, o'. split_and!; [exact E|exact Hnew|exact Hm|exact Hp|apply Hget].
Defined.

Lemma X28_witness :
  exists d1 st1 c e,
    GetUnitType (recDriver steady_world) demo_source demo_CPLStrdupO 1 0%nat
      demo_objects =
      Ok (Some "m"%string,
          with_bands
            (alter (ProxyBand.set_pszUnitType (Some "m"%string)) 0%nat
               (bands demo_objects))
            (referenced d1 (released c e st1) demo_objects)) /\
    GetCategoryNames (recDriver steady_world) demo_source demo_CSLDuplicate 1
      0%nat demo_objects =
      Ok (Some ["water"%string; "land"%string],
          with_bands
            (alter (ProxyBand.set_papszCategoryNames
                      (Some ["water"%string; "land"%string])) 0%nat
               (bands demo_objects))
            (referenced d1 (released c e st1) demo_objects)) /\
    GetColorTable (recDriver steady_world) demo_source 1 0%nat demo_objects =
      Ok (Some 3%nat,
          with_bands
            (alter (ProxyBand.set_poColorTable (Some 3%nat)) 0%nat
               (bands demo_objects))
            (referenced d1 (released c e st1) demo_objects)).
Proof.
  destruct (X28_band_getters_copy_and_release (recDriver steady_world)
              demo_source demo_CPLStrdupO demo_CSLDuplicate 0 demo_objects
              0%nat demo_band eq_refl eq_refl) as [_ H].
  eexists _, _, _, _.
  refine ((fun H' =>
             conj (proj1 H' (Some "m"%string) _)
               (conj (proj1 (proj2 H') (Some ["water"%string; "land"%string]) _)
                     (proj2 (proj2 H') (Some 3%nat) _)))
            (H 42%nat _ _ _ _ 50%nat _ _ _ _ _ _));
    [by_computation..].
Defined.

Lemma X29_witness :
  exists d1 st1 c e,
    GDALProxyPoolRasterBand_GetMetadata (recDriver steady_world) demo_source
      demo_CPLStrdupO demo_CSLDuplicate demo_CPLHashSetInsert 1 0%nat None
      demo_objects =
      Ok (Some ["STATISTICS_MINIMUM=0"%string],
          with_bands
            (alter (ProxyBand.set_metadataSet
                      (Some [ {| elt_pszDomain := None;
                                 elt_papszMetadata :=
                                   Some ["STATISTICS_MINIMUM=0"%string] |} ]))
               0%nat (bands demo_objects))
            (referenced d1 (released c e st1) demo_objects)).
Proof.
  eexists _, _, _, _.
  refine (X29_band_GetMetadata_asks_every_time (recDriver steady_world)
            demo_source demo_CPLStrdupO demo_CSLDuplicate demo_CPLHashSetInsert
            0 demo_objects 0%nat demo_band 42%nat _ _ _ _ 50%nat None
            (Some ["STATISTICS_MINIMUM=0"%string]) _ _ _ _ _ _ _ _ _);
    [by_computation..].
Defined.
